(* ===== verification/_CoqProject ===== *)
-Q . S2P
Prelude.v
GoStrings.v
Par.v
Types.v
Decoding.v
GoNumbers.v
Cache.v
GoRoutineMap.v
Api.v
Plugin.v
Snapshotter.v
Wait.v
CloudProvider.v
Ec2.v
AwsDevices.v
VolumePlugins.v
PluginContract.v
AwsVolumes.v
SecurityGroups.v
AwsElb.v
Cinder.v
Gce.v
OpenStackInstances.v
OpenStackRoutes.v
GceInstances.v
GceLB.v
GceL7.v
GceSetup.v
AwsRoutes.v
AwsCloud.v
AwsRetry.v
AwsSdk.v
OpenStackLB.v
OpenStackLBv1.v
OpenStackCloud.v
Examples.v
Reconciler.v
Populator.v
Controller.v
Provisioner.v
Commands.v
Lifecycle.v
StoredData.v
Refinement.v
EndToEnd.v
System.v
Liveness.v
