(* ===== verification/Prelude.v ===== *)
(** A model of the volume-snapshot controller (repository
    rootfs/volume-snapshot), with the theorems that make it correct.

    * The program

    Users create [VolumeSnapshot] objects in the Kubernetes API.  The
    controller ([cmd/snapshot-controller]) takes snapshots of the volumes with
    a plugin per volume type, records each in a [VolumeSnapshotData] object
    and binds the two; the provisioner ([cmd/snapshot-pv-provisioner]) makes
    volumes from snapshots.  The parts, and who calls whom:

    - the informer's events go to the handlers of the snapshot controller,
      which keep the desired state of the world; a populator compares that
      state with the informer's store;
    - the reconciler compares the desired state with the actual state of the
      world and asks the snapshotter to create or delete;
    - the snapshotter starts each operation in a goroutine of a map that runs
      at most one per name and makes a failed name wait;
    - an operation talks to the API server and to the plugin of the volume,
      and writes the actual state;
    - the plugins talk to the operating system or to a cloud provider.

    * The method

    A Go function that only computes is a Rocq function.  A function with
    effects is a tree of calls ([prog], below): a call of code outside the
    repository (API server, cloud service, file system, clock) is answered by
    the environment, so a theorem [always p Q []] holds for every answer of
    every call; [run] executes a tree in a given environment, for the
    theorems about servers that keep stated laws and for the examples.  A Go
    error is a value of [error], a pair of a value and an error is [res], and
    a panic is the tree [Crash].  Every tree is finite, so every function
    ends; the loops that the code bounds are recursive on their bound, and
    the one that it does not bound ([GetNext] of the device allocator) has
    fuel, with a theorem that the fuel used is enough.

    Log messages are left out.  Error texts are kept as format and operands.
    A mutex makes each method of the object it protects one call; between two
    calls others run ([System]).  Map iteration follows a parameter
    ([MapRange]): the theorems hold for every order.  Integers are [Z], with
    [wrap64] where the code can overflow.

    * The files

    Core:
    - [Prelude]: errors, trees, their executions, iteration, automation;
      [GoStrings]: the functions of [strings] and [strconv] the code uses;
      [GoNumbers]: floating-point numbers and [time.ParseDuration].
    - [Types]: pkg/apis/crd/v1/types.go and the fields used of Kubernetes
      objects; [Decoding]: its lists and its decoding.
    - [Cache]: pkg/controller/cache, the names and the two states.
    - [GoRoutineMap]: the vendored goroutine map and its backoff.
    - [Api]: the calls of the controller and the laws of an API server;
      [Plugin]: pkg/volume/interface.go, as a record and as calls.
    - [Snapshotter], [Reconciler], [Populator], [Controller]:
      pkg/controller/snapshotter, reconciler, populator, snapshot-controller.
    - [Provisioner]: cmd/snapshot-pv-provisioner; [Commands]: the main
      functions of both commands, NewClient and register.go.
    - [Wait]: the vendored polling loops and pkg/client/client.go.
    - [Lifecycle]: the operations against a lawful API server;
      [StoredData]: the data objects such a server holds between them.
    - [System]: the reconciler, the running operations and the writers of the
      desired state interleaved call by call, as a step relation;
      [Liveness]: its infinite fair executions.
    - [Refinement]: the operations on any registered plugins do what they do
      on plugin calls; [EndToEnd]: on the plugins and clouds of one node.

    Plugins and clouds:
    - [VolumePlugins]: pkg/volume/hostpath, aws_ebs, gce_pd, cinder, their
      helpers and [buildVolumePlugins]; [PluginContract]: what they promise.
    - [CloudProvider]: pkg/cloudprovider/plugins.go and cloud.go.
    - [Ec2]: the EC2 requests of providers/aws/aws.go with their paging, and
      tags.go; [AwsDevices]: device_allocator.go and the attaching map;
      [AwsVolumes]: volumes.go and the volumes, attachments, snapshots and
      instance look-ups of aws.go; [SecurityGroups]: sets_ippermissions.go
      and the security groups and subnets of aws.go; [AwsElb]:
      aws_loadbalancer.go and the LoadBalancer interface of aws.go;
      [AwsRoutes]: aws_routes.go and aws_instancegroups.go; [AwsCloud]:
      newAWSCloud, the instances and zones of aws.go, and regions.go;
      [AwsRetry]: retry_handler.go; [AwsSdk]: awsSDKProvider and
      awsSdkEC2 of aws.go, log_handler.go and aws_metrics.go.
    - [Cinder]: providers/openstack/openstack_volumes.go and
      openstack_snapshots.go; [OpenStackInstances]: the servers of
      openstack.go, openstack_instances.go and metadata.go;
      [OpenStackRoutes]: openstack_routes.go; [OpenStackLB] and
      [OpenStackLBv1]: openstack_loadbalancer.go, the types LbaasV2 (with
      the look-ups) and LbaasV1; [OpenStackCloud]: the configuration, the
      authentication and the interfaces of openstack.go.
    - Of providers/gce/gce.go, [Gce]: the disks, snapshots, operations and
      zones; [GceInstances]: the metadata server, instances, tags, routes and
      clusters; [GceLB]: balancers, firewalls, static addresses and health
      checks; [GceL7]: the resources of HTTP balancing and instance groups;
      [GceSetup]: newGCECloud, and token_source.go.  [Par]: the vendored
      goroutines of a balancer's deletion.

    [Examples] holds the concrete objects of the witnesses.

    * What the theorems show

    Safety of the running controller ([System]): one goroutine per operation
    name, both states keyed by their snapshots' names, every actual snapshot
    bound; and the run in which the reconciler dereferences nil.  Progress
    ([Liveness]): every started operation ends under a fair scheduler.
    The operations ([Snapshotter]): the order of the effects of a deletion
    and a creation, the conditions under which a snapshot becomes actual.
    The same, and the provisioning of a volume, down to the requests of the
    clouds ([EndToEnd]), as executions with the registered plugins are exactly
    those on plugin calls with each call expanded to its method
    ([operations_refine]).
    Their composition ([Lifecycle]): create, create again and delete a
    snapshot; [StoredData]: any sequence of operations keeps the stored
    objects well typed.  The loops ([Reconciler], [Populator], [Controller]):
    the difference of the states is what is started, and the handlers refine
    the informer's store.  The commands ([Commands]): what exists before the
    controller and the provisioner are started.  The goroutine map: when an
    operation starts, and the delays after failures.  The plugins ([PluginContract]) keep the
    contract the controller relies on.  The providers: which requests are
    made, in which order, and what is reported, on every branch, for the
    creation, attachment, description and deletion of disks and snapshots,
    for the making of the providers, for the delays between the requests of a
    region, for security groups, for routes and for
    load balancers (the members an
    update leaves, what is undone when a creation fails, the fate of the
    static address, the order of a deletion's goroutines); the bounds of
    their waiting loops; the invariant of the device names.  Where the code
    does not do what it says, the theorem states what it does.

    * Bounds

    [GetNext] has one unit of fuel per device and answers [None] when that is
    used up, which it is not ([GetNext_total]).
    The paging loops of EC2 have fuel in place of a bound on the number of
    pages, and the theorems cover every fuel; those of GCE read the 25 pages
    of [maxPages].  The polling of GCE operations
    has the 1200 ticks of its hour, that of the resource the 600 of its
    minute.  The components of a duration have the length of the text
    ([components_fuel]).

    * Not modelled

    The parsing of the flags and of the configuration files, which are
    arguments and calls; the construction of the clients of the cloud
    libraries and the requests these make; the generated deep copies, which
    are a call; other vendored packages. *)

From stdpp Require Export prelude strings gmap sorting.
From Stdlib Require Export Ascii ZArith.
From Stdlib Require Import Lia.

(** * Errors and outcomes of Go code *)

(** The reasons of [apierrors.StatusError] the program tells apart. *)
Inductive status_reason :=
| ReasonNotFound
| ReasonAlreadyExists
| ReasonConflict
| ReasonOther.

#[export] Instance status_reason_eq_dec : EqDecision status_reason.
Proof. solve_decision. Defined.

(** Error values.  [Errorf] is [fmt.Errorf] (and [errors.New], with no
    operand): the format string as the source has it and its operands.
    [FDump] stands for an operand printed with [%v] or [%#v] that is a
    structure: the text of a structure dump is not modelled. *)
Inductive error :=
| Errorf (format : string) (operands : list operand)
| StatusError (reason : status_reason) (message : string)
| AwsError (code message : string)
| GoogleError (code : Z) (message : string) (reasons : list string)
| UnexpectedResponseCode (actual : Z) (message : string)
| SystemError (message : string)
| ErrWaitTimeout
| AlreadyExistsError (operationName : string)
| ExponentialBackoffError (operationName : string) (lastError : option error)
                          (lastErrorTime durationBeforeRetry : Z)
| IgnoredError (reason : string)
| PanicError (message : string)
with operand :=
| FStr (s : string)
| FInt (z : Z)
| FErr (e : option error)
| FDump.

(** The pair [(T, error)] of a Go function that returns either a value or
    an error. *)
Inductive res (A : Type) :=
| Ok (a : A)
| Err (e : error).
Arguments Ok {A} a.
Arguments Err {A} e.

Definition is_ok {A} (r : res A) : bool :=
  match r with Ok _ => true | Err _ => false end.

Definition res_error {A} (r : res A) : option error :=
  match r with Ok _ => None | Err e => Some e end.

(** How a Go call ends: it returns, or it panics (a nil dereference, a
    failed type assertion, [glog.Fatalf]). *)
Inductive outcome (A : Type) :=
| Returned (a : A)
| Panicked (why : string).
Arguments Returned {A} a.
Arguments Panicked {A} why.

(** * Programs with effects *)

(** [prog E A] is a Go function body as a tree of calls to the outside
    world.  [E X] is the type of the calls that answer with an [X]; a call
    to code outside the repository (the API server, a cloud API, the file
    system, the clock) is such a call, so the answer is the environment's to
    choose. *)
Inductive prog (E : Type -> Type) (A : Type) : Type :=
| Done (a : A)
| Crash (why : string)
| Vis {X : Type} (e : E X) (k : X -> prog E A).
Arguments Done {E A} a.
Arguments Crash {E A} why.
Arguments Vis {E A X} e k.

Fixpoint bind {E A B} (p : prog E A) (f : A -> prog E B) : prog E B :=
  match p with
  | Done a => f a
  | Crash why => Crash why
  | Vis e k => Vis e (fun x => bind (k x) f)
  end.

(** A call of one signature inside a larger one. *)
Class SubE (F E : Type -> Type) := inject : forall X, F X -> E X.
Arguments inject {F E _ X} e.
#[export] Instance SubE_refl E : SubE E E | 10 := fun _ e => e.

Definition trigger {F E X} `{!SubE F E} (e : F X) : prog E X :=
  Vis (inject e) Done.

(** A program over one signature run as part of a larger one. *)
Fixpoint lift {F E A} `{!SubE F E} (p : prog F A) : prog E A :=
  match p with
  | Done a => Done a
  | Crash why => Crash why
  | Vis e k => Vis (inject e) (fun x => lift (k x))
  end.

(** [errk p f]: go on with [f] when [p] returns a value, return its error
    as it is otherwise ([if err != nil { return err }]). *)
Definition bind_ok {E A B} (p : prog E (res A)) (f : A -> prog E (res B)) : prog E (res B) :=
  bind p (fun r => match r with Ok a => f a | Err e => Done (Err e) end).

(** The same with the error wrapped ([return fmt.Errorf(..., err)]). *)
Definition bind_or {E A B} (p : prog E (res A)) (g : error -> error)
    (f : A -> prog E (res B)) : prog E (res B) :=
  bind p (fun r => match r with Ok a => f a | Err e => Done (Err (g e)) end).

(** [for _, x := range xs { f(x) }] *)
Fixpoint for_each {E A} (xs : list A) (f : A -> prog E unit) : prog E unit :=
  match xs with
  | [] => Done tt
  | x :: xs' => bind (f x) (fun _ => for_each xs' f)
  end.

(** A loop whose body may return from the function with an error. *)
Fixpoint fold_ok {E A S} (f : S -> A -> prog E (res S)) (xs : list A) (s : S) : prog E (res S) :=
  match xs with
  | [] => Done (Ok s)
  | x :: xs' =>
      bind (f s x) (fun r => match r with
                             | Ok s' => fold_ok f xs' s'
                             | Err e => Done (Err e)
                             end)
  end.

Declare Scope go_scope.
Delimit Scope go_scope with go.
Notation "'let!' x := p 'in' k" := (bind p (fun x => k))
  (at level 10, x binder, p at level 100, k at level 200) : go_scope.
Notation "'let?' x := p 'in' k" := (bind_ok p (fun x => k))
  (at level 10, x binder, p at level 100, k at level 200) : go_scope.
Notation "'let?' x := p 'else' g 'in' k" := (bind_or p g (fun x => k))
  (at level 10, x binder, p at level 100, g at level 100, k at level 200) : go_scope.
Open Scope go_scope.

Definition ok {E A} (a : A) : prog E (res A) := Done (Ok a).
Definition fail {E A} (e : error) : prog E (res A) := Done (Err e).

(** [errorf f xs] with only string operands. *)
Definition errorf (format : string) (xs : list string) : error := Errorf format (FStr <$> xs).

(** ** Executions *)

(** One call with the answer it got. *)
Inductive event (E : Type -> Type) : Type :=
| Event {X : Type} (e : E X) (x : X).
Arguments Event {E X} e x.

(** An environment that answers the calls, with a state of type [W]. *)
Definition handler (E : Type -> Type) (W : Type) := forall X, E X -> W -> X * W.

Fixpoint run {E W A} (h : handler E W) (p : prog E A) (w : W) : outcome A * W :=
  match p with
  | Done a => (Returned a, w)
  | Crash why => (Panicked why, w)
  | Vis e k => let '(x, w') := h _ e w in run h (k x) w'
  end.

(** The same execution, with the calls made and their answers, in order. *)
Fixpoint calls {E W A} (h : handler E W) (p : prog E A) (w : W) : list (event E) :=
  match p with
  | Done _ | Crash _ => []
  | Vis e k => let '(x, w') := h _ e w in Event e x :: calls h (k x) w'
  end.

(** [always p Q tr]: whatever the environment answers from now on, [p] ends
    with a list of calls (after those of [tr]) and an outcome that [Q]
    accepts. *)
Fixpoint always {E A} (p : prog E A) (Q : list (event E) -> outcome A -> Prop)
    (tr : list (event E)) : Prop :=
  match p with
  | Done a => Q tr (Returned a)
  | Crash why => Q tr (Panicked why)
  | Vis e k => forall x, always (k x) Q (tr ++ [Event e x])
  end.

(** [only P p]: every call [p] can make satisfies [P]. *)
Fixpoint only {E A} (P : forall X, E X -> Prop) (p : prog E A) : Prop :=
  match p with
  | Done _ | Crash _ => True
  | Vis e k => P _ e /\ forall x, only P (k x)
  end.

(** [along A P p]: every call [p] can make satisfies [P], as long as the
    answers satisfy [A]. *)
Fixpoint along {E A} (R : forall X, E X -> X -> Prop) (P : forall X, E X -> Prop)
    (p : prog E A) : Prop :=
  match p with
  | Done _ | Crash _ => True
  | Vis e k => P _ e /\ forall x, R _ e x -> along R P (k x)
  end.

Section executions.
Context {E : Type -> Type}.

Lemma bind_Done {A} (p : prog E A) Q tr :
  always (bind p Done) Q tr <-> always p Q tr.
Proof. revert tr; induction p as [a|why|X e k IH]; intros tr; cbn; try done. by setoid_rewrite IH. Qed.

Lemma along_bind {A B} R (P : forall X, E X -> Prop) (p : prog E A) (f : A -> prog E B) :
  along R P p -> (forall a, along R P (f a)) -> along R P (bind p f).
Proof.
  intros Hp Hf; induction p as [a|why|X e k IH]; simpl in *; [apply Hf|done|].
  destruct Hp as [He Hk]. split; [done|]. intros x Hx. by apply IH, Hk.
Qed.

Lemma along_for_each {A} R (P : forall X, E X -> Prop) (xs : list A) f :
  (forall x, along R P (f x)) -> along R P (for_each xs f).
Proof. intros Hf; induction xs as [|x xs IH]; cbn; [done|]. by apply along_bind. Qed.

Lemma only_bind {A B} (P : forall X, E X -> Prop) (p : prog E A) (f : A -> prog E B) :
  only P p -> (forall a, only P (f a)) -> only P (bind p f).
Proof.
  intros Hp Hf; induction p as [a|why|X e k IH]; simpl in *; [apply Hf|done|].
  destruct Hp as [He Hk]. split; [done|]. intros x. apply IH, Hk.
Qed.

Lemma only_bind_ok {A B} (P : forall X, E X -> Prop) (p : prog E (res A))
    (f : A -> prog E (res B)) :
  only P p -> (forall a, only P (f a)) -> only P (bind_ok p f).
Proof. intros Hp Hf. apply only_bind; [done|]. by intros [a|e]; cbn. Qed.

Lemma only_bind_or {A B} (P : forall X, E X -> Prop) (p : prog E (res A)) g
    (f : A -> prog E (res B)) :
  only P p -> (forall a, only P (f a)) -> only P (bind_or p g f).
Proof. intros Hp Hf. apply only_bind; [done|]. by intros [a|e]; cbn. Qed.

Lemma only_for_each {A} (P : forall X, E X -> Prop) (xs : list A) f :
  (forall x, x ∈ xs -> only P (f x)) -> only P (for_each xs f).
Proof.
  induction xs as [|x xs IH]; intros Hf; cbn; [done|].
  apply only_bind; [apply Hf; by left|]. intros _. apply IH. intros y Hy. apply Hf. by right.
Qed.

Lemma always_impl {A} (p : prog E A) (P Q : list (event E) -> outcome A -> Prop) tr :
  (forall tr' o, P tr' o -> Q tr' o) -> always p P tr -> always p Q tr.
Proof.
  intros HPQ; revert tr; induction p as [a|why|X e k IH]; intros tr; simpl; auto.
Qed.

Lemma always_true {A} (p : prog E A) tr : always p (fun _ _ => True) tr.
Proof. revert tr; induction p; intros tr; cbn; auto. Qed.

Lemma only_always {A} (P : forall X, E X -> Prop) (p : prog E A) tr :
  only P p ->
  always p (fun tr' _ => exists new, tr' = tr ++ new /\
                                     Forall (fun ev => match ev with Event e _ => P _ e end) new) tr.
Proof.
  revert tr; induction p as [a|why|X e k IH]; intros tr; simpl.
  - intros _. exists []. by rewrite app_nil_r.
  - intros _. exists []. by rewrite app_nil_r.
  - intros [He Hk] x. eapply always_impl; [|apply IH, Hk].
    intros tr' o (new & -> & Hnew). exists (Event e x :: new).
    rewrite <- app_assoc. split; [done|]. by constructor.
Qed.

Lemma run_bind {W A B} (h : handler E W) (p : prog E A) (f : A -> prog E B) w :
  run h (bind p f) w =
  match run h p w with
  | (Returned a, w') => run h (f a) w'
  | (Panicked why, w') => (Panicked why, w')
  end.
Proof.
  revert w; induction p as [a|why|X e k IH]; intros w; simpl; try done.
  destruct (h X e w) as [x w']. apply IH.
Qed.

Lemma calls_bind {W A B} (h : handler E W) (p : prog E A) (f : A -> prog E B) w :
  calls h (bind p f) w =
  calls h p w ++ match run h p w with
                 | (Returned a, w') => calls h (f a) w'
                 | (Panicked _, _) => []
                 end.
Proof.
  revert w; induction p as [a|why|X e k IH]; intros w; simpl; try done.
  destruct (h X e w) as [x w']. simpl. by rewrite IH.
Qed.

Lemma always_bind {A B} (p : prog E A) (f : A -> prog E B) Q tr :
  always (bind p f) Q tr <->
  always p (fun tr' o => match o with
                         | Returned a => always (f a) Q tr'
                         | Panicked why => Q tr' (Panicked why)
                         end) tr.
Proof.
  revert tr; induction p as [a|why|X e k IH]; intros tr; simpl; try done.
  split; intros H x; apply IH, H.
Qed.

Lemma always_and {A} (p : prog E A) (P Q : list (event E) -> outcome A -> Prop) tr :
  always p P tr -> always p Q tr -> always p (fun tr' o => P tr' o /\ Q tr' o) tr.
Proof.
  revert tr; induction p as [a|why|X e k IH]; intros tr; simpl; auto.
Qed.

(** A loop whose bodies either return or end as [Q] wants. *)
Lemma always_for_each {A} (xs : list A) (f : A -> prog E unit)
    (Q : list (event E) -> outcome unit -> Prop) tr :
  (forall x tr', always (f x) (fun tr o => match o with
                                           | Returned _ => True
                                           | Panicked _ => Q tr o
                                           end) tr') ->
  (forall tr', Q tr' (Returned tt)) ->
  always (for_each xs f) Q tr.
Proof.
  intros Hf Hend. revert tr; induction xs as [|x xs IH]; intros tr; cbn; [done|].
  apply always_bind. eapply always_impl; [|apply Hf]. intros tr' [a|why]; auto.
Qed.

Lemma always_app {A} (p : prog E A) Q tr0 tr :
  always p Q (tr0 ++ tr) <-> always p (fun tr' o => Q (tr0 ++ tr') o) tr.
Proof.
  revert tr; induction p as [a|why|X e k IH]; intros tr; simpl; try done.
  setoid_rewrite <- IH. setoid_rewrite app_assoc. done.
Qed.

(** A statement about the calls after [tr]. *)
Lemma always_extend {A} (p : prog E A) Q tr :
  always p (fun tr' o => Q (tr ++ tr') o) [] -> always p Q tr.
Proof. intros Hp%always_app. by rewrite app_nil_r in Hp. Qed.

(** What holds for every answer holds in every environment. *)
Lemma always_run {W A} (h : handler E W) (p : prog E A) Q tr w :
  always p Q tr -> Q (tr ++ calls h p w) (run h p w).1.
Proof.
  revert tr w; induction p as [a|why|X e k IH]; intros tr w; simpl;
    rewrite ?app_nil_r; auto.
  intros H. destruct (h X e w) as [x w']. simpl.
  specialize (IH x _ w' (H x)). by rewrite <- app_assoc in IH.
Qed.

(** A program has an execution in every environment: it never loops. *)
Lemma run_total {W A} (h : handler E W) (p : prog E A) w :
  (exists a w', run h p w = (Returned a, w')) \/ (exists why w', run h p w = (Panicked why, w')).
Proof. destruct (run h p w) as [[a|why] w']; eauto. Qed.
End executions.

(** The calls of a lifted program. *)
Lemma only_lift {F E A} `{!SubE F E} (P : forall X, E X -> Prop) (p : prog F A) :
  (forall X (e : F X), P X (inject e)) -> only P (lift p).
Proof. intros HP. induction p as [a|why|X e k IH]; cbn; auto. Qed.

(** [returns p]: no execution of [p] panics. *)
Fixpoint returns {E A} (p : prog E A) : Prop :=
  match p with
  | Done _ => True
  | Crash _ => False
  | Vis _ k => forall x, returns (k x)
  end.

Lemma returns_bind {E A B} (p : prog E A) (f : A -> prog E B) :
  returns p -> (forall a, returns (f a)) -> returns (bind p f).
Proof. intros Hp Hf. induction p; cbn in *; auto; done. Qed.

Lemma returns_lift {F E A} `{!SubE F E} (p : prog F A) : returns p -> returns (lift p).
Proof. induction p; cbn; auto. Qed.

Lemma returns_always {E A} (p : prog E A) tr :
  returns p -> always p (fun tr' o => exists a rest, o = Returned a /\ tr' = (tr ++ rest)%list) tr.
Proof.
  intros Hp. apply always_extend. generalize (@nil (event E)).
  induction p as [a|why|X e k IH]; cbn in *; [intros tr0; by exists a, tr0|done|].
  intros tr0 x. by apply IH.
Qed.

(** A program that cannot panic, run inside a larger one whose property does
    not depend on what it answers. *)
Lemma always_lift_safe {F E A B} `{!SubE F E} (p : prog F A) (f : A -> prog E B) Q tr :
  always p (fun _ o => match o with Returned _ => True | Panicked _ => False end) [] ->
  (forall a tr', always (f a) Q tr') ->
  always (bind (lift p) f) Q tr.
Proof.
  intros Hp Hf. revert tr. generalize (@nil (event F)) Hp. clear Hp.
  induction p as [a|why|X e k IH]; intros tr0 Hp tr; cbn in *; [apply Hf|done|].
  intros x. by eapply IH.
Qed.

(** ** Ghost state *)

(** [wp step p Q g]: from the ghost state [g], updated by [step] at every
    call, [p] ends with a ghost state and an outcome that [Q] accepts,
    whatever the environment answers. *)
Section ghost.
Context {E : Type -> Type} {G : Type} (step : G -> event E -> G).

Fixpoint wp {A} (p : prog E A) (Q : G -> outcome A -> Prop) (g : G) : Prop :=
  match p with
  | Done a => Q g (Returned a)
  | Crash why => Q g (Panicked why)
  | Vis e k => forall x, wp (k x) Q (step g (Event e x))
  end.

(** It is a property of every execution. *)
Lemma wp_always {A} (p : prog E A) Q g :
  wp p Q g <-> always p (fun tr o => Q (fold_left step tr g) o) [].
Proof.
  assert (forall tr g, wp p Q (fold_left step tr g) <->
                       always p (fun tr o => Q (fold_left step tr g) o) tr) as Hp;
    [|exact (Hp [] g)].
  clear g; induction p as [a|why|X e k IH]; intros tr g; cbn; [done..|].
  setoid_rewrite <- IH. setoid_rewrite fold_left_app. done.
Qed.

Lemma wp_impl {A} (p : prog E A) (P Q : G -> outcome A -> Prop) g :
  wp p P g -> (forall g' o, P g' o -> Q g' o) -> wp p Q g.
Proof. intros Hp HPQ. revert g Hp; induction p as [a|why|X e k IH]; cbn; eauto. Qed.

Lemma wp_bind {A B} (p : prog E A) (f : A -> prog E B) (Q : G -> outcome B -> Prop) g :
  wp (bind p f) Q g <->
  wp p (fun g' o => match o with
                    | Returned a => wp (f a) Q g'
                    | Panicked why => Q g' (Panicked why)
                    end) g.
Proof. revert g; induction p as [a|why|X e k IH]; intros g; cbn; [done..|]. by setoid_rewrite IH. Qed.

(** The rule of sequence: [P] is what [p] is known to do. *)
Lemma wp_seq {A B} (p : prog E A) (f : A -> prog E B) (P : G -> outcome A -> Prop) Q g :
  wp p P g ->
  (forall g' o, P g' o -> match o with
                          | Returned a => wp (f a) Q g'
                          | Panicked why => Q g' (Panicked why)
                          end) ->
  wp (bind p f) Q g.
Proof. intros Hp Hf. apply wp_bind. by eapply wp_impl. Qed.

(** Calls that leave the ghost state alone: what the program answers. *)
Lemma wp_quiet_always {A} (P : forall X, E X -> Prop) (p : prog E A) (Q : G -> outcome A -> Prop) tr g :
  (forall X (e : E X) x g', P X e -> step g' (Event e x) = g') ->
  only P p -> always p (fun _ o => Q g o) tr -> wp p Q g.
Proof.
  intros Hstep Hp. revert tr; induction p as [a|why|X e k IH]; intros tr; cbn in *; [done..|].
  intros HQ x. rewrite Hstep by apply Hp. eapply IH; [apply Hp|apply HQ].
Qed.

Lemma wp_quiet {A} (P : forall X, E X -> Prop) (p : prog E A) (Q : G -> outcome A -> Prop) g :
  (forall X (e : E X) x g', P X e -> step g' (Event e x) = g') ->
  only P p -> (forall o, Q g o) -> wp p Q g.
Proof.
  intros Hstep Hp HQ. apply (wp_quiet_always P p Q []); [done..|].
  eapply always_impl; [|apply always_true]. auto.
Qed.

(** A program none of whose calls counts. *)
Lemma wp_ignore {A} (p : prog E A) (Q : G -> outcome A -> Prop) tr g :
  (forall g' ev, step g' ev = g') -> always p (fun _ o => Q g o) tr -> wp p Q g.
Proof.
  intros Hstep. apply (wp_quiet_always (fun _ _ => True)); [done|].
  clear Q. induction p; cbn; auto.
Qed.

(** A loop keeps what its body keeps. *)
Lemma wp_fold_ok {A S} (f : S -> A -> prog E (res S)) (I : list A -> S -> G -> Prop)
    (Q : G -> outcome (res S) -> Prop) xs s g :
  (forall done_ x s g, I done_ s g ->
     wp (f s x) (fun g' o => match o with
                             | Returned (Ok s') => I (done_ ++ [x]) s' g'
                             | _ => Q g' o
                             end) g) ->
  (forall s g, I xs s g -> Q g (Returned (Ok s))) ->
  I [] s g -> wp (fold_ok f xs s) Q g.
Proof.
  intros Hf. enough (forall done_ s g, (forall s g, I (done_ ++ xs) s g -> Q g (Returned (Ok s))) ->
    I done_ s g -> wp (fold_ok f xs s) Q g) as Hl by exact (Hl [] s g).
  clear s g; induction xs as [|x xs IH]; intros done_ s g Hend HI; cbn.
  - apply Hend. by rewrite app_nil_r.
  - eapply wp_seq; [by apply Hf|]. intros g' [[s'|e]|why]; cbn; [|done..]. intros HI'.
    apply (IH (done_ ++ [x])); [|done]. by rewrite <- app_assoc.
Qed.
End ghost.

(** A program over a smaller signature: the step at its calls. *)
Lemma wp_lift {F E A G} `{!SubE F E} (step : G -> event E -> G) (p : prog F A) Q g :
  wp step (lift p) Q g <->
  wp (fun g ev => match ev with Event e x => step g (Event (inject e) x) end) p Q g.
Proof. revert g; induction p as [a|why|X e k IH]; intros g; cbn; [done..|]. by setoid_rewrite IH. Qed.

(** The calls of a lifted program in the larger one. *)
Definition lift_event {F E} `{!SubE F E} (ev : event F) : event E :=
  match ev with Event e x => Event (inject e) x end.

Lemma always_lift {F E A} `{!SubE F E} (p : prog F A) (Q : list (event E) -> outcome A -> Prop) :
  always p (fun tr o => Q (lift_event <$> tr) o) [] -> always (lift p) Q [].
Proof.
  enough (forall tr, always p (fun tr o => Q (lift_event <$> tr) o) tr ->
                     always (lift p) Q (lift_event <$> tr)) as Hl by exact (Hl []).
  induction p as [a|why|X e k IH]; intros tr; cbn; [done..|]. intros Hk x.
  specialize (IH x _ (Hk x)). by rewrite fmap_app in IH.
Qed.

(** [exec p tr o]: [p] can make the calls [tr], answered as in [tr], and then
    end with [o]. *)
Fixpoint exec {E A} (p : prog E A) (tr : list (event E)) (o : outcome A) : Prop :=
  match p with
  | Done a => tr = [] /\ o = Returned a
  | Crash why => tr = [] /\ o = Panicked why
  | Vis e k => exists x rest, tr = Event e x :: rest /\ exec (k x) rest o
  end.

Section exec.
Context {E : Type -> Type}.

Lemma always_exec {A} (p : prog E A) Q tr o : always p Q [] -> exec p tr o -> Q tr o.
Proof.
  intros Hp He. apply (always_app p Q [] []) in Hp. revert Q tr Hp He.
  induction p as [a|why|X e k IH]; intros Q tr Hp He; cbn in *.
  - by destruct He as [-> ->].
  - by destruct He as [-> ->].
  - destruct He as (x & rest & -> & He).
    apply (IH x (fun tr o => Q (Event e x :: tr) o) rest); [|done].
    by apply (always_app (k x) Q [Event e x] []).
Qed.

Lemma exec_always {A} (p : prog E A) Q tr :
  (forall rest o, exec p rest o -> Q (tr ++ rest) o) -> always p Q tr.
Proof.
  revert tr; induction p as [a|why|X e k IH]; intros tr HQ; cbn.
  - rewrite <- (app_nil_r tr). by apply HQ.
  - rewrite <- (app_nil_r tr). by apply HQ.
  - intros x. apply IH. intros rest o He. rewrite <- app_assoc. apply HQ. cbn. eauto.
Qed.

(** A program that goes on with the result of another: what the first can do,
    and then the rest. *)
Lemma exec_then {A B} (p : prog E A) (f : A -> prog E B) Q tr :
  (forall first a, exec p first (Returned a) -> always (f a) Q (tr ++ first)) ->
  (forall first why, exec p first (Panicked why) -> Q (tr ++ first) (Panicked why)) ->
  always (bind p f) Q tr.
Proof. intros Hf Hpanic. apply always_bind, exec_always. intros first [a|why]; auto. Qed.

Lemma exec_bind {A B} (p : prog E A) (f : A -> prog E B) tr o :
  exec (bind p f) tr o <->
  (exists why, exec p tr (Panicked why) /\ o = Panicked why) \/
  (exists a first rest, tr = (first ++ rest)%list /\ exec p first (Returned a) /\ exec (f a) rest o).
Proof.
  revert tr. induction p as [a|why|X e k IH]; intros tr; cbn.
  - split.
    + intros He. right. by exists a, [], tr.
    + intros [(why & [_ [=]] & _)|(a' & first & rest & -> & [-> [= ->]] & He)]. done.
  - split.
    + intros [-> ->]. left. by exists why.
    + intros [(why' & [-> [= ->]] & ->)|(a & first & rest & _ & [_ [=]] & _)]. done.
  - split.
    + intros (x & rest & -> & He). apply IH in He as [(why & He & ->)|(a & l & r & -> & He & Hf)].
      * left. exists why. split; [|done]. eauto.
      * right. exists a, (Event e x :: l), r. split_and!; [done| |done]. eauto.
    + intros [(why & (x & rest & -> & He) & ->)|(a & l & r & -> & (x & rest & -> & He) & Hf)].
      * exists x, rest. split; [done|]. apply IH. left. eauto.
      * exists x, (rest ++ r)%list. split; [done|]. apply IH. right. by exists a, rest, r.
Qed.

Lemma exec_lift {F A} `{!SubE F E} (p : prog F A) tr o :
  exec (lift p) tr o <-> exists inner, tr = lift_event <$> inner /\ exec p inner o.
Proof.
  revert tr. induction p as [a|why|X e k IH]; intros tr; cbn.
  - split; [intros [-> ->]; by exists []|by intros (inner & -> & -> & ->)].
  - split; [intros [-> ->]; by exists []|by intros (inner & -> & -> & ->)].
  - split.
    + intros (x & rest & -> & He). apply IH in He as (inner & -> & He).
      exists (Event e x :: inner). split; [done|]. eauto.
    + intros (inner & -> & x & rest & -> & He). exists x, (lift_event <$> rest). split; [done|].
      apply IH. eauto.
Qed.
End exec.

(** The answers to [n] requests that are made one after the other until one is
    refused: all of them were accepted, or the last was the first refused. *)
Definition until_refused (n : nat) (answers : list (option error)) (refusal : option error) : Prop :=
  match refusal with
  | None => answers = replicate n None
  | Some e => exists k, k < n /\ answers = (replicate k None ++ [Some e])%list
  end.

Lemma until_refused_app n m answers answers' refusal :
  until_refused n answers None -> until_refused m answers' refusal ->
  until_refused (n + m) (answers ++ answers') refusal.
Proof.
  cbn. intros ->. destruct refusal as [e|]; cbn.
  - intros (k & Hk & ->). exists (n + k). split; [lia|]. by rewrite app_assoc, <- replicate_add.
  - intros ->. by rewrite replicate_add.
Qed.

Lemma until_refused_weaken n m answers e :
  until_refused n answers (Some e) -> until_refused (n + m) answers (Some e).
Proof. intros (k & Hk & ->). exists k. split; [lia|done]. Qed.

Lemma until_refused_length n answers refusal :
  until_refused n answers refusal -> length answers <= n.
Proof.
  destruct refusal as [e|]; cbn; [intros (k & Hk & ->)|intros ->];
    rewrite ?length_app, length_replicate; cbn; lia.
Qed.

(** * Invariants of step relations *)

(** What holds at the start and is kept by every step holds in every
    reachable state. *)
Lemma rtc_invariant {S} (R : relation S) (I : S -> Prop) (x y : S) :
  I x -> (forall a b, I a -> R a b -> I b) -> rtc R x y -> I y.
Proof. intros Hx Hstep Hxy. induction Hxy as [|a b c Hab _ IH]; eauto. Qed.

(** * Machine integers *)

Definition min_int64 : Z := -9223372036854775808.
Definition max_int64 : Z := 9223372036854775807.

(** The value of an [int64] (or, on the 64-bit platforms the program is
    built for, an [int]) after wrap-around. *)
Definition wrap64 (z : Z) : Z := ((z + 2 ^ 63) mod 2 ^ 64 - 2 ^ 63)%Z.

Definition int64_range (z : Z) : Prop := (min_int64 <= z <= max_int64)%Z.

Lemma wrap64_id z : int64_range z -> wrap64 z = z.
Proof. unfold wrap64, int64_range, min_int64, max_int64. intros H. rewrite Z.mod_small; lia. Qed.

Lemma wrap64_range z : int64_range (wrap64 z).
Proof.
  unfold wrap64, int64_range, min_int64, max_int64.
  pose proof (Z.mod_pos_bound (z + 2 ^ 63) (2 ^ 64)). lia.
Qed.

Lemma wrap64_sub a b : wrap64 (wrap64 a - b) = wrap64 (a - b).
Proof.
  unfold wrap64.
  replace ((a + 2 ^ 63) mod 2 ^ 64 - 2 ^ 63 - b + 2 ^ 63)%Z
    with ((a + 2 ^ 63) mod 2 ^ 64 - b)%Z by lia.
  rewrite Zminus_mod_idemp_l. do 2 f_equal. lia.
Qed.

(** One overflow. *)
Lemma wrap64_over z : (max_int64 < z <= max_int64 + 2 ^ 64)%Z -> wrap64 z = (z - 2 ^ 64)%Z.
Proof.
  unfold wrap64, max_int64. intros Hz.
  rewrite <- (Z.mod_add _ (-1)) by lia. rewrite Z.mod_small; lia.
Qed.

(** * Time *)

(** A [time.Time] is a number of nanoseconds since the Unix epoch; the zero
    [time.Time] is the first instant of the year 1.  [time.Since] saturates
    at the ends of the [time.Duration] range. *)
Definition Nanosecond : Z := 1.
Definition Millisecond : Z := 1000000.
Definition Second : Z := 1000000000.
Definition Minute : Z := 60000000000.
Definition zero_Time : Z := -62135596800000000000.

Definition Since (now t : Z) : Z := Z.max min_int64 (Z.min max_int64 (now - t)).

(** * Iteration over Go maps *)

(** Go visits the entries of a map in an order of its own choosing.  [range]
    is that choice, the same for equal maps; every result below holds for
    every choice. *)
Class MapRange := {
  range : forall {V : Type}, gmap string V -> list (string * V);
  range_perm : forall {V : Type} (m : gmap string V), range m ≡ₚ map_to_list m;
}.

(** The order used by the concrete examples. *)
Definition map_range_sorted : MapRange :=
  {| range V m := map_to_list m; range_perm V m := Permutation_refl _ |}.

Section map_range.
Context `{MapRange} {V : Type}.
Implicit Types m : gmap string V.

Lemma elem_of_range m k v : (k, v) ∈ range m <-> m !! k = Some v.
Proof. by rewrite range_perm, elem_of_map_to_list. Qed.

Lemma range_NoDup m : NoDup (range m).*1.
Proof. rewrite range_perm. apply NoDup_fst_map_to_list. Qed.

Lemma range_empty : range (∅ : gmap string V) = [].
Proof.
  apply Permutation_nil_r. rewrite range_perm. by rewrite map_to_list_empty.
Qed.

Lemma length_range m : length (range m) = size m.
Proof. by rewrite range_perm, length_map_to_list. Qed.
End map_range.

(** The elements of a Go set as [range] visits them. *)
Definition range_set `{MapRange} (s : gset string) : list string := (range (gset_to_gmap tt s)).*1.

Lemma elem_of_range_set `{MapRange} (s : gset string) : list_to_set (range_set s) = s.
Proof.
  unfold range_set. apply set_eq. intros x. rewrite elem_of_list_to_set, list_elem_of_fmap. split.
  - intros ([k []] & -> & Hk%elem_of_range). by apply lookup_gset_to_gmap_Some in Hk as [Hk _].
  - intros Hx. exists (x, tt). split; [done|]. apply elem_of_range. by apply lookup_gset_to_gmap_Some.
Qed.

Lemma list_to_map_range `{MapRange} {V} (m : gmap string V) :
  list_to_map (range m) = m.
Proof.
  transitivity (list_to_map (map_to_list m) : gmap string V); [|apply list_to_map_to_list].
  apply list_to_map_proper; [apply range_NoDup | apply range_perm].
Qed.

(** Copying the entries of a map into another one, one by one. *)
Lemma fold_insert_range `{MapRange} {V} (m acc : gmap string V) :
  fold_left (fun c '(k, v) => <[k := v]> c) (range m) acc = m ∪ acc.
Proof.
  assert (forall (l : list (string * V)) (acc : gmap string V), NoDup l.*1 ->
            fold_left (fun c '(k, v) => <[k := v]> c) l acc = list_to_map l ∪ acc) as Hfold.
  { clear. induction l as [|[k v] l IH]; intros acc Hnd; cbn; [by rewrite (left_id_L ∅ (∪) acc)|].
    apply NoDup_cons in Hnd as [Hk Hnd]. rewrite IH by done.
    rewrite <- insert_union_r by (by apply not_elem_of_list_to_map_1). by rewrite insert_union_l. }
  rewrite Hfold by apply range_NoDup. by rewrite list_to_map_range.
Qed.

(** * Observations on the calls made *)

(** [guarded Q P tr]: no event that satisfies [P] comes before the first one
    that satisfies [Q]. *)
Fixpoint guarded {T} (Q P : T -> bool) (tr : list T) : bool :=
  match tr with
  | [] => true
  | ev :: tr' => if Q ev then true else negb (P ev) && guarded Q P tr'
  end.

(** The number of events that satisfy [P]. *)
Fixpoint count {T} (P : T -> bool) (tr : list T) : nat :=
  match tr with
  | [] => 0
  | ev :: tr' => (if P ev then 1 else 0) + count P tr'
  end.

Lemma count_app {T} (P : T -> bool) tr tr' : count P (tr ++ tr') = count P tr + count P tr'.
Proof. induction tr as [|ev tr IH]; cbn; [done|]. rewrite IH. by destruct (P ev). Qed.

(** * Lists *)

Lemma list_bind_assoc {A B C} (f : A -> list B) (g : B -> list C) (l : list A) :
  (l ≫= f) ≫= g = l ≫= (fun x => f x ≫= g).
Proof. induction l as [|x l IH]; cbn; [done|]. by rewrite bind_app, IH. Qed.

Lemma filter_ext_in {A} (P Q : A -> Prop) `{forall x, Decision (P x), forall x, Decision (Q x)} (l : list A) :
  (forall x, x ∈ l -> P x <-> Q x) -> filter P l = filter Q l.
Proof.
  induction l as [|x l IH]; intros Hl; [done|]. rewrite !filter_cons.
  rewrite IH by (intros; apply Hl; by apply elem_of_cons; right).
  pose proof (Hl x (list_elem_of_here _ _)). repeat case_decide; tauto || done.
Qed.

Lemma NoDup_fmap_inj {A B} (f : A -> B) (l : list A) x y :
  NoDup (f <$> l) -> x ∈ l -> y ∈ l -> f x = f y -> x = y.
Proof.
  intros Hnd [i Hi]%list_elem_of_lookup [j Hj]%list_elem_of_lookup Hf.
  assert (i = j) as ->; [|congruence].
  apply (NoDup_lookup (f <$> l) i j (f x)); [done|by rewrite list_lookup_fmap, Hi|].
  by rewrite list_lookup_fmap, Hj, Hf.
Qed.

(** * Automation *)

Create HintDb go.
#[export] Hint Resolve elem_of_range range_NoDup wrap64_range : go.

(** Symbolic execution: unfold the combinators, take the answer of the next
    call, and split on the next test the code makes. *)
Ltac go_unfold := unfold bind_ok, bind_or, trigger, ok, fail in *.

Ltac go_split x :=
  lazymatch x with
  | context [match ?y with _ => _ end] => go_split y
  | bool_decide ?P => case_bool_decide
  | _ => destruct x eqn:?
  end.

(** Extended by the components with the facts of their own lookups. *)
Ltac go_hook := fail.

Ltac go_step :=
  match goal with
  | _ => progress go_hook
  | |- forall _, always _ _ _ => intros ?
  | |- forall _ _, always _ _ _ => intros ?
  | |- forall _ _ _, always _ _ _ => intros ?
  | |- forall _ _ _ _, always _ _ _ => intros ?
  | |- always (match ?x with _ => _ end) _ _ => go_split x
  | |- always (bind (match ?x with _ => _ end) _) _ _ => go_split x
  | |- always (bind (bind (match ?x with _ => _ end) _) _) _ _ => go_split x
  | |- always (bind (bind (bind (match ?x with _ => _ end) _) _) _) _ _ => go_split x
  end.

Ltac go_exec := go_unfold; cbn; repeat (go_step; cbn).

(** The calls of a program, one by one; [only_leaf] ends with one of them. *)
Ltac only_leaf := done.
Ltac only_step :=
  match goal with
  | |- only _ (Done _) => exact I
  | |- only _ (Crash _) => exact I
  | |- only _ (Vis _ _) => split; [only_leaf|intros ?; cbn beta]
  | |- only _ (trigger _) => split; [only_leaf|intros ?; exact I]
  | |- only _ (bind _ _) => apply only_bind; [|intros ?; cbn beta]
  | |- only _ (bind_ok _ _) => apply only_bind_ok; [|intros ?; cbn beta]
  | |- only _ (bind_or _ _ _) => apply only_bind_or; [|intros ?; cbn beta]
  | |- only _ (lift _) => apply only_lift; intros ? ?; only_leaf
  | |- only _ (match ?x with _ => _ end) => go_split x
  | |- only _ (if ?x then _ else _) => go_split x
  | |- only _ (ok _) => exact I
  | |- only _ (fail _) => exact I
  end.
Ltac only_exec := repeat only_step.
