(* ===== verification/GoStrings.v ===== *)
(** Functions of Go's [strings] and [strconv] packages that the program
    calls, on byte strings.  [ToLower] is the ASCII part of the Go function:
    it leaves the bytes above 127 as they are. *)

From S2P Require Import Prelude.
From Stdlib Require Import Lia.

#[local] Open Scope string_scope.

(** [strings.HasPrefix(s, p)] *)
Fixpoint HasPrefix (s p : string) {struct p} : bool :=
  match p, s with
  | EmptyString, _ => true
  | String a p', String b s' => bool_decide (a = b) && HasPrefix s' p'
  | _, _ => false
  end.

(** [s[n:]] for [n <= len(s)]. *)
Fixpoint drop_bytes (n : nat) (s : string) : string :=
  match n, s with
  | O, _ => s
  | S n', String _ s' => drop_bytes n' s'
  | S _, EmptyString => ""
  end.

(** [s[:n]] for [n <= len(s)]. *)
Fixpoint take_bytes (n : nat) (s : string) : string :=
  match n, s with
  | O, _ => ""
  | S n', String a s' => String a (take_bytes n' s')
  | S _, EmptyString => ""
  end.

(** [strings.TrimPrefix(s, p)] *)
Definition TrimPrefix (s p : string) : string :=
  if HasPrefix s p then drop_bytes (String.length p) s else s.

(** [strings.Split(s, sep)] for a separator of one byte: always at least
    one part. *)
Fixpoint Split (s : string) (sep : ascii) : list string :=
  match s with
  | EmptyString => [""]
  | String a s' =>
      if bool_decide (a = sep) then "" :: Split s' sep
      else match Split s' sep with
           | part :: parts => String a part :: parts
           | [] => [String a ""]
           end
  end.

(** [strings.Contains(s, c)] for a string of one byte. *)
Fixpoint ContainsByte (s : string) (c : ascii) : bool :=
  match s with
  | EmptyString => false
  | String a s' => bool_decide (a = c) || ContainsByte s' c
  end.

(** [strings.LastIndex(s, c)] for a string of one byte; [None] is [-1]. *)
Fixpoint LastIndexByte (s : string) (c : ascii) : option nat :=
  match s with
  | EmptyString => None
  | String a s' =>
      match LastIndexByte s' c with
      | Some i => Some (S i)
      | None => if bool_decide (a = c) then Some O else None
      end
  end.

(** [strings.TrimLeft(s, c)] and [strings.Trim(s, c)] for a cutset of one
    byte. *)
Fixpoint TrimLeftByte (s : string) (c : ascii) : string :=
  match s with
  | String a s' => if bool_decide (a = c) then TrimLeftByte s' c else s
  | EmptyString => ""
  end.

Fixpoint TrimRightByte (s : string) (c : ascii) : string :=
  match s with
  | EmptyString => ""
  | String a s' =>
      match TrimRightByte s' c with
      | EmptyString => if bool_decide (a = c) then "" else String a ""
      | t => String a t
      end
  end.

Definition TrimByte (s : string) (c : ascii) : string :=
  TrimRightByte (TrimLeftByte s c) c.

(** [strings.Replace(s, c, "", -1)] for a string of one byte. *)
Fixpoint RemoveByte (s : string) (c : ascii) : string :=
  match s with
  | EmptyString => ""
  | String a s' => if bool_decide (a = c) then RemoveByte s' c else String a (RemoveByte s' c)
  end.

(** [strings.TrimSpace(s)], of the ASCII white space. *)
Definition is_space (a : ascii) : bool :=
  let n := nat_of_ascii a in bool_decide (n = 32) || bool_decide (9 <= n <= 13).

Fixpoint TrimSpaceLeft (s : string) : string :=
  match s with
  | String a s' => if is_space a then TrimSpaceLeft s' else s
  | EmptyString => ""
  end.

Fixpoint TrimSpaceRight (s : string) : string :=
  match s with
  | EmptyString => ""
  | String a s' =>
      match TrimSpaceRight s' with
      | EmptyString => if is_space a then "" else String a ""
      | t => String a t
      end
  end.

Definition TrimSpace (s : string) : string := TrimSpaceRight (TrimSpaceLeft s).

(** [strings.ToLower(s)] *)
Definition lower_byte (a : ascii) : ascii :=
  let n := nat_of_ascii a in
  if decide (65 <= n <= 90) then ascii_of_nat (n + 32) else a.

Fixpoint ToLower (s : string) : string :=
  match s with
  | EmptyString => ""
  | String a s' => String (lower_byte a) (ToLower s')
  end.

(** [strconv.ParseBool(s)] *)
Definition ParseBool (s : string) : option bool :=
  if bool_decide (s ∈ ["1"; "t"; "T"; "true"; "TRUE"; "True"]) then Some true
  else if bool_decide (s ∈ ["0"; "f"; "F"; "false"; "FALSE"; "False"]) then Some false
  else None.

(** [strconv.Atoi(s)]: an optional sign and at least one decimal digit;
    out of the range of [int] it fails. *)
Definition digit_of (a : ascii) : option Z :=
  let n := nat_of_ascii a in
  if decide (48 <= n <= 57) then Some (Z.of_nat n - 48)%Z else None.

Fixpoint parse_digits (s : string) (acc : Z) : option Z :=
  match s with
  | EmptyString => Some acc
  | String a s' =>
      match digit_of a with
      | Some d => parse_digits s' (10 * acc + d)
      | None => None
      end
  end.

Definition parse_unsigned (s : string) : option Z :=
  match s with EmptyString => None | _ => parse_digits s 0 end.

Definition Atoi (s : string) : option Z :=
  let parsed :=
    match s with
    | String "-" s' => Z.opp <$> parse_unsigned s'
    | String "+" s' => parse_unsigned s'
    | _ => parse_unsigned s
    end in
  z ← parsed; if decide (int64_range z) then Some z else None.

(** [sets.String.List]: sorted bytewise. *)
Definition string_le (a b : string) : Prop := String.leb a b = true.
#[export] Instance string_le_dec : RelDecision string_le.
Proof. intros a b. unfold string_le. exact _. Defined.
Definition set_List (s : gset string) : list string := merge_sort string_le (elements s).

(** * Facts *)

Lemma string_app_nil_l (s : string) : "" +:+ s = s.
Proof. reflexivity. Qed.

Lemma string_app_cons a (s t : string) : String a s +:+ t = String a (s +:+ t).
Proof. reflexivity. Qed.

Create Rewrite HintDb gostr.
#[export] Hint Rewrite string_app_nil_l string_app_cons : gostr.

Ltac gostr := repeat (progress (cbn; autorewrite with gostr)).

Lemma string_app_nil_r (s : string) : s +:+ "" = s.
Proof. induction s as [|a s IH]; gostr; [done|]. f_equal. exact IH. Qed.

Lemma string_app_assoc (s t u : string) : s +:+ (t +:+ u) = (s +:+ t) +:+ u.
Proof. induction s as [|a s IH]; gostr; [done|]. f_equal. exact IH. Qed.

Lemma string_length_app (s t : string) :
  String.length (s +:+ t) = String.length s + String.length t.
Proof. induction s as [|a s IH]; gostr; [done|]. f_equal. exact IH. Qed.

Lemma nonempty_length (s : string) : s <> "" -> String.length s <> 0.
Proof. by destruct s. Qed.

Lemma string_app_inj_l p (s t : string) : p +:+ s = p +:+ t -> s = t.
Proof. induction p as [|a p IH]; gostr; [done|]. intros [=]. by apply IH. Qed.

Lemma string_app_inj_r p (s t : string) : s +:+ p = t +:+ p -> s = t.
Proof.
  revert t; induction s as [|a s IH]; intros [|b t]; gostr; try done.
  - intros Heq. apply (f_equal String.length) in Heq. cbn in Heq.
    rewrite string_length_app in Heq. lia.
  - intros Heq. apply (f_equal String.length) in Heq. cbn in Heq.
    rewrite string_length_app in Heq. lia.
  - intros [= -> Heq]. f_equal. by apply IH.
Qed.

Lemma HasPrefix_spec s p : HasPrefix s p = true <-> exists t, s = p +:+ t.
Proof.
  revert s; induction p as [|a p IH]; intros s; cbn.
  - split; [intros _; by exists s | by intros _].
  - destruct s as [|b s]; [split; [done | intros [t Ht]; by rewrite string_app_cons in Ht]|].
    rewrite andb_true_iff, bool_decide_eq_true, IH. split.
    + intros [-> [t ->]]. by exists t.
    + intros [t Ht]. rewrite string_app_cons in Ht. injection Ht as -> ->. split; [done | by exists t].
Qed.

Lemma HasPrefix_app p t : HasPrefix (p +:+ t) p = true.
Proof. apply HasPrefix_spec. by exists t. Qed.

Lemma drop_bytes_app p t : drop_bytes (String.length p) (p +:+ t) = t.
Proof. induction p as [|a p IH]; gostr; done. Qed.

Lemma TrimPrefix_app p t : TrimPrefix (p +:+ t) p = t.
Proof.
  unfold TrimPrefix. assert (HasPrefix (p +:+ t) p = true) as ->
    by (apply HasPrefix_spec; by exists t).
  apply drop_bytes_app.
Qed.

Lemma take_bytes_length n s : String.length (take_bytes n s) = Nat.min n (String.length s).
Proof. revert s; induction n as [|n IH]; intros [|a s]; cbn; auto. Qed.

Lemma take_drop_bytes n s : take_bytes n s +:+ drop_bytes n s = s.
Proof. revert s; induction n as [|n IH]; intros [|a s]; gostr; auto. f_equal. apply IH. Qed.

Lemma Split_nonempty s sep : Split s sep <> [].
Proof.
  destruct s as [|a s]; cbn; [done|]. case_bool_decide; [done|].
  by destruct (Split s sep).
Qed.

(** A string without the separator is one part. *)
Lemma Split_without s sep : ContainsByte s sep = false -> Split s sep = [s].
Proof.
  induction s as [|a s IH]; cbn; [done|].
  rewrite orb_false_iff, bool_decide_eq_false. intros [Hne Hs].
  by rewrite bool_decide_eq_false_2, IH.
Qed.

Lemma Split_app_sep s t sep :
  ContainsByte s sep = false ->
  Split (s +:+ String sep t) sep = s :: Split t sep.
Proof.
  induction s as [|a s IH]; gostr.
  - by rewrite bool_decide_eq_true_2.
  - rewrite orb_false_iff, bool_decide_eq_false. intros [Hne Hs].
    rewrite bool_decide_eq_false_2, IH by done. done.
Qed.

(** The parts hold no separator, and there is one part more than there are
    separators. *)
Lemma Split_parts s sep part : part ∈ Split s sep -> ContainsByte part sep = false.
Proof.
  revert part; induction s as [|a s IH]; cbn; intros part.
  - by intros ->%list_elem_of_singleton.
  - case_bool_decide as Ha.
    + intros [->|H]%elem_of_cons; [done | by apply IH].
    + destruct (Split s sep) as [|p ps] eqn:Hsp.
      * intros ->%list_elem_of_singleton. cbn. by rewrite bool_decide_eq_false_2.
      * intros [->|H]%elem_of_cons; cbn.
        -- rewrite bool_decide_eq_false_2 by done. apply IH. set_solver.
        -- apply IH. set_solver.
Qed.

(** Joining the parts gives the string back. *)
Fixpoint Join (parts : list string) (sep : ascii) : string :=
  match parts with
  | [] => ""
  | [part] => part
  | part :: rest => part +:+ String sep (Join rest sep)
  end.

Lemma Join_Split s sep : Join (Split s sep) sep = s.
Proof.
  induction s as [|a s IH]; cbn; [done|]. case_bool_decide as Ha.
  - subst. pose proof (Split_nonempty s sep).
    destruct (Split s sep) as [|p ps]; [done|]. gostr. by rewrite <- IH.
  - pose proof (Split_nonempty s sep).
    destruct (Split s sep) as [|p [|q ps]]; [done | by rewrite <- IH |].
    rewrite <- IH. gostr. done.
Qed.

Lemma ContainsByte_app s t c :
  ContainsByte (s +:+ t) c = ContainsByte s c || ContainsByte t c.
Proof. induction s as [|a s IH]; gostr; [done|]. rewrite IH. by rewrite orb_assoc. Qed.

Lemma RemoveByte_without s c : ContainsByte (RemoveByte s c) c = false.
Proof.
  induction s as [|a s IH]; cbn; [done|]. case_bool_decide; [done|]. cbn.
  by rewrite bool_decide_eq_false_2.
Qed.

Lemma RemoveByte_length s c : String.length (RemoveByte s c) <= String.length s.
Proof. induction s as [|a s IH]; cbn; [lia|]. case_bool_decide; cbn; lia. Qed.

Lemma LastIndexByte_None s c : LastIndexByte s c = None <-> ContainsByte s c = false.
Proof.
  induction s as [|a s IH]; cbn; [done|].
  destruct (LastIndexByte s c) as [j|].
  - rewrite orb_false_iff. split; [done|]. intros [_ Hs]. by apply IH in Hs.
  - rewrite (proj1 IH eq_refl), orb_false_r. case_bool_decide; done.
Qed.

(** The text after the last separator holds none. *)
Lemma LastIndexByte_Some s c i :
  LastIndexByte s c = Some i ->
  i < String.length s /\ ContainsByte (drop_bytes (S i) s) c = false.
Proof.
  revert i; induction s as [|a s IH]; cbn; intros i; [done|].
  destruct (LastIndexByte s c) as [j|] eqn:Hj.
  - intros [= <-]. destruct (IH j eq_refl) as [Hlt Hno]. split; [lia|].
    destruct s as [|b s]; [cbn in Hlt; lia|]. exact Hno.
  - case_bool_decide; [|done]. intros [= <-]. split; [lia|]. cbn.
    by apply LastIndexByte_None.
Qed.

(** Cutting at the last separator. *)
Lemma LastIndexByte_sep p t c :
  ContainsByte t c = false -> LastIndexByte (p +:+ String c t) c = Some (String.length p).
Proof.
  intros Ht. induction p as [|a p IH]; gostr.
  - rewrite (proj2 (LastIndexByte_None t c) Ht). by rewrite bool_decide_eq_true_2.
  - by rewrite IH.
Qed.

Lemma drop_bytes_sep p t c : drop_bytes (S (String.length p)) (p +:+ String c t) = t.
Proof. induction p as [|a p IH]; gostr; done. Qed.

Lemma take_bytes_app p t : take_bytes (String.length p) (p +:+ t) = p.
Proof. induction p as [|a p IH]; gostr; [done|]. by rewrite IH. Qed.

Lemma ContainsByte_RemoveByte s c : ContainsByte (RemoveByte s c) c = false.
Proof.
  induction s as [|a s IH]; cbn; [done|]. case_bool_decide; [done|]. cbn.
  by rewrite bool_decide_eq_false_2.
Qed.

Lemma ContainsByte_take n s c : ContainsByte s c = false -> ContainsByte (take_bytes n s) c = false.
Proof.
  revert s; induction n as [|n IH]; intros [|a s]; cbn; try done.
  rewrite !orb_false_iff. intros [-> Hs]. auto.
Qed.
