(* ===== verification/Par.v ===== *)
(** Three goroutines that run to their ends: the vendored
    [AggregateGoroutines] of [k8s.io/apimachinery/pkg/util/errors].

    Which goroutine makes its next call is the environment's choice, asked
    for before every call, so that the executions are all the
    interleavings. *)

From S2P Require Import Prelude.

Inductive thread := T1 | T2 | T3.
Inductive SchedE : Type -> Type :=
| Choose : SchedE thread.

Section par.
Context {F E : Type -> Type} `{!SubE F E} `{!SubE SchedE E} {A : Type}.

(** The results, in the order in which the goroutines ended. *)
Definition note_done (p : prog F A) (results : list A) : list A :=
  match p with Done a => results ++ [a] | _ => results end.

(** The move of one goroutine, if it has one. *)
Definition moves (p : prog F A) : bool := match p with Done _ => false | _ => true end.

(** The one that moves: the choice, if it can, and the first that can
    otherwise. *)
Definition chosen (t : thread) (p1 p2 p3 : prog F A) : thread :=
  match t with
  | T1 => if moves p1 then T1 else if moves p2 then T2 else T3
  | T2 => if moves p2 then T2 else if moves p1 then T1 else T3
  | T3 => if moves p3 then T3 else if moves p1 then T1 else T2
  end.

Definition par_loop : prog F A -> prog F A -> prog F A -> list A -> prog E (list A) :=
  fix run1 (p1 : prog F A) :=
    fix run2 (p2 : prog F A) :=
      fix run3 (p3 : prog F A) (results : list A) : prog E (list A) :=
        if moves p1 || moves p2 || moves p3 then
          let! t := trigger Choose in
          match chosen t p1 p2 p3 with
          | T1 => match p1 with
                  | Vis e k => Vis (inject e) (fun x => run1 (k x) p2 p3 (note_done (k x) results))
                  | Crash why => Crash why
                  | Done _ => Done results
                  end
          | T2 => match p2 with
                  | Vis e k => Vis (inject e) (fun x => run2 (k x) p3 (note_done (k x) results))
                  | Crash why => Crash why
                  | Done _ => Done results
                  end
          | T3 => match p3 with
                  | Vis e k => Vis (inject e) (fun x => run3 (k x) (note_done (k x) results))
                  | Crash why => Crash why
                  | Done _ => Done results
                  end
          end
        else Done results.

Definition par (p1 p2 p3 : prog F A) : prog E (list A) :=
  par_loop p1 p2 p3 (note_done p3 (note_done p2 (note_done p1 []))).
End par.

(** * What the executions are *)

Section executions.
Context {F E : Type -> Type} `{!SubE F E} `{!SubE SchedE E}.

(** A list of calls that three lists are interleaved in. *)
Inductive interleaved : list (event E) -> list (event F) -> list (event F) -> list (event F) -> Prop :=
| interleaved_nil : interleaved [] [] [] []
| interleaved_choose t tr tr1 tr2 tr3 :
    interleaved tr tr1 tr2 tr3 -> interleaved (Event (inject Choose) t :: tr) tr1 tr2 tr3
| interleaved_1 {X} (e : F X) x tr tr1 tr2 tr3 :
    interleaved tr tr1 tr2 tr3 -> interleaved (Event (inject e) x :: tr) (Event e x :: tr1) tr2 tr3
| interleaved_2 {X} (e : F X) x tr tr1 tr2 tr3 :
    interleaved tr tr1 tr2 tr3 -> interleaved (Event (inject e) x :: tr) tr1 (Event e x :: tr2) tr3
| interleaved_3 {X} (e : F X) x tr tr1 tr2 tr3 :
    interleaved tr tr1 tr2 tr3 -> interleaved (Event (inject e) x :: tr) tr1 tr2 (Event e x :: tr3).

Context {A : Type}.
#[local] Abbreviation result := (list (event F) -> outcome A -> Prop).

(** A goroutine that still has to end adds its result; one that has ended
    has added it. *)
Definition adds (p : prog F A) (a : A) : list A := if moves p then [a] else [].
Definition ended_with (p : prog F A) (a : A) : Prop := match p with Done a' => a' = a | _ => True end.

(** An execution of the three: an interleaving of one execution of each. *)
Definition par_outcome (p1 p2 p3 : prog F A) (Q1 Q2 Q3 : result) (results : list A)
    (tr : list (event E)) (o : outcome (list A)) : Prop :=
  match o with
  | Returned l => exists tr1 tr2 tr3 a1 a2 a3, interleaved tr tr1 tr2 tr3 /\
      (Q1 tr1 (Returned a1) /\ ended_with p1 a1) /\ (Q2 tr2 (Returned a2) /\ ended_with p2 a2) /\
      (Q3 tr3 (Returned a3) /\ ended_with p3 a3) /\
      l ≡ₚ results ++ adds p1 a1 ++ adds p2 a2 ++ adds p3 a3
  | Panicked why => exists tr', Q1 tr' (Panicked why) \/ Q2 tr' (Panicked why) \/ Q3 tr' (Panicked why)
  end.

Definition par_good (p1 p2 p3 : prog F A) : Prop :=
  forall results Q1 Q2 Q3, always p1 Q1 [] -> always p2 Q2 [] -> always p3 Q3 [] ->
    always (par_loop (E:=E) p1 p2 p3 results) (par_outcome p1 p2 p3 Q1 Q2 Q3 results) [].

(** The moves of a goroutine. *)
Definition after_call (p : prog F A) (good : prog F A -> Prop) : Prop :=
  match p with Vis _ k => forall x, good (k x) | _ => True end.

Lemma note_adds (p : prog F A) results a : ended_with p a -> note_done p results ++ adds p a ≡ₚ results ++ [a].
Proof. destruct p as [a'|why|X e k]; cbn; [|done..]. intros ->. by rewrite app_nil_r. Qed.

Lemma perm_middle (r r' u a b v : list A) : r' ++ a ≡ₚ r ++ b -> r' ++ u ++ a ++ v ≡ₚ r ++ u ++ b ++ v.
Proof.
  intros Hr. rewrite (Permutation_app_swap_app u a v), (Permutation_app_swap_app u b v).
  by rewrite !(assoc_L (++) _ _ (u ++ v)), Hr.
Qed.

Lemma always_after {X} (e : F X) k x (Q : result) :
  always (Vis e k) Q [] -> always (k x) (fun tr o => Q (Event e x :: tr) o) [].
Proof. intros Hk. by apply (always_app (k x) Q [Event e x] []), Hk. Qed.

Lemma par_step p1 p2 p3 :
  after_call p1 (fun p1 => par_good p1 p2 p3) ->
  after_call p2 (fun p2 => par_good p1 p2 p3) ->
  after_call p3 (fun p3 => par_good p1 p2 p3) -> par_good p1 p2 p3.
Proof.
  intros H1 H2 H3 results Q1 Q2 Q3 HQ1 HQ2 HQ3.
  destruct (moves p1 || moves p2 || moves p3) eqn:Hmoves.
  2: { destruct p1 as [a1| |], p2 as [a2| |], p3 as [a3| |]; try done. cbn in *.
       exists [], [], [], a1, a2, a3. cbn. split_and!; [constructor|done..|by rewrite app_nil_r]. }
  assert (forall t, always (match chosen t p1 p2 p3 with
      | T1 => match p1 with
              | Vis e k => Vis (inject e) (fun x => par_loop (E:=E) (k x) p2 p3 (note_done (k x) results))
              | Crash why => Crash why | Done _ => Done results end
      | T2 => match p2 with
              | Vis e k => Vis (inject e) (fun x => par_loop (E:=E) p1 (k x) p3 (note_done (k x) results))
              | Crash why => Crash why | Done _ => Done results end
      | T3 => match p3 with
              | Vis e k => Vis (inject e) (fun x => par_loop (E:=E) p1 p2 (k x) (note_done (k x) results))
              | Crash why => Crash why | Done _ => Done results end
      end) (par_outcome p1 p2 p3 Q1 Q2 Q3 results) [Event (inject Choose) t]) as Hbody.
  2: { destruct p1, p2, p3; try done; exact Hbody. }
  intros t. assert (moves (match chosen t p1 p2 p3 with T1 => p1 | T2 => p2 | T3 => p3 end) = true) as Hchosen.
  { destruct t; cbn; destruct (moves p1) eqn:?, (moves p2) eqn:?, (moves p3) eqn:?; done. }
  destruct (chosen t p1 p2 p3).
  - destruct p1 as [a|why|X e k]; [done|cbn; eauto|]. intros x. apply always_extend.
    eapply always_impl; [|apply (H1 x _ _ _ _ (always_after _ _ _ _ HQ1) HQ2 HQ3)].
    intros tr [l|why]; cbn; [|naive_solver].
    intros (tr1 & tr2 & tr3 & a1 & a2 & a3 & Htr & [Ha1 He1] & [Ha2 He2] & [Ha3 He3] & Hl).
    exists (Event e x :: tr1), tr2, tr3, a1, a2, a3. split_and!;
      [by apply interleaved_choose, interleaved_1|done..|].
    rewrite Hl. by apply (perm_middle _ _ [] _ [a1]), note_adds.
  - destruct p2 as [a|why|X e k]; [done|cbn; eauto|]. intros x. apply always_extend.
    eapply always_impl; [|apply (H2 x _ _ _ _ HQ1 (always_after _ _ _ _ HQ2) HQ3)].
    intros tr [l|why]; cbn; [|naive_solver].
    intros (tr1 & tr2 & tr3 & a1 & a2 & a3 & Htr & [Ha1 He1] & [Ha2 He2] & [Ha3 He3] & Hl).
    exists tr1, (Event e x :: tr2), tr3, a1, a2, a3. split_and!;
      [by apply interleaved_choose, interleaved_2|done..|].
    rewrite Hl. by apply (perm_middle _ _ (adds p1 a1) _ [a2]), note_adds.
  - destruct p3 as [a|why|X e k]; [done|cbn; eauto|]. intros x. apply always_extend.
    eapply always_impl; [|apply (H3 x _ _ _ _ HQ1 HQ2 (always_after _ _ _ _ HQ3))].
    intros tr [l|why]; cbn; [|naive_solver].
    intros (tr1 & tr2 & tr3 & a1 & a2 & a3 & Htr & [Ha1 He1] & [Ha2 He2] & [Ha3 He3] & Hl).
    exists tr1, tr2, (Event e x :: tr3), a1, a2, a3. split_and!;
      [by apply interleaved_choose, interleaved_3|done..|].
    rewrite Hl. change (adds (Vis e k) a3) with [a3].
    pose proof (perm_middle results (note_done (k x) results) (adds p1 a1 ++ adds p2 a2)
                  (adds (k x) a3) [a3] [] (note_adds _ _ _ He3)) as Hm.
    by rewrite !app_nil_r, <- !(assoc_L (++)) in Hm.
Qed.

Lemma par_loop_good p1 p2 p3 : par_good p1 p2 p3.
Proof.
  revert p2 p3; induction p1 as [a1|why1|X1 e1 k1 IH1]; intros p2;
    induction p2 as [a2|why2|X2 e2 k2 IH2]; intros p3; induction p3 as [a3|why3|X3 e3 k3 IH3];
    apply par_step; cbn; auto.
Qed.

(** Every execution of the three goroutines is an interleaving of executions
    that each can have alone, and ends with the three results in some order;
    it panics when one of them does. *)
Lemma par_always p1 p2 p3 (Q1 Q2 Q3 : result) :
  always p1 Q1 [] -> always p2 Q2 [] -> always p3 Q3 [] ->
  always (par (E:=E) p1 p2 p3)
    (fun tr o =>
       match o with
       | Returned l => exists tr1 tr2 tr3 a1 a2 a3, interleaved tr tr1 tr2 tr3 /\
           Q1 tr1 (Returned a1) /\ Q2 tr2 (Returned a2) /\ Q3 tr3 (Returned a3) /\ l ≡ₚ [a1; a2; a3]
       | Panicked why => exists tr', Q1 tr' (Panicked why) \/ Q2 tr' (Panicked why) \/ Q3 tr' (Panicked why)
       end) [].
Proof.
  intros H1 H2 H3. eapply always_impl; [|by apply par_loop_good]. intros tr [l|why]; [|done].
  intros (tr1 & tr2 & tr3 & a1 & a2 & a3 & Htr & [Ha1 He1] & [Ha2 He2] & [Ha3 He3] & Hl).
  exists tr1, tr2, tr3, a1, a2, a3. split_and!; [done..|]. rewrite Hl. clear -He1 He2 He3.
  destruct p1, p2, p3; cbn in *; subst; done || solve_Permutation.
Qed.

(** [precedes Q P tr]: no call that satisfies [P] comes before the first one
    that satisfies [Q]. *)
Fixpoint precedes {T} (Q P : T -> Prop) (tr : list T) : Prop :=
  match tr with
  | [] => True
  | ev :: tr' => Q ev \/ (~ P ev /\ precedes Q P tr')
  end.

Lemma precedes_spec {T} (Q P : T -> Prop) before ev after :
  precedes Q P (before ++ ev :: after) -> P ev -> ~ Q ev -> exists ev', ev' ∈ before /\ Q ev'.
Proof.
  intros Hp HP HQ. induction before as [|ev' before IH]; cbn in Hp; [tauto|].
  destruct Hp as [Hq|[_ Hp]]; [exists ev'; split; [by left|done]|].
  destruct (IH Hp) as (ev2 & Hin & Hq). exists ev2. split; [by right|done].
Qed.

Lemma precedes_none {T} (Q P : T -> Prop) tr : Forall (fun ev => ~ P ev) tr -> precedes Q P tr.
Proof. induction 1; cbn; auto. Qed.

Lemma precedes_impl {T} (Q Q' P P' : T -> Prop) tr :
  (forall ev, Q ev -> Q' ev) -> (forall ev, P' ev -> P ev) -> precedes Q P tr -> precedes Q' P' tr.
Proof. intros HQ HP. induction tr as [|ev tr IH]; cbn; [done|]. intros [Hq|[Hp Hr]]; [left; auto|right; split; auto]. Qed.

(** An order that one goroutine keeps among its own calls is kept. *)
Lemma interleaved_precedes (P Q : event E -> Prop) tr tr1 tr2 tr3 :
  interleaved tr tr1 tr2 tr3 ->
  (forall t, ~ P (Event (inject Choose) t)) ->
  Forall (fun ev => ~ P (lift_event ev)) tr1 -> Forall (fun ev => ~ P (lift_event ev)) tr2 ->
  precedes (fun ev => Q (lift_event ev)) (fun ev => P (lift_event ev)) tr3 -> precedes Q P tr.
Proof.
  intros Htr Ht. induction Htr; cbn; intros H1 H2 H3; auto.
  - apply Forall_cons in H1 as [He H1]. auto.
  - apply Forall_cons in H2 as [He H2]. auto.
  - destruct H3 as [|[? ?]]; auto.
Qed.

(** What every call of each satisfies, and a call of one of them. *)
Lemma interleaved_Forall (P : event E -> Prop) tr tr1 tr2 tr3 :
  interleaved tr tr1 tr2 tr3 -> (forall t, P (Event (inject Choose) t)) ->
  Forall (fun ev => P (lift_event ev)) tr1 -> Forall (fun ev => P (lift_event ev)) tr2 ->
  Forall (fun ev => P (lift_event ev)) tr3 -> Forall P tr.
Proof.
  intros Htr Ht. induction Htr; intros H1 H2 H3; constructor; auto;
    try (apply IHHtr; try done); by repeat match goal with H : Forall _ (_ :: _) |- _ => apply Forall_cons in H as [? ?] end.
Qed.

Lemma interleaved_elem ev tr tr1 tr2 tr3 :
  interleaved tr tr1 tr2 tr3 -> ev ∈ tr1 ++ tr2 ++ tr3 -> lift_event ev ∈ tr.
Proof. intros Htr. induction Htr; rewrite ?elem_of_app, ?elem_of_cons in *; set_solver. Qed.
End executions.
