(* ===== verification/Types.v ===== *)
(** The API objects: [pkg/apis/crd/v1/types.go], and the fields the program
    uses of the Kubernetes objects it refers to (metadata, object references,
    persistent volumes and claims).  A Go pointer that may be nil is an
    [option], a [metav1.Time] a number of nanoseconds ([0] is the zero time),
    a nil map the empty map. *)

From S2P Require Import Prelude.

#[local] Open Scope string_scope.

(** * Kubernetes objects *)

Record TypeMeta := { Kind : string; APIVersion : string }.

Record ObjectMeta := {
  Name : string;
  Namespace : string;
  SelfLink : string;
  Labels : gmap string string;
  Annotations : gmap string string;
}.

Record ObjectReference := { ref_Kind : string; ref_Namespace : string; ref_Name : string }.

Record HostPathVolumeSource := { hp_Path : string }.
Record AWSElasticBlockStoreVolumeSource := {
  aws_VolumeID : string; aws_FSType : string; aws_Partition : Z; aws_ReadOnly : bool }.
Record GCEPersistentDiskVolumeSource := {
  gce_PDName : string; gce_FSType : string; gce_Partition : Z; gce_ReadOnly : bool }.
Record CinderVolumeSource := {
  cinder_VolumeID : string; cinder_FSType : string; cinder_ReadOnly : bool }.

(** [v1.PersistentVolumeSource]: of its fields, the four the program reads. *)
Record PersistentVolumeSource := {
  HostPath : option HostPathVolumeSource;
  AWSElasticBlockStore : option AWSElasticBlockStoreVolumeSource;
  GCEPersistentDisk : option GCEPersistentDiskVolumeSource;
  Cinder : option CinderVolumeSource;
}.

Record PersistentVolumeSpec := {
  Capacity : gmap string Z;
  pv_Source : PersistentVolumeSource;
  AccessModes : list string;
  PersistentVolumeReclaimPolicy : string;
}.

Record PersistentVolume := { pv_ObjectMeta : ObjectMeta; pv_Spec : PersistentVolumeSpec }.

(** [v1.PersistentVolumeClaim]; a resource quantity is its [Value()]. *)
Record PersistentVolumeClaim := {
  pvc_ObjectMeta : ObjectMeta;
  pvc_AccessModes : list string;
  pvc_Selector : option (gmap string string);
  pvc_Requests : gmap string Z;
  pvc_VolumeName : string;
  pvc_Phase : string;
}.

Definition ClaimBound : string := "Bound".
Definition NamespaceDefault : string := "default".
Definition ConditionTrue : string := "True".
Definition ResourceStorage : string := "storage".

Definition zero_TypeMeta : TypeMeta := {| Kind := ""; APIVersion := "" |}.
Definition zero_ObjectMeta : ObjectMeta :=
  {| Name := ""; Namespace := ""; SelfLink := ""; Labels := ∅; Annotations := ∅ |}.
Definition zero_PersistentVolumeSource : PersistentVolumeSource :=
  {| HostPath := None; AWSElasticBlockStore := None; GCEPersistentDisk := None; Cinder := None |}.

(** * [VolumeSnapshot] *)

Definition VolumeSnapshotDataResourcePlural : string := "volumesnapshotdatas".
Definition VolumeSnapshotResourcePlural : string := "volumesnapshots".

Definition VolumeSnapshotConditionReady : string := "Ready".

Record VolumeSnapshotCondition := {
  vsc_Type : string;
  vsc_Status : string;
  vsc_LastTransitionTime : Z;
  vsc_Reason : string;
  vsc_Message : string;
}.

Record VolumeSnapshotStatus := {
  vss_CreationTimestamp : Z;
  vss_Conditions : list VolumeSnapshotCondition;
}.

Record VolumeSnapshotSpec := {
  PersistentVolumeClaimName : string;
  SnapshotDataName : string;
}.

Record VolumeSnapshot := {
  vs_TypeMeta : TypeMeta;
  vs_Metadata : ObjectMeta;
  vs_Spec : VolumeSnapshotSpec;
  vs_Status : VolumeSnapshotStatus;
}.

(** * [VolumeSnapshotData] *)

Definition VolumeSnapshotDataConditionReady : string := "Ready".
Definition VolumeSnapshotDataConditionPending : string := "Pending".
Definition VolumeSnapshotDataConditionError : string := "Error".

Record VolumeSnapshotDataCondition := {
  vsdc_Type : string;
  vsdc_Status : string;
  vsdc_LastTransitionTime : Z;
  vsdc_Reason : string;
  vsdc_Message : string;
}.

Record VolumeSnapshotDataStatus := {
  vsds_CreationTimestamp : Z;
  vsds_Conditions : list VolumeSnapshotDataCondition;
}.

Record HostPathVolumeSnapshotSource := { hps_Path : string }.
Record AWSElasticBlockStoreVolumeSnapshotSource := { awss_SnapshotID : string }.
Record CinderVolumeSnapshotSource := { cinders_SnapshotID : string }.
Record GCEPersistentDiskSnapshotSource := { gces_SnapshotName : string }.

Record VolumeSnapshotDataSource := {
  ds_HostPath : option HostPathVolumeSnapshotSource;
  ds_AWSElasticBlockStore : option AWSElasticBlockStoreVolumeSnapshotSource;
  ds_GCEPersistentDiskSnapshot : option GCEPersistentDiskSnapshotSource;
  ds_CinderSnapshot : option CinderVolumeSnapshotSource;
}.

Record VolumeSnapshotDataSpec := {
  dspec_Source : VolumeSnapshotDataSource;
  VolumeSnapshotRef : option ObjectReference;
  PersistentVolumeRef : option ObjectReference;
}.

Record VolumeSnapshotData := {
  vsd_TypeMeta : TypeMeta;
  vsd_Metadata : ObjectMeta;
  vsd_Spec : VolumeSnapshotDataSpec;
  vsd_Status : VolumeSnapshotDataStatus;
}.

(** The zero values of the Go types ([var snapshotObj crdv1.VolumeSnapshot]). *)
Definition zero_VolumeSnapshotDataSource : VolumeSnapshotDataSource :=
  {| ds_HostPath := None; ds_AWSElasticBlockStore := None;
     ds_GCEPersistentDiskSnapshot := None; ds_CinderSnapshot := None |}.

Definition zero_VolumeSnapshot : VolumeSnapshot :=
  {| vs_TypeMeta := zero_TypeMeta; vs_Metadata := zero_ObjectMeta;
     vs_Spec := {| PersistentVolumeClaimName := ""; SnapshotDataName := "" |};
     vs_Status := {| vss_CreationTimestamp := zero_Time; vss_Conditions := [] |} |}.

Definition zero_VolumeSnapshotData : VolumeSnapshotData :=
  {| vsd_TypeMeta := zero_TypeMeta; vsd_Metadata := zero_ObjectMeta;
     vsd_Spec := {| dspec_Source := zero_VolumeSnapshotDataSource;
                    VolumeSnapshotRef := None; PersistentVolumeRef := None |};
     vsd_Status := {| vsds_CreationTimestamp := zero_Time; vsds_Conditions := [] |} |}.

(** Assignments to the fields the program sets on a copied object. *)
Definition set_vs_binding (dataName : string) (conditions : list VolumeSnapshotCondition)
    (s : VolumeSnapshot) : VolumeSnapshot :=
  {| vs_TypeMeta := vs_TypeMeta s; vs_Metadata := vs_Metadata s;
     vs_Spec := {| PersistentVolumeClaimName := PersistentVolumeClaimName (vs_Spec s);
                   SnapshotDataName := dataName |};
     vs_Status := {| vss_CreationTimestamp := vss_CreationTimestamp (vs_Status s);
                     vss_Conditions := conditions |} |}.

Definition set_vsd_conditions (conditions : list VolumeSnapshotDataCondition)
    (d : VolumeSnapshotData) : VolumeSnapshotData :=
  {| vsd_TypeMeta := vsd_TypeMeta d; vsd_Metadata := vsd_Metadata d; vsd_Spec := vsd_Spec d;
     vsd_Status := {| vsds_CreationTimestamp := vsds_CreationTimestamp (vsd_Status d);
                      vsds_Conditions := conditions |} |}.

(** * The volume type of a persistent volume *)

Definition GetSupportedVolumeFromPVSpec (spec : PersistentVolumeSpec) : string :=
  let src := pv_Source spec in
  match HostPath src, AWSElasticBlockStore src, GCEPersistentDisk src, Cinder src with
  | Some _, _, _, _ => "hostPath"
  | None, Some _, _, _ => "aws_ebs"
  | None, None, Some _, _ => "gce-pd"
  | None, None, None, Some _ => "cinder"
  | None, None, None, None => ""
  end.

#[export] Instance TypeMeta_eq_dec : EqDecision TypeMeta.
Proof. solve_decision. Defined.
#[export] Instance ObjectMeta_eq_dec : EqDecision ObjectMeta.
Proof. solve_decision. Defined.
#[export] Instance ObjectReference_eq_dec : EqDecision ObjectReference.
Proof. solve_decision. Defined.
#[export] Instance VolumeSnapshotCondition_eq_dec : EqDecision VolumeSnapshotCondition.
Proof. solve_decision. Defined.
#[export] Instance VolumeSnapshotStatus_eq_dec : EqDecision VolumeSnapshotStatus.
Proof. solve_decision. Defined.
#[export] Instance VolumeSnapshotSpec_eq_dec : EqDecision VolumeSnapshotSpec.
Proof. solve_decision. Defined.
#[export] Instance VolumeSnapshot_eq_dec : EqDecision VolumeSnapshot.
Proof. solve_decision. Defined.

(** No volume type is found exactly when the volume has none of the four
    supported sources. *)
Lemma GetSupportedVolume_empty spec :
  GetSupportedVolumeFromPVSpec spec = "" <->
  pv_Source spec = zero_PersistentVolumeSource.
Proof.
  unfold GetSupportedVolumeFromPVSpec, zero_PersistentVolumeSource.
  destruct spec as [cap [[] [] [] []] am rp]; cbn; split; congruence.
Qed.

(** A snapshot of the claim [claim] in the namespace [ns], for the concrete
    examples. *)
Definition example_snapshot (name dataName : string) : VolumeSnapshot :=
  {| vs_TypeMeta := zero_TypeMeta;
     vs_Metadata := {| Name := name; Namespace := "ns"; SelfLink := "";
                       Labels := ∅; Annotations := ∅ |};
     vs_Spec := {| PersistentVolumeClaimName := "claim"; SnapshotDataName := dataName |};
     vs_Status := {| vss_CreationTimestamp := 0; vss_Conditions := [] |} |}.
