(* ===== verification/Decoding.v ===== *)
(** The decoding of the API objects ([pkg/apis/crd/v1/types.go]): the lists of
    objects, and the methods that decode an object through a copy of its type.

    [encoding/json] is a parameter: [Unmarshal data x] is what decoding into a
    variable that holds [x] leaves there, with its error; what the document
    does not mention keeps its value, and an error may leave the variable
    partly written. *)

From S2P Require Import Prelude Types.

#[local] Open Scope string_scope.

Record ListMeta := { lm_SelfLink : string; lm_ResourceVersion : string }.

Record VolumeSnapshotList := {
  vsl_TypeMeta : TypeMeta;
  vsl_Metadata : ListMeta;
  vsl_Items : list VolumeSnapshot;
}.

Record VolumeSnapshotDataList := {
  vsdl_TypeMeta : TypeMeta;
  vsdl_Metadata : ListMeta;
  vsdl_Items : list VolumeSnapshotData;
}.

(** The zero values of the copies. *)
Class Zero (A : Type) := zero : A.
#[export] Instance zero_snapshot : Zero VolumeSnapshot := zero_VolumeSnapshot.
#[export] Instance zero_data : Zero VolumeSnapshotData := zero_VolumeSnapshotData.
#[export] Instance zero_list : Zero VolumeSnapshotList :=
  {| vsl_TypeMeta := zero_TypeMeta; vsl_Metadata := {| lm_SelfLink := ""; lm_ResourceVersion := "" |};
     vsl_Items := [] |}.
#[export] Instance zero_data_list : Zero VolumeSnapshotDataList :=
  {| vsdl_TypeMeta := zero_TypeMeta; vsdl_Metadata := {| lm_SelfLink := ""; lm_ResourceVersion := "" |};
     vsdl_Items := [] |}.

Class JsonDecoder (A : Type) := Unmarshal : string -> A -> A * option error.

(** What the four methods do: [e] is the object before. *)
Definition unmarshal_copy {A} `{!Zero A, !JsonDecoder A} (data : string) (e : A) : A * option error :=
  match Unmarshal data zero with
  | (_, Some err) => (e, Some err)
  | (tmp, None) => (tmp, None)
  end.

Definition snapshot_UnmarshalJSON `{!JsonDecoder VolumeSnapshot} (e : VolumeSnapshot) (data : string)
    : VolumeSnapshot * option error := unmarshal_copy data e.
Definition snapshotList_UnmarshalJSON `{!JsonDecoder VolumeSnapshotList} (el : VolumeSnapshotList)
    (data : string) : VolumeSnapshotList * option error := unmarshal_copy data el.
Definition snapshotData_UnmarshalJSON `{!JsonDecoder VolumeSnapshotData} (e : VolumeSnapshotData)
    (data : string) : VolumeSnapshotData * option error := unmarshal_copy data e.
Definition snapshotDataList_UnmarshalJSON `{!JsonDecoder VolumeSnapshotDataList}
    (el : VolumeSnapshotDataList) (data : string) : VolumeSnapshotDataList * option error :=
  unmarshal_copy data el.

(** The decoding is all or nothing, and what the object held before does not
    show through: decoding twice is decoding once. *)
Lemma unmarshal_copy_fresh {A} `{!Zero A, !JsonDecoder A} data (e e' : A) :
  (unmarshal_copy data e).2 = (unmarshal_copy data e').2 /\
  match (unmarshal_copy data e).2 with
  | Some _ => (unmarshal_copy data e).1 = e
  | None => (unmarshal_copy data e).1 = (unmarshal_copy data e').1 /\
            unmarshal_copy data (unmarshal_copy data e).1 = unmarshal_copy data e
  end.
Proof. unfold unmarshal_copy. by destruct (Unmarshal data zero) as [tmp [err|]] eqn:Hu; cbn; rewrite ?Hu. Qed.
