(* ===== verification/GoNumbers.v ===== *)
(** Numbers of Go that are not integers, and durations: the floating-point
    types as numbers of IEEE 754 ([SpecFloat]) and [time.ParseDuration]. *)

From Stdlib Require Import SpecFloat.
From S2P Require Import Prelude GoStrings Types.
From Stdlib Require Import Lia.

#[local] Open Scope string_scope.

(** * Floating-point numbers *)

Definition float32_of (m e : Z) : spec_float := binary_normalize 24 128 m e false.
Definition float64_of (m e : Z) : spec_float := binary_normalize 53 1024 m e false.

(** [float32(x)] of a [float64], and [float64(x)] of an integer. *)
Definition float32_of_float64 (x : spec_float) : spec_float :=
  match x with
  | S754_finite s m e => binary_normalize 24 128 (if s then Z.neg m else Z.pos m) e s
  | _ => x
  end.

Definition mul64 := SFmul 53 1024.
Definition mul32 := SFmul 24 128.
Definition div32 := SFdiv 24 128.
Definition add32 := SFadd 24 128.
Definition div64 := SFdiv 53 1024.
Definition add64 := SFadd 53 1024.

(** [x < y]: false when one is not a number. *)
Definition less (x y : spec_float) : bool :=
  match SFcompare x y with Some Lt => true | _ => false end.

(** [int64(x)]: towards zero; what is out of range is implementation-defined,
    and the least integer on the platforms the program is built for. *)
Definition int64_of (x : spec_float) : Z :=
  match x with
  | S754_zero _ => 0
  | S754_finite s m e =>
      let z := if (0 <=? e)%Z then Z.shiftl (Z.pos m) e else Z.shiftr (Z.pos m) (- e) in
      let z := if s then Z.opp z else z in
      if bool_decide (int64_range z) then z else min_int64
  | _ => min_int64
  end.

(** * Durations *)

(** [leadingInt]: the digits read and what follows them; [None] when the
    number is past the range. *)
Fixpoint leadingInt (s : string) (x : Z) : option (Z * string) :=
  match s with
  | EmptyString => Some (x, s)
  | String a s' =>
      match digit_of a with
      | None => Some (x, s)
      | Some d =>
          if bool_decide (max_int64 / 10 < x)%Z then None
          else
            let y := wrap64 (x * 10 + d) in
            if bool_decide (y < 0)%Z then None else leadingInt s' y
      end
  end.

(** [leadingFraction]: digits past the range are skipped. *)
Fixpoint leadingFraction (s : string) (overflow : bool) (x : Z) (scale : spec_float)
    : Z * spec_float * string :=
  match s with
  | EmptyString => (x, scale, s)
  | String a s' =>
      match digit_of a with
      | None => (x, scale, s)
      | Some d =>
          let y := wrap64 (x * 10 + d) in
          if overflow || bool_decide (max_int64 / 10 < x)%Z || bool_decide (y < 0)%Z
          then leadingFraction s' true x scale
          else leadingFraction s' false y (mul64 scale (float64_of 10 0))
      end
  end.

(** The unit ends before the next digit or point. *)
Fixpoint leading_unit (s : string) : string * string :=
  match s with
  | EmptyString => ("", "")
  | String a s' =>
      if bool_decide (a = "."%char) || bool_decide (is_Some (digit_of a)) then ("", s)
      else let '(u, rest) := leading_unit s' in (String a u, rest)
  end.

(** The micro sign and the Greek letter are two bytes each. *)
Definition unitMap : list (string * Z) :=
  [("ns", 1%Z); ("us", 1000%Z);
   (String "194" (String "181" "s"), 1000%Z); (String "206" (String "188" "s"), 1000%Z);
   ("ms", 1000000%Z); ("s", Second); ("m", (60 * Second)%Z); ("h", (3600 * Second)%Z)].

Definition unit_of (u : string) : option Z :=
  snd <$> List.find (fun p => bool_decide (p.1 = u)) unitMap.

Section parse.
Context (orig : string).
#[local] Abbreviation invalid := (Err (errorf "time: invalid duration %s" [orig])).

(** The fraction after the point, if there is one: its digits, their scale,
    what follows, and whether there were any. *)
Definition fraction (s : string) : Z * spec_float * string * bool :=
  match s with
  | String "." s' =>
      let '(f, scale, rest) := leadingFraction s' false 0 (float64_of 1 0) in
      (f, scale, rest, negb (bool_decide (String.length rest = String.length s')))
  | _ => (0%Z, float64_of 1 0, s, false)
  end.

(** One number with its unit: its value and what follows. *)
Definition component (s : string) : res (Z * string) :=
  match leadingInt s 0 with
  | None => invalid
  | Some (v, s1) =>
      let '(f, scale, s2, post) := fraction s1 in
      if bool_decide (String.length s1 = String.length s) && negb post then invalid
      else
        let '(u, rest) := leading_unit s2 in
        if bool_decide (u = "") then Err (errorf "time: missing unit in duration %s" [orig])
        else
          match unit_of u with
          | None => Err (errorf "time: unknown unit %s in duration %s" [u; orig])
          | Some unit =>
              if bool_decide (max_int64 / unit < v)%Z then invalid
              else
                let v := wrap64 (v * unit) in
                let v :=
                  if bool_decide (0 < f)%Z
                  then wrap64 (v + int64_of (mul64 (float64_of f 0) (div64 (float64_of unit 0) scale)))
                  else v in
                if bool_decide (v < 0)%Z then invalid else Ok (v, rest)
          end
  end.

(** The components are added up; each takes a byte at least, so that the
    length of the string is fuel enough. *)
Fixpoint components (fuel : nat) (s : string) (d : Z) : res Z :=
  match s, fuel with
  | EmptyString, _ => Ok d
  | _, O => invalid
  | String a _, S fuel =>
      if bool_decide (a = "."%char) || bool_decide (is_Some (digit_of a)) then
        match component s with
        | Err err => Err err
        | Ok (v, rest) =>
            let d := wrap64 (d + v) in
            if bool_decide (d < 0)%Z then invalid else components fuel rest d
        end
      else invalid
  end.
End parse.

Definition ParseDuration (orig : string) : res Z :=
  let '(neg, s) := match orig with
                   | String "-" s => (true, s)
                   | String "+" s => (false, s)
                   | _ => (false, orig)
                   end in
  if bool_decide (s = "0") then Ok 0%Z
  else if bool_decide (s = "") then Err (errorf "time: invalid duration %s" [orig])
  else
    match components orig (String.length s) s 0 with
    | Err err => Err err
    | Ok d => Ok (if neg then Z.opp d else d)
    end.

Example some_durations :
  ParseDuration <$> ["90s"; "1h15m30.5s"; "-1.5h"; "1us"; "0"; ".25ms"; "9223372036854775807ns"] =
  (Ok <$> [90 * Second; 4530 * Second + 500000000; - (5400 * Second); 1000; 0; 250000;
           9223372036854775807])%Z.
Proof. vm_compute. reflexivity. Qed.

Example no_durations :
  (fun s => match ParseDuration s with Ok _ => true | Err _ => false end) <$>
    [""; "-"; "3"; "."; ".s"; "1x"; "s"; "9223372036854775808ns"; "3000000h"; "1 s"] =
  [false; false; false; false; false; false; false; false; false; false].
Proof. vm_compute. reflexivity. Qed.

(** ** The length of the string is fuel enough *)

#[local] Arguments digit_of : simpl never.

Lemma leadingInt_rest s x v rest :
  leadingInt s x = Some (v, rest) -> (String.length rest <= String.length s)%nat.
Proof.
  revert x; induction s as [|a s IH]; intros x; cbn; [by intros [= _ <-]|].
  destruct (digit_of a); [|by intros [= _ <-]]. repeat case_bool_decide; try done. intros ?%IH. lia.
Qed.

Lemma leadingFraction_rest s o x scale :
  (String.length (leadingFraction s o x scale).2 <= String.length s)%nat.
Proof.
  revert o x scale; induction s as [|a s IH]; intros o x scale; cbn; [done|].
  destruct (digit_of a); [|done]. destruct (_ || _); (etrans; [apply IH|lia]).
Qed.

Lemma fraction_rest s : (String.length (fraction s).1.2 <= String.length s)%nat.
Proof.
  destruct s as [|a s]; [done|]. destruct (decide (a = "."%char)) as [->|Ha].
  - cbn. pose proof (leadingFraction_rest s false 0 (float64_of 1 0)) as Hl.
    destruct (leadingFraction _ _ _ _) as [[f scale] rest]. cbn in *. lia.
  - by destruct a as [[] [] [] [] [] [] [] []].
Qed.

Lemma leading_unit_app s : (leading_unit s).1 +:+ (leading_unit s).2 = s.
Proof.
  induction s as [|a s IH]; [done|]. cbn. destruct (_ || _); [done|].
  destruct (leading_unit s). cbn [fst snd] in *. by rewrite string_app_cons, IH.
Qed.

Lemma component_rest orig s v rest :
  component orig s = Ok (v, rest) -> (String.length rest < String.length s)%nat.
Proof.
  unfold component. destruct (leadingInt s 0) as [[w s1]|] eqn:Hi; [|done].
  apply leadingInt_rest in Hi. pose proof (fraction_rest s1) as Hf.
  destruct (fraction s1) as [[[f scale] s2] post]. cbn in Hf. destruct (_ && _); [done|].
  pose proof (leading_unit_app s2) as Hu. destruct (leading_unit s2) as [u rest']. cbn in Hu. subst s2.
  case_bool_decide as Hne; [done|]. apply nonempty_length in Hne. rewrite string_length_app in Hf.
  destruct (unit_of u); [|done]. case_bool_decide; [done|]. cbn zeta.
  destruct (bool_decide (_ < 0)%Z); [done|]. intros [= _ <-]. lia.
Qed.

Lemma components_fuel orig n s d :
  (String.length s <= n)%nat -> components orig n s d = components orig (String.length s) s d.
Proof.
  enough (forall m n s d, (String.length s <= m)%nat -> (String.length s <= n)%nat ->
    components orig m s d = components orig n s d) as H by (intros Hs; by apply H).
  clear. induction m as [|m IH]; intros n s d Hm Hn; destruct s as [|a s]; destruct n as [|n]; cbn in Hm, Hn;
    try done; try lia. cbn [components].
  destruct (_ || _); [|done]. destruct (component _ _) as [[v rest]|err] eqn:Hc; [|done].
  apply component_rest in Hc. cbn in Hc. case_bool_decide; [done|]. apply IH; lia.
Qed.

(** ** What is written is read *)

Definition starts_number (s : string) : bool :=
  match s with String a _ => bool_decide (is_Some (digit_of a)) | EmptyString => false end.

Lemma digit_of_range a d : digit_of a = Some d -> (0 <= d <= 9)%Z.
Proof. unfold digit_of. destruct (decide _) as [H|]; [|done]. intros [= <-]. lia. Qed.

Lemma parse_digits_ge ds x v : (0 <= x)%Z -> parse_digits ds x = Some v -> (x <= v)%Z.
Proof.
  revert x; induction ds as [|a ds IH]; intros x Hx; cbn -[Z.mul]; [intros [= ->]; lia|].
  destruct (digit_of a) as [d|] eqn:Ha; [|done]. apply digit_of_range in Ha. intros ?%IH; lia.
Qed.

Lemma leadingInt_digits ds rest x v :
  (0 <= x)%Z -> (v <= max_int64)%Z -> parse_digits ds x = Some v -> starts_number rest = false ->
  leadingInt (ds +:+ rest) x = Some (v, rest).
Proof.
  intros Hx Hv Hds Hrest. revert x Hx Hds. induction ds as [|a ds IH]; intros x Hx Hds.
  - injection Hds as ->. rewrite string_app_nil_l. destruct rest as [|a rest]; [done|]. cbn in *.
    destruct (digit_of a); [by rewrite bool_decide_eq_true_2 in Hrest by eauto|done].
  - rewrite string_app_cons. cbn -[Z.mul] in *. destruct (digit_of a) as [d|] eqn:Ha; [|done].
    apply digit_of_range in Ha. assert (10 * x + d <= v)%Z by (eapply parse_digits_ge; [|done]; lia).
    rewrite (wrap64_id (x * 10 + d)) by (unfold int64_range, min_int64, max_int64 in *; lia).
    rewrite !bool_decide_eq_false_2; [|lia|apply Z.nlt_ge, Z.div_le_lower_bound; lia].
    replace (x * 10 + d)%Z with (10 * x + d)%Z by lia. apply IH; [lia|done].
Qed.

(** The unit is followed by a number or by nothing. *)
Definition unit_end (s : string) : Prop := s = "" \/ starts_number s = true.

Lemma leading_unit_of u unit rest :
  unit_of u = Some unit -> unit_end rest ->
  leading_unit (u +:+ rest) = (u, rest) /\ u <> "" /\ starts_number (u +:+ rest) = false /\
  fraction (u +:+ rest) = (0%Z, float64_of 1 0, u +:+ rest, false) /\ (0 < unit)%Z.
Proof.
  intros Hu Hrest.
  assert (leading_unit rest = ("", rest)) as Hr.
  { destruct Hrest as [->|Hrest]; [done|]. destruct rest as [|a rest]; [done|]. cbn in *. by rewrite Hrest, orb_true_r. }
  assert (u ∈ unitMap.*1 /\ (0 < unit)%Z) as [Hin Hpos].
  { unfold unit_of in Hu. destruct (List.find _ _) as [[u' z]|] eqn:Hf; [|done]. injection Hu as ->.
    apply List.find_some in Hf as [Hf Heq]. apply bool_decide_eq_true in Heq. cbn in Heq. subst u'.
    split; [apply list_elem_of_fmap; exists (u, unit); by rewrite list_elem_of_In|].
    cbn in Hf. unfold Second in Hf. repeat destruct Hf as [[= _ <-]|Hf]; done. }
  cbn in Hin. repeat setoid_rewrite elem_of_cons in Hin. rewrite elem_of_nil in Hin.
  destruct_or! Hin; subst; rewrite !string_app_cons, string_app_nil_l; (split_and!; [|done..|done]); cbn;
    repeat match goal with |- context [digit_of ?a] => change (digit_of a) with (@None Z) end; cbn;
    by rewrite Hr.
Qed.

(** A component as it is written, and its value. *)
Definition written (part : string * string) : string := part.1 +:+ part.2.
Definition value_of (part : string * string) : option Z :=
  match parse_unsigned part.1, unit_of part.2 with
  | Some v, Some unit => Some (v * unit)%Z
  | _, _ => None
  end.

Lemma value_of_Some part value :
  value_of part = Some value ->
  exists a ds u v unit, part = (String a ds, u) /\ parse_digits (String a ds) 0 = Some v /\
    unit_of u = Some unit /\ value = (v * unit)%Z /\ (0 <= v)%Z /\ (0 < unit)%Z /\
    is_Some (digit_of a).
Proof.
  destruct part as [[|a ds] u]; unfold value_of, parse_unsigned; cbn [fst snd]; [done|].
  destruct (parse_digits _ _) as [v|] eqn:Hds; [|done]. destruct (unit_of u) as [unit|] eqn:Hu; [|done].
  intros [= <-]. destruct (leading_unit_of u unit "" Hu ltac:(by left)) as (_ & _ & _ & _ & Hpos).
  pose proof (parse_digits_ge _ _ _ (Z.le_refl 0) Hds). exists a, ds, u, v, unit. split_and!; try done.
  cbn -[Z.mul] in Hds. destruct (digit_of a); [eauto|done].
Qed.

Lemma component_written orig part value rest :
  value_of part = Some value -> (value <= max_int64)%Z -> unit_end rest ->
  component orig (written part +:+ rest) = Ok (value, rest).
Proof.
  intros (a & ds & u & v & unit & -> & Hds & Hu & -> & Hv & Hpos & Ha)%value_of_Some Hmax Hrest.
  destruct (leading_unit_of u unit rest Hu Hrest) as (Hl & Hne & Hs & Hf & _).
  unfold written, component. cbn [fst snd]. rewrite <- string_app_assoc.
  rewrite (leadingInt_digits _ _ 0 v) by (done || nia). cbn zeta. rewrite Hf, Hl.
  rewrite bool_decide_eq_false_2 by (rewrite !string_length_app; cbn; lia). cbn [andb].
  rewrite bool_decide_eq_false_2 by done. rewrite Hu.
  rewrite bool_decide_eq_false_2 by (apply Z.nlt_ge, Z.div_le_lower_bound; lia).
  rewrite (bool_decide_eq_false_2 (0 < 0)%Z) by lia.
  rewrite wrap64_id by (unfold int64_range, min_int64; nia).
  by rewrite bool_decide_eq_false_2 by nia.
Qed.

Definition text (parts : list (string * string)) : string :=
  foldr (fun part rest => written part +:+ rest) "" parts.

Definition values_of (parts : list (string * string)) (values : list Z) : Prop :=
  Forall2 (fun part value => value_of part = Some value) parts values.

Lemma text_end parts values :
  values_of parts values -> unit_end (text parts) /\ (0 <= foldr Z.add 0 values)%Z.
Proof.
  induction 1 as [|part value parts values Hp Hall [Hend Hpos]]; cbn; [split; [by left|done]|].
  apply value_of_Some in Hp as (a & ds & u & v & unit & -> & Hds & Hu & -> & Hv & Hunit & Ha).
  split; [|nia]. right. unfold written. cbn [fst snd]. rewrite !string_app_cons. by apply bool_decide_eq_true_2.
Qed.

Lemma components_written orig parts values n d :
  values_of parts values -> (0 <= d)%Z -> (d + foldr Z.add 0 values <= max_int64)%Z ->
  (String.length (text parts) <= n)%nat ->
  components orig n (text parts) d = Ok (d + foldr Z.add 0 values)%Z.
Proof.
  intros Hall. revert n d. induction Hall as [|part value parts values Hp Hall IH]; intros n d Hd Hmax Hn.
  { cbn. by destruct n; rewrite Z.add_0_r. }
  destruct (text_end _ _ Hall) as [Hend Hpos]. cbn [foldr] in Hmax.
  assert (0 <= value)%Z.
  { apply value_of_Some in Hp as (? & ? & ? & v & unit & _ & _ & _ & -> & ? & ? & _). nia. }
  pose proof (component_written orig part value _ Hp ltac:(lia) Hend) as Hc.
  destruct (text_end (part :: parts) (value :: values)) as [[Hn0|Hs] _]; [by constructor| |].
  { apply component_rest in Hc. cbn [text foldr] in Hn0. unfold text in Hc. rewrite Hn0 in Hc. cbn in Hc. lia. }
  change (text (part :: parts)) with (written part +:+ text parts) in *.
  destruct (written part +:+ text parts) as [|a s] eqn:Hw; [done|].
  destruct n as [|n]; [cbn in Hn; lia|]. cbn [components]. cbn in Hs. rewrite Hs, orb_true_r, Hc.
  rewrite wrap64_id by (unfold int64_range, min_int64; lia). rewrite bool_decide_eq_false_2 by lia.
  apply component_rest in Hc. cbn in Hc, Hn. rewrite IH by lia. cbn. f_equal. lia.
Qed.

(** A sequence of whole numbers with their units is read as their sum, as long
    as it is in the range of a duration. *)
Theorem ParseDuration_written parts values :
  parts <> [] -> values_of parts values -> (foldr Z.add 0 values <= max_int64)%Z ->
  ParseDuration (text parts) = Ok (foldr Z.add 0 values)%Z.
Proof.
  intros Hne Hall Hmax.
  pose proof (components_written (text parts) parts values _ 0 Hall (Z.le_refl 0) Hmax (Nat.le_refl _)) as Hc.
  destruct Hall as [|part value parts values Hp _]; [done|].
  apply value_of_Some in Hp as (a & ds & u & v & unit & -> & _ & Hu & _ & _ & _ & Ha).
  assert (text ((String a ds, u) :: parts) <> "0") as H0.
  { destruct (leading_unit_of u unit "" Hu ltac:(by left)) as (_ & Hune & _). apply nonempty_length in Hune.
    intros Ht%(f_equal String.length). cbn [text foldr] in Ht. unfold written in Ht. cbn [fst snd] in Ht.
    rewrite !string_length_app in Ht. cbn in Ht. lia. }
  unfold ParseDuration.
  destruct (text ((String a ds, u) :: parts)) as [|a' rest] eqn:Ht.
  { cbn [text foldr] in Ht. unfold written in Ht. cbn [fst snd] in Ht. by rewrite !string_app_cons in Ht. }
  assert (a' = a) as ->.
  { cbn [text foldr] in Ht. unfold written in Ht. cbn [fst snd] in Ht. rewrite !string_app_cons in Ht. by injection Ht. }
  assert (a <> "-"%char /\ a <> "+"%char) as [Hm Hpl] by (split; intros ->; by destruct Ha).
  replace (match String a rest with String "-" s => (true, s) | String "+" s => (false, s)
           | _ => (false, String a rest) end) with (false, String a rest)
    by (clear -Hm Hpl; by destruct a as [[] [] [] [] [] [] [] []]).
  rewrite !bool_decide_eq_false_2 by done. by rewrite Hc.
Qed.
