(* ===== verification/Cache.v ===== *)
(** [pkg/controller/cache]: snapshot names and the two states of the world.
    Each method of the Go code holds the lock of its map for its whole body,
    so it is one atomic function on the map.  The maps hold pointers; the
    program never writes through them (the snapshotter changes deep copies
    only), so the objects are values here. *)

From S2P Require Import Prelude GoStrings Types.

#[local] Open Scope string_scope.

(** * Snapshot names ([util.go]) *)

Definition MakeSnapshotName (namespace name : string) : string :=
  namespace +:+ "/" +:+ name.

Definition GetNameAndNameSpaceFromSnapshotName (name : string) : res (string * string) :=
  match Split name "/" with
  | [ns; nm] => Ok (ns, nm)
  | _ => Err (errorf "invalid snapshot name" [])
  end.

Definition snapshot_key (s : VolumeSnapshot) : string :=
  MakeSnapshotName (Namespace (vs_Metadata s)) (Name (vs_Metadata s)).

Lemma MakeSnapshotName_split ns nm :
  ContainsByte ns "/" = false ->
  Split (MakeSnapshotName ns nm) "/" = ns :: Split nm "/".
Proof. intros Hns. unfold MakeSnapshotName. by apply Split_app_sep. Qed.

Lemma MakeSnapshotName_inj ns nm ns' nm' :
  ContainsByte ns "/" = false -> ContainsByte ns' "/" = false ->
  MakeSnapshotName ns nm = MakeSnapshotName ns' nm' -> ns = ns' /\ nm = nm'.
Proof.
  intros Hns Hns' Heq.
  assert (ns :: Split nm "/" = ns' :: Split nm' "/") as [= -> Hnm]
    by (rewrite <- !MakeSnapshotName_split by done; by rewrite Heq).
  split; [done|]. by rewrite <- (Join_Split nm "/"), <- (Join_Split nm' "/"), Hnm.
Qed.

Lemma parse_made_name ns nm :
  ContainsByte ns "/" = false -> ContainsByte nm "/" = false ->
  GetNameAndNameSpaceFromSnapshotName (MakeSnapshotName ns nm) = Ok (ns, nm).
Proof.
  intros Hns Hnm. unfold GetNameAndNameSpaceFromSnapshotName.
  by rewrite MakeSnapshotName_split, Split_without.
Qed.

Lemma parsed_name s ns nm :
  GetNameAndNameSpaceFromSnapshotName s = Ok (ns, nm) ->
  s = MakeSnapshotName ns nm /\ ContainsByte ns "/" = false /\ ContainsByte nm "/" = false.
Proof.
  unfold GetNameAndNameSpaceFromSnapshotName. intros Hs.
  assert (Split s "/" = [ns; nm]) as Hsplit
    by (destruct (Split s "/") as [|? [|? [|]]]; by simplify_eq).
  split_and!.
  - rewrite <- (Join_Split s "/"), Hsplit. reflexivity.
  - apply (Split_parts s). rewrite Hsplit. set_solver.
  - apply (Split_parts s). rewrite Hsplit. set_solver.
Qed.

(** C17: Snapshot names round trip.  A string is read as the namespace [ns]
    and the name [nm] exactly when it is the name made of them and neither
    contains a slash; every other string is refused with an error. *)
Theorem snapshot_name_roundtrip s ns nm :
  GetNameAndNameSpaceFromSnapshotName s = Ok (ns, nm) <->
  s = MakeSnapshotName ns nm /\ ContainsByte ns "/" = false /\ ContainsByte nm "/" = false.
Proof.
  split; [apply parsed_name|]. intros (-> & Hns & Hnm). by apply parse_made_name.
Qed.

(** * The desired state of the world *)

Module DesiredStateOfWorld.
Abbreviation t := (gmap string VolumeSnapshot).

Definition NewDesiredStateOfWorld : t := ∅.

(** The argument is a pointer: [None] is nil. *)
Definition AddSnapshot (snapshot : option VolumeSnapshot) (dsw : t) : option error * t :=
  match snapshot with
  | None => (Some (errorf "nil snapshot spec" []), dsw)
  | Some s =>
      (None, <[MakeSnapshotName (Namespace (vs_Metadata s)) (Name (vs_Metadata s)) := s]> dsw)
  end.

Definition DeleteSnapshot (snapshotName : string) (dsw : t) : option error * t :=
  (None, delete snapshotName dsw).

Section getters.
Context `{MapRange}.

(** The copy is built entry by entry. *)
Definition GetSnapshots (dsw : t) : t :=
  fold_left (fun snapshots '(snapName, snapshot) => <[snapName := snapshot]> snapshots)
            (range dsw) ∅.
End getters.

Definition SnapshotExists (snapshotName : string) (dsw : t) : bool :=
  match dsw !! snapshotName with Some _ => true | None => false end.
End DesiredStateOfWorld.

(** * The actual state of the world *)

Module ActualStateOfWorld.
Abbreviation t := (gmap string VolumeSnapshot).

Definition NewActualStateOfWorld : t := ∅.

(** Unlike the desired state's, this one dereferences its argument without
    a test, so nil is not an argument it can have. *)
Definition AddSnapshot (s : VolumeSnapshot) (asw : t) : option error * t :=
  (None, <[MakeSnapshotName (Namespace (vs_Metadata s)) (Name (vs_Metadata s)) := s]> asw).

Definition DeleteSnapshot (snapshotName : string) (asw : t) : option error * t :=
  (None, delete snapshotName asw).

Section getters.
Context `{MapRange}.

Definition GetSnapshots (asw : t) : t :=
  fold_left (fun snapshots '(snapName, snapshot) => <[snapName := snapshot]> snapshots)
            (range asw) ∅.
End getters.

Definition GetSnapshot (snapshotName : string) (asw : t) : option VolumeSnapshot :=
  asw !! snapshotName.

Definition SnapshotExists (snapshotName : string) (asw : t) : bool :=
  match asw !! snapshotName with Some _ => true | None => false end.
End ActualStateOfWorld.

(** * What the two states promise *)

(** Copying a map entry by entry gives the map. *)
Lemma copy_map `{MapRange} {V} (m : gmap string V) :
  fold_left (fun c '(k, v) => <[k := v]> c) (range m) ∅ = m.
Proof.
  rewrite fold_insert_range. apply (right_id_L ∅ (∪)).
Qed.

Lemma DSW_GetSnapshots_copy `{MapRange} (m : gmap string VolumeSnapshot) :
  DesiredStateOfWorld.GetSnapshots m = m.
Proof. apply copy_map. Qed.

Lemma ASW_GetSnapshots_copy `{MapRange} (m : gmap string VolumeSnapshot) :
  ActualStateOfWorld.GetSnapshots m = m.
Proof. apply copy_map. Qed.

Lemma DSW_SnapshotExists_spec n (m : gmap string VolumeSnapshot) :
  DesiredStateOfWorld.SnapshotExists n m = true <-> is_Some (m !! n).
Proof.
  unfold DesiredStateOfWorld.SnapshotExists. destruct (m !! n) eqn:Hn; split; eauto; [done|].
  by intros [].
Qed.

Lemma ASW_SnapshotExists_spec n (m : gmap string VolumeSnapshot) :
  ActualStateOfWorld.SnapshotExists n m = true <-> is_Some (m !! n).
Proof. apply DSW_SnapshotExists_spec. Qed.

Lemma ASW_SnapshotExists_false n (m : gmap string VolumeSnapshot) :
  ActualStateOfWorld.SnapshotExists n m = false <-> m !! n = None.
Proof. unfold ActualStateOfWorld.SnapshotExists. by destruct (m !! n). Qed.

(** The well-formedness both states keep: every snapshot is stored under its
    own name. *)
Definition keyed (m : gmap string VolumeSnapshot) : Prop :=
  map_Forall (fun n s => n = snapshot_key s) m.

Lemma keyed_empty : keyed ∅.
Proof. apply map_Forall_empty. Qed.

Lemma keyed_insert s m : keyed m -> keyed (<[snapshot_key s := s]> m).
Proof. intros Hm. by apply map_Forall_insert_2. Qed.

Lemma keyed_delete n m : keyed m -> keyed (delete n m).
Proof. apply map_Forall_delete. Qed.

#[export] Hint Resolve keyed_empty keyed_insert keyed_delete : go.
