(* ===== verification/GoRoutineMap.v ===== *)
(** The map of running operations (the vendored packages [goroutinemap] and
    [exponentialbackoff]): it starts at most one goroutine per operation
    name, and after an error refuses the name until a growing delay is over.

    [Run] and [operationComplete] hold the map's lock, so each is one atomic
    function on the map, given the time it reads.  [pool] adds the goroutines
    themselves: [step] interleaves the starts, the work and the completions in
    any order. *)

From S2P Require Import Prelude.
From Stdlib Require Import Lia.

(** * Exponential backoff *)

Definition initialDurationBeforeRetry : Z := 500 * Millisecond.
Definition maxDurationBeforeRetry : Z := 2 * Minute.

Record ExponentialBackoff := {
  lastError : option error;
  lastErrorTime : Z;
  durationBeforeRetry : Z;
}.

Definition zero_ExponentialBackoff : ExponentialBackoff :=
  {| lastError := None; lastErrorTime := zero_Time; durationBeforeRetry := 0 |}.

Definition SafeToRetry (now : Z) (operationName : string) (b : ExponentialBackoff) : option error :=
  if bool_decide (Since now (lastErrorTime b) <= durationBeforeRetry b)%Z then
    Some (ExponentialBackoffError operationName (lastError b) (lastErrorTime b)
                                  (durationBeforeRetry b))
  else None.

Definition Update (now : Z) (err : option error) (b : ExponentialBackoff) : ExponentialBackoff :=
  let duration :=
    if bool_decide (durationBeforeRetry b = 0)%Z then initialDurationBeforeRetry
    else let d := wrap64 (2 * durationBeforeRetry b) in
         if bool_decide (d > maxDurationBeforeRetry)%Z then maxDurationBeforeRetry else d in
  {| lastError := err; lastErrorTime := now; durationBeforeRetry := duration |}.

(** * The map *)

Record operation := {
  operationPending : bool;
  expBackoff : ExponentialBackoff;
}.

(** What Go reads from the map at a missing key. *)
Definition zero_operation : operation :=
  {| operationPending := false; expBackoff := zero_ExponentialBackoff |}.

Record goRoutineMap := {
  operations : gmap string operation;
  exponentialBackOffOnError : bool;
}.

Definition NewGoRoutineMap (exponentialBackOffOnError : bool) : goRoutineMap :=
  {| operations := ∅; exponentialBackOffOnError := exponentialBackOffOnError |}.

(** [Run]: [None] means that the goroutine was started. *)
Definition Run (now : Z) (operationName : string) (grm : goRoutineMap) : option error * goRoutineMap :=
  let existingOp := default zero_operation (operations grm !! operationName) in
  let exists_ := bool_decide (is_Some (operations grm !! operationName)) in
  let refused :=
    if exists_ then
      if operationPending existingOp then Some (AlreadyExistsError operationName)
      else SafeToRetry now operationName (expBackoff existingOp)
    else None in
  match refused with
  | Some err => (Some err, grm)
  | None =>
      (None,
       {| operations := <[operationName := {| operationPending := true;
                                              expBackoff := expBackoff existingOp |}]>
                          (operations grm);
          exponentialBackOffOnError := exponentialBackOffOnError grm |})
  end.

Definition operationComplete (now : Z) (operationName : string) (err : option error)
    (grm : goRoutineMap) : goRoutineMap :=
  if bool_decide (err = None) || negb (exponentialBackOffOnError grm) then
    {| operations := delete operationName (operations grm);
       exponentialBackOffOnError := exponentialBackOffOnError grm |}
  else
    let existingOp := default zero_operation (operations grm !! operationName) in
    {| operations :=
         <[operationName := {| operationPending := false;
                               expBackoff := Update now err (expBackoff existingOp) |}]>
           (operations grm);
       exponentialBackOffOnError := exponentialBackOffOnError grm |}.

(** [RecoverFromPanic], deferred in the goroutine: a panic of the operation
    becomes its error. *)
Definition goroutine_error (o : outcome (option error)) : option error :=
  match o with
  | Returned err => err
  | Panicked why => Some (PanicError why)
  end.

(** [IsOperationPending] *)
Definition IsOperationPending (operationName : string) (grm : goRoutineMap) : bool :=
  match operations grm !! operationName with
  | Some op => operationPending op
  | None => false
  end.

(** * The map with its goroutines *)

Record pool (Op : Type) := {
  pool_map : goRoutineMap;
  goroutines : list (string * Op);
}.
Arguments Build_pool {Op} pool_map goroutines.
Arguments pool_map {Op} p.
Arguments goroutines {Op} p.

Section pool.
Context {Op : Type} (work : Op -> Op -> Prop) (ends : Op -> option error -> Prop).

Inductive pool_step : pool Op -> pool Op -> Prop :=
| pool_start now name op p grm' :
    Run now name (pool_map p) = (None, grm') ->
    pool_step p (Build_pool grm' ((name, op) :: goroutines p))
| pool_work grm before name op op' after :
    work op op' ->
    pool_step (Build_pool grm (before ++ (name, op) :: after))
              (Build_pool grm (before ++ (name, op') :: after))
| pool_complete now grm before name op err after :
    ends op err ->
    pool_step (Build_pool grm (before ++ (name, op) :: after))
              (Build_pool (operationComplete now name err grm) (before ++ after)).

Definition pool_init : pool Op := Build_pool (NewGoRoutineMap true) [].

Definition pool_reachable (p : pool Op) : Prop := rtc pool_step pool_init p.
End pool.

(** * Lemmas *)

(** The delays a map entry may have: a running operation that never failed
    has none; after an error the delay is between the bounds. *)
Definition backoff_ok (o : operation) : Prop :=
  let d := durationBeforeRetry (expBackoff o) in
  (d = 0 /\ operationPending o = true \/
   initialDurationBeforeRetry <= d <= maxDurationBeforeRetry)%Z.

Lemma Update_bounds now err b :
  (durationBeforeRetry b = 0 \/
   initialDurationBeforeRetry <= durationBeforeRetry b <= maxDurationBeforeRetry)%Z ->
  (initialDurationBeforeRetry <= durationBeforeRetry (Update now err b)
     <= maxDurationBeforeRetry)%Z.
Proof.
  unfold Update, initialDurationBeforeRetry, maxDurationBeforeRetry, Millisecond, Minute. cbn.
  intros Hd. case_bool_decide as H0; [lia|].
  rewrite wrap64_id by (unfold int64_range, min_int64, max_int64; lia).
  case_bool_decide; lia.
Qed.

(** Delays double until they reach the cap. *)
Lemma Update_doubles now err b :
  (initialDurationBeforeRetry <= durationBeforeRetry b <= maxDurationBeforeRetry)%Z ->
  durationBeforeRetry (Update now err b) =
  Z.min (2 * durationBeforeRetry b) maxDurationBeforeRetry.
Proof.
  unfold Update, initialDurationBeforeRetry, maxDurationBeforeRetry, Millisecond, Minute. cbn.
  intros Hd. rewrite bool_decide_eq_false_2 by lia.
  rewrite wrap64_id by (unfold int64_range, min_int64, max_int64; lia).
  case_bool_decide; lia.
Qed.

Lemma Run_started now name grm grm' :
  Run now name grm = (None, grm') ->
  IsOperationPending name grm = false /\
  operations grm' = <[name := {| operationPending := true;
                                 expBackoff := expBackoff (default zero_operation
                                                             (operations grm !! name)) |}]>
                      (operations grm) /\
  exponentialBackOffOnError grm' = exponentialBackOffOnError grm.
Proof.
  unfold Run, IsOperationPending. destruct (operations grm !! name) as [op|]; cbn.
  - destruct (operationPending op); cbn; [done|].
    destruct (SafeToRetry _ _ _); [done|]. by intros [= <-].
  - by intros [= <-].
Qed.

Lemma Run_refused now name grm err grm' :
  Run now name grm = (Some err, grm') -> grm' = grm.
Proof.
  unfold Run. intros Hrun.
  repeat match type of Hrun with
         | context [match ?x with _ => _ end] => destruct x
         end; by simplify_eq.
Qed.

Section pool_invariant.
Context {Op : Type}.
Implicit Type p : pool Op.

Record pool_inv p : Prop := {
  inv_nodup : NoDup (goroutines p).*1;
  inv_pending : forall n, n ∈ (goroutines p).*1 <-> IsOperationPending n (pool_map p) = true;
  inv_backoff : map_Forall (fun _ o => backoff_ok o) (operations (pool_map p));
  inv_enabled : exponentialBackOffOnError (pool_map p) = true;
}.

Lemma pool_inv_init : pool_inv pool_init.
Proof.
  split; cbn.
  - constructor.
  - intros n. split; [by intros ?%elem_of_nil | done].
  - apply map_Forall_empty.
  - done.
Qed.

Lemma IsOperationPending_insert n n' o grm b :
  IsOperationPending n' {| operations := <[n := o]> (operations grm);
                           exponentialBackOffOnError := b |} =
  if decide (n = n') then operationPending o else IsOperationPending n' grm.
Proof. unfold IsOperationPending. cbn. rewrite lookup_insert. by case_decide. Qed.

Lemma pool_inv_start now name op p grm' :
  pool_inv p -> Run now name (pool_map p) = (None, grm') ->
  pool_inv (Build_pool grm' ((name, op) :: goroutines p)).
Proof.
  intros [Hnd Hpend Hb He] (Hfree & Hops & Hen)%Run_started.
  destruct grm' as [ops' b']; cbn in *; subst ops' b'. split; cbn.
  - constructor; [|done]. rewrite Hpend. congruence.
  - intros n. rewrite elem_of_cons, IsOperationPending_insert, Hpend. cbn.
    case_decide; naive_solver.
  - apply map_Forall_insert_2; [|done].
    unfold backoff_ok; cbn. destruct (operations (pool_map p) !! name) as [o|] eqn:Ho; cbn.
    + specialize (Hb _ _ Ho). unfold backoff_ok in Hb. naive_solver.
    + by left.
  - done.
Qed.

Lemma pool_inv_complete now grm before name op err after :
  pool_inv (Build_pool grm (before ++ (name, op) :: after)) ->
  pool_inv (Build_pool (operationComplete now name err grm) (before ++ after)).
Proof.
  intros [Hnd Hpend Hb He]; cbn in *.
  rewrite fmap_app, fmap_cons in Hnd; cbn in Hnd.
  assert (NoDup (before ++ after).*1 /\ name ∉ (before ++ after).*1) as [Hnd' Hname].
  { rewrite fmap_app. rewrite <- Permutation_middle in Hnd.
    by apply NoDup_cons in Hnd as [??]. }
  assert (forall n, n ∈ (before ++ after).*1 <->
                    n <> name /\ IsOperationPending n grm = true) as Hpend'.
  { intros n. rewrite <- Hpend, !fmap_app, fmap_cons. cbn.
    rewrite fmap_app in Hname. set_solver. }
  unfold operationComplete. rewrite He, orb_false_r. split; cbn; [done| | |].
  - intros n. rewrite Hpend'. case_bool_decide.
    + unfold IsOperationPending. cbn. rewrite lookup_delete. case_decide; naive_solver.
    + rewrite IsOperationPending_insert. cbn. case_decide; naive_solver.
  - case_bool_decide; cbn; [by apply map_Forall_delete|].
    apply map_Forall_insert_2; [|done]. right. cbn [expBackoff]. apply Update_bounds.
    destruct (operations grm !! name) as [o|] eqn:Ho; cbn; [|by left].
    specialize (Hb _ _ Ho). unfold backoff_ok in Hb. naive_solver.
  - case_bool_decide; done.
Qed.

Lemma pool_reachable_inv work ends p : pool_reachable work ends p -> pool_inv p.
Proof.
  apply rtc_invariant; [apply pool_inv_init|]. intros p1 p2 IH Hstep.
  destruct Hstep as [now name op p' grm' Hrun|grm before name op op' after _
                    |now grm before name op err after _].
  - by eapply pool_inv_start.
  - destruct IH as [Hnd Hpend Hb He]; cbn in *.
    rewrite fmap_app, fmap_cons in Hnd. rewrite fmap_app, fmap_cons in Hpend.
    split; cbn; rewrite ?fmap_app, ?fmap_cons; done.
  - by eapply pool_inv_complete.
Qed.
End pool_invariant.

(** * Theorems *)

(** When an operation may start.  [Run] starts a goroutine exactly when
    the name is free: it has no entry, or its last operation has ended with an
    error longer ago than its delay; it then marks the name as pending and
    keeps its delay.  Otherwise it changes nothing and says why. *)
Theorem Run_starts now name grm :
  match operations grm !! name with
  | None =>
      Run now name grm =
        (None, {| operations := <[name := {| operationPending := true;
                                             expBackoff := zero_ExponentialBackoff |}]> (operations grm);
                  exponentialBackOffOnError := exponentialBackOffOnError grm |})
  | Some op =>
      if operationPending op then Run now name grm = (Some (AlreadyExistsError name), grm)
      else if bool_decide (Since now (lastErrorTime (expBackoff op))
                           <= durationBeforeRetry (expBackoff op))%Z
      then exists e, Run now name grm = (Some e, grm) /\
             e = ExponentialBackoffError name (lastError (expBackoff op))
                   (lastErrorTime (expBackoff op)) (durationBeforeRetry (expBackoff op))
      else Run now name grm =
        (None, {| operations := <[name := {| operationPending := true;
                                             expBackoff := expBackoff op |}]> (operations grm);
                  exponentialBackOffOnError := exponentialBackOffOnError grm |})
  end.
Proof.
  unfold Run, SafeToRetry. destruct (operations grm !! name) as [[[] b]|]; cbn; try done.
  case_bool_decide; [by eexists|done].
Qed.

Lemma operationComplete_failed now name err grm :
  exponentialBackOffOnError grm = true ->
  operations (operationComplete now name (Some err) grm) !! name =
  Some {| operationPending := false;
          expBackoff := Update now (Some err)
                          (expBackoff (default zero_operation (operations grm !! name))) |}.
Proof.
  intros He. unfold operationComplete. rewrite He, bool_decide_eq_false_2 by done. cbn.
  apply lookup_insert_eq.
Qed.

Lemma operationComplete_succeeded now name grm :
  operations (operationComplete now name None grm) !! name = None.
Proof. unfold operationComplete. rewrite bool_decide_eq_true_2 by done. apply lookup_delete_eq. Qed.

(** A name whose operation is started and fails, [n] times in a row. *)
Fixpoint fail_times (n : nat) (name : string) (times : nat -> Z * Z) (err : error)
    (grm : goRoutineMap) : option goRoutineMap :=
  match n with
  | O => Some grm
  | S n' =>
      match fail_times n' name times err grm with
      | None => None
      | Some grm =>
          match Run (times n').1 name grm with
          | (Some _, _) => None
          | (None, grm) => Some (operationComplete (times n').2 name (Some err) grm)
          end
      end
  end.

Lemma backoff_power (n : nat) :
  Z.min (2 * Z.min (initialDurationBeforeRetry * 2 ^ Z.of_nat n) maxDurationBeforeRetry)
        maxDurationBeforeRetry =
  Z.min (initialDurationBeforeRetry * 2 ^ Z.of_nat (S n)) maxDurationBeforeRetry.
Proof. unfold maxDurationBeforeRetry, Minute. rewrite Nat2Z.inj_succ, Z.pow_succ_r by lia. lia. Qed.

(** C16: The delay grows exponentially up to its cap.  After [n + 1] failures
    in a row the name waits for 500ms doubled [n] times, and never more than
    two minutes; an operation that succeeds forgets the failures. *)
Theorem backoff_after_failures n name times err grm :
  fail_times (S n) name times err (NewGoRoutineMap true) = Some grm ->
  (exists op, operations grm !! name = Some op /\ operationPending op = false /\
     durationBeforeRetry (expBackoff op) =
       Z.min (initialDurationBeforeRetry * 2 ^ Z.of_nat n) maxDurationBeforeRetry) /\
  operations (operationComplete (times n).2 name None grm) !! name = None.
Proof.
  assert (forall n grm, fail_times n name times err (NewGoRoutineMap true) = Some grm ->
            exponentialBackOffOnError grm = true) as Hen.
  { clear. induction n as [|n IH]; intros grm; cbn; [by intros [= <-]|].
    destruct (fail_times n _ _ _ _) as [grm1|]; [|done]. specialize (IH _ eq_refl).
    destruct (Run _ _ _) as [[?|] grm2] eqn:Hrun; [done|]. intros [= <-].
    apply Run_started in Hrun as (_ & _ & He). unfold operationComplete.
    by case_bool_decide; rewrite ?He, ?IH. }
  intros Hf. split; [|apply operationComplete_succeeded].
  revert grm Hf; induction n as [|n IH]; intros grm Hf.
  - cbn -[operationComplete Run] in Hf. destruct (Run _ _ _) as [[?|] grm1] eqn:Hrun; [done|].
    apply (inj Some) in Hf as <-. apply Run_started in Hrun as (_ & Hops & He).
    eexists. rewrite operationComplete_failed by done. rewrite Hops, lookup_insert_eq.
    by split_and!.
  - remember (S n) as m. cbn in Hf. subst m.
    destruct (fail_times (S n) _ _ _ _) as [grm1|] eqn:Hf1; [|done].
    destruct (IH _ eq_refl) as (op & Hop & _ & Hd). specialize (Hen _ _ Hf1).
    destruct (Run _ _ _) as [[?|] grm2] eqn:Hrun; [done|]. apply (inj Some) in Hf as <-.
    apply Run_started in Hrun as (_ & Hops & He). rewrite Hop in Hops. cbn in Hops.
    eexists. rewrite operationComplete_failed by congruence. rewrite Hops, lookup_insert_eq.
    split_and!; [done|done|]. change (default _ _) with {| operationPending := true; expBackoff := expBackoff op |}; cbn [expBackoff].
    rewrite Update_doubles; [rewrite Hd; apply backoff_power|].
    rewrite Hd. unfold initialDurationBeforeRetry, maxDurationBeforeRetry, Millisecond, Minute.
    pose proof (Z.pow_pos_nonneg 2 (Z.of_nat n)). lia.
Qed.

Lemma backoff_after_failures_witness :
  exists grm,
    fail_times 2 "op" (fun i => (Z.of_nat i * Minute, Z.of_nat i * Minute))%Z ErrWaitTimeout
      (NewGoRoutineMap true) = Some grm /\
    exists op, operations grm !! "op" = Some op /\
      durationBeforeRetry (expBackoff op) = (1000 * Millisecond)%Z.
Proof.
  destruct (fail_times 2 "op" (fun i => (Z.of_nat i * Minute, Z.of_nat i * Minute))%Z ErrWaitTimeout
              (NewGoRoutineMap true)) as [grm|] eqn:Hf; [|by vm_compute in Hf].
  exists grm. split; [reflexivity|].
  destruct (backoff_after_failures _ _ _ _ _ Hf) as [(op & Hop & _ & Hd) _].
  exists op. split; [exact Hop|]. rewrite Hd. reflexivity.
Defined.
