(* ===== verification/Api.v ===== *)
(** The calls the controller makes: to the API server, to the clock and the
    libraries, to the two states of the world, and to the volume plugins.
    What answers the first two kinds is outside the repository; [ApiServer]
    states what the program relies on of an API server. *)

From S2P Require Import Prelude GoStrings Types Cache.

#[local] Open Scope string_scope.

(** * Signatures *)

(** The REST calls.  The namespace is the one the source passes.  [Do().Into]
    leaves the result untouched when it returns an error, so an answer is an
    object or an error. *)
Inductive ApiE : Type -> Type :=
| GetPersistentVolumeClaim (namespace name : string) : ApiE (res PersistentVolumeClaim)
| GetPersistentVolume (name : string) : ApiE (res PersistentVolume)
| GetVolumeSnapshot (namespace name : string) : ApiE (res VolumeSnapshot)
| PutVolumeSnapshot (namespace name : string) (body : VolumeSnapshot) : ApiE (res VolumeSnapshot)
| ListVolumeSnapshotData (namespace : string) : ApiE (res (list VolumeSnapshotData))
| GetVolumeSnapshotData (namespace name : string) : ApiE (res VolumeSnapshotData)
| PostVolumeSnapshotData (namespace : string) (body : VolumeSnapshotData)
    : ApiE (res VolumeSnapshotData)
| PutVolumeSnapshotData (namespace name : string) (body : VolumeSnapshotData)
    : ApiE (res VolumeSnapshotData)
| DeleteVolumeSnapshotData (namespace name : string) : ApiE (res unit).

(** An [interface{}] the informer hands to an event handler. *)
Inductive object :=
| OSnapshot (s : VolumeSnapshot)
| OSnapshotData (d : VolumeSnapshotData)
| ODeletedFinalStateUnknown (key : string) (obj : object)
| OOther (type : string).

(** The clock, the sleeping, the identifiers and the copies. *)
Inductive SysE : Type -> Type :=
| Now : SysE Z
| Sleep (d : Z) : SysE unit
| NewUUID : SysE string
| DeepCopy (o : object) : SysE (res object).

(** The methods of the two states of the world. *)
Inductive WorldE : Type -> Type :=
| DswAddSnapshot (s : option VolumeSnapshot) : WorldE (option error)
| DswDeleteSnapshot (snapshotName : string) : WorldE (option error)
| DswGetSnapshots : WorldE (gmap string VolumeSnapshot)
| DswSnapshotExists (snapshotName : string) : WorldE bool
| AswAddSnapshot (s : VolumeSnapshot) : WorldE (option error)
| AswDeleteSnapshot (snapshotName : string) : WorldE (option error)
| AswGetSnapshots : WorldE (gmap string VolumeSnapshot)
| AswGetSnapshot (snapshotName : string) : WorldE (option VolumeSnapshot)
| AswSnapshotExists (snapshotName : string) : WorldE bool.

(** All of them, with the calls [PE] of the volume plugins. *)
Inductive CtlE (PE : Type -> Type) (X : Type) : Type :=
| CallApi (e : ApiE X)
| CallSys (e : SysE X)
| CallWorld (e : WorldE X)
| CallPlugin (e : PE X).
Arguments CallApi {PE X} e.
Arguments CallSys {PE X} e.
Arguments CallWorld {PE X} e.
Arguments CallPlugin {PE X} e.

#[export] Instance SubE_api PE : SubE ApiE (CtlE PE) := fun _ e => CallApi e.
#[export] Instance SubE_sys PE : SubE SysE (CtlE PE) := fun _ e => CallSys e.
#[export] Instance SubE_world PE : SubE WorldE (CtlE PE) := fun _ e => CallWorld e.
#[export] Instance SubE_plugin PE : SubE PE (CtlE PE) | 5 := fun _ e => CallPlugin e.

(** * The states of the world as an environment *)

Record worlds := { dsw : gmap string VolumeSnapshot; asw : gmap string VolumeSnapshot }.

Section world_handler.
Context `{MapRange}.

Definition handle_world : handler WorldE worlds := fun X e w =>
  match e with
  | DswAddSnapshot s =>
      let '(err, d) := DesiredStateOfWorld.AddSnapshot s (dsw w) in
      (err, {| dsw := d; asw := asw w |})
  | DswDeleteSnapshot n =>
      let '(err, d) := DesiredStateOfWorld.DeleteSnapshot n (dsw w) in
      (err, {| dsw := d; asw := asw w |})
  | DswGetSnapshots => (DesiredStateOfWorld.GetSnapshots (dsw w), w)
  | DswSnapshotExists n => (DesiredStateOfWorld.SnapshotExists n (dsw w), w)
  | AswAddSnapshot s =>
      let '(err, a) := ActualStateOfWorld.AddSnapshot s (asw w) in
      (err, {| dsw := dsw w; asw := a |})
  | AswDeleteSnapshot n =>
      let '(err, a) := ActualStateOfWorld.DeleteSnapshot n (asw w) in
      (err, {| dsw := dsw w; asw := a |})
  | AswGetSnapshots => (ActualStateOfWorld.GetSnapshots (asw w), w)
  | AswGetSnapshot n => (ActualStateOfWorld.GetSnapshot n (asw w), w)
  | AswSnapshotExists n => (ActualStateOfWorld.SnapshotExists n (asw w), w)
  end.

Definition worlds_keyed (w : worlds) : Prop := keyed (dsw w) /\ keyed (asw w).

(** No method stores a snapshot under another name than its own. *)
Lemma handle_world_keyed X (e : WorldE X) w :
  worlds_keyed w -> worlds_keyed (handle_world X e w).2.
Proof.
  intros [Hd Ha]. unfold worlds_keyed.
  destruct e as [[s|]|n| |n|s|n| |n|n]; cbn; split;
    first [done | by apply keyed_insert | by apply keyed_delete].
Qed.
End world_handler.

(** * What the program relies on of the API server *)

(** A working API server: what it stores of each kind, by name (and
    namespace), and what each call does to that.  The program puts all
    [VolumeSnapshotData] objects in one namespace, so the namespace is not
    part of their key. *)
Class ApiServer (W : Type) := {
  api : handler ApiE W;
  pvcs : W -> gmap (string * string) PersistentVolumeClaim;
  pvs : W -> gmap string PersistentVolume;
  snaps : W -> gmap (string * string) VolumeSnapshot;
  datas : W -> gmap string VolumeSnapshotData;
}.

Definition answer {A} (what : string) (o : option A) : res A :=
  match o with Some a => Ok a | None => Err (StatusError ReasonNotFound what) end.

Class ApiServerLaws (W : Type) `{!ApiServer W} : Prop := {
  (** Reads answer with what is stored and change nothing. *)
  api_get_pvc w ns n : exists what,
    api _ (GetPersistentVolumeClaim ns n) w = (answer what (pvcs w !! (ns, n)), w);
  api_get_pv w n : exists what,
    api _ (GetPersistentVolume n) w = (answer what (pvs w !! n), w);
  api_get_snapshot w ns n : exists what,
    api _ (GetVolumeSnapshot ns n) w = (answer what (snaps w !! (ns, n)), w);
  api_get_data w ns n : exists what,
    api _ (GetVolumeSnapshotData ns n) w = (answer what (datas w !! n), w);
  api_list_data w ns : exists l,
    api _ (ListVolumeSnapshotData ns) w = (Ok l, w) /\ l ≡ₚ (map_to_list (datas w)).*2;

  (** A write to an object that is stored replaces it, and only it. *)
  api_put_snapshot w ns n b : is_Some (snaps w !! (ns, n)) -> exists o w',
    api _ (PutVolumeSnapshot ns n b) w = (Ok o, w') /\
    snaps w' = <[(ns, n) := b]> (snaps w) /\
    datas w' = datas w /\ pvcs w' = pvcs w /\ pvs w' = pvs w;
  api_put_data w ns n b : is_Some (datas w !! n) -> exists o w',
    api _ (PutVolumeSnapshotData ns n b) w = (Ok o, w') /\
    datas w' = <[n := b]> (datas w) /\
    snaps w' = snaps w /\ pvcs w' = pvcs w /\ pvs w' = pvs w;
  (** A new object is stored under its own name, if the name is free. *)
  api_post_data w ns b : datas w !! Name (vsd_Metadata b) = None -> exists o w',
    api _ (PostVolumeSnapshotData ns b) w = (Ok o, w') /\
    datas w' = <[Name (vsd_Metadata b) := b]> (datas w) /\
    snaps w' = snaps w /\ pvcs w' = pvcs w /\ pvs w' = pvs w;
  (** A deleted object is gone, and only it. *)
  api_delete_data w ns n : is_Some (datas w !! n) -> exists o w',
    api _ (DeleteVolumeSnapshotData ns n) w = (Ok o, w') /\
    datas w' = delete n (datas w) /\
    snaps w' = snaps w /\ pvcs w' = pvcs w /\ pvs w' = pvs w;
}.

(** ** A server that keeps the laws *)

Module MapServer.
Record state := {
  s_pvcs : gmap (string * string) PersistentVolumeClaim;
  s_pvs : gmap string PersistentVolume;
  s_snaps : gmap (string * string) VolumeSnapshot;
  s_datas : gmap string VolumeSnapshotData;
}.

Definition set_snaps m (s : state) : state :=
  {| s_pvcs := s_pvcs s; s_pvs := s_pvs s; s_snaps := m; s_datas := s_datas s |}.
Definition set_datas m (s : state) : state :=
  {| s_pvcs := s_pvcs s; s_pvs := s_pvs s; s_snaps := s_snaps s; s_datas := m |}.

Definition missing {A} (what : string) : res A := Err (StatusError ReasonNotFound what).

Definition handle : handler ApiE state := fun X e s =>
  match e with
  | GetPersistentVolumeClaim ns n => (answer n (s_pvcs s !! (ns, n)), s)
  | GetPersistentVolume n => (answer n (s_pvs s !! n), s)
  | GetVolumeSnapshot ns n => (answer n (s_snaps s !! (ns, n)), s)
  | PutVolumeSnapshot ns n b =>
      match s_snaps s !! (ns, n) with
      | Some _ => (Ok b, set_snaps (<[(ns, n) := b]> (s_snaps s)) s)
      | None => (missing n, s)
      end
  | ListVolumeSnapshotData _ => (Ok (map_to_list (s_datas s)).*2, s)
  | GetVolumeSnapshotData _ n => (answer n (s_datas s !! n), s)
  | PostVolumeSnapshotData _ b =>
      let n := Name (vsd_Metadata b) in
      match s_datas s !! n with
      | Some _ => (Err (StatusError ReasonAlreadyExists n), s)
      | None => (Ok b, set_datas (<[n := b]> (s_datas s)) s)
      end
  | PutVolumeSnapshotData _ n b =>
      match s_datas s !! n with
      | Some _ => (Ok b, set_datas (<[n := b]> (s_datas s)) s)
      | None => (missing n, s)
      end
  | DeleteVolumeSnapshotData _ n =>
      match s_datas s !! n with
      | Some _ => (Ok tt, set_datas (delete n (s_datas s)) s)
      | None => (missing n, s)
      end
  end.

#[export] Instance server : ApiServer state :=
  {| api := handle; pvcs := s_pvcs; pvs := s_pvs; snaps := s_snaps; datas := s_datas |}.

#[export] Instance laws : ApiServerLaws state.
Proof.
  split; intros; cbn in *; try (by eexists); try (by eexists; split);
    repeat match goal with H : is_Some _ |- _ => destruct H as [? ->] end;
    repeat match goal with H : _ = None |- _ => rewrite H end;
    (do 2 eexists; split; [reflexivity|]; repeat split).
Qed.
End MapServer.
