(* ===== verification/Plugin.v ===== *)
(** [pkg/volume/interface.go]: the volume plugin interface. *)

From S2P Require Import Prelude Types.

(** A plugin is what [RegisterPlugin] and [Init] give: its methods over the
    calls [E] of its cloud provider.  A method returns all its results, as in
    Go; a nil pointer is [None]. *)
Record VolumePlugin (E : Type -> Type) := {
  SnapshotCreate : PersistentVolume -> prog E (option VolumeSnapshotDataSource * option error);
  SnapshotDelete : option VolumeSnapshotDataSource -> option PersistentVolume ->
                   prog E (option error);
  SnapshotRestore : option VolumeSnapshotData -> option PersistentVolumeClaim -> string ->
                    gmap string string ->
                    prog E (option PersistentVolumeSource * gmap string string * option error);
  DescribeSnapshot : option VolumeSnapshotData -> prog E (bool * option error);
  VolumeDelete : option PersistentVolume -> prog E (option error);
}.
Arguments SnapshotCreate {E} v.
Arguments SnapshotDelete {E} v.
Arguments SnapshotRestore {E} v.
Arguments DescribeSnapshot {E} v.
Arguments VolumeDelete {E} v.

(** * The interface as calls *)

(** A plugin seen from its clients: each method is one call, answered by
    whatever implements the plugin.  The theorems about the snapshotter and
    the provisioner use these, so they hold for every plugin. *)
Inductive PluginE : Type -> Type :=
| PSnapshotCreate (plugin : string) (pv : PersistentVolume)
    : PluginE (option VolumeSnapshotDataSource * option error)
| PSnapshotDelete (plugin : string) (src : option VolumeSnapshotDataSource)
    (pv : option PersistentVolume) : PluginE (option error)
| PSnapshotRestore (plugin : string) (data : option VolumeSnapshotData)
    (pvc : option PersistentVolumeClaim) (pvName : string) (parameters : gmap string string)
    : PluginE (option PersistentVolumeSource * gmap string string * option error)
| PDescribeSnapshot (plugin : string) (data : option VolumeSnapshotData)
    : PluginE (bool * option error)
| PVolumeDelete (plugin : string) (pv : option PersistentVolume) : PluginE (option error).

Definition plugin_client (name : string) : VolumePlugin PluginE :=
  {| SnapshotCreate pv := trigger (PSnapshotCreate name pv);
     SnapshotDelete src pv := trigger (PSnapshotDelete name src pv);
     SnapshotRestore d pvc pvName params := trigger (PSnapshotRestore name d pvc pvName params);
     DescribeSnapshot d := trigger (PDescribeSnapshot name d);
     VolumeDelete pv := trigger (PVolumeDelete name pv) |}.

(** The plugins registered under [names]. *)
Definition clients (names : list string) : gmap string (VolumePlugin PluginE) :=
  list_to_map ((fun n => (n, plugin_client n)) <$> names).

Lemma clients_lookup names n :
  clients names !! n = if decide (n ∈ names) then Some (plugin_client n) else None.
Proof.
  unfold clients. induction names as [|m names IH]; cbn; [done|].
  rewrite lookup_insert, IH.
  repeat case_decide; subst; set_solver.
Qed.

Lemma clients_Some names n p :
  clients names !! n = Some p -> n ∈ names /\ p = plugin_client n.
Proof. rewrite clients_lookup. case_decide; naive_solver. Qed.

Ltac go_hook ::=
  match goal with
  | H : clients _ !! _ = Some _ |- _ => apply clients_Some in H as [? ->]
  end.
