(* ===== verification/Snapshotter.v ===== *)
(** [pkg/controller/snapshotter/snapshotter.go]: the operations that create,
    check and delete snapshots.  The closures given to the goroutine map are
    the values of [opfunc] and [opfunc_body] their bodies; the calls to the
    API server, the plugins and the actual state of the world are those of
    [Api] and [Plugin].  Log messages are not modelled. *)

From S2P Require Import Prelude GoStrings Types Cache GoRoutineMap Api Plugin.
From Stdlib Require Import Lia.

#[local] Open Scope string_scope.

Definition defaultExponentialBackOffOnError : bool := true.

Definition snapshotOpCreatePrefix : string := "create".
Definition snapshotOpDeletePrefix : string := "delete".
Definition snapshotOpPromotePrefix : string := "promote".
Definition createVolumeSnapshotDataRetryCount : nat := 5.
Definition createVolumeSnapshotDataInterval : Z := 10 * Second.

(** The operations started in a goroutine, with what their closures hold. *)
Inductive opfunc :=
| SnapshotCreateFunc (snapshotName : string) (snapshot : VolumeSnapshot)
| SnapshotDeleteFunc (snapshotName : string) (snapshot : VolumeSnapshot)
| SnapshotPromoteFunc (snapshotName : string) (snapshot : VolumeSnapshot).

(** Does a [VolumeSnapshotData] refer to the snapshot of this name? *)
Definition refers_to (snapshotName : string) (d : VolumeSnapshotData) : bool :=
  match VolumeSnapshotRef (vsd_Spec d) with
  | Some ref =>
      bool_decide (ref_Namespace ref +:+ "/" +:+ ref_Name ref = snapshotName)
      || bool_decide (ref_Name ref = snapshotName)
  | None => false
  end.

(** Is the first condition of the object [Ready]? *)
Definition data_ready (d : VolumeSnapshotData) : bool :=
  match vsds_Conditions (vsd_Status d) with
  | [] => false
  | c :: _ => bool_decide (vsdc_Type c = VolumeSnapshotDataConditionReady)
  end.

Definition data_condition (type message : string) (time : Z) : VolumeSnapshotDataCondition :=
  {| vsdc_Type := type; vsdc_Status := ConditionTrue; vsdc_LastTransitionTime := time;
     vsdc_Reason := ""; vsdc_Message := message |}.

Definition ready_condition (time : Z) : VolumeSnapshotCondition :=
  {| vsc_Type := VolumeSnapshotConditionReady; vsc_Status := ConditionTrue;
     vsc_LastTransitionTime := time; vsc_Reason := "";
     vsc_Message := "Snapshot created succsessfully" |}.

Section snapshotter.
Context {PE : Type -> Type} (volumePlugins : gmap string (VolumePlugin PE)).
#[local] Abbreviation M A := (prog (CtlE PE) A).

Definition getPVFromVolumeSnapshot (snapshotName : string) (snapshot : VolumeSnapshot)
    : M (res PersistentVolume) :=
  let pvcName := PersistentVolumeClaimName (vs_Spec snapshot) in
  if bool_decide (pvcName = "") then
    fail (errorf "The PVC name is not specified in snapshot %s" [snapshotName])
  else
    match GetNameAndNameSpaceFromSnapshotName snapshotName with
    | Err _ => fail (errorf "Snapshot %s is malformed" [snapshotName])
    | Ok (snapNameSpace, _) =>
        let? pvc := trigger (GetPersistentVolumeClaim snapNameSpace pvcName)
          else (fun err => Errorf "Failed to retrieve PVC %s from the API server: %q"
                                  [FStr pvcName; FErr (Some err)]) in
        if bool_decide (pvc_Phase pvc <> ClaimBound) then
          fail (errorf "The PVC %s not yet bound to a PV, will not attempt to take a snapshot yet." [])
        else
          let pvName := pvc_VolumeName pvc in
          let? pv := trigger (GetPersistentVolume pvName)
            else (fun err => Errorf "Failed to retrieve PV %s from the API server: %q"
                                    [FStr pvName; FErr (Some err)]) in
          ok pv
    end.

Definition getSnapshotDataFromSnapshotName (snapshotName : string)
    : M (option VolumeSnapshotData) :=
  let! list := trigger (ListVolumeSnapshotData NamespaceDefault) in
  match list with
  | Err _ => Done None
  | Ok [] => Done None
  | Ok items => Done (List.find (refers_to snapshotName) items)
  end.

Definition UpdateVolumeSnapshotData (snapshotDataName : string)
    (status : list VolumeSnapshotDataCondition) : M (res unit) :=
  let! got := trigger (GetVolumeSnapshotData NamespaceDefault snapshotDataName) in
  (* the error of the read is overwritten by the next assignment *)
  let snapshotDataObj := match got with Ok d => d | Err _ => zero_VolumeSnapshotData end in
  let? objCopy := trigger (DeepCopy (OSnapshotData snapshotDataObj))
    else (fun err => Errorf "Error copying snapshot data object %s object from API server: %v"
                            [FStr snapshotDataName; FErr (Some err)]) in
  match objCopy with
  | OSnapshotData snapshotDataCopy =>
      let? _ := trigger (PutVolumeSnapshotData NamespaceDefault snapshotDataName
                           (set_vsd_conditions status snapshotDataCopy))
        else (fun err => Errorf "Error updating snapshotdata object %s on the API server: %v"
                                [FStr snapshotDataName; FErr (Some err)]) in
      ok tt
  | _ => fail (Errorf "Error: expecting type VolumeSnapshotData but received type %T" [FDump])
  end.

Definition UpdateVolumeSnapshot (snapshotName : string) : M (res unit) :=
  match GetNameAndNameSpaceFromSnapshotName snapshotName with
  | Err err =>
      fail (Errorf "Error getting namespace and name from VolumeSnapshot name %s: %v"
                   [FStr snapshotName; FErr (Some err)])
  | Ok (snapNameSpace, snapName) =>
      let! got := trigger (GetVolumeSnapshot snapNameSpace snapName) in
      (* the error of the read is overwritten by the next assignment *)
      let snapshotObj := match got with Ok s => s | Err _ => zero_VolumeSnapshot end in
      let? objCopy := trigger (DeepCopy (OSnapshot snapshotObj))
        else (fun err => Errorf "Error copying snapshot object %s object from API server: %v"
                                [FStr snapshotName; FErr (Some err)]) in
      match objCopy with
      | OSnapshot snapshotCopy =>
          let! found := getSnapshotDataFromSnapshotName snapshotName in
          match found with
          | None => fail (errorf "Error getting VolumeSnapshotData for VolumeSnapshot %s" [snapshotName])
          | Some snapshotDataObj =>
              let! now := trigger Now in
              let body := set_vs_binding (Name (vsd_Metadata snapshotDataObj))
                                         [ready_condition now] snapshotCopy in
              let? _ := trigger (PutVolumeSnapshot snapNameSpace snapName body)
                else (fun err => Errorf "Error updating snapshot object %s on the API server: %v"
                                        [FStr snapshotName; FErr (Some err)]) in
              ok tt
          end
      | _ => fail (Errorf "Error: expecting type VolumeSnapshot but received type %T" [FDump])
      end
  end.

(** The choice of the plugin, as [takeSnapshot], [deleteSnapshot] and
    [updateSnapshotDataStatus] all make it. *)
Definition plugin_of (spec : PersistentVolumeSpec) : res (VolumePlugin PE) :=
  let volumeType := GetSupportedVolumeFromPVSpec spec in
  if bool_decide (String.length volumeType = 0) then
    Err (Errorf "unsupported volume type found in PV %#v" [FDump])
  else
    match volumePlugins !! volumeType with
    | None => Err (Errorf "%s is not supported volume for %#v" [FStr volumeType; FDump])
    | Some plugin => Ok plugin
    end.

Definition updateSnapshotDataStatus (snapshotName : string) (snapshot : VolumeSnapshot)
    : M (res unit) :=
  let snapshotDataName := SnapshotDataName (vs_Spec snapshot) in
  let? snapshotDataObj := trigger (GetVolumeSnapshotData NamespaceDefault snapshotDataName) in
  let? _ :=
    (if data_ready snapshotDataObj then ok tt
     else
       let? pv := getPVFromVolumeSnapshot snapshotName snapshot in
       match plugin_of (pv_Spec pv) with
       | Err err => fail err
       | Ok plugin =>
           let! described := lift (DescribeSnapshot plugin (Some snapshotDataObj)) in
           let '(completed, err) := described in
           if negb completed then
             fail (Errorf "snapshot is not completed yet: %v" [FErr err])
           else
             let! now := trigger Now in
             let status := [data_condition VolumeSnapshotDataConditionReady
                              "Snapshot data created succsessfully" now] in
             let? _ := UpdateVolumeSnapshotData snapshotDataName status
               else (fun err => Errorf "Error update snapshotData object %s: %v"
                                       [FStr snapshotName; FErr (Some err)]) in
             ok tt
       end) in
  let! _ := trigger (AswAddSnapshot snapshot) in
  ok tt.

(** An error of the plugin is logged and turned into [(nil, nil)]. *)
Definition takeSnapshot (pv : PersistentVolume) : M (res (option VolumeSnapshotDataSource)) :=
  match plugin_of (pv_Spec pv) with
  | Err err => fail err
  | Ok plugin =>
      let! created := lift (SnapshotCreate plugin pv) in
      let '(snap, err) := created in
      match err with
      | Some _ => ok None
      | None => ok snap
      end
  end.

Definition deleteSnapshot (spec : PersistentVolumeSpec) (source : VolumeSnapshotDataSource)
    : M (res unit) :=
  match plugin_of spec with
  | Err err => fail err
  | Ok plugin =>
      let! err := lift (SnapshotDelete plugin (Some source) None) in
      match err with
      | Some err => fail (Errorf "failed to delete snapshot %#v, err: %v" [FDump; FErr (Some err)])
      | None => ok tt
      end
  end.

(** The loop that creates the object: at most [tries] attempts, with a
    pause after each failed one; the answer is that of the last attempt. *)
Fixpoint postSnapshotData (tries : nat) (data : VolumeSnapshotData) : M (option error) :=
  match tries with
  | O => Done None
  | S tries' =>
      let! result := trigger (PostVolumeSnapshotData NamespaceDefault data) in
      match result with
      | Ok _ => Done None
      | Err err =>
          let! _ := trigger (Sleep createVolumeSnapshotDataInterval) in
          match tries' with
          | O => Done (Some err)
          | S _ => postSnapshotData tries' data
          end
      end
  end.

(** The object made for a snapshot that was taken. *)
Definition new_snapshot_data (snapName snapshotName pvName : string)
    (source : VolumeSnapshotDataSource) : VolumeSnapshotData :=
  {| vsd_TypeMeta := zero_TypeMeta;
     vsd_Metadata := {| Name := snapName; Namespace := ""; SelfLink := "";
                        Labels := ∅; Annotations := ∅ |};
     vsd_Spec :=
       {| dspec_Source := source;
          VolumeSnapshotRef := Some {| ref_Kind := "VolumeSnapshot"; ref_Namespace := "";
                                       ref_Name := snapshotName |};
          PersistentVolumeRef := Some {| ref_Kind := "PersistentVolume"; ref_Namespace := "";
                                         ref_Name := pvName |} |};
     vsd_Status :=
       {| vsds_CreationTimestamp := zero_Time;
          vsds_Conditions := [data_condition VolumeSnapshotDataConditionPending
                                "Snapshot data is being created" zero_Time] |} |}.

Definition getSnapshotCreateFunc (snapshotName : string) (snapshot : VolumeSnapshot)
    : M (res unit) :=
  if bool_decide (SnapshotDataName (vs_Spec snapshot) <> "") then
    updateSnapshotDataStatus snapshotName snapshot
  else
    let? pv := getPVFromVolumeSnapshot snapshotName snapshot in
    let pvName := Name (pv_ObjectMeta pv) in
    let! taken := takeSnapshot pv in
    match taken with
    | Err err => fail (Errorf "Failed to take snapshot of the volume %s: %q"
                              [FStr pvName; FErr (Some err)])
    | Ok None => fail (Errorf "Failed to take snapshot of the volume %s: %q"
                              [FStr pvName; FErr None])
    | Ok (Some source) =>
        let! uuid := trigger NewUUID in
        let snapName := "k8s-volume-snapshot-" +:+ uuid in
        let data := new_snapshot_data snapName snapshotName pvName source in
        let! err := postSnapshotData createVolumeSnapshotDataRetryCount data in
        match err with
        | Some _ => fail (errorf "Failed to create the VolumeSnapshotData %s for snapshot %s"
                                 [snapName; snapshotName])
        | None =>
            let? _ := UpdateVolumeSnapshot snapshotName
              else (fun _ => errorf "Failed to update VolumeSnapshot for snapshot %s" [snapshotName]) in
            ok tt
        end
    end.

Definition getSnapshotDeleteFunc (snapshotName : string) (snapshot : VolumeSnapshot)
    : M (res unit) :=
  let! found := getSnapshotDataFromSnapshotName snapshotName in
  match found with
  | None => fail (errorf "Error getting VolumeSnapshotData for VolumeSnapshot %s" [snapshotName])
  | Some snapshotDataObj =>
      let? pv := getPVFromVolumeSnapshot snapshotName snapshot in
      let? _ := deleteSnapshot (pv_Spec pv) (dspec_Source (vsd_Spec snapshotDataObj))
        else (fun err => Errorf "Failed to delete snapshot %s: %q"
                                [FStr snapshotName; FErr (Some err)]) in
      let snapshotDataName := Name (vsd_Metadata snapshotDataObj) in
      let? _ := trigger (DeleteVolumeSnapshotData NamespaceDefault snapshotDataName)
        else (fun err => Errorf "Failed to delete VolumeSnapshotData %s from API server: %q"
                                [FStr snapshotDataName; FErr (Some err)]) in
      let! _ := trigger (AswDeleteSnapshot snapshotName) in
      ok tt
  end.

Definition getSnapshotPromoteFunc (snapshotName : string) (snapshot : VolumeSnapshot)
    : M (res unit) :=
  ok tt.

(** What a started goroutine runs. *)
Definition opfunc_body (f : opfunc) : M (res unit) :=
  match f with
  | SnapshotCreateFunc n s => getSnapshotCreateFunc n s
  | SnapshotDeleteFunc n s => getSnapshotDeleteFunc n s
  | SnapshotPromoteFunc n s => getSnapshotPromoteFunc n s
  end.
End snapshotter.

(** * Starting the operations *)

(** [vs.runningOperation.Run(operationName, ...)]; its error is only
    logged. *)
Inductive OpE : Type -> Type :=
| RunOperation (operationName : string) (f : opfunc) : OpE (option error).

(** The calls of the control loops: those above and the starts. *)
Inductive LoopE (PE : Type -> Type) (X : Type) : Type :=
| CallCtl (e : CtlE PE X)
| CallOp (e : OpE X).
Arguments CallCtl {PE X} e.
Arguments CallOp {PE X} e.

#[export] Instance SubE_ctl PE : SubE (CtlE PE) (LoopE PE) := fun _ e => CallCtl e.
#[export] Instance SubE_op PE : SubE OpE (LoopE PE) := fun _ e => CallOp e.
#[export] Instance SubE_loop_api PE : SubE ApiE (LoopE PE) := fun _ e => CallCtl (CallApi e).
#[export] Instance SubE_loop_sys PE : SubE SysE (LoopE PE) := fun _ e => CallCtl (CallSys e).
#[export] Instance SubE_loop_world PE : SubE WorldE (LoopE PE) := fun _ e => CallCtl (CallWorld e).

Definition operation_name (prefix snapshotName : string) (snapshot : VolumeSnapshot) : string :=
  prefix +:+ snapshotName +:+ PersistentVolumeClaimName (vs_Spec snapshot).

(** The snapshotter's own state: the map of its running operations. *)
Definition NewVolumeSnapshotter : goRoutineMap := NewGoRoutineMap defaultExponentialBackOffOnError.

Section start.
Context {PE : Type -> Type}.
#[local] Abbreviation M A := (prog (LoopE PE) A).

Definition CreateVolumeSnapshot (snapshot : VolumeSnapshot) : M unit :=
  let snapshotName := MakeSnapshotName (Namespace (vs_Metadata snapshot)) (Name (vs_Metadata snapshot)) in
  let operationName := operation_name snapshotOpCreatePrefix snapshotName snapshot in
  let! _ := trigger (RunOperation operationName (SnapshotCreateFunc snapshotName snapshot)) in
  Done tt.

Definition DeleteVolumeSnapshot (snapshot : VolumeSnapshot) : M unit :=
  let snapshotName := MakeSnapshotName (Namespace (vs_Metadata snapshot)) (Name (vs_Metadata snapshot)) in
  let operationName := operation_name snapshotOpDeletePrefix snapshotName snapshot in
  let! _ := trigger (RunOperation operationName (SnapshotDeleteFunc snapshotName snapshot)) in
  Done tt.

Definition PromoteVolumeSnapshotToPV (snapshot : VolumeSnapshot) : M unit :=
  let snapshotName := MakeSnapshotName (Namespace (vs_Metadata snapshot)) (Name (vs_Metadata snapshot)) in
  let operationName := operation_name snapshotOpPromotePrefix snapshotName snapshot in
  let! _ := trigger (RunOperation operationName (SnapshotPromoteFunc snapshotName snapshot)) in
  Done tt.
End start.

(** * The calls made *)

Abbreviation ctl_event := (event (CtlE PluginE)).
Abbreviation EvApi e x := (Event (E:=CtlE PluginE) (CallApi e) x).
Abbreviation EvSys e x := (Event (E:=CtlE PluginE) (CallSys e) x).
Abbreviation EvWorld e x := (Event (E:=CtlE PluginE) (CallWorld e) x).
Abbreviation EvPlugin e x := (Event (E:=CtlE PluginE) (CallPlugin e) x).

Definition is_asw_add (ev : ctl_event) : bool :=
  match ev with Event (CallWorld (AswAddSnapshot _)) _ => true | _ => false end.
Definition is_asw_delete (ev : ctl_event) : bool :=
  match ev with Event (CallWorld (AswDeleteSnapshot _)) _ => true | _ => false end.
Definition is_data_delete (ev : ctl_event) : bool :=
  match ev with Event (CallApi (DeleteVolumeSnapshotData _ _)) _ => true | _ => false end.
Definition is_data_post (ev : ctl_event) : bool :=
  match ev with Event (CallApi (PostVolumeSnapshotData _ _)) _ => true | _ => false end.
Definition is_plugin_create (ev : ctl_event) : bool :=
  match ev with Event (CallPlugin (PSnapshotCreate _ _)) _ => true | _ => false end.

(** A deletion the plugin reported as done. *)
Definition is_plugin_deleted (ev : ctl_event) : bool :=
  match ev with
  | Event (CallPlugin p) x =>
      match p in PluginE X return X -> bool with
      | PSnapshotDelete _ _ _ => fun err => match err with None => true | Some _ => false end
      | _ => fun _ => false
      end x
  | _ => false
  end.

(** Failed attempts to create the data object, each followed by a pause. *)
Definition failed_posts (data : VolumeSnapshotData) (errs : list error) : list ctl_event :=
  e ← errs; [EvApi (PostVolumeSnapshotData NamespaceDefault data) (Err e);
             EvSys (Sleep createVolumeSnapshotDataInterval) tt].

#[local] Arguments List.find : simpl never.
#[local] Arguments postSnapshotData : simpl never.
#[local] Arguments app : simpl nomatch.

Lemma failed_posts_cons data e errs :
  failed_posts data (e :: errs) =
  EvApi (PostVolumeSnapshotData NamespaceDefault data) (Err e)
  :: EvSys (Sleep createVolumeSnapshotDataInterval) tt :: failed_posts data errs.
Proof. reflexivity. Qed.

Lemma count_failed_posts data errs :
  count is_data_post (failed_posts data errs) = length errs /\
  count is_plugin_create (failed_posts data errs) = 0 /\
  count is_asw_add (failed_posts data errs) = 0.
Proof. induction errs as [|e errs (IH1 & IH2 & IH3)]; cbn; auto. Qed.

Lemma postSnapshotData_S {PE} tries data :
  postSnapshotData (PE:=PE) (S tries) data =
  let! result := trigger (PostVolumeSnapshotData NamespaceDefault data) in
  match result with
  | Ok _ => Done None
  | Err err =>
      let! _ := trigger (Sleep createVolumeSnapshotDataInterval) in
      match tries with
      | O => Done (Some err)
      | S _ => postSnapshotData tries data
      end
  end.
Proof. reflexivity. Qed.

(** The retry loop, as its callers use it: it ends after fewer failures than
    attempts with a success, or with all attempts failed. *)
Lemma always_post {A} tries data (f : option error -> prog _ A) Q tr :
  0 < tries ->
  (forall errs obj, length errs < tries ->
     always (f None) Q (tr ++ failed_posts data errs
                           ++ [EvApi (PostVolumeSnapshotData NamespaceDefault data) (Ok obj)])) ->
  (forall errs e, S (length errs) = tries ->
     always (f (Some e)) Q (tr ++ failed_posts data (errs ++ [e]))) ->
  always (bind (postSnapshotData tries data) f) Q tr.
Proof.
  revert tr; induction tries as [|tries IH]; intros tr Hpos Hok Hfail; [lia|].
  rewrite postSnapshotData_S. cbn. intros [obj|e].
  - apply (Hok [] obj). cbn; lia.
  - cbn. intros []. destruct tries as [|tries].
    + specialize (Hfail [] e eq_refl). cbn in *. by rewrite <- app_assoc.
    + apply IH; [lia| |].
      * intros errs obj Hlen. specialize (Hok (e :: errs) obj).
        rewrite failed_posts_cons in Hok. rewrite <- !app_assoc. apply Hok. cbn; lia.
      * intros errs e' Hlen. specialize (Hfail (e :: errs) e').
        rewrite <- app_comm_cons, failed_posts_cons in Hfail.
        rewrite <- !app_assoc. apply Hfail. cbn; lia.
Qed.

(** * Theorems *)

#[local] Ltac unfold_ops :=
  unfold getSnapshotDeleteFunc, getSnapshotCreateFunc, updateSnapshotDataStatus,
    getSnapshotDataFromSnapshotName, getPVFromVolumeSnapshot, deleteSnapshot, takeSnapshot,
    plugin_of.

(** The calls of a deletion that succeeded, and what one that failed did not
    do. *)
Lemma deletion_success names snapshotName snapshot :
  always (getSnapshotDeleteFunc (clients names) snapshotName snapshot)
    (fun tr o =>
       match o with
       | Returned (Ok _) =>
           exists items d ns nm claim pv err,
             List.find (refers_to snapshotName) items = Some d /\
             GetNameAndNameSpaceFromSnapshotName snapshotName = Ok (ns, nm) /\
             pvc_Phase claim = ClaimBound /\
             GetSupportedVolumeFromPVSpec (pv_Spec pv) ∈ names /\
             tr = [EvApi (ListVolumeSnapshotData NamespaceDefault) (Ok items);
                   EvApi (GetPersistentVolumeClaim ns
                            (PersistentVolumeClaimName (vs_Spec snapshot))) (Ok claim);
                   EvApi (GetPersistentVolume (pvc_VolumeName claim)) (Ok pv);
                   EvPlugin (PSnapshotDelete (GetSupportedVolumeFromPVSpec (pv_Spec pv))
                               (Some (dspec_Source (vsd_Spec d))) None) None;
                   EvApi (DeleteVolumeSnapshotData NamespaceDefault (Name (vsd_Metadata d))) (Ok tt);
                   EvWorld (AswDeleteSnapshot snapshotName) err]
       | _ => True
       end) [].
Proof.
  unfold_ops. go_exec; try done.
  all: subst; repeat match goal with u : unit |- _ => destruct u end.
  all: do 7 eexists; split_and!; try done.
Qed.

Lemma deletion_failure names snapshotName snapshot :
  always (getSnapshotDeleteFunc (clients names) snapshotName snapshot)
    (fun tr o =>
       match o with
       | Returned (Ok _) => True
       | Returned (Err _) =>
           forallb (fun e => negb (is_asw_delete e)) tr = true /\
           guarded is_plugin_deleted is_data_delete tr = true
       | Panicked _ => False
       end) [].
Proof. unfold_ops. go_exec; try done. all: split; reflexivity. Qed.

(** C2: A snapshot deletion.  Whatever the environment answers, the operation
    does not panic; when it succeeds it has, in this order, found the data
    object that refers to the snapshot, found the volume through the bound
    claim, had the volume's plugin delete the backend snapshot, deleted that
    data object, and only then forgotten the snapshot; when it fails the
    snapshot is still in the actual state, and the data object was not touched
    unless the plugin had already deleted the backend snapshot. *)
Theorem getSnapshotDeleteFunc_order names snapshotName snapshot :
  always (getSnapshotDeleteFunc (clients names) snapshotName snapshot)
    (fun tr o =>
       match o with
       | Returned (Ok _) =>
           exists items d ns nm claim pv err,
             List.find (refers_to snapshotName) items = Some d /\
             GetNameAndNameSpaceFromSnapshotName snapshotName = Ok (ns, nm) /\
             pvc_Phase claim = ClaimBound /\
             GetSupportedVolumeFromPVSpec (pv_Spec pv) ∈ names /\
             tr = [EvApi (ListVolumeSnapshotData NamespaceDefault) (Ok items);
                   EvApi (GetPersistentVolumeClaim ns
                            (PersistentVolumeClaimName (vs_Spec snapshot))) (Ok claim);
                   EvApi (GetPersistentVolume (pvc_VolumeName claim)) (Ok pv);
                   EvPlugin (PSnapshotDelete (GetSupportedVolumeFromPVSpec (pv_Spec pv))
                               (Some (dspec_Source (vsd_Spec d))) None) None;
                   EvApi (DeleteVolumeSnapshotData NamespaceDefault (Name (vsd_Metadata d))) (Ok tt);
                   EvWorld (AswDeleteSnapshot snapshotName) err]
       | Returned (Err _) =>
           forallb (fun e => negb (is_asw_delete e)) tr = true /\
           guarded is_plugin_deleted is_data_delete tr = true
       | Panicked _ => False
       end) [].
Proof.
  eapply always_impl; [|apply (always_and _ _ _ _ (deletion_success _ _ _) (deletion_failure _ _ _))].
  intros tr [[]|why]; by intros [? ?].
Qed.

(** The retries of the creation of a data object.  Whatever the API
    server answers, the loop ends: either after fewer failures than attempts,
    each followed by one pause, with the first success and no error, or after
    all its attempts failed, with the error of the last one. *)
Theorem postSnapshotData_retries tries data :
  always (postSnapshotData (PE:=PluginE) (S tries) data)
    (fun tr o =>
       (exists errs obj, length errs <= tries /\ o = Returned None /\
          tr = (failed_posts data errs
                ++ [EvApi (PostVolumeSnapshotData NamespaceDefault data) (Ok obj)])%list) \/
       (exists errs e, length errs = tries /\ o = Returned (Some e) /\
          tr = failed_posts data (errs ++ [e]))) [].
Proof.
  apply bind_Done, always_post; [lia| |].
  - intros errs obj Hlen. left. exists errs, obj. split_and!; [lia|done|done].
  - intros errs e Hlen. right. exists errs, e. split_and!; [lia|done|done].
Qed.

(** Names of operations.  Operations of different kinds never have the
    same name; two snapshots with the same claim have different operation
    names; but the name of the claim is appended without a separator, so two
    different snapshots may share an operation name, and then only one of
    their operations can run at a time. *)
Theorem operation_names :
  (forall n n' s s', operation_name snapshotOpCreatePrefix n s
                     <> operation_name snapshotOpDeletePrefix n' s') /\
  (forall p n n' s s',
     PersistentVolumeClaimName (vs_Spec s) = PersistentVolumeClaimName (vs_Spec s') ->
     operation_name p n s = operation_name p n' s' -> n = n') /\
  (exists s s', snapshot_key s <> snapshot_key s' /\
     operation_name snapshotOpCreatePrefix (snapshot_key s) s =
     operation_name snapshotOpCreatePrefix (snapshot_key s') s').
Proof.
  unfold operation_name. split_and!.
  - by intros.
  - intros p n n' s s' -> Heq. by apply string_app_inj_l, string_app_inj_r in Heq.
  - pose (snap name claim :=
            {| vs_TypeMeta := zero_TypeMeta;
               vs_Metadata := {| Name := name; Namespace := "ns"; SelfLink := "";
                                 Labels := ∅; Annotations := ∅ |};
               vs_Spec := {| PersistentVolumeClaimName := claim; SnapshotDataName := "" |};
               vs_Status := {| vss_CreationTimestamp := 0; vss_Conditions := [] |} |}).
    exists (snap "a" "bc"), (snap "ab" "c"). by split.
Qed.

(** The calls of a successful [UpdateVolumeSnapshot]. *)
Definition update_calls (snapshotName ns nm : string) (got : res VolumeSnapshot)
    (copy : VolumeSnapshot) (items : list VolumeSnapshotData) (d : VolumeSnapshotData)
    (now : Z) (stored : VolumeSnapshot) : list ctl_event :=
  [EvApi (GetVolumeSnapshot ns nm) got;
   EvSys (DeepCopy (OSnapshot (match got with Ok s => s | Err _ => zero_VolumeSnapshot end)))
         (Ok (OSnapshot copy));
   EvApi (ListVolumeSnapshotData NamespaceDefault) (Ok items);
   EvSys Now now;
   EvApi (PutVolumeSnapshot ns nm
            (set_vs_binding (Name (vsd_Metadata d)) [ready_condition now] copy)) (Ok stored)].

(** [UpdateVolumeSnapshot], as its callers use it. *)
Lemma always_UpdateVolumeSnapshot {A} snapshotName
    (f : res unit -> prog (CtlE PluginE) A) Q tr :
  (forall e new, count is_data_post new = 0 -> count is_plugin_create new = 0 ->
     count is_asw_add new = 0 -> always (f (Err e)) Q (tr ++ new)) ->
  (forall ns nm got copy items d now stored,
     GetNameAndNameSpaceFromSnapshotName snapshotName = Ok (ns, nm) ->
     List.find (refers_to snapshotName) items = Some d ->
     always (f (Ok tt)) Q
       (tr ++ update_calls snapshotName ns nm got copy items d now stored)) ->
  always (bind (UpdateVolumeSnapshot snapshotName) f) Q tr.
Proof.
  intros Herr Hok. unfold UpdateVolumeSnapshot, getSnapshotDataFromSnapshotName.
  go_exec; rewrite <- ?app_assoc; try (apply Herr; reflexivity).
  all: first [ by rewrite <- (app_nil_r tr); apply (Herr _ []) | subst; cbn; by eapply Hok ].
Qed.

(** The calls of a creation that succeeded. *)
Definition created_by (names : list string) (snapshotName : string) (snapshot : VolumeSnapshot)
    (tr : list ctl_event) : Prop :=
  exists ns nm claim pv source uuid errs obj got copy items d now stored,
    let data := new_snapshot_data ("k8s-volume-snapshot-" +:+ uuid) snapshotName
                  (Name (pv_ObjectMeta pv)) source in
    GetNameAndNameSpaceFromSnapshotName snapshotName = Ok (ns, nm) /\
    pvc_Phase claim = ClaimBound /\
    GetSupportedVolumeFromPVSpec (pv_Spec pv) ∈ names /\
    length errs < 5 /\
    List.find (refers_to snapshotName) items = Some d /\
    tr = ([EvApi (GetPersistentVolumeClaim ns
                   (PersistentVolumeClaimName (vs_Spec snapshot))) (Ok claim);
          EvApi (GetPersistentVolume (pvc_VolumeName claim)) (Ok pv);
          EvPlugin (PSnapshotCreate (GetSupportedVolumeFromPVSpec (pv_Spec pv)) pv)
                   (Some source, None);
          EvSys NewUUID uuid]
         ++ failed_posts data errs
         ++ [EvApi (PostVolumeSnapshotData NamespaceDefault data) (Ok obj)]
         ++ update_calls snapshotName ns nm got copy items d now stored)%list.

(** The calls of a creation that succeeded, and what one that failed did
    at most. *)
Lemma creation_outcome names snapshotName snapshot :
  SnapshotDataName (vs_Spec snapshot) = "" ->
  always (getSnapshotCreateFunc (clients names) snapshotName snapshot)
    (fun tr o =>
       match o with
       | Returned (Ok _) => created_by names snapshotName snapshot tr
       | Returned (Err _) =>
           count is_plugin_create tr <= 1 /\ count is_data_post tr <= 5 /\
           count is_asw_add tr = 0
       | Panicked _ => False
       end) [].
Proof.
  intros Hnew. unfold getSnapshotCreateFunc. rewrite bool_decide_eq_false_2 by (rewrite Hnew; by intros H).
  unfold_ops. go_exec; try (split_and!; cbn; lia).
  all: subst; apply always_post; unfold createVolumeSnapshotDataRetryCount; [lia| |].
  - intros errs obj Hlen. apply always_UpdateVolumeSnapshot.
    + intros e new Hpost Hcreate Hadd. cbn -[failed_posts].
      destruct (count_failed_posts (new_snapshot_data ("k8s-volume-snapshot-" +:+ x2)
        snapshotName (Name (pv_ObjectMeta a1)) v) errs) as (Hc1 & Hc2 & Hc3).
      rewrite !count_app; cbn; rewrite ?Hpost, ?Hcreate, ?Hadd, ?Hc1, ?Hc2, ?Hc3; lia.
    + intros ns nm got copy items d now stored Hname Hfind. rewrite Heqr in Hname. injection Hname as <- <-. cbn -[failed_posts update_calls].
      do 14 eexists; split_and!; try done. rewrite <- app_assoc; reflexivity.
  - intros errs e Hlen. cbn -[failed_posts].
    destruct (count_failed_posts (new_snapshot_data ("k8s-volume-snapshot-" +:+ x2)
        snapshotName (Name (pv_ObjectMeta a1)) v) (errs ++ [e])) as (Hc1 & Hc2 & Hc3).
    rewrite ?Hc1, ?Hc2, ?Hc3, ?length_app; cbn; lia.
Qed.

(** C3: A snapshot creation.  For a snapshot that has no data object yet,
    whatever the environment answers, the operation does not panic, asks the
    plugin for at most one backend snapshot, and never touches the actual
    state.  When it succeeds it has, in this order, found the bound volume, had
    the volume's plugin take the snapshot, stored an object of a fresh name that
    records the plugin's source, the snapshot and the volume, after fewer than
    five failed attempts, and written the snapshot back with the name of a data
    object that refers to it and the Ready condition.  This is not the order
    of the comment above the function, by which the data object comes before
    the backend's snapshot and the snapshot then enters the actual state. *)
Theorem getSnapshotCreateFunc_binds names snapshotName snapshot :
  SnapshotDataName (vs_Spec snapshot) = "" ->
  always (getSnapshotCreateFunc (clients names) snapshotName snapshot)
    (fun tr o =>
       match o with
       | Returned (Ok _) =>
           exists ns nm claim pv source uuid errs obj got copy items d now stored,
             let data := new_snapshot_data ("k8s-volume-snapshot-" +:+ uuid) snapshotName
                           (Name (pv_ObjectMeta pv)) source in
             GetNameAndNameSpaceFromSnapshotName snapshotName = Ok (ns, nm) /\
             pvc_Phase claim = ClaimBound /\
             GetSupportedVolumeFromPVSpec (pv_Spec pv) ∈ names /\
             length errs < 5 /\
             List.find (refers_to snapshotName) items = Some d /\
             tr = ([EvApi (GetPersistentVolumeClaim ns
                            (PersistentVolumeClaimName (vs_Spec snapshot))) (Ok claim);
                   EvApi (GetPersistentVolume (pvc_VolumeName claim)) (Ok pv);
                   EvPlugin (PSnapshotCreate (GetSupportedVolumeFromPVSpec (pv_Spec pv)) pv)
                            (Some source, None);
                   EvSys NewUUID uuid]
                  ++ failed_posts data errs
                  ++ [EvApi (PostVolumeSnapshotData NamespaceDefault data) (Ok obj)]
                  ++ update_calls snapshotName ns nm got copy items d now stored)%list
       | Returned (Err _) =>
           count is_plugin_create tr <= 1 /\ count is_data_post tr <= 5 /\
           count is_asw_add tr = 0
       | Panicked _ => False
       end) [].
Proof.
  intros Hnew. eapply always_impl; [|by apply creation_outcome]. by intros tr [[]|].
Qed.

(** The hypothesis at a snapshot that is not bound yet. *)
Lemma getSnapshotCreateFunc_binds_witness :
  SnapshotDataName (vs_Spec (example_snapshot "a" "")) = "" /\
  always (getSnapshotCreateFunc (clients ["hostPath"]) "ns/a" (example_snapshot "a" ""))
    (fun tr o => match o with
                 | Returned (Ok _) => exists uuid, EvSys NewUUID uuid ∈ tr
                 | Returned (Err _) => count is_plugin_create tr <= 1
                 | Panicked _ => False
                 end) [].
Proof.
  split; [reflexivity|].
  refine (always_impl _ _ _ _ _ (getSnapshotCreateFunc_binds ["hostPath"] "ns/a"
                                   (example_snapshot "a" "") eq_refl)).
  intros tr [[[]|e]|why]; [|by intros [? _]|done].
  intros (ns & nm & claim & pv & source & uuid & errs & obj & got & copy & items & d & now & stored
          & _ & _ & _ & _ & _ & ->).
  exists uuid. apply elem_of_app. left. set_solver.
Defined.

(** C4: A creation that already has its data object.  Whatever the
    environment answers, the operation does not panic, and it adds the snapshot
    to the actual state exactly when it succeeds, as its last action: either
    the data object it read is Ready already, or the volume's plugin reported
    the backend snapshot as completed and the object was then written with the
    single condition Ready. *)
Theorem updateSnapshotDataStatus_ready names snapshotName snapshot :
  always (updateSnapshotDataStatus (clients names) snapshotName snapshot)
    (fun tr o =>
       let name := SnapshotDataName (vs_Spec snapshot) in
       match o with
       | Returned (Ok _) =>
           exists d e,
             (data_ready d = true /\
              tr = [EvApi (GetVolumeSnapshotData NamespaceDefault name) (Ok d);
                    EvWorld (AswAddSnapshot snapshot) e]) \/
             (data_ready d = false /\
              exists ns nm claim pv err now got copy stored,
                GetNameAndNameSpaceFromSnapshotName snapshotName = Ok (ns, nm) /\
                pvc_Phase claim = ClaimBound /\
                tr = [EvApi (GetVolumeSnapshotData NamespaceDefault name) (Ok d);
                      EvApi (GetPersistentVolumeClaim ns
                               (PersistentVolumeClaimName (vs_Spec snapshot))) (Ok claim);
                      EvApi (GetPersistentVolume (pvc_VolumeName claim)) (Ok pv);
                      EvPlugin (PDescribeSnapshot (GetSupportedVolumeFromPVSpec (pv_Spec pv))
                                  (Some d)) (true, err);
                      EvSys Now now;
                      EvApi (GetVolumeSnapshotData NamespaceDefault name) got;
                      EvSys (DeepCopy (OSnapshotData
                               (match got with Ok d' => d' | Err _ => zero_VolumeSnapshotData end)))
                            (Ok (OSnapshotData copy));
                      EvApi (PutVolumeSnapshotData NamespaceDefault name
                               (set_vsd_conditions
                                  [data_condition VolumeSnapshotDataConditionReady
                                     "Snapshot data created succsessfully" now] copy)) (Ok stored);
                      EvWorld (AswAddSnapshot snapshot) e])
       | Returned (Err _) => count is_asw_add tr = 0
       | Panicked _ => False
       end) [].
Proof.
  unfold_ops. unfold UpdateVolumeSnapshotData. go_exec; try done.
  all: subst; exists a, x.
  - by left.
  - destruct b; [|done]. right. split; [done|]. do 9 eexists. by split_and!.
Qed.

(** A read of the snapshot that failed, and a copy that is faithful. *)
Definition is_read_failure (ev : ctl_event) : bool :=
  match ev with
  | Event (CallApi a) x =>
      match a in ApiE X return X -> bool with
      | GetVolumeSnapshot _ _ => fun got => negb (is_ok got)
      | _ => fun _ => false
      end x
  | _ => false
  end.

Definition is_faithful_copy (ev : ctl_event) : Prop :=
  match ev with
  | Event (CallSys s) x =>
      match s in SysE X return X -> Prop with
      | DeepCopy o => fun copy => copy = Ok o
      | _ => fun _ => True
      end x
  | _ => True
  end.

(** The data object that a listing has for the snapshot. *)
Definition listed_data (snapshotName : string) (listed : res (list VolumeSnapshotData))
    : option VolumeSnapshotData :=
  match listed with
  | Ok items => List.find (refers_to snapshotName) items
  | Err _ => None
  end.

(** C14: The read error of [UpdateVolumeSnapshot] is lost: the function
    assigns the error of the copy to the same variable before it tests it.
    Whenever the snapshot could not be read, the function goes on with a blank
    object: it copies it and lists the data objects, and if one refers to the
    snapshot it writes, under the name of the snapshot, an object without
    metadata and without claim that is bound and Ready.  Nor does the failure
    show in the result: the function succeeds exactly when that write does. *)
Theorem UpdateVolumeSnapshot_blank_after_read_error snapshotName :
  always (UpdateVolumeSnapshot (PE:=PluginE) snapshotName)
    (fun tr o =>
       existsb is_read_failure tr = true ->
       Forall is_faithful_copy tr ->
       exists ns nm e listed r,
         let first := [EvApi (GetVolumeSnapshot ns nm) (Err e);
                       EvSys (DeepCopy (OSnapshot zero_VolumeSnapshot)) (Ok (OSnapshot zero_VolumeSnapshot));
                       EvApi (ListVolumeSnapshotData NamespaceDefault) listed] in
         GetNameAndNameSpaceFromSnapshotName snapshotName = Ok (ns, nm) /\ o = Returned r /\
         match listed_data snapshotName listed with
         | None => tr = first /\ is_ok r = false
         | Some d => exists now body stored,
             tr = (first ++ [EvSys Now now; EvApi (PutVolumeSnapshot ns nm body) stored])%list /\
             vs_Metadata body = zero_ObjectMeta /\ PersistentVolumeClaimName (vs_Spec body) = "" /\
             SnapshotDataName (vs_Spec body) = Name (vsd_Metadata d) /\
             vss_Conditions (vs_Status body) = [ready_condition now] /\
             (r = Ok tt <-> is_ok stored = true)
         end) [].
Proof.
  unfold UpdateVolumeSnapshot, getSnapshotDataFromSnapshotName. go_exec.
  all: intros Hread Hcopy; cbn in *; subst; try done; destruct x; try done.
  all: rewrite !Forall_cons in Hcopy; cbn in Hcopy; destruct_and!; simplify_eq.
  all: lazymatch goal with
       | |- context [Event (inject (ListVolumeSnapshotData NamespaceDefault)) ?listed] =>
           eexists _, _, _, listed, _
       end; split; [done|]; split; [done|]; cbn.
  all: repeat match goal with
         | H : _ = Some _ |- _ => rewrite H
         | H : _ = None |- _ => rewrite H
         end.
  all: first [by split|do 3 eexists; by split_and!].
Qed.
