(* ===== verification/Wait.v ===== *)
(** The vendored polling loops ([k8s.io/apimachinery/pkg/util/wait]), and the
    client that creates the custom resources and waits for them
    ([pkg/client/client.go]).

    A condition is a program that also passes on the variables its closure
    captures. *)

From S2P Require Import Prelude GoStrings Types Api.
From Stdlib Require Import Lia.

#[local] Open Scope string_scope.

(** * Polling *)

Section wait.
Context {E : Type -> Type} `{!SubE SysE E} {S : Type}.
Context (condition : S -> prog E (S * (bool * option error))).

(** [ExponentialBackoff]: [steps] tries, the first without a pause.  [scale]
    is the multiplication of a duration by the (floating-point) factor; no
    caller sets a jitter. *)
Fixpoint backoff_tries (steps : nat) (first : bool) (duration : Z) (scale : Z -> Z) (s : S)
    : prog E (S * option error) :=
  match steps with
  | O => Done (s, Some ErrWaitTimeout)
  | Datatypes.S steps' =>
      let! _ := (if first then Done tt else trigger (Sleep duration)) in
      let duration' := if first then duration else scale duration in
      let! r := condition s in
      let '(s', (done_, err)) := r in
      match err with
      | Some err => Done (s', Some err)
      | None => if done_ : bool then Done (s', None)
                else backoff_tries steps' false duration' scale s'
      end
  end.

Definition ExponentialBackoff (duration : Z) (scale : Z -> Z) (steps : nat) (s : S)
    : prog E (S * option error) :=
  backoff_tries steps true duration scale s.

Lemma only_backoff (P : forall X, E X -> Prop) duration scale steps s :
  (forall s, only P (condition s)) -> (forall d, P unit (inject (Sleep d))) ->
  only P (ExponentialBackoff duration scale steps s).
Proof.
  intros Hc Hs. unfold ExponentialBackoff. generalize true.
  revert duration s; induction steps as [|steps IH]; intros duration s first; cbn; [done|].
  apply only_bind; [destruct first; cbn; auto|]. intros _. apply only_bind; [apply Hc|].
  intros [s' [d [err|]]]; [done|]. destruct d; [done|]. apply IH.
Qed.
End wait.

(** [Poll]: the condition is tried once for every tick the poller managed to
    send, at most [timeout / interval] of them, and once more when the timeout
    has closed the channel. *)
Inductive TickE : Type -> Type :=
| Tick : TickE bool.

Section poll.
Context {E : Type -> Type} `{!SubE TickE E} (condition : prog E (bool * option error)).

Fixpoint WaitFor (ticks : nat) : prog E (option error) :=
  let! open := (match ticks with O => Done false | Datatypes.S _ => trigger Tick end) in
  let! r := condition in
  match r.2 with
  | Some err => Done (Some err)
  | None =>
      if r.1 then Done None
      else match ticks with
           | Datatypes.S ticks' => if open : bool then WaitFor ticks' else Done (Some ErrWaitTimeout)
           | O => Done (Some ErrWaitTimeout)
           end
  end.

Definition Poll (interval timeout : Z) : prog E (option error) :=
  WaitFor (Z.to_nat (timeout / interval)).

(** [PollImmediate]: the condition is tried before the first tick too. *)
Definition PollImmediate (interval timeout : Z) : prog E (option error) :=
  let! r := condition in
  match r.2 with
  | Some err => Done (Some err)
  | None => if r.1 then Done None else Poll interval timeout
  end.

Lemma only_Poll (P : forall X, E X -> Prop) interval timeout :
  only P condition -> P bool (inject Tick) -> only P (Poll interval timeout).
Proof.
  intros Hc Ht. unfold Poll. generalize (Z.to_nat (timeout / interval)) as ticks.
  induction ticks as [|ticks IH]; cbn.
  - apply only_bind; [done|]. intros [d [err|]]; cbn; [done|]. by destruct d.
  - split; [done|]. intros open. apply only_bind; [done|]. intros [d [err|]]; cbn; [done|].
    destruct d; [done|]. by destruct open.
Qed.

Lemma WaitFor_returns ticks : returns condition -> returns (WaitFor ticks).
Proof.
  intros Hc. induction ticks as [|ticks IH]; cbn.
  - apply returns_bind; [done|]. intros [d [e|]]; cbn; [done|]. by destruct d.
  - intros open. apply returns_bind; [done|]. intros [d [e|]]; cbn; [done|]. destruct d, open; done.
Qed.

Lemma PollImmediate_returns interval timeout : returns condition -> returns (PollImmediate interval timeout).
Proof.
  intros Hc. apply returns_bind; [done|]. intros [d [e|]]; cbn [fst snd]; [done|].
  destruct d; [done|by apply WaitFor_returns].
Qed.
End poll.

(** * The custom resources *)

Definition GroupName : string := "volume-snapshot-data.external-storage.k8s.io".

(** The calls of the client: the creation of a resource definition with its
    name, scope, plural and kind, and the request of the list of
    [VolumeSnapshotData] objects. *)
Inductive ClientE : Type -> Type :=
| CreateDefinition (name scope plural kind : string) : ClientE (option error)
| GetSnapshotDatas : ClientE (option error).

Inductive CrdE (X : Type) : Type :=
| CrdClient (e : ClientE X)
| CrdTick (e : TickE X).
Arguments CrdClient {X} e.
Arguments CrdTick {X} e.
#[export] Instance SubE_crd_client : SubE ClientE CrdE := fun _ e => CrdClient e.
#[export] Instance SubE_crd_tick : SubE TickE CrdE := fun _ e => CrdTick e.

Definition IsAlreadyExists (err : error) : bool :=
  match err with StatusError ReasonAlreadyExists _ => true | _ => false end.
Definition IsNotFound (err : error) : bool :=
  match err with StatusError ReasonNotFound _ => true | _ => false end.

(** The creation of one definition and the test that follows it;
    [glog.Fatalf] ends the process. *)
Definition create_definition (name scope plural kind why : string) : prog CrdE unit :=
  let! err := trigger (CreateDefinition name scope plural kind) in
  match err with
  | Some e => if negb (IsAlreadyExists e) then Crash why else Done tt
  | None => Done tt
  end.

Definition CreateCRD : prog CrdE (option error) :=
  let! _ := create_definition (VolumeSnapshotDataResourcePlural +:+ "." +:+ GroupName) "Cluster"
              VolumeSnapshotDataResourcePlural "VolumeSnapshotData"
              "failed to create VolumeSnapshotDataResource" in
  let! _ := create_definition (VolumeSnapshotResourcePlural +:+ "." +:+ GroupName) "Namespaced"
              VolumeSnapshotResourcePlural "VolumeSnapshot"
              "failed to create VolumeSnapshotResource" in
  Done None.

Definition resource_ready : prog CrdE (bool * option error) :=
  let! err := trigger GetSnapshotDatas in
  match err with
  | None => Done (true, None)
  | Some err => if IsNotFound err then Done (false, None) else Done (false, Some err)
  end.

Definition WaitForSnapshotResource : prog CrdE (option error) :=
  Poll resource_ready (100 * Millisecond) (60 * Second).

(** * Theorems *)

(** The answers to the requests for the list of objects, in order. *)
Definition list_answers (tr : list (event CrdE)) : list (option error) :=
  ev ← tr;
  match ev with
  | Event (CrdClient e) x =>
      match e in ClientE X return X -> list (option error) with
      | GetSnapshotDatas => fun err => [err]
      | _ => fun _ => []
      end x
  | _ => []
  end.

Lemma list_answers_app tr tr' : list_answers (tr ++ tr') = (list_answers tr ++ list_answers tr')%list.
Proof. apply bind_app. Qed.

(** What the waiting makes of the last answer of a condition. *)
Definition wait_end (r : bool * option error) : option error :=
  match r.2 with
  | Some e => Some e
  | None => if r.1 then None else Some ErrWaitTimeout
  end.

(** Polling with a condition that makes one request [e] and judges its answer:
    [answers] are the answers to that request in an execution. *)
Section polling.
Context {E : Type -> Type} `{!SubE TickE E} {Y : Type} (e : E Y) (judge : Y -> bool * option error).
Context (condition : prog E (bool * option error)) (answers : list (event E) -> list Y).
Context (Hcondition : exists k, condition = Vis e k /\ forall y, k y = Done (judge y)).
Context (answers_app : forall tr tr', answers (tr ++ tr') = (answers tr ++ answers tr')%list).
Context (answers_tick : forall open, answers [Event (inject Tick) open] = []).
Context (answers_request : forall y, answers [Event e y] = [y]).

(** The waiting ends with the first answer that is judged to end it, or with
    the request after the last tick; every answer before was not ready. *)
Lemma WaitFor_ends ticks tr :
  always (WaitFor condition ticks)
    (fun tr' o => exists before last,
       answers tr' = (answers tr ++ before ++ [last])%list /\
       Forall (fun y => judge y = (false, None)) before /\
       length before <= ticks /\
       o = Returned (wait_end (judge last))) tr.
Proof.
  destruct Hcondition as (k & Hc & Hk).
  revert tr; induction ticks as [|ticks IH]; intros tr; rewrite Hc; cbn.
  - intros y. rewrite Hk. cbn.
    assert (exists before last, answers (tr ++ [Event e y]) = (answers tr ++ before ++ [last])%list /\
      Forall (fun y => judge y = (false, None)) before /\ length before <= 0 /\
      wait_end (judge y) = wait_end (judge last)) as (before & last & ? & ? & ? & Hend).
    { exists [], y. rewrite answers_app, answers_request. by split_and!; [| |cbn; lia|]. }
    unfold wait_end in Hend at 1.
    destruct (judge y) as [[|] [err|]]; cbn in *; exists before, last; split_and!; congruence.
  - intros open y. rewrite Hk. cbn.
    assert (answers ((tr ++ [Event (inject Tick) open]) ++ [Event e y]) = (answers tr ++ [y])%list) as Htr
      by (by rewrite !answers_app, answers_tick, answers_request, app_nil_r).
    assert (forall o, o = Returned (wait_end (judge y)) ->
      exists before last,
        answers ((tr ++ [Event (inject Tick) open]) ++ [Event e y]) = (answers tr ++ before ++ [last])%list /\
        Forall (fun y => judge y = (false, None)) before /\ length before <= S ticks /\
        o = Returned (wait_end (judge last))) as Hlast.
    { intros o Ho. exists [], y. by split_and!; [| |cbn; lia|]. }
    destruct (judge y) as [[|] [err|]] eqn:Hy; cbn; try (by apply Hlast).
    destruct open; [|by apply Hlast].
    rewrite <- Hc. eapply always_impl; [|apply IH].
    intros tr' o (before & last & Htr' & Hb & Hlen & Ho).
    exists (y :: before), last. split_and!; [|by constructor|cbn; lia|done].
    rewrite Htr', Htr. by rewrite <- app_assoc.
Qed.
End polling.

(** Waiting for the custom resource.  Whatever the API server and the
    clock do, the wait ends after at most 601 requests: with success at the
    first request that succeeds, with the error of the first request that
    fails for another reason than "not found", and with a timeout if every
    request was answered "not found". *)
Theorem WaitForSnapshotResource_ends :
  always WaitForSnapshotResource
    (fun tr o =>
       exists before last,
         list_answers tr = (before ++ [last])%list /\
         Forall (fun a => exists e, a = Some e /\ IsNotFound e = true) before /\
         length before <= 600 /\
         o = Returned (match last with
                       | None => None
                       | Some e => if IsNotFound e then Some ErrWaitTimeout else Some e
                       end)) [].
Proof.
  eapply always_impl; [|apply (WaitFor_ends (CrdClient GetSnapshotDatas)
    (fun err => match err with
                | None => (true, None)
                | Some e => if IsNotFound e then (false, None) else (false, Some e)
                end) resource_ready list_answers)].
  - intros tr o (before & last & Htr & Hb & Hlen & ->). exists before, last.
    split_and!; [done| |done|].
    + eapply Forall_impl; [exact Hb|]. intros [e|]; [|done]. cbn. intros He. exists e.
      by destruct (IsNotFound e).
    + by destruct last as [e|]; [cbn; destruct (IsNotFound e)|].
  - eexists. split; [done|]. intros [e|]; cbn; [by destruct (IsNotFound e)|done].
  - apply list_answers_app.
  - done.
  - done.
Qed.

(** Creating the resource definitions.  Both definitions are created,
    the data objects' first; a definition that exists already is as good as a
    new one, and any other failure ends the process, before the second
    definition if it hits the first. *)
Theorem CreateCRD_idempotent :
  always CreateCRD
    (fun tr o =>
       let made (err : option error) :=
         match err with None => true | Some e => IsAlreadyExists e end in
       exists err1,
         let ev1 := Event (CrdClient (CreateDefinition
                      "volumesnapshotdatas.volume-snapshot-data.external-storage.k8s.io"
                      "Cluster" "volumesnapshotdatas" "VolumeSnapshotData")) err1 in
         if made err1 then
           exists err2,
             tr = [ev1; Event (CrdClient (CreateDefinition
                      "volumesnapshots.volume-snapshot-data.external-storage.k8s.io"
                      "Namespaced" "volumesnapshots" "VolumeSnapshot")) err2] /\
             if made err2 then o = Returned None else exists why, o = Panicked why
         else tr = [ev1] /\ exists why, o = Panicked why) [].
Proof.
  cbn. intros err1. unfold create_definition.
  destruct err1 as [e1|]; cbn; [destruct (IsAlreadyExists e1) eqn:H1; cbn|].
  2: { exists (Some e1). rewrite H1. eauto. }
  all: intros err2; destruct err2 as [e2|]; cbn; [destruct (IsAlreadyExists e2) eqn:H2; cbn|].
  all: first [exists (Some e1); rewrite H1 | exists None].
  all: first [exists (Some e2); rewrite H2 | exists None]; eauto.
Qed.
