(* ===== verification/CloudProvider.v ===== *)
(** [pkg/cloudprovider] ([plugins.go], [cloud.go]): the registry of cloud
    providers and the names derived from Kubernetes objects. *)

From S2P Require Import Prelude GoStrings Types.
From Stdlib Require Import Lia.

#[local] Open Scope string_scope.

(** * The errors of the interface *)

(** Compared as values. *)
Definition InstanceNotFound : error := errorf "instance not found" [].
Definition is_InstanceNotFound (err : error) : bool :=
  match err with Errorf "instance not found" [] => true | _ => false end.

Definition DiskNotFound : error := errorf "disk is not found" [].
Definition is_DiskNotFound (err : option error) : bool :=
  match err with Some (Errorf "disk is not found" []) => true | _ => false end.

(** * The registry of providers *)

(** A factory makes a provider of its configuration ([None] is a nil
    reader); it may give nil. *)
Section registry.
Context `{MapRange} {Cloud Config : Type}.

Definition Factory : Type := option Config -> res (option Cloud).

Definition externalCloudProvider : string := "external".

(** [glog.Fatalf] ends the process. *)
Definition RegisterCloudProvider (name : string) (cloud : Factory)
    (providers : gmap string Factory) : outcome (gmap string Factory) :=
  match providers !! name with
  | Some _ => Panicked "Cloud provider was registered twice"
  | None => Returned (<[name := cloud]> providers)
  end.

Definition IsCloudProvider (name : string) (providers : gmap string Factory) : bool :=
  match providers !! name with Some _ => true | None => false end.

Definition CloudProviders (providers : gmap string Factory) : list string := (range providers).*1.

Definition GetCloudProvider (name : string) (config : option Config)
    (providers : gmap string Factory) : res (option Cloud) :=
  match providers !! name with
  | None => Ok None
  | Some f => f config
  end.

Definition IsExternal (name : string) : bool := bool_decide (name = externalCloudProvider).

(** [open] is [os.Open] of the configuration file. *)
Definition InitCloudProvider (open : string -> res Config) (name configFilePath : string)
    (providers : gmap string Factory) : outcome (res (option Cloud)) :=
  if bool_decide (name = "") then Returned (Ok None)
  else if IsExternal name then Returned (Ok None)
  else
    let made :=
      if bool_decide (configFilePath <> "") then
        match open configFilePath with
        | Err _ => Panicked "Couldn't open cloud provider configuration"
        | Ok config => Returned (GetCloudProvider name (Some config) providers)
        end
      else Returned (GetCloudProvider name None providers) in
    match made with
    | Panicked why => Panicked why
    | Returned (Err err) =>
        Returned (Err (Errorf "could not init cloud provider %q: %v" [FStr name; FErr (Some err)]))
    | Returned (Ok None) => Returned (Err (errorf "unknown cloud provider %q" [name]))
    | Returned (Ok (Some cloud)) => Returned (Ok (Some cloud))
    end.

(** The packages register themselves one after the other when the program
    starts. *)
Fixpoint register_all (regs : list (string * Factory)) (providers : gmap string Factory)
    : outcome (gmap string Factory) :=
  match regs with
  | [] => Returned providers
  | (name, f) :: regs' =>
      match RegisterCloudProvider name f providers with
      | Returned providers' => register_all regs' providers'
      | Panicked why => Panicked why
      end
  end.

Lemma register_all_spec regs providers :
  (exists providers',
     register_all regs providers = Returned providers' /\
     NoDup regs.*1 /\ (forall n, n ∈ regs.*1 -> providers !! n = None) /\
     providers' = list_to_map regs ∪ providers) \/
  (exists why, register_all regs providers = Panicked why /\
     ~ (NoDup regs.*1 /\ forall n, n ∈ regs.*1 -> providers !! n = None)).
Proof.
  revert providers; induction regs as [|[n f] regs IH]; intros providers; cbn.
  - left. exists providers. split; [done|]. split; [constructor|].
    split; [by intros ? ?%elem_of_nil|]. by rewrite (left_id_L ∅ (∪)).
  - unfold RegisterCloudProvider. destruct (providers !! n) as [g|] eqn:Hn.
    + right. eexists. split; [done|]. intros [_ Hall]. specialize (Hall n).
      rewrite Hn in Hall. discriminate Hall. by left.
    + destruct (IH (<[n := f]> providers)) as [(p' & Hr & Hnd & Hall & ->)|(why & Hr & Hno)].
      * left. eexists. split; [exact Hr|].
        assert (n ∉ regs.*1) as Hnin.
        { intros Hin%Hall. by rewrite lookup_insert_eq in Hin. }
        split; [by constructor|]. split.
        -- intros m [->|Hm]%elem_of_cons; [done|]. specialize (Hall m Hm).
           by apply lookup_insert_None in Hall as [? _].
        -- rewrite <- insert_union_r by (by apply not_elem_of_list_to_map_1).
           by rewrite insert_union_l.
      * right. exists why. split; [exact Hr|]. intros [[Hnin Hnd]%NoDup_cons Hall]. apply Hno.
        split; [done|]. intros m Hm. rewrite lookup_insert_ne by (intros ->; done).
        apply Hall. by right.
Qed.

Lemma init_from_factory open name path providers cloud :
  InitCloudProvider open name path providers = Returned (Ok (Some cloud)) <->
  name <> "" /\ name <> externalCloudProvider /\
  exists f config, providers !! name = Some f /\ f config = Ok (Some cloud) /\
    match config with
    | None => path = ""
    | Some c => path <> "" /\ open path = Ok c
    end.
Proof.
  unfold InitCloudProvider, IsExternal, GetCloudProvider.
  case_bool_decide as Hname; [by split; [|intros (? & _)]|].
  case_bool_decide as Hext; [by split; [|intros (_ & ? & _)]|].
  destruct (providers !! name) as [f|].
  2:{ split; [|by intros (_ & _ & ? & ? & ? & _)]. case_bool_decide; [|done]. by destruct (open path). }
  case_bool_decide as Hpath; [destruct (open path) as [c|err]|].
  - split.
    + destruct (f (Some c)) as [[cl|]|err] eqn:Hf; intros [=]; subst.
      split_and!; try done. by exists f, (Some c).
    + intros (_ & _ & g & config & [= <-] & Hg & Hc). destruct config as [c'|]; [|done].
      destruct Hc as [_ [= ->]]. by rewrite Hg.
  - split; [done|]. intros (_ & _ & g & config & _ & _ & Hc). destruct config; [|done].
    by destruct Hc.
  - split.
    + destruct (f None) as [[cl|]|err] eqn:Hf; intros [=]; subst.
      split_and!; try done. by exists f, None.
    + intros (_ & _ & g & config & [= <-] & Hg & Hc). destruct config as [c'|]; [by destruct Hc|].
      by rewrite Hg.
Qed.

(** The registry.  A start-up that registers providers under distinct
    names ends with exactly these registered, each with its own factory; one
    that registers a name twice ends the process.  A registered provider is
    then found under its name, a name that is not registered, empty or
    "external" is never given to a factory, and [InitCloudProvider] gives a
    provider exactly when the factory of the name does. *)
Theorem registry_init regs open name path :
  match register_all regs ∅ with
  | Panicked _ => ~ NoDup regs.*1
  | Returned providers =>
      NoDup regs.*1 /\
      CloudProviders providers ≡ₚ regs.*1 /\
      (forall n, IsCloudProvider n providers = true <-> n ∈ regs.*1) /\
      (forall cloud, InitCloudProvider open name path providers = Returned (Ok (Some cloud)) <->
         name <> "" /\ name <> externalCloudProvider /\
         exists f config, (name, f) ∈ regs /\ f config = Ok (Some cloud) /\
           match config with
           | None => path = ""
           | Some c => path <> "" /\ open path = Ok c
           end)
  end.
Proof.
  destruct (register_all_spec regs ∅) as [(p & -> & Hnd & _ & ->)|(why & -> & Hno)].
  - rewrite (right_id_L ∅ (∪)). split; [done|].
    assert (forall n f, (n, f) ∈ regs <-> (list_to_map regs : gmap string Factory) !! n = Some f)
      as Hin by (intros; by apply elem_of_list_to_map).
    split; [|split].
    + unfold CloudProviders. rewrite range_perm. by rewrite map_to_list_to_map.
    + intros n. unfold IsCloudProvider. rewrite list_elem_of_fmap.
      destruct (list_to_map regs !! n) as [f|] eqn:Hn.
      * split; [|done]. intros _. exists (n, f). split; [done|]. by apply Hin.
      * split; [done|]. intros ([n' f] & -> & Hf%Hin). cbn in Hn. congruence.
    + intros cloud. setoid_rewrite Hin.
      apply init_from_factory.
  - intros Hnd. apply Hno. split; [done|]. intros; apply lookup_empty.
Qed.
End registry.

(** * Names *)

(** [GetLoadBalancerName]: the argument is the service's UID. *)
Definition GetLoadBalancerName (uid : string) : string :=
  let ret := RemoveByte ("a" +:+ uid) "-" in
  if bool_decide (32 < String.length ret)%nat then take_bytes 32 ret else ret.

(** [instances] is what [cloud.Instances()] gives, as [InstanceID]. *)
Definition GetInstanceProviderID (instances : option (string -> res string)) (providerName nodeName : string)
    : res string :=
  match instances with
  | None => Err (errorf "failed to get instances from cloud provider" [])
  | Some InstanceID =>
      match InstanceID nodeName with
      | Err err => Err (Errorf "failed to get instance ID from cloud provider: %v" [FErr (Some err)])
      | Ok instanceID => Ok (providerName +:+ "://" +:+ instanceID)
      end
  end.

(** Names of load balancers.  The name starts with a lower case letter,
    holds no dash and has at most 32 bytes, whatever the UID; but a UID of the
    usual form (32 hexadecimal digits and four dashes) is one digit too long,
    so the last digit is lost, and services whose UIDs differ only there share
    a load balancer. *)
Theorem GetLoadBalancerName_bounds :
  (forall uid, HasPrefix (GetLoadBalancerName uid) "a" = true /\
     ContainsByte (GetLoadBalancerName uid) "-" = false /\
     String.length (GetLoadBalancerName uid) <= 32) /\
  (exists uid uid', uid <> uid' /\ String.length (RemoveByte uid "-") = 32 /\
     String.length (RemoveByte uid' "-") = 32 /\ GetLoadBalancerName uid = GetLoadBalancerName uid').
Proof.
  split.
  - intros uid. unfold GetLoadBalancerName. cbn -[take_bytes].
    case_bool_decide as Hlen; cbn -[take_bytes].
    + split_and!.
      * reflexivity.
      * apply ContainsByte_take. cbn. apply ContainsByte_RemoveByte.
      * rewrite take_bytes_length. lia.
    + split_and!; [reflexivity|apply ContainsByte_RemoveByte|cbn in Hlen |- *; lia].
  - exists "01234567-89ab-cdef-0123-456789abcde0", "01234567-89ab-cdef-0123-456789abcde1".
    split_and!; vm_compute; try reflexivity. discriminate.
Qed.
