(* ===== verification/Ec2.v ===== *)
(** The EC2 interface of the AWS provider ([aws.go]: the [EC2] interface and
    its SDK implementation with its paging), the objects it works on, and the
    tagging of resources ([tags.go]).

    A [*string] of the SDK is an [option string]; the pointers to the objects
    inside a response are never nil. *)

From S2P Require Import Prelude GoStrings Types Api Wait CloudProvider.
From Stdlib Require Import Lia.

#[local] Open Scope string_scope.

(** * Objects *)

Record ec2_Tag := { tag_Key : option string; tag_Value : option string }.

(** [Ebs] may be nil. *)
Record BlockDevice := { bd_DeviceName : option string; bd_Ebs : option (option string) }.

Record GroupIdentifier := { gi_GroupId : option string }.

(** [i_Placement] is the availability zone of the placement, which may be nil. *)
Record Instance := {
  i_InstanceId : option string;
  i_PrivateDnsName : option string;
  i_Placement : option (option string);
  i_PublicDnsName : option string;
  i_PrivateIpAddress : option string;
  i_PublicIpAddress : option string;
  i_State : option (option string);
  i_InstanceType : option string;
  i_VpcId : option string;
  i_SubnetId : option string;
  i_SourceDestCheck : option bool;
  i_SecurityGroups : list GroupIdentifier;
  i_Tags : list ec2_Tag;
  i_BlockDeviceMappings : list BlockDevice;
}.

Record VolumeAttachment := {
  va_Device : option string;
  va_InstanceId : option string;
  va_State : option string;
}.

Record Volume := {
  vol_VolumeId : option string;
  vol_AvailabilityZone : option string;
  vol_Attachments : list VolumeAttachment;
}.

Record Snapshot := {
  sn_SnapshotId : option string;
  sn_State : option string;
  sn_StateMessage : option string;
}.

Record Ec2Filter := { f_Name : string; f_Values : list string }.

(** [aws.StringValue], and the deprecated [orEmpty] and [isNilOrEmpty]. *)
Definition StringValue (s : option string) : string := default "" s.
Definition orEmpty (s : option string) : string := StringValue s.
Definition isNilOrEmpty (s : option string) : bool :=
  match s with None => true | Some s => bool_decide (s = "") end.

Definition newEc2Filter (name : string) (values : list string) : Ec2Filter :=
  {| f_Name := name; f_Values := values |}.

(** * Calls *)

Record CreateVolumeInput := {
  cv_AvailabilityZone : string;
  cv_Size : Z;
  cv_VolumeType : string;
  cv_Encrypted : bool;
  cv_KmsKeyId : option string;
  cv_Iops : option Z;
  cv_SnapshotId : option string;
}.

(** The methods of the [EC2] interface the program's volume code uses. *)
Inductive Ec2E : Type -> Type :=
| DescribeInstances (ids : list string) (filters : option (list Ec2Filter)) : Ec2E (res (list Instance))
| AttachVolume (device instanceId volumeId : string) : Ec2E (res unit)
| DetachVolume (instanceId volumeId : string) : Ec2E (res (option VolumeAttachment))
| DescribeVolumes (ids : list string) : Ec2E (res (list Volume))
| CreateVolume (request : CreateVolumeInput) : Ec2E (res Volume)
| DeleteVolume (volumeId : string) : Ec2E (option error)
| CreateSnapshot (volumeId description : string) : Ec2E (res (option Snapshot))
| DeleteSnapshot (snapshotId : string) : Ec2E (option error)
| DescribeSnapshots (ids : list string) : Ec2E (res (list Snapshot))
| CreateTags (resource : string) (tags : list (string * string)) : Ec2E (option error).

(** * Paging in the SDK implementation *)

(** The loops of [awsSdkEC2.DescribeInstances], [DescribeVolumes] and
    [DescribeSnapshots]: [page] is the SDK's request with the token it is
    given, and answers with a page and the next token.  The source's loop has
    no bound; [fuel] is the number of requests. *)
Section paging.
Context {E : Type -> Type} {T : Type} (page : option string -> prog E (res (list T * option string))).
Context (describe_error : error -> error).

Fixpoint paged (fuel : nat) (nextToken : option string) (results : list T)
    : prog E (option (res (list T))) :=
  match fuel with
  | O => Done None
  | S fuel' =>
      let! response := page nextToken in
      match response with
      | Err err => Done (Some (Err (describe_error err)))
      | Ok (items, nextToken') =>
          let results := (results ++ items)%list in
          if isNilOrEmpty nextToken' then Done (Some (Ok results))
          else paged fuel' nextToken' results
      end
  end.
End paging.

(** The three loops are this one, with their own error. *)
Definition sdk_DescribeInstances {E} (page : option string -> prog E (res (list (list Instance) * option string)))
    (fuel : nat) : prog E (option (res (list Instance))) :=
  paged (fun token => let! r := page token in
                      match r with
                      | Ok (reservations, next) => Done (Ok (List.concat reservations, next))
                      | Err err => Done (Err err)
                      end)
    (fun err => Errorf "error listing AWS instances: %v" [FErr (Some err)]) fuel None [].

Definition sdk_DescribeVolumes {E} (page : option string -> prog E (res (list Volume * option string)))
    (fuel : nat) : prog E (option (res (list Volume))) :=
  paged page (fun err => Errorf "error listing AWS volumes: %v" [FErr (Some err)]) fuel None [].

Definition sdk_DescribeSnapshots {E} (page : option string -> prog E (res (list Snapshot * option string)))
    (fuel : nat) : prog E (option (res (list Snapshot))) :=
  paged page (fun err => Errorf "failed to describe ec2 snapshots: %v" [FErr (Some err)]) fuel None [].

(** * Tags ([tags.go]) *)

Definition TagNameKubernetesClusterPrefix : string := "kubernetes.io/cluster/".
Definition TagNameKubernetesClusterLegacy : string := "KubernetesCluster".
Definition ResourceLifecycleOwned : string := "owned".
Definition ResourceLifecycleShared : string := "shared".

Definition createTagInitialDelay : Z := 1 * Second.
Definition createTagSteps : nat := 9.

Record awsTagging := { ClusterID : string; usesLegacyTags : bool }.

Definition init (legacyClusterID clusterID : string) (t : awsTagging) : option error * awsTagging :=
  if bool_decide (legacyClusterID <> "") then
    if bool_decide (clusterID <> "") && bool_decide (legacyClusterID <> clusterID) then
      (Some (errorf "ClusterID tags did not match: %q vs %q" [clusterID; legacyClusterID]), t)
    else (None, {| ClusterID := legacyClusterID; usesLegacyTags := true |})
  else (None, {| ClusterID := clusterID; usesLegacyTags := usesLegacyTags t |}).

(** The loop of [findClusterIDs], from the two identifiers found so far. *)
Fixpoint findClusterIDs_from (tags : list ec2_Tag) (legacyClusterID newClusterID : string)
    : res (string * string) :=
  match tags with
  | [] => Ok (legacyClusterID, newClusterID)
  | tag :: tags' =>
      let tagKey := StringValue (tag_Key tag) in
      let id := TrimPrefix tagKey TagNameKubernetesClusterPrefix in
      let isNew := HasPrefix tagKey TagNameKubernetesClusterPrefix in
      if isNew && bool_decide (newClusterID <> "") then
        Err (errorf "Found multiple cluster tags with prefix %s (%q and %q)"
                    [TagNameKubernetesClusterPrefix; newClusterID; id])
      else
        let newClusterID := if isNew then id else newClusterID in
        if bool_decide (tagKey = TagNameKubernetesClusterLegacy) then
          let id := StringValue (tag_Value tag) in
          if bool_decide (legacyClusterID <> "") then
            Err (errorf "Found multiple %s tags (%q and %q)"
                        [TagNameKubernetesClusterLegacy; legacyClusterID; id])
          else findClusterIDs_from tags' id newClusterID
        else findClusterIDs_from tags' legacyClusterID newClusterID
  end.

Definition findClusterIDs (tags : list ec2_Tag) : res (string * string) :=
  findClusterIDs_from tags "" "".

Definition initFromTags (tags : list ec2_Tag) (t : awsTagging) : option error * awsTagging :=
  match findClusterIDs tags with
  | Err err => (Some err, t)
  | Ok (legacyClusterID, newClusterID) => init legacyClusterID newClusterID t
  end.

Definition clusterTagKey (t : awsTagging) : string := TagNameKubernetesClusterPrefix +:+ ClusterID t.

(** The first legacy tag decides, even against a later tag of the cluster. *)
Fixpoint hasClusterTag_from (tags : list ec2_Tag) (t : awsTagging) : bool :=
  match tags with
  | [] => false
  | tag :: tags' =>
      let tagKey := StringValue (tag_Key tag) in
      if bool_decide (tagKey = TagNameKubernetesClusterLegacy) then
        bool_decide (StringValue (tag_Value tag) = ClusterID t)
      else if bool_decide (tagKey = clusterTagKey t) then true
      else hasClusterTag_from tags' t
  end.

Definition hasClusterTag (tags : list ec2_Tag) (t : awsTagging) : bool :=
  if bool_decide (String.length (ClusterID t) = 0) then true else hasClusterTag_from tags t.

Definition buildTags (lifecycle : string) (additionalTags : gmap string string) (t : awsTagging)
    : gmap string string :=
  if bool_decide (String.length (ClusterID t) = 0) then additionalTags
  else
    let tags := if usesLegacyTags t
                then <[TagNameKubernetesClusterLegacy := ClusterID t]> additionalTags
                else additionalTags in
    <[clusterTagKey t := lifecycle]> tags.

(** A nil slice of filters is [None]. *)
Definition addFilters (filters : list Ec2Filter) (t : awsTagging) : option (list Ec2Filter) :=
  if bool_decide (String.length (ClusterID t) = 0) then
    match filters with [] => None | _ => Some filters end
  else
    Some (filters ++ [newEc2Filter "tag-key" [TagNameKubernetesClusterLegacy; clusterTagKey t]])%list.

Section tags.
Context `{MapRange} {E : Type -> Type} `{!SubE Ec2E E, !SubE SysE E}.

(** One try of the retry loop: [lastErr] is the variable its closure sets. *)
Definition create_tags_once (resourceID : string) (tags : list (string * string))
    (lastErr : option error) : prog E (option error * (bool * option error)) :=
  let! err := trigger (CreateTags resourceID tags) in
  match err with
  | None => Done (lastErr, (true, None))
  | Some err => Done (Some err, (false, None))
  end.

Definition createTags (resourceID lifecycle : string) (additionalTags : gmap string string)
    (t : awsTagging) : prog E (option error) :=
  let tags := buildTags lifecycle additionalTags t in
  if bool_decide (tags = ∅) then Done None
  else
    let! r := ExponentialBackoff (create_tags_once resourceID (range tags)) createTagInitialDelay
                (fun d => 2 * d)%Z createTagSteps None in
    let '(lastErr, err) := r in
    match err with
    | Some ErrWaitTimeout => Done lastErr
    | _ => Done err
    end.

(** The loop that compares the expected tags with the observed ones. *)
Fixpoint check_tags (resourceID : string) (expected : list (string * string))
    (actual : gmap string string) : option error :=
  match expected with
  | [] => None
  | (k, v) :: rest =>
      let a := default "" (actual !! k) in
      if bool_decide (a = v) then check_tags resourceID rest actual
      else if bool_decide (a = "") then check_tags resourceID rest actual
      else Some (errorf "resource %q has tag belonging to another cluster: %q=%q (expected %q)"
                        [resourceID; k; a; v])
  end.

(** The missing tags are collected by the source but not used: every expected
    tag is written again. *)
Definition readRepairClusterTags (resourceID lifecycle : string) (additionalTags : gmap string string)
    (observedTags : list ec2_Tag) (t : awsTagging) : prog E (option error) :=
  let actualTagMap :=
    fold_left (fun m tag => <[StringValue (tag_Key tag) := StringValue (tag_Value tag)]> m)
              observedTags ∅ in
  match check_tags resourceID (range (buildTags lifecycle additionalTags t)) actualTagMap with
  | Some err => Done (Some err)
  | None =>
      let! err := createTags resourceID lifecycle additionalTags t in
      match err with
      | Some err => Done (Some (Errorf "error adding missing tags to resource %q: %v"
                                       [FStr resourceID; FErr (Some err)]))
      | None => Done None
      end
  end.
End tags.

(** * Theorems *)

(** ** Paging *)

(** The SDK's requests, one at a time. *)
Inductive PageE (T : Type) : Type -> Type :=
| Page (token : option string) : PageE T (res (list T * option string)).
Arguments Page {T} token.

(** The pages got so far: each was asked for with the token of the one before
    it, starting from [token]; [next] is the token of the last. *)
Inductive page_chain {T} : option string -> list (event (PageE T)) -> list T -> option string -> Prop :=
| chain_nil token : page_chain token [] [] token
| chain_cons token items token' tr rest next :
    page_chain token' tr rest next ->
    page_chain token (Event (Page token) (Ok (items, token')) :: tr) (items ++ rest) next.

Lemma page_chain_snoc {T} token tr items next more next' :
  page_chain (T:=T) token tr items next ->
  page_chain token (tr ++ [Event (Page next) (Ok (more, next'))]) (items ++ more) next'.
Proof.
  induction 1; cbn.
  - rewrite <- (app_nil_r more) at 2. repeat constructor.
  - rewrite <- app_assoc. by constructor.
Qed.

(** Paging.  Whatever the service answers, the loop returns the
    concatenation of the pages in order, each asked for with the token of the
    one before, as soon as a page comes without a token; it returns the first
    error, wrapped; and it needs more requests than [fuel] only when the
    service keeps giving tokens. *)
Theorem paged_concatenates {T} describe_error fuel :
  always (paged (T:=T) (fun token => trigger (Page token)) describe_error fuel None [])
    (fun tr o =>
       match o with
       | Returned (Some (Ok items)) =>
           exists next, page_chain None tr items next /\ isNilOrEmpty next = true /\ length tr <= fuel
       | Returned (Some (Err e)) =>
           exists before items next err,
             page_chain None before items next /\ e = describe_error err /\
             tr = (before ++ [Event (Page next) (Err err)])%list
       | Returned None =>
           length tr = fuel /\ exists items next, page_chain None tr items next
       | Panicked _ => False
       end) [].
Proof.
  assert (forall fuel tr items next,
            page_chain None tr items next ->
            always (paged (T:=T) (fun token => trigger (Page token)) describe_error fuel next items)
              (fun tr' o =>
                 match o with
                 | Returned (Some (Ok items)) =>
                     exists next, page_chain None tr' items next /\ isNilOrEmpty next = true /\
                                  length tr' <= length tr + fuel
                 | Returned (Some (Err e)) =>
                     exists before items next err,
                       page_chain None before items next /\ e = describe_error err /\
                       tr' = (before ++ [Event (Page next) (Err err)])%list
                 | Returned None =>
                     length tr' = length tr + fuel /\ exists items next, page_chain None tr' items next
                 | Panicked _ => False
                 end) tr) as Hgen.
  { clear fuel. induction fuel as [|fuel IH]; intros tr items next Hchain; cbn.
    - split; [lia|]. by do 2 eexists.
    - intros [[more next']|err]; cbn.
      + pose proof (page_chain_snoc _ _ _ _ more next' Hchain) as Hchain'.
        destruct (isNilOrEmpty next') eqn:Hnext; cbn.
        * exists next'. split_and!; [done|done|]. rewrite length_app. cbn. lia.
        * eapply always_impl; [|by apply (IH _ _ _ Hchain')].
          intros tr' [[[?|?]|]|?]; try done; rewrite length_app; cbn.
          -- intros (nx & ? & ? & ?). exists nx. split_and!; [done|done|lia].
          -- intros [Hlen ?]. split; [lia|done].
      + by exists tr, items, next, err. }
  apply (Hgen fuel [] [] None). constructor.
Qed.

(** ** Tags *)

Definition as_tags (l : list (string * string)) : list ec2_Tag :=
  (fun '(k, v) => {| tag_Key := Some k; tag_Value := Some v |}) <$> l.

(** A key the tagging does not use. *)
Definition plain_key (k : string) : Prop :=
  HasPrefix k TagNameKubernetesClusterPrefix = false /\ k <> TagNameKubernetesClusterLegacy.

(** The tags are those of one cluster [id]: no other cluster's key, and the
    legacy key only with its value. *)
Definition tags_of_cluster (id : string) (l : list (string * string)) : Prop :=
  Forall (fun '(k, v) => (HasPrefix k TagNameKubernetesClusterPrefix = true ->
                          k = TagNameKubernetesClusterPrefix +:+ id) /\
                         (k = TagNameKubernetesClusterLegacy -> v = id)) l.

Lemma prefix_not_legacy k :
  HasPrefix k TagNameKubernetesClusterPrefix = true -> k <> TagNameKubernetesClusterLegacy.
Proof. by intros Hp ->. Qed.

Lemma in_cons_ne {A} `{EqDecision A} (x k : A) l :
  x <> k -> bool_decide (x ∈ k :: l) = bool_decide (x ∈ l).
Proof. intros Hx. apply bool_decide_ext. rewrite elem_of_cons. naive_solver. Qed.

Lemma findClusterIDs_spec id l legacy new :
  id <> "" -> NoDup l.*1 -> tags_of_cluster id l ->
  (new = "" \/ TagNameKubernetesClusterPrefix +:+ id ∉ l.*1) ->
  (legacy = "" \/ TagNameKubernetesClusterLegacy ∉ l.*1) ->
  findClusterIDs_from (as_tags l) legacy new =
  Ok (if bool_decide (TagNameKubernetesClusterLegacy ∈ l.*1) then id else legacy,
      if bool_decide (TagNameKubernetesClusterPrefix +:+ id ∈ l.*1) then id else new).
Proof.
  intros Hid. set (key := TagNameKubernetesClusterPrefix +:+ id).
  assert (TrimPrefix key TagNameKubernetesClusterPrefix = id) as Htrim by apply TrimPrefix_app.
  assert (HasPrefix key TagNameKubernetesClusterPrefix = true) as Hkp by apply HasPrefix_app.
  assert (key <> TagNameKubernetesClusterLegacy) as Hko by by apply prefix_not_legacy.
  revert legacy new; unfold tags_of_cluster; fold key; clearbody key.
  induction l as [|[k v] l IH]; intros legacy new Hnd Hl Hnew Hleg; [done|].
  apply NoDup_cons in Hnd as [Hk Hnd]. apply Forall_cons in Hl as [[Hp Hv] Hl].
  cbn [as_tags fmap list_fmap findClusterIDs_from tag_Key tag_Value fst].
  change (StringValue (Some k)) with k. change (StringValue (Some v)) with v.
  cbn in Hnew, Hleg. rewrite not_elem_of_cons in Hnew, Hleg. fold (as_tags l).
  destruct (HasPrefix k TagNameKubernetesClusterPrefix) eqn:Hpre.
  - specialize (Hp eq_refl). subst k. destruct Hnew as [->|[]]; [|done].
    rewrite (bool_decide_eq_false_2 ("" <> "")) by (intros Hn; by apply Hn). cbn [andb].
    rewrite (bool_decide_eq_false_2 (key = TagNameKubernetesClusterLegacy)) by done.
    rewrite Htrim, IH; [|done|done|by right|naive_solver].
    rewrite (in_cons_ne TagNameKubernetesClusterLegacy) by done.
    rewrite (bool_decide_eq_true_2 (key ∈ _ :: _)) by by left.
    by rewrite (bool_decide_eq_false_2 (key ∈ l.*1)) by done.
  - cbn [andb]. assert (key <> k) as Hkk by (intros <-; congruence).
    rewrite (in_cons_ne key) by done.
    destruct (decide (k = TagNameKubernetesClusterLegacy)) as [->|Hold].
    + rewrite (bool_decide_eq_true_2 (TagNameKubernetesClusterLegacy = _)) by done. specialize (Hv eq_refl). subst v. destruct Hleg as [->|[]]; [|done].
      rewrite (bool_decide_eq_false_2 ("" <> "")) by (intros Hn; by apply Hn).
      rewrite IH; [|done|done|naive_solver|by right].
      rewrite (bool_decide_eq_true_2 (TagNameKubernetesClusterLegacy ∈ _ :: _)) by by left.
      by rewrite (bool_decide_eq_false_2 (TagNameKubernetesClusterLegacy ∈ l.*1)) by done.
    + rewrite (bool_decide_eq_false_2 (k = _)) by done.
      rewrite (in_cons_ne TagNameKubernetesClusterLegacy) by done. apply IH; [done|done|naive_solver|naive_solver].
Qed.

Lemma hasClusterTag_spec t l :
  tags_of_cluster (ClusterID t) l -> clusterTagKey t ∈ l.*1 ->
  hasClusterTag_from (as_tags l) t = true.
Proof.
  intros Hl Hin. induction l as [|[k v] l IH]; cbn; [by apply not_elem_of_nil in Hin|].
  apply Forall_cons in Hl as [[_ Hv] Hl].
  change (StringValue (Some k)) with k. change (StringValue (Some v)) with v.
  case_bool_decide as Hold; [apply bool_decide_eq_true_2; by apply Hv|].
  case_bool_decide as Hkey; [done|]. apply IH; [done|].
  cbn in Hin. apply elem_of_cons in Hin as [Hin|Hin]; [by subst k|exact Hin].
Qed.

(** The tags built for a resource are those of the cluster. *)
Lemma buildTags_of_cluster lifecycle extra t :
  map_Forall (fun k _ => plain_key k) extra ->
  map_Forall (fun k v => (HasPrefix k TagNameKubernetesClusterPrefix = true -> k = clusterTagKey t) /\
                         (k = TagNameKubernetesClusterLegacy -> v = ClusterID t))
             (buildTags lifecycle extra t).
Proof.
  intros Hextra. unfold buildTags.
  assert (forall m : gmap string string, map_Forall (fun k _ => plain_key k) m ->
            map_Forall (fun k v => (HasPrefix k TagNameKubernetesClusterPrefix = true -> k = clusterTagKey t) /\
                                   (k = TagNameKubernetesClusterLegacy -> v = ClusterID t)) m) as Hplain.
  { intros m Hm k v Hkv. destruct (Hm k v Hkv) as [Hp Hk]. split; congruence. }
  case_bool_decide; [by apply Hplain|].
  apply map_Forall_insert_2; [split; [done|]|].
  - intros Hk. exfalso. revert Hk. apply prefix_not_legacy, HasPrefix_app.
  - destruct (usesLegacyTags t); [|by apply Hplain].
    apply map_Forall_insert_2; [split; [done|done]|by apply Hplain].
Qed.

Lemma legacy_tag_built lifecycle extra t :
  ClusterID t <> "" -> map_Forall (fun k _ => plain_key k) extra ->
  bool_decide (is_Some (buildTags lifecycle extra t !! TagNameKubernetesClusterLegacy))
  = usesLegacyTags t.
Proof.
  intros Hid Hextra. unfold buildTags. rewrite (bool_decide_eq_false_2 (String.length _ = 0)) by by apply nonempty_length.
  rewrite lookup_insert_ne by (apply prefix_not_legacy, HasPrefix_app).
  destruct (usesLegacyTags t); [by rewrite lookup_insert_eq|].
  destruct (extra !! _) eqn:He; [|done]. by destruct (Hextra _ _ He).
Qed.

(** C24: Tags identify their cluster.  Whatever tags a resource is given
    besides, and in whatever order its tags come back, a resource that a
    cluster tagged is recognised by that cluster, and reading the cluster's
    identity back from these tags gives the tagging that made them. *)
Theorem tags_roundtrip lifecycle extra t l :
  ClusterID t <> "" -> map_Forall (fun k _ => plain_key k) extra ->
  l ≡ₚ map_to_list (buildTags lifecycle extra t) ->
  hasClusterTag (as_tags l) t = true /\
  initFromTags (as_tags l) {| ClusterID := ""; usesLegacyTags := false |} = (None, t).
Proof.
  intros Hid Hextra Hl.
  assert (forall k v, (k, v) ∈ l <-> buildTags lifecycle extra t !! k = Some v) as Hin
    by (intros; by rewrite Hl, elem_of_map_to_list).
  assert (NoDup l.*1) as Hnd by (rewrite Hl; apply NoDup_fst_map_to_list).
  assert (tags_of_cluster (ClusterID t) l) as Hof.
  { apply Forall_forall. intros [k v] Hkv%Hin.
    exact (buildTags_of_cluster lifecycle extra t Hextra k v Hkv). }
  assert (clusterTagKey t ∈ l.*1) as Hkey.
  { apply list_elem_of_fmap. exists (clusterTagKey t, lifecycle). split; [done|]. apply Hin.
    unfold buildTags. rewrite (bool_decide_eq_false_2 (String.length _ = 0)) by by apply nonempty_length.
    apply lookup_insert_eq. }
  split.
  - unfold hasClusterTag. case_bool_decide; [done|]. by apply hasClusterTag_spec.
  - unfold initFromTags, findClusterIDs.
    rewrite (findClusterIDs_spec (ClusterID t)) by auto.
    fold (clusterTagKey t). rewrite (bool_decide_eq_true_2 (clusterTagKey t ∈ _)) by done.
    assert (bool_decide (TagNameKubernetesClusterLegacy ∈ l.*1) = usesLegacyTags t) as ->.
    + rewrite (bool_decide_ext _ (is_Some (buildTags lifecycle extra t !! TagNameKubernetesClusterLegacy))).
      * by apply legacy_tag_built.
      * rewrite list_elem_of_fmap. split.
        -- intros ([k v] & -> & Hkv%Hin). by exists v.
        -- intros [v Hv%Hin]. by exists (TagNameKubernetesClusterLegacy, v).
    + unfold init. destruct t as [id leg]; cbn in *. destruct leg; [|by cbn].
      rewrite bool_decide_eq_true_2 by done.
      rewrite (bool_decide_eq_false_2 (id <> id)) by (intros Hn; by apply Hn).
      by rewrite andb_false_r.
Qed.

#[local] Instance sorted : MapRange := map_range_sorted.

Lemma tags_roundtrip_witness :
  let t := {| ClusterID := "prod"; usesLegacyTags := true |} in
  hasClusterTag (as_tags [("KubernetesCluster", "prod"); ("Name", "pv-1");
                          ("kubernetes.io/cluster/prod", "owned")]) t = true /\
  initFromTags (as_tags [("KubernetesCluster", "prod"); ("Name", "pv-1");
                         ("kubernetes.io/cluster/prod", "owned")])
    {| ClusterID := ""; usesLegacyTags := false |} = (None, t).
Proof.
  apply (tags_roundtrip "owned" {["Name" := "pv-1"]}).
  - discriminate.
  - by apply map_Forall_singleton.
  - apply (bool_decide_unpack _). vm_compute. exact I.
Defined.

(** The calls of the tagging. *)
Inductive TagE (X : Type) : Type :=
| TagEc2 (e : Ec2E X)
| TagSys (e : SysE X).
Arguments TagEc2 {X} e.
Arguments TagSys {X} e.
#[export] Instance SubE_tag_ec2 : SubE Ec2E TagE := fun _ e => TagEc2 e.
#[export] Instance SubE_tag_sys : SubE SysE TagE := fun _ e => TagSys e.

Definition is_create_tags (ev : event TagE) : bool :=
  match ev with Event (TagEc2 (CreateTags _ _)) _ => true | _ => false end.

Definition slept (tr : list (event TagE)) : Z :=
  foldr (fun ev acc => match ev with
                       | Event (TagSys (Sleep d)) _ => d + acc
                       | _ => acc
                       end)%Z 0%Z tr.

(** What the last attempt to tag answered. *)
Definition last_tagging (tr : list (event TagE)) : option (option error) :=
  fold_left (fun last (ev : event TagE) =>
               match ev with
               | Event (TagEc2 e) x =>
                   match e in Ec2E X return X -> option (option error) with
                   | CreateTags _ _ => fun err => Some err
                   | _ => fun _ => last
                   end x
               | _ => last
               end) tr None.

(** Every attempt is made with all the tags of the resource. *)
Definition tags_only (resourceID : string) (tags : list (string * string)) (ev : event TagE) : bool :=
  match ev with
  | Event (TagEc2 (CreateTags r l)) _ => bool_decide (r = resourceID) && bool_decide (l = tags)
  | Event (TagSys (Sleep _)) _ => true
  | _ => false
  end.

(** The four conclusions at the end of an execution. *)
#[local] Ltac tagging_end :=
  rewrite ?bool_decide_eq_true_2 by done;
  split_and!; [done|lia|unfold Second; lia|eexists; split_and!; [done|done|done || by intros [? [=]]]].

(** Retries of the tagging.  Tagging makes at most nine attempts, all for
    this resource with the same tags, and sleeps 255 seconds at most; it
    succeeds exactly when an attempt did or there is nothing to tag, and when
    all nine failed it returns the error of the last one, not the timeout. *)
Theorem createTags_retries `{MapRange} resourceID lifecycle extra t :
  always (createTags (E:=TagE) resourceID lifecycle extra t)
    (fun tr o =>
       forallb (tags_only resourceID (range (buildTags lifecycle extra t))) tr = true /\
       count is_create_tags tr <= 9 /\ (slept tr <= 255 * Second)%Z /\
       if bool_decide (buildTags lifecycle extra t = ∅) then tr = [] /\ o = Returned None
       else exists answer, last_tagging tr = Some answer /\ o = Returned answer /\
              (is_Some answer -> count is_create_tags tr = 9)) [].
Proof.
  unfold createTags. case_bool_decide as Hempty.
  { cbn. split_and!; done || lia. }
  set (tags := range _).
  unfold ExponentialBackoff, createTagSteps, createTagInitialDelay. cbn.
  do 8 (intros [?|]; cbn; [intros []; cbn|tagging_end]).
  intros [?|]; cbn; tagging_end.
Qed.

Lemma check_tags_spec resourceID l actual :
  (check_tags resourceID l actual = None <->
   forall k v, (k, v) ∈ l -> default "" (actual !! k) = v \/ default "" (actual !! k) = "").
Proof.
  induction l as [|[k v] l IH]; cbn.
  - split; [|done]. by intros _ k v ?%elem_of_nil.
  - setoid_rewrite elem_of_cons. repeat case_bool_decide.
    + rewrite IH. split; [|naive_solver]. intros Hall k' v' [[= -> ->]|Hin]; [by left|by apply Hall].
    + rewrite IH. split; [|naive_solver]. intros Hall k' v' [[= -> ->]|Hin]; [by right|by apply Hall].
    + split; [done|]. intros Hall. destruct (Hall k v); naive_solver.
Qed.

(** Tagging returns, and so does the repair of tags. *)
Lemma createTags_returns `{MapRange} {E} `{!SubE Ec2E E, !SubE SysE E} resourceID lifecycle extra t tr :
  always (E:=E) (createTags resourceID lifecycle extra t) (fun _ o => exists r, o = Returned r) tr.
Proof.
  unfold createTags. case_bool_decide; [by eexists|]. apply always_bind.
  assert (forall steps first d scale s tr,
    always (E:=E) (backoff_tries (create_tags_once resourceID (range (buildTags lifecycle extra t)))
                     steps first d scale s) (fun _ o => exists r, o = Returned r) tr) as Htries.
  { induction steps as [|steps IH]; intros first d scale s tr'; cbn; [by eexists|].
    destruct first; cbn.
    - intros [err|]; cbn; [apply IH|by eexists].
    - intros u [err|]; cbn; [apply IH|by eexists]. }
  eapply always_impl; [|apply Htries]. intros tr' o [[lastErr err] ->]. cbn.
  destruct err as [[]|]; by eexists.
Qed.

Lemma readRepair_returns `{MapRange} {E} `{!SubE Ec2E E, !SubE SysE E} resourceID lifecycle extra observed t tr :
  always (E:=E) (readRepairClusterTags resourceID lifecycle extra observed t)
    (fun _ o => exists r, o = Returned r) tr.
Proof.
  unfold readRepairClusterTags. destruct (check_tags _ _ _); [by eexists|]. apply always_bind.
  eapply always_impl; [|apply createTags_returns]. intros tr' o [[err|] ->]; by eexists.
Qed.

(** The attempts only, of any tagging. *)
Lemma createTags_calls `{MapRange} resourceID lifecycle extra t :
  only (E:=TagE) (fun X e => match e with
                             | TagEc2 (CreateTags r l) =>
                                 r = resourceID /\ l = range (buildTags lifecycle extra t)
                             | TagSys (Sleep _) => True
                             | _ => False
                             end) (createTags resourceID lifecycle extra t).
Proof.
  unfold createTags. case_bool_decide; [done|]. apply only_bind.
  - unfold ExponentialBackoff, createTagSteps. cbn.
    repeat first [ split; [done|] | intros [?|]; cbn | intros []; cbn | exact I ].
  - intros [lastErr [[]|]]; done.
Qed.

(** Tags of another cluster are never overwritten.  When a resource that
    was found has, under one of the expected keys, a value that is neither
    empty nor the expected one, the repair fails without a call; otherwise it
    writes all the expected tags, those that were there already too, and
    nothing else. *)
Theorem readRepairClusterTags_respects `{MapRange} resourceID lifecycle extra observed t :
  let actual := fold_left (fun m tag => <[StringValue (tag_Key tag) := StringValue (tag_Value tag)]> m)
                          observed (∅ : gmap string string) in
  let tags := buildTags lifecycle extra t in
  always (readRepairClusterTags (E:=TagE) resourceID lifecycle extra observed t)
    (fun tr o =>
       ((exists k v a, tags !! k = Some v /\ actual !! k = Some a /\ a <> "" /\ a <> v) ->
        tr = [] /\ exists e, o = Returned (Some e)) /\
       ((forall k v, tags !! k = Some v -> default "" (actual !! k) = v \/ default "" (actual !! k) = "") ->
        Forall (fun ev => match ev with
                          | Event (TagEc2 (CreateTags r l)) _ => r = resourceID /\ l = range tags
                          | Event (TagSys (Sleep _)) _ => True
                          | _ => False
                          end) tr)) [].
Proof.
  intros actual tags. unfold readRepairClusterTags. fold actual.
  destruct (check_tags _ _ _) as [e|] eqn:Hcheck.
  - cbn. split; [by eauto|]. intros Hall. exfalso.
    assert (check_tags resourceID (range tags) actual = None) as Hnone
      by (apply check_tags_spec; intros k v Hkv%elem_of_range; by apply Hall).
    unfold tags in Hnone. congruence.
  - assert (~ exists k v a, tags !! k = Some v /\ actual !! k = Some a /\ a <> "" /\ a <> v) as Hno.
    { intros (k & v & a & Hk & Ha & Hne & Hav). apply elem_of_range in Hk.
      destruct (proj1 (check_tags_spec _ _ _) Hcheck k v Hk) as [Hd|Hd]; rewrite Ha in Hd; by cbn in Hd. }
    assert (only (E:=TagE) (fun X e => match e with
                             | TagEc2 (CreateTags r l) => r = resourceID /\ l = range tags
                             | TagSys (Sleep _) => True
                             | _ => False
                             end)
              (let! err := createTags resourceID lifecycle extra t in
               match err with
               | Some err => Done (Some (Errorf "error adding missing tags to resource %q: %v"
                                       [FStr resourceID; FErr (Some err)]))
               | None => Done None
               end)) as Honly
      by (apply only_bind; [apply createTags_calls|by intros [?|]]).
    eapply always_impl; [|apply (only_always _ _ [] Honly)].
    intros tr o (new & -> & Hnew). split; [done|]. intros _.
    eapply Forall_impl; [exact Hnew|]. by intros [X [e|e] x].
Qed.
