(* ===== verification/AwsDevices.v ===== *)
(** Device names of attached volumes: the allocator
    ([device_allocator.go]) and the part of the cloud's state that the
    attaching mutex protects ([aws.go]: [attaching] and [deviceAllocators],
    used by [getMountDevice] and [endAttaching]).  Both methods hold the mutex
    while they use that state, so each is one atomic function on it. *)

From S2P Require Import Prelude GoStrings Types Ec2.
From Stdlib Require Import Lia.

#[local] Open Scope string_scope.

(** * The allocator *)

Record deviceAllocator := {
  possibleDevices : list string;
  lastIndex : nat;
}.

Definition letters : list ascii :=
  ["a"; "b"; "c"; "d"; "e"; "f"; "g"; "h"; "i"; "j"; "k"; "l"; "m"; "n"; "o"; "p"; "q"; "r"; "s";
   "t"; "u"; "v"; "w"; "x"; "y"; "z"]%char.

(** [ba] to [bz], then [ca] to [cz]. *)
Definition NewDeviceAllocator (lastIndex_ : nat) : deviceAllocator :=
  {| possibleDevices :=
       firstChar ← ["b"; "c"]%char; i ← letters; [String firstChar (String i EmptyString)];
     lastIndex := lastIndex_ |}.

Definition nextDevice (nextIndex : nat) (d : deviceAllocator) : string * nat :=
  if bool_decide (nextIndex < length (possibleDevices d))
  then (List.nth nextIndex (possibleDevices d) "", nextIndex)
  else (List.nth 0 (possibleDevices d) "", 0).

(** The loop of [GetNext]: [None] when it has not ended after [fuel] turns. *)
Fixpoint GetNext_from {V} (fuel : nat) (existingDevices : gmap string V) (foundIndex : nat)
    (d : deviceAllocator) : option (res string * deviceAllocator) :=
  match fuel with
  | O => None
  | S fuel' =>
      let '(candidate, foundIndex) := nextDevice (foundIndex + 1) d in
      match existingDevices !! candidate with
      | None => Some (Ok candidate, {| possibleDevices := possibleDevices d; lastIndex := foundIndex |})
      | Some _ =>
          if bool_decide (foundIndex = lastIndex d)
          then Some (Err (errorf "no devices are available" []), d)
          else GetNext_from fuel' existingDevices foundIndex d
      end
  end.

(** One turn per device: [None] stands for a loop that goes on, which it does
    not for the allocators the program makes ([GetNext_total] below). *)
Definition GetNext {V} (existingDevices : gmap string V) (d : deviceAllocator)
    : option (res string * deviceAllocator) :=
  GetNext_from (length (possibleDevices d)) existingDevices (lastIndex d) d.

(** * The attach state *)

(** By node name, then by device: the volumes whose attachment is in
    progress. *)
Record attach_state := {
  attaching : gmap string (gmap string string);
  deviceAllocators : gmap string deviceAllocator;
}.

Definition empty_attach_state : attach_state := {| attaching := ∅; deviceAllocators := ∅ |}.

Definition attaching_on (nodeName : string) (st : attach_state) : gmap string string :=
  default ∅ (attaching st !! nodeName).

(** The device mappings EC2 reports; [None] when a block device has no [Ebs],
    which is dereferenced. *)
Fixpoint block_devices (bds : list BlockDevice) (m : gmap string string) : option (gmap string string) :=
  match bds with
  | [] => Some m
  | bd :: bds' =>
      let name := StringValue (bd_DeviceName bd) in
      let name := if HasPrefix name "/dev/sd" then drop_bytes 7 name else name in
      let name := if HasPrefix name "/dev/xvd" then drop_bytes 8 name else name in
      match bd_Ebs bd with
      | None => None
      | Some volumeId => block_devices bds' (<[name := StringValue volumeId]> m)
      end
  end.

Section attach.
Context `{MapRange}.

(** The attachments in progress replace what EC2 reports. *)
Definition device_mappings (nodeName : string) (reported : gmap string string) (st : attach_state)
    : gmap string string :=
  fold_left (fun m '(mountDevice, volume) => <[mountDevice := volume]> m)
            (range (attaching_on nodeName st)) reported.

(** What [getMountDevice] does with the mutex held: the device, whether the
    volume already has it, and the new state; [None] when the allocator does
    not end, which keeps the mutex for ever. *)
Definition getMountDevice_locked (nodeName : string) (reported : gmap string string)
    (volumeID : string) (assign : bool) (st : attach_state)
    : option (res (string * bool) * attach_state) :=
  let deviceMappings := device_mappings nodeName reported st in
  match List.find (fun '(_, v) => bool_decide (volumeID = v)) (range deviceMappings) with
  | Some (mountDevice, _) => Some (Ok (mountDevice, true), st)
  | None =>
      if negb assign then Some (Ok ("", false), st)
      else
        let allocator := default (NewDeviceAllocator 0) (deviceAllocators st !! nodeName) in
        match GetNext deviceMappings allocator with
        | None => None
        | Some (chosen, allocator) =>
            let allocators := <[nodeName := allocator]> (deviceAllocators st) in
            match chosen with
            | Err _ =>
                Some (Err (errorf "Too many EBS volumes attached to node %s." [nodeName]),
                      {| attaching := attaching st; deviceAllocators := allocators |})
            | Ok chosen =>
                Some (Ok (chosen, false),
                      {| attaching := <[nodeName := <[chosen := volumeID]> (attaching_on nodeName st)]>
                                        (attaching st);
                         deviceAllocators := allocators |})
            end
        end
  end.

(** The entry is removed if it is still this volume's. *)
Definition endAttaching (nodeName volumeID mountDevice : string) (st : attach_state)
    : bool * attach_state :=
  match attaching_on nodeName st !! mountDevice with
  | None => (false, st)
  | Some existingVolumeID =>
      if bool_decide (volumeID <> existingVolumeID) then (false, st)
      else (true, {| attaching := <[nodeName := delete mountDevice (attaching_on nodeName st)]>
                                    (attaching st);
                     deviceAllocators := deviceAllocators st |})
  end.
End attach.

(** * The allocator: theorems *)

(** The allocators the program makes. *)
Definition allocator_ok (d : deviceAllocator) : Prop :=
  possibleDevices d = possibleDevices (NewDeviceAllocator 0) /\ lastIndex d < 52.

Lemma possible_devices_length : length (possibleDevices (NewDeviceAllocator 0)) = 52.
Proof. reflexivity. Qed.

Lemma possible_devices_NoDup : NoDup (possibleDevices (NewDeviceAllocator 0)).
Proof. apply (bool_decide_unpack _). vm_compute. exact I. Qed.

(** The device [k] places after the last one, around the ring. *)
Definition device_after (d : deviceAllocator) (k : nat) : string :=
  List.nth ((lastIndex d + k) mod 52) (possibleDevices d) "".

Lemma nextDevice_ring d i :
  allocator_ok d -> i < 52 ->
  nextDevice (i + 1) d = (List.nth ((i + 1) mod 52) (possibleDevices d) "", (i + 1) mod 52).
Proof.
  intros [Hd _] Hi. unfold nextDevice. rewrite Hd, possible_devices_length.
  case_bool_decide.
  - by rewrite Nat.mod_small by lia.
  - replace (i + 1) with 52 by lia. reflexivity.
Qed.

(** One trip around the ring. *)
Lemma ring_back last j : last < 52 -> 1 <= j <= 52 -> (last + j) mod 52 = last <-> j = 52.
Proof.
  intros Hl Hj. pose proof (Nat.div_mod_eq (last + j) 52).
  pose proof (Nat.mod_upper_bound (last + j) 52). lia.
Qed.

Lemma ring_index last i :
  last < 52 -> i < 52 -> exists k, 1 <= k <= 52 /\ (last + k) mod 52 = i.
Proof.
  intros Hl Hi. destruct (decide (last < i)).
  - exists (i - last). split; [lia|]. rewrite Nat.mod_small; lia.
  - exists (52 - last + i). split; [lia|].
    replace (last + (52 - last + i)) with (i + 1 * 52) by lia.
    rewrite Nat.Div0.mod_add. by rewrite Nat.mod_small.
Qed.

Lemma GetNext_from_spec {V} (existing : gmap string V) d fuel j :
  allocator_ok d -> j + fuel = 52 -> 0 < fuel ->
  (forall k, 1 <= k <= j -> is_Some (existing !! device_after d k)) ->
  (exists k, j < k <= 52 /\ existing !! device_after d k = None /\
     (forall i, 1 <= i < k -> is_Some (existing !! device_after d i)) /\
     GetNext_from fuel existing ((lastIndex d + j) mod 52) d =
       Some (Ok (device_after d k), {| possibleDevices := possibleDevices d;
                                       lastIndex := (lastIndex d + k) mod 52 |})) \/
  ((forall i, 1 <= i <= 52 -> is_Some (existing !! device_after d i)) /\
   GetNext_from fuel existing ((lastIndex d + j) mod 52) d =
     Some (Err (errorf "no devices are available" []), d)).
Proof.
  intros Hd. pose proof Hd as [_ Hlast].
  revert j; induction fuel as [|fuel IH]; intros j Hj Hpos Htaken; [lia|].
  pose proof (Nat.mod_upper_bound (lastIndex d + j) 52) as Hmod.
  cbn [GetNext_from]. rewrite nextDevice_ring by (done || lia).
  rewrite Nat.Div0.add_mod_idemp_l. replace (lastIndex d + j + 1) with (lastIndex d + S j) by lia.
  fold (device_after d (S j)).
  destruct (existing !! device_after d (S j)) as [v|] eqn:Hex.
  - assert (forall k, 1 <= k <= S j -> is_Some (existing !! device_after d k)) as Htaken'.
    { intros k Hk. destruct (decide (k = S j)) as [->|]; [by eexists|]. apply Htaken. lia. }
    case_bool_decide as Hback.
    + right. apply ring_back in Hback; [|lia..]. split; [|done]. intros i Hi. apply Htaken'. lia.
    + destruct (decide (S j = 52)) as [Hj'|]; [by destruct Hback; apply ring_back; lia|].
      destruct (IH (S j)) as [(k & Hk & Hfree & Hbefore & Hrun)|[Hall Hrun]]; try lia; [done| |].
      * left. exists k. split_and!; [lia|lia|done|done|done].
      * by right.
  - left. exists (S j). split_and!; [lia|lia|done| |done]. intros i Hi. apply Htaken. lia.
Qed.

(** What the allocator answers. *)
Lemma GetNext_result {V} (existing : gmap string V) d :
  allocator_ok d ->
  (exists k, 1 <= k <= 52 /\
     GetNext existing d = Some (Ok (device_after d k), {| possibleDevices := possibleDevices d;
                                                          lastIndex := (lastIndex d + k) mod 52 |}) /\
     existing !! device_after d k = None /\
     (forall i, 1 <= i < k -> is_Some (existing !! device_after d i))) \/
  (GetNext existing d = Some (Err (errorf "no devices are available" []), d) /\
   forall device, device ∈ possibleDevices d -> is_Some (existing !! device)).
Proof.
  intros Hd. pose proof Hd as [Hdev Hlast]. unfold GetNext.
  assert (length (possibleDevices d) = 52) as Hlen by by rewrite Hdev, possible_devices_length.
  rewrite Hlen. assert (forall k, 1 <= k <= 0 -> is_Some (existing !! device_after d k)) as Hzero
    by (intros k Hk; lia).
  destruct (GetNext_from_spec existing d 52 0 Hd eq_refl ltac:(lia) Hzero)
    as [(k & Hk & Hfree & Hbefore & Hrun)|[Hall Hrun]];
    rewrite Nat.add_0_r, (Nat.mod_small _ _ Hlast) in Hrun; rewrite Hrun.
  - left. exists k. by split_and!; [lia|lia|..].
  - right. split; [done|]. intros device (i & Hi)%list_elem_of_lookup.
    pose proof (lookup_lt_Some _ _ _ Hi) as Hlt. rewrite Hlen in Hlt.
    destruct (ring_index (lastIndex d) i) as (k & Hk & Hik); [done..|].
    specialize (Hall k Hk). unfold device_after in Hall. rewrite Hik in Hall.
    by rewrite (nth_lookup_Some _ _ _ _ Hi) in Hall.
Qed.

Lemma GetNext_cases {V} (existing : gmap string V) d :
  allocator_ok d ->
  (exists k, GetNext existing d = Some (Ok (device_after d k),
                                        {| possibleDevices := possibleDevices d;
                                           lastIndex := (lastIndex d + k) mod 52 |}) /\
     existing !! device_after d k = None /\
     allocator_ok {| possibleDevices := possibleDevices d; lastIndex := (lastIndex d + k) mod 52 |}) \/
  (GetNext existing d = Some (Err (errorf "no devices are available" []), d) /\
   forall device, device ∈ possibleDevices (NewDeviceAllocator 0) -> is_Some (existing !! device)).
Proof.
  intros Hd. pose proof Hd as [Hdev _].
  destruct (GetNext_result existing d Hd) as [(k & _ & Hrun & Hfree & _)|[Hrun Hall]].
  - left. exists k. split_and!; [done|done|]. split; [done|]. cbn [lastIndex].
    by apply Nat.mod_upper_bound.
  - right. rewrite <- Hdev. by split.
Qed.

(** C23: The allocator ends, and is fair.  For every map of existing devices
    the loop of [GetNext] ends within one trip around the ring of 52 devices
    (the answer is never [None]).
    It returns the first device after the last one it gave out, around the
    ring, that is not taken, and remembers it; it fails exactly when all 52
    devices are taken, and then remembers nothing new. *)
Theorem GetNext_total {V} (existing : gmap string V) d :
  allocator_ok d ->
  (exists k, 1 <= k <= 52 /\
     GetNext existing d = Some (Ok (device_after d k), {| possibleDevices := possibleDevices d;
                                                          lastIndex := (lastIndex d + k) mod 52 |}) /\
     existing !! device_after d k = None /\
     (forall i, 1 <= i < k -> is_Some (existing !! device_after d i))) \/
  (GetNext existing d = Some (Err (errorf "no devices are available" []), d) /\
   forall device, device ∈ possibleDevices d -> is_Some (existing !! device)).
Proof. apply GetNext_result. Qed.

Lemma GetNext_total_witness :
  exists k, GetNext {["bb" := "vol-1"; "bc" := "vol-2"]} (NewDeviceAllocator 0)
            = Some (Ok (device_after (NewDeviceAllocator 0) k),
               {| possibleDevices := possibleDevices (NewDeviceAllocator 0);
                  lastIndex := (lastIndex (NewDeviceAllocator 0) + k) mod 52 |}).
Proof.
  destruct (GetNext_total {["bb" := "vol-1"; "bc" := "vol-2"]} (NewDeviceAllocator 0))
    as [(k & _ & Hk & _)|[_ Hall]].
  - split; [reflexivity|]. cbn. lia.
  - exists k. exact Hk.
  - exfalso. destruct (Hall "bd") as [v Hv].
    + apply (bool_decide_unpack _). vm_compute. exact I.
    + vm_compute in Hv. discriminate.
Defined.

(** * The attach state: theorems *)

Section attach_theorems.
Context `{MapRange}.

(** Any caller of the two methods, with any report of EC2. *)
Inductive attach_step : attach_state -> attach_state -> Prop :=
| attach_get nodeName reported volumeID assign st r st' :
    getMountDevice_locked nodeName reported volumeID assign st = Some (r, st') -> attach_step st st'
| attach_end nodeName volumeID mountDevice st :
    attach_step st (endAttaching nodeName volumeID mountDevice st).2.

Definition one_device_each (m : gmap string string) : Prop :=
  forall d1 d2 v, m !! d1 = Some v -> m !! d2 = Some v -> d1 = d2.

Record attach_inv (st : attach_state) : Prop := {
  ai_injective nodeName : one_device_each (attaching_on nodeName st);
  ai_range nodeName d v : attaching_on nodeName st !! d = Some v ->
                          d ∈ possibleDevices (NewDeviceAllocator 0);
  ai_allocators : map_Forall (fun _ d => allocator_ok d) (deviceAllocators st);
}.

Lemma device_mappings_union nodeName reported st :
  device_mappings nodeName reported st = attaching_on nodeName st ∪ reported.
Proof. apply fold_insert_range. Qed.

Lemma find_volume (m : gmap string string) v :
  match List.find (fun '(_, v') => bool_decide (v = v')) (range m) with
  | Some (d, v') => v' = v /\ m !! d = Some v
  | None => forall d, m !! d <> Some v
  end.
Proof.
  destruct (List.find _ _) as [[d v']|] eqn:Hf.
  - apply List.find_some in Hf as [Hin Heq]. apply bool_decide_eq_true in Heq. subst v'.
    split; [done|]. apply elem_of_range, list_elem_of_In, Hin.
  - intros d Hd%elem_of_range. apply list_elem_of_In in Hd.
    pose proof (List.find_none _ _ Hf _ Hd) as Hn. cbn in Hn.
    by apply bool_decide_eq_false in Hn.
Qed.

Lemma allocator_default_ok nodeName st :
  attach_inv st -> allocator_ok (default (NewDeviceAllocator 0) (deviceAllocators st !! nodeName)).
Proof.
  intros [_ _ Ha]. destruct (_ !! nodeName) as [d|] eqn:Hd; [by apply (Ha nodeName)|].
  split; [done|]. cbn. lia.
Qed.

Lemma device_after_possible d k : allocator_ok d -> device_after d k ∈ possibleDevices (NewDeviceAllocator 0).
Proof.
  intros [Hd _]. unfold device_after. rewrite Hd. apply list_elem_of_In, nth_In.
  rewrite possible_devices_length. by apply Nat.mod_upper_bound.
Qed.

Lemma attaching_on_insert nodeName nodeName' m st allocators :
  attaching_on nodeName' {| attaching := <[nodeName := m]> (attaching st); deviceAllocators := allocators |} =
  if decide (nodeName = nodeName') then m else attaching_on nodeName' st.
Proof. unfold attaching_on. cbn. rewrite lookup_insert. by case_decide. Qed.

(** What [getMountDevice] does, on every branch. *)
Lemma getMountDevice_cases nodeName reported volumeID assign st :
  attach_inv st ->
  let m := attaching_on nodeName st ∪ reported in
  match getMountDevice_locked nodeName reported volumeID assign st with
  | None => False
  | Some (Ok (d, true), st') => m !! d = Some volumeID /\ st' = st
  | Some (Ok (d, false), st') =>
      (forall d', m !! d' <> Some volumeID) /\
      if assign then
        d ∈ possibleDevices (NewDeviceAllocator 0) /\ m !! d = None /\
        attaching st' = <[nodeName := <[d := volumeID]> (attaching_on nodeName st)]> (attaching st) /\
        map_Forall (fun _ a => allocator_ok a) (deviceAllocators st')
      else d = "" /\ st' = st
  | Some (Err _, st') =>
      assign = true /\ (forall d', m !! d' <> Some volumeID) /\
      (forall d, d ∈ possibleDevices (NewDeviceAllocator 0) -> is_Some (m !! d)) /\
      attaching st' = attaching st /\
      map_Forall (fun _ a => allocator_ok a) (deviceAllocators st')
  end.
Proof.
  intros Hinv m. pose proof (allocator_default_ok nodeName st Hinv) as Hal.
  unfold getMountDevice_locked. rewrite device_mappings_union. fold m.
  pose proof (find_volume m volumeID) as Hfind.
  destruct (List.find _ (range m)) as [[d v]|]; [by destruct Hfind|].
  destruct assign; cbn [negb]; [|done].
  set (a := default _ _) in *.
  destruct (GetNext_cases m a Hal) as [(k & Hrun & Hfree & Hok)|[Hrun Hall]]; rewrite Hrun; cbn.
  - split; [done|]. split_and!; [by apply device_after_possible|done|done|].
    apply map_Forall_insert_2; [done|apply Hinv].
  - split_and!; try done. apply map_Forall_insert_2; [done|apply Hinv].
Qed.

Lemma attach_step_inv st st' : attach_inv st -> attach_step st st' -> attach_inv st'.
Proof.
  intros Hinv Hstep. revert Hinv.
  destruct Hstep as [nodeName reported volumeID assign st0 r st1 Hget|nodeName volumeID mountDevice st0];
    intros Hinv.
  - pose proof (getMountDevice_cases nodeName reported volumeID assign st0 Hinv) as Hcases.
    rewrite Hget in Hcases. destruct r as [[d [|]]|e]; cbn in *.
    + by destruct Hcases as [_ ->].
    + destruct assign; [|by destruct Hcases as (_ & _ & ->)].
      destruct Hcases as (Hnew & Hd & Hfree & Hat & Hal). destruct st1 as [at1 al1]; cbn in *. subst at1.
      destruct Hinv as [Hinj Hrange _]. split; [| |done]; intros nodeName'; rewrite attaching_on_insert;
        (case_decide; [subst nodeName'|by apply Hinj || by apply Hrange]).
      * intros d1 d2 v [[<- <-]|[_ H1]]%lookup_insert_Some [[<- Hv]|[_ H2]]%lookup_insert_Some;
          [done| | |by eapply Hinj].
        -- destruct (Hnew d2). by rewrite lookup_union_Some_raw; left.
        -- subst v. destruct (Hnew d1). by rewrite lookup_union_Some_raw; left.
      * intros d' v [[<- <-]|[_ H1]]%lookup_insert_Some; [done|by eapply Hrange].
    + destruct Hcases as (_ & _ & _ & Hat & Hal). destruct Hinv as [Hinj Hrange _].
      destruct st1 as [at1 al1]; cbn in *. subst at1. split; done.
  - unfold endAttaching. destruct (attaching_on nodeName st0 !! mountDevice) as [v|]; [|done].
    case_bool_decide; [done|]. cbn. destruct Hinv as [Hinj Hrange Hal].
    split; [| |done]; intros nodeName'; rewrite attaching_on_insert;
      (case_decide; [subst nodeName'|by apply Hinj || by apply Hrange]).
    + intros d1 d2 w [_ H1]%lookup_delete_Some [_ H2]%lookup_delete_Some. by eapply Hinj.
    + intros d' w [_ H1]%lookup_delete_Some. by eapply Hrange.
Qed.

Lemma endAttaching_other nodeName volumeID volumeID' d st :
  attaching_on nodeName st !! d = Some volumeID -> volumeID' <> volumeID ->
  endAttaching nodeName volumeID' d st = (false, st).
Proof. intros Hd Hne. unfold endAttaching. rewrite Hd. by rewrite bool_decide_eq_true_2. Qed.

Lemma attach_inv_init : attach_inv empty_attach_state.
Proof. split; [by intros ? ? ? ?|by intros ? ? ?|apply map_Forall_empty]. Qed.

Lemma attach_reachable_inv st : rtc attach_step empty_attach_state st -> attach_inv st.
Proof. apply rtc_invariant; [apply attach_inv_init|]. intros. by eapply attach_step_inv. Qed.

(** C22: Attaching is safe.  Whatever calls of [getMountDevice] and
    [endAttaching] came before, in any order and with any reports of EC2, no
    volume is being attached to a node at two devices, all the devices in use
    are among the 52 names, and a request for a device: gives a volume that
    has one the device it has; gives another volume a device that neither EC2
    nor another attachment uses, and reserves it, so that the end of this
    attachment, and of no other, frees it again and leaves the reservations as
    they were; and fails only when all 52 devices are taken. *)
Theorem attach_state_safe st nodeName reported volumeID :
  rtc attach_step empty_attach_state st ->
  one_device_each (attaching_on nodeName st) /\
  (forall d v, attaching_on nodeName st !! d = Some v -> d ∈ possibleDevices (NewDeviceAllocator 0)) /\
  match getMountDevice_locked nodeName reported volumeID true st with
  | None => False
  | Some (Ok (d, true), st') =>
      st' = st /\ (attaching_on nodeName st ∪ reported) !! d = Some volumeID
  | Some (Ok (d, false), st') =>
      d ∈ possibleDevices (NewDeviceAllocator 0) /\
      reported !! d = None /\ attaching_on nodeName st !! d = None /\
      attaching_on nodeName st' !! d = Some volumeID /\
      (forall volumeID', volumeID' <> volumeID -> endAttaching nodeName volumeID' d st' = (false, st')) /\
      (endAttaching nodeName volumeID d st').1 = true /\
      forall node, attaching_on node (endAttaching nodeName volumeID d st').2 = attaching_on node st
  | Some (Err _, st') =>
      attaching st' = attaching st /\
      forall d, d ∈ possibleDevices (NewDeviceAllocator 0) ->
                is_Some ((attaching_on nodeName st ∪ reported) !! d)
  end.
Proof.
  intros Hinv%attach_reachable_inv. split; [apply Hinv|]. split; [apply Hinv|].
  pose proof (getMountDevice_cases nodeName reported volumeID true st Hinv) as Hcases.
  destruct (getMountDevice_locked _ _ _ _ _) as [[[[d [|]]|e] st']|]; [naive_solver| |naive_solver|done].
  destruct Hcases as (_ & Hd & Hfree & Hat & _). apply lookup_union_None in Hfree as [Hfree Hrep].
  destruct st' as [at' al']; cbn in Hat; subst at'.
  assert (attaching_on nodeName {| attaching := <[nodeName := <[d := volumeID]> (attaching_on nodeName st)]>
                                                 (attaching st); deviceAllocators := al' |} !! d
          = Some volumeID) as Hin
    by (rewrite attaching_on_insert, decide_True by done; apply lookup_insert_eq).
  split_and!; try done.
  - intros volumeID' Hne. by eapply endAttaching_other.
  - unfold endAttaching. rewrite Hin. by rewrite bool_decide_eq_false_2 by (intros Hn; by apply Hn).
  - intros node. unfold endAttaching. rewrite Hin.
    rewrite bool_decide_eq_false_2 by (intros Hn; by apply Hn). cbn [snd].
    rewrite !attaching_on_insert, (decide_True (P:=nodeName = nodeName)) by done.
    case_decide; [subst node|].
    + by rewrite delete_insert_id.
    + reflexivity.
Qed.
End attach_theorems.

#[local] Instance sorted : MapRange := map_range_sorted.

Lemma attach_state_safe_witness :
  exists st d,
    getMountDevice_locked "node" {["ba" := "vol-root"]} "vol-1" true empty_attach_state =
      Some (Ok (d, false), st) /\
    d = "bb" /\ one_device_each (attaching_on "node" st).
Proof.
  eexists _, _. split; [vm_compute; reflexivity|]. split; [reflexivity|].
  refine (proj1 (attach_state_safe _ "node" ∅ "vol-2" _)).
  apply rtc_once.
  apply (attach_get "node" {["ba" := "vol-root"]} "vol-1" true empty_attach_state (Ok ("bb", false))).
  vm_compute. reflexivity.
Defined.
