(* ===== verification/VolumePlugins.v ===== *)
(** The four volume plugins ([pkg/volume/hostpath], [aws_ebs], [gce_pd] and
    [cinder]), the helpers they use of the vendored [kubernetes/pkg/volume]
    package, and the map of registered plugins that both commands build
    ([buildVolumePlugins]).

    A plugin is a program over the calls [E] of its provider: the operating
    system for [hostPath], the operations of its cloud for the others.  The
    cloud is a record of operations, so that a plugin can be put on top of
    the cloud's calls seen from outside ([aws_client] and its like) or on a
    modelled provider. *)

From S2P Require Import Prelude GoStrings Types Api Plugin.
From stdpp Require Import pretty.
From Stdlib Require Import Lia.

#[local] Open Scope string_scope.

(** * Volume helpers ([vendor/k8s.io/kubernetes/pkg/volume/util.go]) *)

(** [int64] arithmetic; Go's division truncates. *)
Definition RoundUpSize (volumeSizeBytes allocationUnitBytes : Z) : Z :=
  Z.quot (wrap64 (wrap64 (volumeSizeBytes + allocationUnitBytes) - 1)) allocationUnitBytes.

Definition GiB : Z := 1024 * 1024 * 1024.

(** [prefix[:n]] panics when [n] is negative ([n] is below the length of the
    prefix whenever it is cut). *)
Definition GenerateVolumeName {E} (clusterName pvName : string) (maxLength : Z) : prog E string :=
  let prefix := clusterName +:+ "-dynamic" in
  let pvLen := Z.of_nat (String.length pvName) in
  if bool_decide (pvLen + 1 + Z.of_nat (String.length prefix) > maxLength)%Z then
    let cut := (maxLength - pvLen - 1)%Z in
    if bool_decide (cut < 0)%Z then Crash "slice bounds out of range"
    else Done (take_bytes (Z.to_nat cut) prefix +:+ "-" +:+ pvName)
  else Done (prefix +:+ "-" +:+ pvName).

(** [fnv.New32]: FNV-1 over the bytes. *)
Fixpoint fnv32_from (h : Z) (s : string) : Z :=
  match s with
  | EmptyString => h
  | String a s' => fnv32_from (Z.lxor ((h * 16777619) mod 2 ^ 32) (Z.of_nat (nat_of_ascii a))) s'
  end.
Definition fnv32 (s : string) : Z := fnv32_from 2166136261 s.

(** [strconv.ParseUint(s, 10, 32)], its errors as [None]. *)
Definition ParseUint32 (s : string) : option Z :=
  match parse_unsigned s with
  | Some n => if bool_decide (n < 2 ^ 32)%Z then Some n else None
  | None => None
  end.

(** What is hashed of a claim's name, and the offset added to the hash. *)
Definition zone_hash_input (pvcName : string) : string * Z :=
  match LastIndexByte pvcName "-" with
  | None => (pvcName, 0%Z)
  | Some lastDash =>
      match ParseUint32 (drop_bytes (S lastDash) pvcName) with
      | None => (pvcName, 0%Z)
      | Some statefulsetID =>
          let hashString := take_bytes lastDash pvcName in
          match LastIndexByte hashString "-" with
          | None => (hashString, statefulsetID)
          | Some lastDash => (drop_bytes (S lastDash) hashString, statefulsetID)
          end
      end
  end.

(** [zones] is the sorted list [zones.List()], [random] what [rand.Uint32]
    answers.  The index is a remainder by the number of zones. *)
Definition ChooseZoneForVolume {E} (random : Z) (zones : list string) (pvcName : string)
    : prog E string :=
  let '(hash, index) :=
    if bool_decide (pvcName = "") then (random, 0%Z)
    else let '(hashString, index) := zone_hash_input pvcName in (fnv32 hashString, index) in
  match zones with
  | [] => Crash "integer divide by zero"
  | zone :: _ =>
      Done (List.nth (Z.to_nat (((hash + index) mod 2 ^ 32) mod Z.of_nat (length zones))) zones zone)
  end.

Definition LabelZoneFailureDomain : string := "failure-domain.beta.kubernetes.io/zone".
Definition LabelZoneRegion : string := "failure-domain.beta.kubernetes.io/region".

(** A plugin's request of storage, in GiB. *)
Definition requested_GiB (pvc : PersistentVolumeClaim) : Z :=
  RoundUpSize (default 0%Z (pvc_Requests pvc !! ResourceStorage)) GiB.

Definition no_source : VolumeSnapshotDataSource :=
  {| ds_HostPath := None; ds_AWSElasticBlockStore := None;
     ds_GCEPersistentDiskSnapshot := None; ds_CinderSnapshot := None |}.

(** * Host path *)

Module HostPathPlugin.
Definition depot : string := "/tmp/".
Definition restorePoint : string := "/restore/".

(** The calls to the operating system. *)
Inductive HostE : Type -> Type :=
| ExecRun (name : string) (args : list string) : HostE (option error)
| OsRemove (path : string) : HostE (option error)
| OsStat (path : string) : HostE (option error)
| OsMkdirAll (path : string) (perm : Z) : HostE (option error).

Definition GetPluginName : string := "hostPath".

Section plugin.
Context {E : Type -> Type} `{!SubE HostE E, !SubE SysE E}.

Definition SnapshotCreate (pv : PersistentVolume)
    : prog E (option VolumeSnapshotDataSource * option error) :=
  match HostPath (pv_Source (pv_Spec pv)) with
  | None => Done (None, Some (Errorf "invalid PV spec %v" [FDump]))
  | Some src =>
      let path := hp_Path src in
      let! uuid := trigger NewUUID in
      let file := depot +:+ uuid +:+ ".tgz" in
      let res := {| ds_HostPath := Some {| hps_Path := file |};
                    ds_AWSElasticBlockStore := None; ds_GCEPersistentDiskSnapshot := None;
                    ds_CinderSnapshot := None |} in
      let! err := trigger (ExecRun "tar" ["czf"; file; path]) in
      Done (Some res, err)
  end.

Definition SnapshotDelete (src : option VolumeSnapshotDataSource) (_ : option PersistentVolume)
    : prog E (option error) :=
  match src ≫= ds_HostPath with
  | None => Done (Some (Errorf "invalid VolumeSnapshotDataSource: %v" [FDump]))
  | Some h => trigger (OsRemove (hps_Path h))
  end.

Definition DescribeSnapshot (snapshotData : option VolumeSnapshotData)
    : prog E (bool * option error) :=
  match snapshotData ≫= (fun d => ds_HostPath (dspec_Source (vsd_Spec d))) with
  | None => Done (false, Some (errorf "failed to retrieve Snapshot spec" []))
  | Some h =>
      let! err := trigger (OsStat (hps_Path h)) in
      match err with
      | Some err => Done (false, Some err)
      | None => Done (true, None)
      end
  end.

(** The error of [os.MkdirAll] is dropped. *)
Definition SnapshotRestore (snapshotData : option VolumeSnapshotData)
    (_ : option PersistentVolumeClaim) (_ : string) (_ : gmap string string)
    : prog E (option PersistentVolumeSource * gmap string string * option error) :=
  match snapshotData ≫= (fun d => ds_HostPath (dspec_Source (vsd_Spec d))) with
  | None => Done (None, ∅, Some (errorf "failed to retrieve Snapshot spec" []))
  | Some h =>
      let snapId := hps_Path h in
      let! uuid := trigger NewUUID in
      let dir := restorePoint +:+ uuid in
      let! _ := trigger (OsMkdirAll dir 488%Z) in
      let! err := trigger (ExecRun "tar" ["xzf"; snapId; "-C"; dir; "--strip-components=1"]) in
      match err with
      | Some err => Done (None, ∅, Some (Errorf "failed to restore %s to %s: %v"
                                                [FStr snapId; FStr dir; FErr (Some err)]))
      | None =>
          Done (Some {| HostPath := Some {| hp_Path := dir |}; AWSElasticBlockStore := None;
                        GCEPersistentDisk := None; Cinder := None |}, ∅, None)
      end
  end.

Definition VolumeDelete (pv : option PersistentVolume) : prog E (option error) :=
  match pv ≫= (fun pv => HostPath (pv_Source (pv_Spec pv))) with
  | None => Done (Some (Errorf "invalid VolumeSnapshotDataSource: %v" [FDump]))
  | Some h => trigger (OsRemove (hp_Path h))
  end.

Definition RegisterPlugin : VolumePlugin E :=
  {| Plugin.SnapshotCreate := SnapshotCreate; Plugin.SnapshotDelete := SnapshotDelete;
     Plugin.SnapshotRestore := SnapshotRestore; Plugin.DescribeSnapshot := DescribeSnapshot;
     Plugin.VolumeDelete := VolumeDelete |}.
End plugin.
End HostPathPlugin.

(** * AWS EBS *)

(** [aws.VolumeOptions] *)
Record VolumeOptions := {
  CapacityGB : Z;
  Tags : gmap string string;
  PVCName : string;
  VolumeType : string;
  AvailabilityZone : string;
  IOPSPerGB : Z;
  Encrypted : bool;
  KmsKeyId : string;
  SnapshotId : string;
}.

(** What the plugin uses of [aws.Cloud].  The labels are returned with the
    error, as the plugin goes on with them. *)
Record AwsCloud (E : Type -> Type) := {
  aws_CreateSnapshot : string -> prog E (res string);
  aws_DeleteSnapshot : string -> prog E (bool * option error);
  aws_DescribeSnapshot : string -> prog E (bool * option error);
  aws_CreateDisk : VolumeOptions -> prog E (res string);
  aws_GetVolumeLabels : string -> prog E (gmap string string * option error);
  aws_DeleteDisk : string -> prog E (bool * option error);
}.
Arguments aws_CreateSnapshot {E} a.
Arguments aws_DeleteSnapshot {E} a.
Arguments aws_DescribeSnapshot {E} a.
Arguments aws_CreateDisk {E} a.
Arguments aws_GetVolumeLabels {E} a.
Arguments aws_DeleteDisk {E} a.

Module AwsEBSPlugin.
Definition GetPluginName : string := "aws_ebs".

(** One turn of the loop over the parameters. *)
Definition apply_parameter (opts : VolumeOptions) (k v : string) : res VolumeOptions :=
  let lk := ToLower k in
  if bool_decide (lk = "type") then
    Ok {| CapacityGB := CapacityGB opts; Tags := Tags opts; PVCName := PVCName opts;
          VolumeType := v; AvailabilityZone := AvailabilityZone opts; IOPSPerGB := IOPSPerGB opts;
          Encrypted := Encrypted opts; KmsKeyId := KmsKeyId opts; SnapshotId := SnapshotId opts |}
  else if bool_decide (lk = "zone") then
    Ok {| CapacityGB := CapacityGB opts; Tags := Tags opts; PVCName := PVCName opts;
          VolumeType := VolumeType opts; AvailabilityZone := v; IOPSPerGB := IOPSPerGB opts;
          Encrypted := Encrypted opts; KmsKeyId := KmsKeyId opts; SnapshotId := SnapshotId opts |}
  else if bool_decide (lk = "iopspergb") then
    match Atoi v with
    | None => Err (Errorf "invalid iopsPerGB value %q, must be integer between 1 and 30: %v"
                          [FStr v; FDump])
    | Some n =>
        Ok {| CapacityGB := CapacityGB opts; Tags := Tags opts; PVCName := PVCName opts;
              VolumeType := VolumeType opts; AvailabilityZone := AvailabilityZone opts;
              IOPSPerGB := n; Encrypted := Encrypted opts; KmsKeyId := KmsKeyId opts;
              SnapshotId := SnapshotId opts |}
    end
  else if bool_decide (lk = "encrypted") then
    match ParseBool v with
    | None => Err (Errorf "invalid encrypted boolean value %q, must be true or false: %v"
                          [FStr v; FDump])
    | Some b =>
        Ok {| CapacityGB := CapacityGB opts; Tags := Tags opts; PVCName := PVCName opts;
              VolumeType := VolumeType opts; AvailabilityZone := AvailabilityZone opts;
              IOPSPerGB := IOPSPerGB opts; Encrypted := b; KmsKeyId := KmsKeyId opts;
              SnapshotId := SnapshotId opts |}
    end
  else if bool_decide (lk = "kmskeyid") then
    Ok {| CapacityGB := CapacityGB opts; Tags := Tags opts; PVCName := PVCName opts;
          VolumeType := VolumeType opts; AvailabilityZone := AvailabilityZone opts;
          IOPSPerGB := IOPSPerGB opts; Encrypted := Encrypted opts; KmsKeyId := v;
          SnapshotId := SnapshotId opts |}
  else Err (errorf "invalid option %q" [k]).

Fixpoint apply_parameters (opts : VolumeOptions) (parameters : list (string * string))
    : res VolumeOptions :=
  match parameters with
  | [] => Ok opts
  | (k, v) :: rest =>
      match apply_parameter opts k v with
      | Ok opts => apply_parameters opts rest
      | Err err => Err err
      end
  end.

Section plugin.
Context `{MapRange} {E : Type -> Type} (cloud : AwsCloud E).

Definition SnapshotCreate (pv : PersistentVolume)
    : prog E (option VolumeSnapshotDataSource * option error) :=
  match AWSElasticBlockStore (pv_Source (pv_Spec pv)) with
  | None => Done (None, Some (Errorf "invalid PV spec %v" [FDump]))
  | Some src =>
      let volumeId := match LastIndexByte (aws_VolumeID src) "/" with
                      | Some ind => drop_bytes (S ind) (aws_VolumeID src)
                      | None => aws_VolumeID src
                      end in
      let! created := aws_CreateSnapshot cloud volumeId in
      match created with
      | Err err => Done (None, Some err)
      | Ok snapshotId =>
          Done (Some {| ds_HostPath := None;
                        ds_AWSElasticBlockStore := Some {| awss_SnapshotID := snapshotId |};
                        ds_GCEPersistentDiskSnapshot := None; ds_CinderSnapshot := None |}, None)
      end
  end.

Definition SnapshotDelete (src : option VolumeSnapshotDataSource) (_ : option PersistentVolume)
    : prog E (option error) :=
  match src ≫= ds_AWSElasticBlockStore with
  | None => Done (Some (Errorf "invalid VolumeSnapshotDataSource: %v" [FDump]))
  | Some s =>
      let! deleted := aws_DeleteSnapshot cloud (awss_SnapshotID s) in
      Done deleted.2
  end.

Definition DescribeSnapshot (snapshotData : option VolumeSnapshotData)
    : prog E (bool * option error) :=
  match snapshotData ≫= (fun d => ds_AWSElasticBlockStore (dspec_Source (vsd_Spec d))) with
  | None => Done (false, Some (Errorf "invalid VolumeSnapshotDataSource: %v" [FDump]))
  | Some s => aws_DescribeSnapshot cloud (awss_SnapshotID s)
  end.

Definition SnapshotRestore (snapshotData : option VolumeSnapshotData)
    (pvc : option PersistentVolumeClaim) (pvName : string) (parameters : gmap string string)
    : prog E (option PersistentVolumeSource * gmap string string * option error) :=
  match snapshotData ≫= (fun d => ds_AWSElasticBlockStore (dspec_Source (vsd_Spec d))), pvc with
  | None, _ => Done (None, ∅, Some (errorf "failed to retrieve Snapshot spec" []))
  | Some _, None => Done (None, ∅, Some (errorf "nil pvc" []))
  | Some s, Some pvc =>
      let snapId := awss_SnapshotID s in
      let! name := GenerateVolumeName ("Created from snapshot " +:+ snapId +:+ " ") pvName 255 in
      let volumeOptions :=
        {| CapacityGB := requested_GiB pvc; Tags := {["Name" := name]};
           PVCName := Name (pvc_ObjectMeta pvc); VolumeType := ""; AvailabilityZone := "";
           IOPSPerGB := 0; Encrypted := false; KmsKeyId := ""; SnapshotId := snapId |} in
      match apply_parameters volumeOptions (range parameters) with
      | Err err => Done (None, ∅, Some err)
      | Ok volumeOptions =>
          match pvc_Selector pvc with
          | Some _ =>
              Done (None, ∅,
                Some (errorf "claim.Spec.Selector is not supported for dynamic provisioning on AWS" []))
          | None =>
              let! created := aws_CreateDisk cloud volumeOptions in
              match created with
              | Err err => Done (None, ∅, Some err)
              | Ok volumeID =>
                  (* an error of the labels is logged only *)
                  let! got := aws_GetVolumeLabels cloud volumeID in
                  Done (Some {| HostPath := None;
                                AWSElasticBlockStore :=
                                  Some {| aws_VolumeID := volumeID; aws_FSType := "ext4";
                                          aws_Partition := 0; aws_ReadOnly := false |};
                                GCEPersistentDisk := None; Cinder := None |}, got.1, None)
              end
          end
      end
  end.

Definition VolumeDelete (pv : option PersistentVolume) : prog E (option error) :=
  match pv ≫= (fun pv => AWSElasticBlockStore (pv_Source (pv_Spec pv))) with
  | None => Done (Some (Errorf "invalid EBS PV: %v" [FDump]))
  | Some s =>
      let! deleted := aws_DeleteDisk cloud (aws_VolumeID s) in
      Done deleted.2
  end.

Definition RegisterPlugin : VolumePlugin E :=
  {| Plugin.SnapshotCreate := SnapshotCreate; Plugin.SnapshotDelete := SnapshotDelete;
     Plugin.SnapshotRestore := SnapshotRestore; Plugin.DescribeSnapshot := DescribeSnapshot;
     Plugin.VolumeDelete := VolumeDelete |}.
End plugin.
End AwsEBSPlugin.

(** * GCE persistent disks *)

(** What the plugin uses of [gce.GCECloud]. *)
Record GceCloud (E : Type -> Type) := {
  gce_CreateSnapshot : string -> string -> string -> gmap string string -> prog E (option error);
  gce_DeleteSnapshot : string -> prog E (option error);
  gce_DescribeSnapshot : string -> prog E (bool * option error);
  gce_GetAllZones : prog E (res (list string));
  gce_CreateDiskFromSnapshot :
    string -> string -> string -> string -> Z -> gmap string string -> prog E (option error);
  gce_GetAutoLabelsForPD : string -> string -> prog E (gmap string string * option error);
  gce_DeleteDisk : string -> prog E (option error);
}.
Arguments gce_CreateSnapshot {E} g.
Arguments gce_DeleteSnapshot {E} g.
Arguments gce_DescribeSnapshot {E} g.
Arguments gce_GetAllZones {E} g.
Arguments gce_CreateDiskFromSnapshot {E} g.
Arguments gce_GetAutoLabelsForPD {E} g.
Arguments gce_DeleteDisk {E} g.

(** The loop over the parameters that the GCE and Cinder plugins share: the
    type and the zone of the disk. *)
Fixpoint type_and_zone (pluginName : string) (parameters : list (string * string))
    (diskType zone : string) : res (string * string) :=
  match parameters with
  | [] => Ok (diskType, zone)
  | (k, v) :: rest =>
      let lk := ToLower k in
      if bool_decide (lk = "type") then type_and_zone pluginName rest v zone
      else if bool_decide (lk = "zone") then type_and_zone pluginName rest diskType v
      else Err (errorf "invalid option %q for volume plugin %s" [k; pluginName])
  end.

Module GcePDPlugin.
Definition gcePersistentDiskPluginName : string := "gce-pd".
Definition GetPluginName : string := gcePersistentDiskPluginName.

Section plugin.
Context `{MapRange} {E : Type -> Type} `{!SubE SysE E} (random : Z) (cloud : GceCloud E).

(** [%d] of the nanoseconds since the epoch. *)
Definition createSnapshotName (pvName : string) : prog E string :=
  let! now := trigger Now in
  Done (pvName +:+ pretty now).

Definition SnapshotCreate (pv : PersistentVolume)
    : prog E (option VolumeSnapshotDataSource * option error) :=
  match GCEPersistentDisk (pv_Source (pv_Spec pv)) with
  | None => Done (None, Some (Errorf "invalid PV spec %v" [FDump]))
  | Some src =>
      let diskName := gce_PDName src in
      let zone := default "" (Labels (pv_ObjectMeta pv) !! LabelZoneFailureDomain) in
      let! snapshotName := createSnapshotName (Name (pv_ObjectMeta pv)) in
      let! err := gce_CreateSnapshot cloud diskName zone snapshotName ∅ in
      match err with
      | Some err => Done (None, Some err)
      | None =>
          Done (Some {| ds_HostPath := None; ds_AWSElasticBlockStore := None;
                        ds_GCEPersistentDiskSnapshot := Some {| gces_SnapshotName := snapshotName |};
                        ds_CinderSnapshot := None |}, None)
      end
  end.

Definition SnapshotRestore (snapshotData : option VolumeSnapshotData)
    (pvc : option PersistentVolumeClaim) (pvName : string) (parameters : gmap string string)
    : prog E (option PersistentVolumeSource * gmap string string * option error) :=
  match snapshotData ≫= (fun d => ds_GCEPersistentDiskSnapshot (dspec_Source (vsd_Spec d))), pvc with
  | None, _ => Done (None, ∅, Some (errorf "failed to retrieve Snapshot spec" []))
  | Some _, None => Done (None, ∅, Some (errorf "nil pvc" []))
  | Some s, Some pvc =>
      let snapId := gces_SnapshotName s in
      let diskName := pvName in
      let requestGB := requested_GiB pvc in
      match type_and_zone GetPluginName (range parameters) "" "" with
      | Err err => Done (None, ∅, Some err)
      | Ok (diskType, zone) =>
          let! chosen :=
            (if bool_decide (zone = "") then
               let! zones := gce_GetAllZones cloud in
               match zones with
               | Err err => Done (Err err)
               | Ok zones =>
                   let! zone := ChooseZoneForVolume random zones (Name (pvc_ObjectMeta pvc)) in
                   Done (Ok zone)
               end
             else Done (Ok zone)) in
          match chosen with
          | Err err => Done (None, ∅, Some err)
          | Ok zone =>
              let! err := gce_CreateDiskFromSnapshot cloud snapId diskName diskType zone requestGB ∅ in
              match err with
              | Some err => Done (None, ∅, Some err)
              | None =>
                  let! got := gce_GetAutoLabelsForPD cloud diskName zone in
                  Done (Some {| HostPath := None; AWSElasticBlockStore := None;
                                GCEPersistentDisk :=
                                  Some {| gce_PDName := diskName; gce_FSType := "ext4";
                                          gce_Partition := 0; gce_ReadOnly := false |};
                                Cinder := None |}, got.1, None)
              end
          end
      end
  end.

Definition SnapshotDelete (src : option VolumeSnapshotDataSource) (_ : option PersistentVolume)
    : prog E (option error) :=
  match src ≫= ds_GCEPersistentDiskSnapshot with
  | None => Done (Some (Errorf "invalid VolumeSnapshotDataSource: %v" [FDump]))
  | Some s => gce_DeleteSnapshot cloud (gces_SnapshotName s)
  end.

Definition DescribeSnapshot (snapshotData : option VolumeSnapshotData)
    : prog E (bool * option error) :=
  match snapshotData ≫= (fun d => ds_GCEPersistentDiskSnapshot (dspec_Source (vsd_Spec d))) with
  | None => Done (false, Some (Errorf "invalid VolumeSnapshotDataSource: %v" [FDump]))
  | Some s => gce_DescribeSnapshot cloud (gces_SnapshotName s)
  end.

Definition VolumeDelete (pv : option PersistentVolume) : prog E (option error) :=
  match pv ≫= (fun pv => GCEPersistentDisk (pv_Source (pv_Spec pv))) with
  | None => Done (Some (Errorf "Invalid GCE PD: %v" [FDump]))
  | Some s => gce_DeleteDisk cloud (gce_PDName s)
  end.

Definition RegisterPlugin : VolumePlugin E :=
  {| Plugin.SnapshotCreate := SnapshotCreate; Plugin.SnapshotDelete := SnapshotDelete;
     Plugin.SnapshotRestore := SnapshotRestore; Plugin.DescribeSnapshot := DescribeSnapshot;
     Plugin.VolumeDelete := VolumeDelete |}.
End plugin.
End GcePDPlugin.

(** * OpenStack Cinder *)

(** What the plugin uses of [openstack.OpenStack]. *)
Record OpenStackCloud (E : Type -> Type) := {
  os_DeleteVolume : string -> prog E (option error);
  os_CreateSnapshot : string -> string -> string -> gmap string string -> prog E (res string);
  os_DeleteSnapshot : string -> prog E (option error);
  os_CreateVolume :
    string -> Z -> string -> string -> string -> gmap string string -> prog E (res (string * string));
  os_DescribeSnapshot : string -> prog E (bool * option error);
}.
Arguments os_DeleteVolume {E} o.
Arguments os_CreateSnapshot {E} o.
Arguments os_DeleteSnapshot {E} o.
Arguments os_CreateVolume {E} o.
Arguments os_DescribeSnapshot {E} o.

Module CinderPlugin.
Definition GetPluginName : string := "cinder".

Section plugin.
Context `{MapRange} {E : Type -> Type} `{!SubE SysE E} (cloud : OpenStackCloud E).

Definition VolumeDelete (pv : option PersistentVolume) : prog E (option error) :=
  match pv ≫= (fun pv => Cinder (pv_Source (pv_Spec pv))) with
  | None => Done (Some (Errorf "invalid Cinder PV: %v" [FDump]))
  | Some s => os_DeleteVolume cloud (cinder_VolumeID s)
  end.

Definition SnapshotCreate (pv : PersistentVolume)
    : prog E (option VolumeSnapshotDataSource * option error) :=
  match Cinder (pv_Source (pv_Spec pv)) with
  | None => Done (None, Some (Errorf "invalid PV spec %v" [FDump]))
  | Some src =>
      let! now := trigger Now in
      let snapshotName := Name (pv_ObjectMeta pv) +:+ pretty now in
      let! created := os_CreateSnapshot cloud (cinder_VolumeID src) snapshotName
                        "kubernetes snapshot" ∅ in
      match created with
      | Err err => Done (None, Some err)
      | Ok snapID =>
          Done (Some {| ds_HostPath := None; ds_AWSElasticBlockStore := None;
                        ds_GCEPersistentDiskSnapshot := None;
                        ds_CinderSnapshot := Some {| cinders_SnapshotID := snapID |} |}, None)
      end
  end.

Definition SnapshotDelete (src : option VolumeSnapshotDataSource) (_ : option PersistentVolume)
    : prog E (option error) :=
  match src ≫= ds_CinderSnapshot with
  | None => Done (Some (Errorf "invalid VolumeSnapshotDataSource: %v" [FDump]))
  | Some s => os_DeleteSnapshot cloud (cinders_SnapshotID s)
  end.

Definition SnapshotRestore (snapshotData : option VolumeSnapshotData)
    (pvc : option PersistentVolumeClaim) (pvName : string) (parameters : gmap string string)
    : prog E (option PersistentVolumeSource * gmap string string * option error) :=
  match snapshotData ≫= (fun d => ds_CinderSnapshot (dspec_Source (vsd_Spec d))), pvc with
  | None, _ => Done (None, ∅, Some (errorf "failed to retrieve Snapshot spec" []))
  | Some _, None => Done (None, ∅, Some (errorf "no pvc specified" []))
  | Some s, Some pvc =>
      let snapID := cinders_SnapshotID s in
      let volName := pvName in
      let szGB := requested_GiB pvc in
      match type_and_zone GetPluginName (range parameters) "" "" with
      | Err err => Done (None, ∅, Some err)
      | Ok (vType, zone) =>
          let! created := os_CreateVolume cloud volName szGB vType zone snapID ∅ in
          match created with
          | Err err => Done (None, ∅, Some err)
          | Ok (volumeID, _) =>
              Done (Some {| HostPath := None; AWSElasticBlockStore := None;
                            GCEPersistentDisk := None;
                            Cinder := Some {| cinder_VolumeID := volumeID; cinder_FSType := "ext4";
                                              cinder_ReadOnly := false |} |}, ∅, None)
          end
      end
  end.

Definition DescribeSnapshot (snapshotData : option VolumeSnapshotData)
    : prog E (bool * option error) :=
  match snapshotData ≫= (fun d => ds_CinderSnapshot (dspec_Source (vsd_Spec d))) with
  | None => Done (false, Some (Errorf "invalid VolumeSnapshotDataSource: %v" [FDump]))
  | Some s =>
      let! described := os_DescribeSnapshot cloud (cinders_SnapshotID s) in
      match described.2 with
      | Some err => Done (false, Some err)
      | None => Done (described.1, None)
      end
  end.

Definition RegisterPlugin : VolumePlugin E :=
  {| Plugin.SnapshotCreate := SnapshotCreate; Plugin.SnapshotDelete := SnapshotDelete;
     Plugin.SnapshotRestore := SnapshotRestore; Plugin.DescribeSnapshot := DescribeSnapshot;
     Plugin.VolumeDelete := VolumeDelete |}.
End plugin.
End CinderPlugin.

(** * The registered plugins *)

(** A [cloudprovider.Interface] by its dynamic type. *)
Inductive cloud_provider (E : Type -> Type) :=
| AwsProvider (c : AwsCloud E)
| GceProvider (c : GceCloud E)
| OpenStackProvider (c : OpenStackCloud E)
| OtherProvider.
Arguments AwsProvider {E} c.
Arguments GceProvider {E} c.
Arguments OpenStackProvider {E} c.
Arguments OtherProvider {E}.

Section registry.
Context `{MapRange} {E : Type -> Type} `{!SubE SysE E, !SubE HostPathPlugin.HostE E} (random : Z).

(** [plugin.Init(cloud)]: a type assertion. *)
Definition init_panics {A} : outcome A := Panicked "interface conversion: cloudprovider.Interface".

(** [cloud] is what [InitCloudProvider] gives for the flag: a provider, nil,
    or an error. *)
Definition buildVolumePlugins (cloudProvider : string) (cloud : res (option (cloud_provider E)))
    : outcome (gmap string (VolumePlugin E)) :=
  let hostPath m := <[HostPathPlugin.GetPluginName := HostPathPlugin.RegisterPlugin]> m in
  if bool_decide (String.length cloudProvider <> 0) then
    match cloud with
    | Ok (Some cloud) =>
        if bool_decide (cloudProvider = "aws") then
          match cloud with
          | AwsProvider c => Returned (hostPath {[AwsEBSPlugin.GetPluginName := AwsEBSPlugin.RegisterPlugin c]})
          | _ => init_panics
          end
        else if bool_decide (cloudProvider = "gce") then
          match cloud with
          | GceProvider c => Returned (hostPath {[GcePDPlugin.GetPluginName := GcePDPlugin.RegisterPlugin random c]})
          | _ => init_panics
          end
        else if bool_decide (cloudProvider = "openstack") then
          match cloud with
          | OpenStackProvider c => Returned (hostPath {[CinderPlugin.GetPluginName := CinderPlugin.RegisterPlugin c]})
          | _ => init_panics
          end
        else Returned (hostPath ∅)
    | _ => Returned (hostPath ∅)
    end
  else Returned (hostPath ∅).
End registry.
