(* ===== verification/PluginContract.v ===== *)
(** What the volume plugins promise the snapshotter and the provisioner: the
    contract each registered plugin keeps, and the theorems about the helpers
    the plugins share. *)

From S2P Require Import Prelude GoStrings Types Api Plugin VolumePlugins.
From Stdlib Require Import Lia.

#[local] Open Scope string_scope.

(** * The clouds as calls *)

Inductive CloudE : Type -> Type :=
| AwsCreateSnapshot (volumeId : string) : CloudE (res string)
| AwsDeleteSnapshot (snapshotId : string) : CloudE (bool * option error)
| AwsDescribeSnapshot (snapshotId : string) : CloudE (bool * option error)
| AwsCreateDisk (opts : VolumeOptions) : CloudE (res string)
| AwsGetVolumeLabels (volumeName : string) : CloudE (gmap string string * option error)
| AwsDeleteDisk (volumeName : string) : CloudE (bool * option error)
| GceCreateSnapshot (diskName zone snapshotName : string) (tags : gmap string string)
    : CloudE (option error)
| GceDeleteSnapshot (snapshotName : string) : CloudE (option error)
| GceDescribeSnapshot (snapshotName : string) : CloudE (bool * option error)
| GceGetAllZones : CloudE (res (list string))
| GceCreateDiskFromSnapshot (snapshot diskName diskType zone : string) (sizeGb : Z)
    (tags : gmap string string) : CloudE (option error)
| GceGetAutoLabelsForPD (name zone : string) : CloudE (gmap string string * option error)
| GceDeleteDisk (diskName : string) : CloudE (option error)
| OsDeleteVolume (volumeID : string) : CloudE (option error)
| OsCreateSnapshot (volumeID name description : string) (tags : gmap string string)
    : CloudE (res string)
| OsDeleteSnapshot (snapshotID : string) : CloudE (option error)
| OsCreateVolume (name : string) (size : Z) (vtype availability snapshotID : string)
    (tags : gmap string string) : CloudE (res (string * string))
| OsDescribeSnapshot (snapshotID : string) : CloudE (bool * option error).

Section clients.
Context {E : Type -> Type} `{!SubE CloudE E}.

Definition aws_client : AwsCloud E :=
  {| aws_CreateSnapshot v := trigger (AwsCreateSnapshot v);
     aws_DeleteSnapshot s := trigger (AwsDeleteSnapshot s);
     aws_DescribeSnapshot s := trigger (AwsDescribeSnapshot s);
     aws_CreateDisk o := trigger (AwsCreateDisk o);
     aws_GetVolumeLabels v := trigger (AwsGetVolumeLabels v);
     aws_DeleteDisk v := trigger (AwsDeleteDisk v) |}.

Definition gce_client : GceCloud E :=
  {| gce_CreateSnapshot d z s t := trigger (GceCreateSnapshot d z s t);
     gce_DeleteSnapshot s := trigger (GceDeleteSnapshot s);
     gce_DescribeSnapshot s := trigger (GceDescribeSnapshot s);
     gce_GetAllZones := trigger GceGetAllZones;
     gce_CreateDiskFromSnapshot s d t z n l := trigger (GceCreateDiskFromSnapshot s d t z n l);
     gce_GetAutoLabelsForPD n z := trigger (GceGetAutoLabelsForPD n z);
     gce_DeleteDisk d := trigger (GceDeleteDisk d) |}.

Definition openstack_client : OpenStackCloud E :=
  {| os_DeleteVolume v := trigger (OsDeleteVolume v);
     os_CreateSnapshot v n d t := trigger (OsCreateSnapshot v n d t);
     os_DeleteSnapshot s := trigger (OsDeleteSnapshot s);
     os_CreateVolume n s t a i l := trigger (OsCreateVolume n s t a i l);
     os_DescribeSnapshot s := trigger (OsDescribeSnapshot s) |}.
End clients.

(** * The contract *)

(** The type of a backend snapshot: the field that is set, if only one is. *)
Definition source_kind (src : VolumeSnapshotDataSource) : string :=
  match ds_HostPath src, ds_AWSElasticBlockStore src, ds_GCEPersistentDiskSnapshot src,
        ds_CinderSnapshot src with
  | Some _, None, None, None => "hostPath"
  | None, Some _, None, None => "aws_ebs"
  | None, None, Some _, None => "gce-pd"
  | None, None, None, Some _ => "cinder"
  | _, _, _, _ => ""
  end.

Definition source_type (src : PersistentVolumeSource) : string :=
  GetSupportedVolumeFromPVSpec {| Capacity := ∅; pv_Source := src; AccessModes := [];
                                  PersistentVolumeReclaimPolicy := "" |}.

(** What the clients of a plugin rely on.  A snapshot of a volume of the
    plugin's type is never refused before its provider was asked, does not
    panic, and yields a source of the same type or an error; sources of
    another type are refused without a call; what a restore yields is a volume
    of the plugin's type, or an error, never neither. *)
Class PluginContract {E} (kind : string) (p : VolumePlugin E) : Prop := {
  create_contract pv :
    GetSupportedVolumeFromPVSpec (pv_Spec pv) = kind ->
    always (SnapshotCreate p pv)
      (fun tr o => match o with
                   | Returned (Some src, _) => source_kind src = kind /\ tr <> []
                   | Returned (None, Some _) => tr <> []
                   | _ => False
                   end) [];
  delete_contract src pv :
    source_kind src <> kind -> source_kind src <> "" ->
    exists e, SnapshotDelete p (Some src) pv = Done (Some e);
  describe_contract d :
    source_kind (dspec_Source (vsd_Spec d)) <> kind -> source_kind (dspec_Source (vsd_Spec d)) <> "" ->
    exists e, DescribeSnapshot p (Some d) = Done (false, Some e);
  restore_contract d pvc pvName parameters :
    always (SnapshotRestore p d pvc pvName parameters)
      (fun tr o => match o with
                   | Returned (Some src, _, None) => source_type src = kind
                   | Returned (None, _, Some _) => True
                   | Returned _ => False
                   | Panicked _ => True
                   end) [];
}.

Section contracts.
Context `{MapRange} {E : Type -> Type}.
Context `{!SubE SysE E, !SubE HostPathPlugin.HostE E, !SubE CloudE E} (random : Z).

#[export] Instance hostPath_contract :
  PluginContract (E:=E) HostPathPlugin.GetPluginName HostPathPlugin.RegisterPlugin.
Proof.
  split.
  - intros pv Hpv. cbn. unfold HostPathPlugin.SnapshotCreate, GetSupportedVolumeFromPVSpec in *.
    destruct (HostPath _); [cbn; by intros ? [|]|]. by repeat case_match.
  - intros [[] [] [] []] pv; cbn; naive_solver.
  - intros d; cbn. unfold HostPathPlugin.DescribeSnapshot. cbn.
    destruct (dspec_Source (vsd_Spec d)) as [[] [] [] []]; cbn; naive_solver.
  - intros d pvc pvName parameters. cbn. unfold HostPathPlugin.SnapshotRestore. go_exec; done.
Qed.

(** Splits on the source of a volume; [HostPath] first, as the code does. *)
#[local] Ltac by_volume_type :=
  intros pv Hpv; cbn;
  unfold AwsEBSPlugin.SnapshotCreate, GcePDPlugin.SnapshotCreate, CinderPlugin.SnapshotCreate,
    GetSupportedVolumeFromPVSpec, GcePDPlugin.createSnapshotName in *;
  destruct (pv_Source (pv_Spec pv)) as [[] [] [] []]; cbn in *; try discriminate; go_exec; done.

#[export] Instance aws_contract :
  PluginContract (E:=E) AwsEBSPlugin.GetPluginName (AwsEBSPlugin.RegisterPlugin aws_client).
Proof.
  split.
  - by_volume_type.
  - intros [[] [] [] []] pv; cbn; naive_solver.
  - intros d; cbn. unfold AwsEBSPlugin.DescribeSnapshot. cbn.
    destruct (dspec_Source (vsd_Spec d)) as [[] [] [] []]; cbn; naive_solver.
  - intros d pvc pvName parameters. cbn. unfold AwsEBSPlugin.SnapshotRestore, GenerateVolumeName.
    go_exec; done.
Qed.

#[export] Instance gce_contract :
  PluginContract (E:=E) GcePDPlugin.GetPluginName (GcePDPlugin.RegisterPlugin random gce_client).
Proof.
  split.
  - by_volume_type.
  - intros [[] [] [] []] pv; cbn; naive_solver.
  - intros d; cbn. unfold GcePDPlugin.DescribeSnapshot. cbn.
    destruct (dspec_Source (vsd_Spec d)) as [[] [] [] []]; cbn; naive_solver.
  - intros d pvc pvName parameters. cbn. unfold GcePDPlugin.SnapshotRestore, ChooseZoneForVolume.
    go_exec; done.
Qed.

#[export] Instance cinder_contract :
  PluginContract (E:=E) CinderPlugin.GetPluginName (CinderPlugin.RegisterPlugin openstack_client).
Proof.
  split.
  - by_volume_type.
  - intros [[] [] [] []] pv; cbn; naive_solver.
  - intros d; cbn. unfold CinderPlugin.DescribeSnapshot. cbn.
    destruct (dspec_Source (vsd_Spec d)) as [[] [] [] []]; cbn; naive_solver.
  - intros d pvc pvName parameters. cbn. unfold CinderPlugin.SnapshotRestore.
    go_exec; done.
Qed.

(** The clouds [InitCloudProvider] gives for its names. *)
Definition provider_of (name : string) : option (cloud_provider E) :=
  if bool_decide (name = "aws") then Some (AwsProvider aws_client)
  else if bool_decide (name = "gce") then Some (GceProvider gce_client)
  else if bool_decide (name = "openstack") then Some (OpenStackProvider openstack_client)
  else None.

(** C18: Every registered plugin keeps its contract under the name it is
    registered with, which is the name the snapshotter and the provisioner
    look up for the volumes of its type.  The map is built without a panic
    whatever the flag is, and whether or not the cloud could be initialised;
    the host path plugin is always in it, the plugin of the chosen cloud is in
    it exactly when the cloud was initialised, and no other. *)
Theorem registered_plugins_keep_contract flag (initialised : bool) e :
  exists plugins,
    buildVolumePlugins random flag (if initialised then Ok (provider_of flag) else Err e)
      = Returned plugins /\
    (forall name p, plugins !! name = Some p -> PluginContract name p) /\
    dom plugins =
      {[HostPathPlugin.GetPluginName]} ∪
      (if initialised then
         if bool_decide (flag = "aws") then {[AwsEBSPlugin.GetPluginName]}
         else if bool_decide (flag = "gce") then {[GcePDPlugin.GetPluginName]}
         else if bool_decide (flag = "openstack") then {[CinderPlugin.GetPluginName]}
         else ∅
       else ∅).
Proof.
  unfold buildVolumePlugins, provider_of.
  assert (forall m : gmap string (VolumePlugin E),
            (forall name p, m !! name = Some p -> PluginContract name p) ->
            forall name p, <[HostPathPlugin.GetPluginName := HostPathPlugin.RegisterPlugin]> m !! name = Some p ->
                           PluginContract name p) as Hins.
  { intros m Hm name p [[<- <-]|[_ Hp]]%lookup_insert_Some; [apply hostPath_contract|by apply Hm]. }
  destruct initialised;
    repeat (case_bool_decide; subst; try done);
    (eexists; split; [reflexivity|]; split;
     [apply Hins; intros name p Hp;
        first [ by rewrite lookup_empty in Hp
              | apply lookup_singleton_Some in Hp as [<- <-]; exact _ ]
     |rewrite dom_insert_L, ?dom_singleton_L, ?dom_empty_L; done]).
Qed.
End contracts.

(** * The helpers *)

(** Sizes.  For every request whose rounding an [int64] holds, the
    volume asked for is the smallest whole number of GiB that holds the
    request; above that (requests within one GiB of the largest [int64]) the
    addition wraps around and the size asked for is negative. *)
Theorem RoundUpSize_bounds size :
  (0 <= size <= max_int64)%Z ->
  let gib := RoundUpSize size GiB in
  if bool_decide (size <= max_int64 - GiB + 1)%Z
  then (size <= gib * GiB < size + GiB)%Z
  else (gib < 0)%Z.
Proof.
  intros Hs. unfold RoundUpSize. rewrite wrap64_sub. unfold GiB, max_int64 in *.
  case_bool_decide.
  - rewrite wrap64_id by (unfold int64_range, max_int64, min_int64; lia).
    rewrite Z.quot_div_nonneg by lia.
    pose proof (Z.div_mod (size + 1024 * 1024 * 1024 - 1) (1024 * 1024 * 1024)).
    pose proof (Z.mod_pos_bound (size + 1024 * 1024 * 1024 - 1) (1024 * 1024 * 1024)). lia.
  - rewrite wrap64_over by (unfold max_int64; lia).
    set (n := (size + _ - 1 - 2 ^ 64)%Z). assert (n < - (1024 * 1024 * 1024))%Z by lia.
    replace n with (- - n)%Z by lia. rewrite Z.quot_opp_l by lia. rewrite Z.quot_div_nonneg by lia.
    pose proof (Z.div_le_lower_bound (- n) (1024 * 1024 * 1024) 1). lia.
Qed.

Lemma RoundUpSize_bounds_witness : RoundUpSize (5 * GiB + 1) GiB = 6%Z.
Proof.
  pose proof (RoundUpSize_bounds (5 * GiB + 1)) as Hb. cbn zeta in Hb.
  rewrite bool_decide_eq_true_2 in Hb by (unfold GiB, max_int64; lia).
  unfold GiB, max_int64 in *. lia.
Defined.

(** Names of volumes.  The name of an EBS volume made from a snapshot
    ends with the name of the persistent volume; it has at most [maxLength]
    bytes whenever the name of the persistent volume alone is shorter than
    that, and otherwise the function panics instead of returning a name. *)
Theorem GenerateVolumeName_fits {E} clusterName pvName maxLength :
  if bool_decide (Z.of_nat (String.length pvName) < maxLength)%Z then
    exists prefix, GenerateVolumeName (E:=E) clusterName pvName maxLength
                     = Done (prefix +:+ "-" +:+ pvName) /\
      (Z.of_nat (String.length (prefix +:+ "-" +:+ pvName)) <= maxLength)%Z /\
      exists rest, clusterName +:+ "-dynamic" = prefix +:+ rest
  else exists why, GenerateVolumeName (E:=E) clusterName pvName maxLength = Crash why.
Proof.
  unfold GenerateVolumeName.
  set (prefix := clusterName +:+ "-dynamic").
  repeat case_bool_decide; try lia; try by eexists.
  - eexists. split; [reflexivity|]. split; [|eexists; by rewrite take_drop_bytes].
    rewrite !string_length_app, take_bytes_length. cbn. lia.
  - eexists. split; [reflexivity|]. split; [|exists ""; by rewrite string_app_nil_r].
    rewrite !string_length_app. cbn. lia.
Qed.

(** Two parameters with different names can be applied in either order. *)
Lemma apply_parameter_comm opts k v k' v' o1 o2 :
  ToLower k <> ToLower k' ->
  AwsEBSPlugin.apply_parameter opts k v = Ok o1 ->
  AwsEBSPlugin.apply_parameter o1 k' v' = Ok o2 ->
  exists o1', AwsEBSPlugin.apply_parameter opts k' v' = Ok o1' /\
              AwsEBSPlugin.apply_parameter o1' k v = Ok o2.
Proof.
  intros Hne. unfold AwsEBSPlugin.apply_parameter. intros H1 H2.
  repeat (case_bool_decide; try congruence);
    repeat match goal with
           | H : match ?x with _ => _ end = Ok _ |- _ => destruct x; [|discriminate]
           end; try discriminate;
    injection H1 as <-; injection H2 as <-; eexists; split; reflexivity.
Qed.

(** The parameters of a storage class.  The order in which Go visits
    them does not matter: if no two keys agree up to case and the parameters
    are accepted in one order, they give the same volume options in every
    order. *)
Theorem apply_parameters_order opts parameters parameters' opts' :
  NoDup (ToLower <$> parameters.*1) -> parameters ≡ₚ parameters' ->
  AwsEBSPlugin.apply_parameters opts parameters = Ok opts' ->
  AwsEBSPlugin.apply_parameters opts parameters' = Ok opts'.
Proof.
  intros Hnd Hperm. revert opts. 
  induction Hperm as [|[k v] l l' Hp IH|[k v] [k' v'] l|l1 l2 l3 H1 IH1 H2 IH2]; intros opts; cbn.
  - done.
  - destruct (AwsEBSPlugin.apply_parameter opts k v); [|done]. apply IH. by inversion Hnd.
  - destruct (AwsEBSPlugin.apply_parameter opts k' v') as [o1|] eqn:H1; [|done].
    destruct (AwsEBSPlugin.apply_parameter o1 k v) as [o2|] eqn:H2; [|done]. intros Hrest.
    destruct (apply_parameter_comm opts k' v' k v o1 o2) as (o1' & -> & ->); [|done..].
    cbn in Hnd. apply NoDup_cons in Hnd as [Hk _]. set_solver.
  - intros H. apply IH2; [by rewrite <- H1|]. by apply IH1.
Qed.

Lemma apply_parameters_order_witness :
  exists opts', AwsEBSPlugin.apply_parameters
    {| CapacityGB := 1; Tags := ∅; PVCName := "claim"; VolumeType := ""; AvailabilityZone := "";
       IOPSPerGB := 0; Encrypted := false; KmsKeyId := ""; SnapshotId := "snap" |}
    [("zone", "us-east-1a"); ("Type", "io1"); ("iopsPerGB", "10")] = Ok opts' /\
    VolumeType opts' = "io1".
Proof.
  eexists. split; [|shelve].
  apply (apply_parameters_order _ [("Type", "io1"); ("iopsPerGB", "10"); ("zone", "us-east-1a")]).
  - apply (bool_decide_unpack _). vm_compute. exact I.
  - apply (Permutation_app_comm [("Type", "io1"); ("iopsPerGB", "10")]).
  - vm_compute. reflexivity.
  Unshelve. reflexivity.
Defined.

(** The zone of a member of a stateful set. *)
Definition member_index (set : string) (n : Z) (zones : list string) : nat :=
  Z.to_nat (((fnv32 set + n) mod 2 ^ 32) mod Z.of_nat (length zones)).

Lemma ChooseZone_member {E} random zones claim set id n :
  ContainsByte set "-" = false -> ContainsByte id "-" = false -> ParseUint32 id = Some n ->
  zones <> [] ->
  exists zone, zones !! member_index set n zones = Some zone /\
    ChooseZoneForVolume (E:=E) random zones (claim +:+ "-" +:+ set +:+ "-" +:+ id) = Done zone.
Proof.
  intros Hset Hid Hn Hz.
  assert (zone_hash_input (claim +:+ "-" +:+ set +:+ "-" +:+ id) = (set, n)) as Hinput.
  { unfold zone_hash_input.
    replace (claim +:+ "-" +:+ set +:+ "-" +:+ id)
      with ((claim +:+ String "-" set) +:+ String "-" id)
      by (rewrite <- string_app_assoc; reflexivity).
    rewrite LastIndexByte_sep, drop_bytes_sep, Hn, take_bytes_app by done.
    by rewrite LastIndexByte_sep, drop_bytes_sep. }
  assert (member_index set n zones < length zones) as Hindex.
  { unfold member_index. destruct zones; [done|]. cbn [length].
    pose proof (Z.mod_pos_bound ((fnv32 set + n) mod 2 ^ 32) (Z.of_nat (S (length zones)))). lia. }
  apply lookup_lt_is_Some_2 in Hindex as [zone Hzone]. exists zone. split; [done|].
  unfold ChooseZoneForVolume. rewrite bool_decide_eq_false_2 by by destruct claim.
  rewrite Hinput. destruct zones as [|z zs]; [done|]. f_equal. by apply nth_lookup_Some.
Qed.

Lemma fnv32_range s : (0 <= fnv32 s)%Z.
Proof.
  unfold fnv32. assert (0 <= 2166136261)%Z as H by lia. revert H. generalize 2166136261%Z.
  induction s as [|a s IH]; intros h Hh; cbn; [done|].
  apply IH. apply Z.lxor_nonneg. pose proof (Z.mod_pos_bound (h * 16777619) (2 ^ 32)). lia.
Qed.

Lemma member_index_next set n zones :
  zones <> [] -> (0 <= n)%Z -> (fnv32 set + n + 1 < 2 ^ 32)%Z ->
  member_index set (n + 1) zones = (member_index set n zones + 1) mod length zones.
Proof.
  intros Hz Hn Hwrap. unfold member_index. pose proof (fnv32_range set).
  rewrite (Z.mod_small (_ + (n + 1))), (Z.mod_small (_ + n)) by lia.
  assert (0 < length zones) by (destruct zones; cbn; [done|lia]).
  apply Nat2Z.inj. rewrite Nat2Z.inj_mod, Nat2Z.inj_add, !Z2Nat.id
    by (apply Z.mod_pos_bound; lia).
  rewrite Zplus_mod_idemp_l. f_equal. lia.
Qed.

(** Zones of stateful sets.  For a claim named [claim-set-id], where
    [set] has no dash and [id] is a decimal that fits 32 bits, the zone depends
    only on the stateful set, the number and the zones: all the claims of one
    pod get the same zone, whatever [rand] answers.  It is one of the given
    zones, and consecutive numbers get consecutive zones, around the list, as
    long as the hash does not wrap. *)
Theorem ChooseZone_statefulset {E} random random' zones claim claim' set id id' n :
  ContainsByte set "-" = false ->
  ContainsByte id "-" = false -> ParseUint32 id = Some n ->
  ContainsByte id' "-" = false -> ParseUint32 id' = Some (n + 1)%Z -> (0 <= n)%Z ->
  zones <> [] ->
  let choose c i r := ChooseZoneForVolume (E:=E) r zones (c +:+ "-" +:+ set +:+ "-" +:+ i) in
  exists index zone, zones !! index = Some zone /\
    choose claim id random = Done zone /\
    choose claim' id random' = Done zone /\
    ((fnv32 set + n + 1 < 2 ^ 32)%Z ->
     exists zone', zones !! ((index + 1) mod length zones) = Some zone' /\
       choose claim' id' random' = Done zone').
Proof.
  intros Hset Hid Hn Hid' Hn' Hpos Hz choose.
  destruct (ChooseZone_member (E:=E) random zones claim set id n) as (zone & Hzone & Hc); [done..|].
  destruct (ChooseZone_member (E:=E) random' zones claim' set id n) as (zone1 & Hzone1 & Hc1); [done..|].
  destruct (ChooseZone_member (E:=E) random' zones claim' set id' (n + 1)) as (zone2 & Hzone2 & Hc2); [done..|].
  exists (member_index set n zones), zone. split_and!; [done|done| |].
  - unfold choose. rewrite Hc1. congruence.
  - intros Hwrap. exists zone2. by rewrite <- member_index_next.
Qed.

Lemma ChooseZone_statefulset_witness :
  exists zone, ["us-east-1a"; "us-east-1b"; "us-east-1c"] !! 2 = Some zone /\
    ChooseZoneForVolume (E:=CloudE) 7 ["us-east-1a"; "us-east-1b"; "us-east-1c"] "data-db-1" = Done zone.
Proof.
  destruct (ChooseZone_statefulset (E:=CloudE) 7 8 ["us-east-1a"; "us-east-1b"; "us-east-1c"]
              "data" "logs" "db" "1" "2" 1) as (index & zone & Hz & Hc & _).
  - reflexivity.
  - reflexivity.
  - reflexivity.
  - reflexivity.
  - reflexivity.
  - discriminate.
  - discriminate.
  - exists zone. split; [|exact Hc].
    assert (Done (E:=CloudE) zone = Done "us-east-1c") as [= ->]
      by (rewrite <- Hc; vm_compute; reflexivity).
    reflexivity.
Defined.
