(* ===== verification/AwsVolumes.v ===== *)
(** The volumes of the AWS provider ([aws.go], [volumes.go]): the lookup of
    instances, attaching and detaching, the life of disks and of snapshots.

    The programs make the calls of EC2 ([Ec2]), of the clock, and of the
    attach state ([AwsDevices]); [aws_cloud] collects the operations the EBS
    plugin uses. *)

From S2P Require Import Prelude GoStrings Types Api Wait CloudProvider Ec2 AwsDevices VolumePlugins.
From stdpp Require Import sorting.
From Stdlib Require Import Lia.

#[local] Open Scope string_scope.

(** * Calls *)

(** The methods on the attach state. *)
Inductive AttachE : Type -> Type :=
| GetMountDevice (nodeName : string) (reported : gmap string string) (volumeID : string) (assign : bool)
    : AttachE (res (string * bool))
| EndAttaching (nodeName volumeID mountDevice : string) : AttachE bool.

Definition handle_attach `{MapRange} {X} (e : AttachE X) (st : attach_state) : option (X * attach_state) :=
  match e with
  | GetMountDevice n r v a => getMountDevice_locked n r v a st
  | EndAttaching n v d => Some (endAttaching n v d st)
  end.

Inductive AwsE (X : Type) : Type :=
| CallEc2 (e : Ec2E X)
| CallAwsSys (e : SysE X)
| CallAttach (e : AttachE X).
Arguments CallEc2 {X} e.
Arguments CallAwsSys {X} e.
Arguments CallAttach {X} e.
#[export] Instance SubE_aws_ec2 : SubE Ec2E AwsE := fun _ e => CallEc2 e.
#[export] Instance SubE_aws_sys : SubE SysE AwsE := fun _ e => CallAwsSys e.
#[export] Instance SubE_aws_attach : SubE AttachE AwsE := fun _ e => CallAttach e.

(** * Instances *)

Record awsInstance := {
  awsID : string;
  nodeName : string;
  availabilityZone : string;
  vpcID : string;
  subnetID : string;
  instanceType : string;
}.

(** The fields of [Cloud] this code reads. *)
Record Cloud := { tagging : awsTagging; selfAWSInstance : awsInstance }.

Definition mapNodeNameToPrivateDNSName (nodeName : string) : string := nodeName.
Definition mapInstanceToNodeName (i : Instance) : string := StringValue (i_PrivateDnsName i).

Definition newAWSInstance (instance : Instance) : awsInstance :=
  {| awsID := StringValue (i_InstanceId instance);
     nodeName := mapInstanceToNodeName instance;
     availabilityZone := match i_Placement instance with
                         | Some az => StringValue az
                         | None => ""
                         end;
     vpcID := StringValue (i_VpcId instance);
     subnetID := StringValue (i_SubnetId instance);
     instanceType := StringValue (i_InstanceType instance) |}.

(** [az[:len(az)-1]] *)
Definition azToRegion (az : string) : res string :=
  if bool_decide (String.length az < 1)%nat then Err (errorf "invalid (empty) AZ" [])
  else Ok (take_bytes (String.length az - 1) az).

Definition volumeAttachmentStatusConsecutiveErrorLimit : nat := 10.
Definition volumeAttachmentStatusInitialDelay : Z := 10 * Second.
Definition volumeAttachmentStatusSteps : nat := 21.

Definition awsTagNameMasterRoles : list string := ["kubernetes.io/role/master"; "k8s.io/role/master"].

(** [url.Parse] of the standard library, for its scheme and its path. *)
Class UrlParse := url_Parse : string -> res (string * string).

(** [KubernetesVolumeID.mapToAWSVolumeID] *)
Definition mapToAWSVolumeID `{UrlParse} (name : string) : res string :=
  let s := if negb (HasPrefix name "aws://") then "aws://" +:+ "" +:+ "/" +:+ name else name in
  match url_Parse s with
  | Err err => Err (Errorf "Invalid disk name (%s): %v" [FStr name; FErr (Some err)])
  | Ok (scheme, path) =>
      if bool_decide (scheme <> "aws") then Err (errorf "Invalid scheme for AWS volume (%s)" [name])
      else
        let awsID := TrimByte path "/" in
        if ContainsByte awsID "/" || negb (HasPrefix awsID "vol-")
        then Err (errorf "Invalid format for AWS volume (%s)" [name])
        else Ok awsID
  end.

Section cloud.
Context `{MapRange, UrlParse} (c : Cloud).
(** The multiplication of a duration by the floating-point factor 1.2. *)
Context (scale : Z -> Z) (random : Z).
#[local] Abbreviation M A := (prog AwsE A).

Definition nil_dereference {A} : M A := Crash "invalid memory address or nil pointer dereference".

(** ** Lookups *)

Definition getInstancesByIDs (instanceIDs : list string) : M (res (gmap string Instance)) :=
  match instanceIDs with
  | [] => ok ∅
  | _ =>
      let? instances := trigger (DescribeInstances instanceIDs None) in
      ok (fold_left (fun m i => let id := orEmpty (i_InstanceId i) in
                                if bool_decide (id = "") then m else <[id := i]> m) instances ∅)
  end.

(** The instance found may have another identifier: then it is nil. *)
Definition getInstanceByID (instanceID : string) : M (res (option Instance)) :=
  let? instances := getInstancesByIDs [instanceID] in
  if bool_decide (size instances = 0) then fail InstanceNotFound
  else if bool_decide (1 < size instances)%nat
  then fail (errorf "multiple instances found for instance: %s" [instanceID])
  else ok (instances !! instanceID).

Definition describeInstances (filters : list Ec2Filter) : M (res (list Instance)) :=
  let? response := trigger (DescribeInstances [] (addFilters filters (tagging c))) in
  ok (List.filter (fun i => hasClusterTag (i_Tags i) (tagging c)) response).

Definition getInstancesByNodeNames (nodeNames : list string) : M (res (list Instance)) :=
  let? instances := describeInstances [newEc2Filter "private-dns-name" nodeNames;
                                       newEc2Filter "instance-state-name" ["running"]] in
  ok instances.

Definition findInstanceByNodeName (nodeName : string) : M (res (option Instance)) :=
  let? instances := describeInstances
    [newEc2Filter "private-dns-name" [mapNodeNameToPrivateDNSName nodeName];
     newEc2Filter "instance-state-name" ["running"]] in
  match instances with
  | [] => ok None
  | [i] => ok (Some i)
  | _ => fail (errorf "multiple instances found for name: %s" [nodeName])
  end.

Definition getInstanceByNodeName (nodeName : string) : M (res Instance) :=
  let? instance := findInstanceByNodeName nodeName in
  match instance with
  | None => fail InstanceNotFound
  | Some instance => ok instance
  end.

Definition getFullInstance (nodeName : string) : M (res (awsInstance * option Instance)) :=
  if bool_decide (nodeName = "") then
    let? instance := getInstanceByID (awsID (selfAWSInstance c)) in
    ok (selfAWSInstance c, instance)
  else
    let? instance := getInstanceByNodeName nodeName in
    ok (newAWSInstance instance, Some instance).

Definition getAwsInstance (nodeName : string) : M (res awsInstance) :=
  if bool_decide (nodeName = "") then ok (selfAWSInstance c)
  else
    let? instance := getInstanceByNodeName nodeName in
    ok (newAWSInstance instance).

(** The zones of the instances that are not masters. *)
Definition candidate_zone (i : Instance) : list string :=
  if existsb (fun tag => bool_decide (StringValue (tag_Key tag) ∈ awsTagNameMasterRoles)) (i_Tags i)
  then []
  else match i_Placement i with Some az => [StringValue az] | None => [] end.

Definition getCandidateZonesForDynamicVolume : M (res (gset string)) :=
  let? instances := describeInstances [newEc2Filter "instance-state-name" ["running"]] in
  match instances with
  | [] => fail (errorf "no instances returned" [])
  | _ => ok (list_to_set (instances ≫= candidate_zone))
  end.

(** ** Disks *)

Definition describeVolume (diskID : string) : M (res Volume) :=
  let? volumes := trigger (DescribeVolumes [diskID])
    else (fun err => Errorf "error querying ec2 for volume %q: %v" [FStr diskID; FErr (Some err)]) in
  match volumes with
  | [] => fail (errorf "no volumes found for volume %q" [diskID])
  | [v] => ok v
  | _ => fail (errorf "multiple volumes found for volume %q" [diskID])
  end.

(** The loop over the attachments: the status and the attachment of the last
    one with a state; the attachment is kept from the polls before if none
    has. *)
Fixpoint last_attachment (attachments : list VolumeAttachment) (status : string)
    (attachment : option VolumeAttachment) : string * option VolumeAttachment :=
  match attachments with
  | [] => (status, attachment)
  | a :: rest =>
      match va_State a with
      | Some s => last_attachment rest s (Some a)
      | None => last_attachment rest status attachment
      end
  end.

(** One poll, with the number of errors in a row and the attachment. *)
Definition poll_attachment (diskID status : string) (s : nat * option VolumeAttachment)
    : M ((nat * option VolumeAttachment) * (bool * option error)) :=
  let '(describeErrorCount, attachment) := s in
  let! info := describeVolume diskID in
  match info with
  | Err err =>
      let describeErrorCount := S describeErrorCount in
      if bool_decide (volumeAttachmentStatusConsecutiveErrorLimit < describeErrorCount)%nat
      then Done ((describeErrorCount, attachment), (false, Some err))
      else Done ((describeErrorCount, attachment), (false, None))
  | Ok info =>
      let '(attachmentStatus, attachment) := last_attachment (vol_Attachments info) "" attachment in
      let attachmentStatus := if bool_decide (attachmentStatus = "") then "detached"
                              else attachmentStatus in
      Done ((0, attachment), (bool_decide (attachmentStatus = status), None))
  end.

Definition waitForAttachmentStatus (diskID status : string)
    : M (option VolumeAttachment * option error) :=
  let! r := ExponentialBackoff (poll_attachment diskID status) volumeAttachmentStatusInitialDelay
              scale volumeAttachmentStatusSteps (0, None) in
  let '((_, attachment), err) := r in
  Done (attachment, err).

(** [volume.NewDeletedVolumeInUseError] has the text of the error. *)
Definition deleteVolume (diskID : string) : M (bool * option error) :=
  let! err := trigger (DeleteVolume diskID) in
  match err with
  | None => Done (true, None)
  | Some err =>
      match err with
      | AwsError "InvalidVolume.NotFound" _ => Done (false, None)
      | AwsError "VolumeInUse" _ => Done (false, Some (Errorf "%v" [FErr (Some err)]))
      | _ => Done (false, Some (Errorf "error deleting EBS volume %q: %v"
                                       [FStr diskID; FErr (Some err)]))
      end
  end.

(** The part of [getMountDevice] before the mutex. *)
Definition getMountDevice (i : awsInstance) (info : option Instance) (volumeID : string) (assign : bool)
    : M (res (string * bool)) :=
  match info ≫= (fun info => block_devices (i_BlockDeviceMappings info) ∅) with
  | None => nil_dereference
  | Some reported => trigger (GetMountDevice (nodeName i) reported volumeID assign)
  end.

(** The deferred [endAttaching] runs once the attachment has ended. *)
Definition end_attaching {A} (i : awsInstance) (volumeID mountDevice : string) (r : A) : M A :=
  let! _ := trigger (EndAttaching (nodeName i) volumeID mountDevice) in
  Done r.

(** The double check of the attachment that [AttachDisk] ends with. *)
Definition check_attachment (diskName node ec2Device hostDevice : string) (i : awsInstance)
    (attachment : option VolumeAttachment) : res string :=
  match attachment with
  | None => Err (errorf "unexpected state: attachment nil after attached %q to %q" [diskName; node])
  | Some attachment =>
      if bool_decide (ec2Device <> StringValue (va_Device attachment)) then
        Err (errorf "disk attachment of %q to %q failed: requested device %q but found %q"
                    [diskName; node; ec2Device; StringValue (va_Device attachment)])
      else if bool_decide (awsID i <> StringValue (va_InstanceId attachment)) then
        Err (errorf "disk attachment of %q to %q failed: requested instance %q but found %q"
                    [diskName; node; awsID i; StringValue (va_InstanceId attachment)])
      else Ok hostDevice
  end.

Definition AttachDisk (diskName node : string) (readOnly : bool) : M (res string) :=
  match mapToAWSVolumeID diskName with
  | Err err => fail err
  | Ok diskID =>
      let? full := getFullInstance node
        else (fun err => Errorf "error finding instance %s: %v" [FStr node; FErr (Some err)]) in
      let '(i, info) := full in
      if readOnly then fail (errorf "AWS volumes cannot be mounted read-only" [])
      else
        let? got := getMountDevice i info diskID true in
        let '(mountDevice, alreadyAttached) := got in
        let hostDevice := "/dev/xvd" +:+ mountDevice in
        let ec2Device := "/dev/xvd" +:+ mountDevice in
        let! attached :=
          (if negb alreadyAttached then trigger (AttachVolume ec2Device (awsID i) diskID)
           else ok tt) in
        match attached with
        | Err err =>
            end_attaching i diskID mountDevice
              (Err (Errorf "Error attaching EBS volume %q to instance %q: %v"
                           [FStr diskID; FStr (awsID i); FErr (Some err)]))
        | Ok _ =>
            let! waited := waitForAttachmentStatus diskID "attached" in
            let '(attachment, err) := waited in
            match err with
            | Some err => fail err
            | None =>
                end_attaching i diskID mountDevice
                  (check_attachment diskName node ec2Device hostDevice i attachment)
            end
        end
  end.

Definition DetachDisk (diskName node : string) : M (res string) :=
  match mapToAWSVolumeID diskName with
  | Err err => fail err
  | Ok diskID =>
      let! full := getFullInstance node in
      match full with
      | Err err => if is_InstanceNotFound err then ok "" else fail err
      | Ok (i, info) =>
          let? got := getMountDevice i info diskID false in
          let '(mountDevice, alreadyAttached) := got in
          let? response := trigger (DetachVolume (awsID i) diskID)
            else (fun err => Errorf "error detaching EBS volume %q from %q: %v"
                                    [FStr diskID; FStr (awsID i); FErr (Some err)]) in
          match response with
          | None => fail (errorf "no response from DetachVolume" [])
          | Some _ =>
              let! waited := waitForAttachmentStatus diskID "detached" in
              match waited.2 with
              | Some err => fail err
              | None =>
                  if bool_decide (mountDevice <> "") then
                    end_attaching i diskID mountDevice (Ok ("/dev/xvd" +:+ mountDevice))
                  else ok ("/dev/xvd" +:+ mountDevice)
              end
          end
      end
  end.

(** ** The life of disks *)

Definition DefaultVolumeType : string := "gp2".
Definition MinTotalIOPS : Z := 100.
Definition MaxTotalIOPS : Z := 20000.

(** The type switch: the type to create, and the IOPS (0: none). *)
Definition volume_type (opts : VolumeOptions) : res (string * Z) :=
  let t := VolumeType opts in
  if bool_decide (t = "gp2") || bool_decide (t = "sc1") || bool_decide (t = "st1") then Ok (t, 0%Z)
  else if bool_decide (t = "io1") then
    let iops := wrap64 (CapacityGB opts * IOPSPerGB opts) in
    let iops := if bool_decide (iops < MinTotalIOPS)%Z then MinTotalIOPS else iops in
    let iops := if bool_decide (iops > MaxTotalIOPS)%Z then MaxTotalIOPS else iops in
    Ok (t, iops)
  else if bool_decide (t = "") then Ok (DefaultVolumeType, 0%Z)
  else Err (errorf "invalid AWS VolumeType %q" [t]).

Definition create_request (opts : VolumeOptions) (createAZ createType : string) (iops : Z)
    : CreateVolumeInput :=
  let keyed := bool_decide (KmsKeyId opts <> "") in
  {| cv_AvailabilityZone := createAZ;
     cv_Size := CapacityGB opts;
     cv_VolumeType := createType;
     cv_Encrypted := if keyed then true else Encrypted opts;
     cv_KmsKeyId := if keyed then Some (KmsKeyId opts) else None;
     cv_Iops := if bool_decide (iops > 0)%Z then Some iops else None;
     cv_SnapshotId := if bool_decide (SnapshotId opts <> "") then Some (SnapshotId opts) else None |}.

Definition DeleteDisk (volumeName : string) : M (bool * option error) :=
  match mapToAWSVolumeID volumeName with
  | Err err => Done (false, Some err)
  | Ok diskID => deleteVolume diskID
  end.

(** The volume is tagged, or deleted again. *)
Definition tag_volume (awsID volumeName : string) (tags : gmap string string) : M (res string) :=
  let! err := createTags awsID ResourceLifecycleOwned tags (tagging c) in
  match err with
  | None => ok volumeName
  | Some err =>
      let! deleted := DeleteDisk volumeName in
      match deleted.2 with
      | Some delerr =>
          fail (Errorf "error tagging volume %s, could not delete the volume: %v"
                       [FStr volumeName; FErr (Some delerr)])
      | None => fail (Errorf "error tagging volume %s: %v" [FStr volumeName; FErr (Some err)])
      end
  end.

Definition CreateDisk (opts : VolumeOptions) : M (res string) :=
  let? allZones := getCandidateZonesForDynamicVolume
    else (fun err => Errorf "error querying for all zones: %v" [FErr (Some err)]) in
  let! createAZ :=
    (if bool_decide (AvailabilityZone opts = "")
     then ChooseZoneForVolume random (set_List allZones) (PVCName opts)
     else Done (AvailabilityZone opts)) in
  match volume_type opts with
  | Err err => fail err
  | Ok (createType, iops) =>
      let? response := trigger (CreateVolume (create_request opts createAZ createType iops)) in
      let awsID := StringValue (vol_VolumeId response) in
      if bool_decide (awsID = "") then fail (errorf "VolumeID was not returned by CreateVolume" [])
      else
        let volumeName := "aws://" +:+ StringValue (vol_AvailabilityZone response) +:+ "/" +:+ awsID in
        tag_volume awsID volumeName (Tags opts)
  end.

Definition GetVolumeLabels (volumeName : string) : M (res (gmap string string)) :=
  match mapToAWSVolumeID volumeName with
  | Err err => fail err
  | Ok diskID =>
      let? info := describeVolume diskID in
      let az := StringValue (vol_AvailabilityZone info) in
      if bool_decide (az = "") then
        fail (Errorf "volume did not have AZ information: %q" [FDump])
      else
        match azToRegion az with
        | Err err => fail err
        | Ok region => ok (<[LabelZoneRegion := region]> {[LabelZoneFailureDomain := az]})
        end
  end.

Definition GetDiskPath (volumeName : string) : M (res string) :=
  match mapToAWSVolumeID volumeName with
  | Err err => fail err
  | Ok diskID =>
      let? info := describeVolume diskID in
      match vol_Attachments info with
      | [] => fail (errorf "No attachment to volume %s" [volumeName])
      | a :: _ => ok (StringValue (va_Device a))
      end
  end.

(** The loop over block devices, which stops at the first of the volume:
    [None] when a device before it has no [Ebs]. *)
Fixpoint has_block_device (bds : list BlockDevice) (diskID : string) : option bool :=
  match bds with
  | [] => Some false
  | bd :: bds' =>
      match bd_Ebs bd with
      | None => None
      | Some volumeId =>
          if bool_decide (StringValue volumeId = diskID) then Some true
          else has_block_device bds' diskID
      end
  end.

Definition DiskIsAttached (diskName node : string) : M (res bool) :=
  let! full := getFullInstance node in
  match full with
  | Err err => if is_InstanceNotFound err then ok false else fail err
  | Ok (_, instance) =>
      match mapToAWSVolumeID diskName with
      | Err err => fail (Errorf "error mapping volume spec %q to aws id: %v"
                                [FStr diskName; FErr (Some err)])
      | Ok diskID =>
          match instance ≫= (fun i => has_block_device (i_BlockDeviceMappings i) diskID) with
          | None => nil_dereference
          | Some attached => ok attached
          end
      end
  end.

(** ** Snapshots *)

Definition CreateSnapshot (volumeId : string) : M (res string) :=
  let? res := trigger (Ec2.CreateSnapshot volumeId ("Created by Kubernetes for volume " +:+ volumeId)) in
  match res with
  | None => fail (errorf "nil CreateSnapshotResponse" [])
  | Some snapshot =>
      match sn_SnapshotId snapshot with
      | None => nil_dereference
      | Some id => ok id
      end
  end.

Definition DeleteSnapshot (snapshotId : string) : M (bool * option error) :=
  let! err := trigger (Ec2.DeleteSnapshot snapshotId) in
  match err with
  | Some err => Done (false, Some err)
  | None => Done (true, None)
  end.

(** The state message of a snapshot that is not completed is dereferenced,
    and is the format of the error. *)
Definition DescribeSnapshot (snapshotId : string) : M (bool * option error) :=
  let! result := trigger (DescribeSnapshots [snapshotId]) in
  match result with
  | Err err => Done (false, Some err)
  | Ok [snapshot] =>
      match sn_State snapshot with
      | None => Done (false, Some (Errorf "missing state from DescribeSnapshots: %#v" [FDump]))
      | Some state =>
          if bool_decide (state = "completed") then Done (true, None)
          else
            match sn_StateMessage snapshot with
            | None => nil_dereference
            | Some message =>
                if bool_decide (state = "error")
                then Done (false, Some (errorf "snapshot state is error: %s" [message]))
                else Done (false, Some (errorf message []))
            end
      end
  | Ok _ => Done (false, Some (Errorf "wrong result from DescribeSnapshots: %#v" [FDump]))
  end.

(** The operations the EBS plugin uses. *)
Definition aws_cloud : AwsCloud AwsE :=
  {| aws_CreateSnapshot := CreateSnapshot;
     aws_DeleteSnapshot := DeleteSnapshot;
     aws_DescribeSnapshot := DescribeSnapshot;
     aws_CreateDisk := CreateDisk;
     aws_GetVolumeLabels := fun name => let! r := GetVolumeLabels name in
                                        Done (match r with
                                              | Ok labels => (labels, None)
                                              | Err err => (∅, Some err)
                                              end);
     aws_DeleteDisk := DeleteDisk |}.
End cloud.

(** ** The attachments of many disks *)

Definition setNodeDisk (nodeDiskMap : gmap string (gmap string bool)) (volumeName nodeName : string)
    (check : bool) : gmap string (gmap string bool) :=
  <[nodeName := <[volumeName := check]> (default ∅ (nodeDiskMap !! nodeName))]> nodeDiskMap.

Section disks_attached.
Context `{MapRange, UrlParse} (c : Cloud).
#[local] Abbreviation M A := (prog AwsE A).

Fixpoint ids_to_names (diskNames : list string) (m : gmap string string) : res (gmap string string) :=
  match diskNames with
  | [] => Ok m
  | diskName :: rest =>
      match mapToAWSVolumeID diskName with
      | Err err => Err (Errorf "error mapping volume spec %q to aws id: %v" [FStr diskName; FErr (Some err)])
      | Ok volumeID => ids_to_names rest (<[volumeID := diskName]> m)
      end
  end.

Fixpoint mark_attached (bds : list BlockDevice) (idToDiskName : gmap string string) (node : string)
    (attached : gmap string (gmap string bool)) : option (gmap string (gmap string bool)) :=
  match bds with
  | [] => Some attached
  | bd :: bds' =>
      match bd_Ebs bd with
      | None => None
      | Some volumeId =>
          mark_attached bds' idToDiskName node
            (match idToDiskName !! StringValue volumeId with
             | Some diskName => setNodeDisk attached diskName node true
             | None => attached
             end)
      end
  end.

Fixpoint check_nodes (nodeDisks : list (string * list string)) (instances : gmap string Instance)
    (attached : gmap string (gmap string bool)) : M (res (gmap string (gmap string bool))) :=
  match nodeDisks with
  | [] => ok attached
  | (node, diskNames) :: rest =>
      match instances !! node with
      | None => check_nodes rest instances attached
      | Some i =>
          match ids_to_names diskNames ∅ with
          | Err err => fail err
          | Ok idToDiskName =>
              match mark_attached (i_BlockDeviceMappings i) idToDiskName node attached with
              | None => nil_dereference
              | Some attached => check_nodes rest instances attached
              end
          end
      end
  end.

Definition DisksAreAttached (nodeDisks : gmap string (list string))
    : M (res (gmap string (gmap string bool))) :=
  if bool_decide (nodeDisks = ∅) then ok ∅
  else
    let attached :=
      fold_left (fun m '(node, diskNames) =>
                   fold_left (fun m diskName => setNodeDisk m diskName node false) diskNames m)
                (range nodeDisks) ∅ in
    let dnsNameSlice := map (fun '(node, _) => mapNodeNameToPrivateDNSName node) (range nodeDisks) in
    let? awsInstances := getInstancesByNodeNames c dnsNameSlice in
    match awsInstances with
    | [] => ok attached
    | _ =>
        let instances := fold_left (fun m i => <[mapInstanceToNodeName i := i]> m) awsInstances ∅ in
        check_nodes (range nodeDisks) instances attached
    end.
End disks_attached.

(** * Theorems *)

#[local] Abbreviation aws_event := (event AwsE).

(** ** Tagging, as one phase of an execution *)

(** An attempt to tag, or the pause before one. *)
Definition tag_event (resourceID : string) (tags : list (string * string)) (ev : aws_event) : Prop :=
  (exists err, ev = Event (CallEc2 (CreateTags resourceID tags)) err) \/
  (exists d u, ev = Event (CallAwsSys (Sleep d)) u).

(** The calls of a phase that ends with the result [err]; a success is that
    of its last call. *)
Definition tagging_phase (resourceID : string) (tags : list (string * string)) (err : option error)
    (new : list aws_event) : Prop :=
  Forall (tag_event resourceID tags) new /\
  (err = None -> exists before,
     new = (before ++ [Event (CallEc2 (CreateTags resourceID tags)) None])%list).

Lemma create_tags_tries resourceID tags steps first d scale lastErr tr :
  always (backoff_tries (E:=AwsE) (create_tags_once resourceID tags) steps first d scale lastErr)
    (fun tr' o => exists new lastErr' err,
       tr' = (tr ++ new)%list /\ o = Returned (lastErr', err) /\
       tagging_phase resourceID tags err new /\
       (err = None \/ err = Some ErrWaitTimeout /\ (steps <> 0 \/ is_Some lastErr -> is_Some lastErr'))) tr.
Proof.
  revert first d lastErr tr; induction steps as [|steps IH]; intros first d lastErr tr; cbn.
  - exists [], lastErr, (Some ErrWaitTimeout). rewrite app_nil_r.
    split_and!; [done|done|by split; [constructor|]|]. right. split; [done|]. by intros [?|?].
  - assert (forall tr, always (bind (create_tags_once (E:=AwsE) resourceID tags lastErr)
              (fun r => let '(s', (done_, err)) := r in
                 match err with
                 | Some err => Done (s', Some err)
                 | None => if done_ : bool then Done (s', None)
                           else backoff_tries (create_tags_once resourceID tags) steps false
                             (if first then d else scale d) scale s'
                 end))
              (fun tr' o => exists new lastErr' err,
                 tr' = (tr ++ new)%list /\ o = Returned (lastErr', err) /\
                 tagging_phase resourceID tags err new /\
                 (err = None \/ err = Some ErrWaitTimeout /\ is_Some lastErr')) tr) as Hbody.
    { clear tr. intros tr. cbn. intros [e|]; cbn.
      - eapply always_impl; [|apply (IH false _ (Some e))].
        intros tr' o (new & lastErr' & err & -> & -> & [Hnew Hok] & Herr).
        exists (Event (CallEc2 (CreateTags resourceID tags)) (Some e) :: new), lastErr', err.
        rewrite <- app_assoc. split_and!; [done|done|split|].
        + constructor; [by left; eexists|done].
        + intros He. destruct (Hok He) as [before ->]. by eexists (_ :: before).
        + destruct Herr as [?|[? Hlast]]; [by left|right]. split; [done|]. apply Hlast. eauto.
      - exists [Event (CallEc2 (CreateTags resourceID tags)) None], lastErr, None.
        split_and!; [done|done|split|by left].
        + repeat constructor. by eexists.
        + intros _. by exists []. }
    destruct first; cbn [bind].
    + eapply always_impl; [|apply Hbody]. intros tr' o (new & l & err & -> & -> & Hnew & Herr).
      exists new, l, err. split_and!; [done..|]. destruct Herr as [?|[??]]; eauto.
    + intros u. eapply always_impl; [|apply Hbody].
      intros tr' o (new & l & err & -> & -> & [Hnew Hok] & Herr).
      exists (Event (CallAwsSys (Sleep d)) u :: new), l, err. rewrite <- app_assoc.
      split_and!; [done|done|split|destruct Herr as [?|[??]]; eauto].
      * constructor; [right; by eexists _, _|done].
      * intros He. destruct (Hok He) as [before ->]. by eexists (_ :: before).
Qed.

Lemma createTags_phase `{MapRange} resourceID lifecycle extra t tr :
  let tags := buildTags lifecycle extra t in
  always (createTags (E:=AwsE) resourceID lifecycle extra t)
    (fun tr' o => exists new err,
       tr' = (tr ++ new)%list /\ o = Returned err /\
       ((tags = ∅ /\ err = None /\ new = []) \/ tagging_phase resourceID (range tags) err new)) tr.
Proof.
  intros tags. unfold createTags. fold tags. case_bool_decide as Htags.
  - exists [], None. rewrite app_nil_r. eauto 6.
  - apply always_bind. eapply always_impl; [|apply create_tags_tries].
    intros tr' o (new & lastErr & err & -> & -> & [Hnew Hok] & Herr). cbn.
    destruct Herr as [->|[-> Hlast]]; cbn.
    + exists new, None. split_and!; [done|done|right]. by split.
    + destruct Hlast as [e ->]; [by left|].
      exists new, (Some e). split_and!; [done|done|right]. by split.
Qed.

(** ** Names of volumes *)

Lemma TrimLeftByte_without s c : ContainsByte s c = false -> TrimLeftByte s c = s.
Proof. destruct s as [|a s]; cbn; [done|]. by case_bool_decide. Qed.

Lemma TrimRightByte_without s c : ContainsByte s c = false -> TrimRightByte s c = s.
Proof.
  induction s as [|a s IH]; cbn; [done|].
  intros [Ha Hs]%orb_false_iff. rewrite IH by done. destruct s; [|done]. by rewrite Ha.
Qed.

Lemma TrimByte_lead s c : ContainsByte s c = false -> TrimByte (String c s) c = s.
Proof.
  intros Hs. unfold TrimByte. cbn. rewrite bool_decide_eq_true_2 by done.
  rewrite TrimLeftByte_without by done. by apply TrimRightByte_without.
Qed.

(** A name of lower-case letters, digits and dashes. *)
Definition url_plain_byte (a : ascii) : bool :=
  let n := nat_of_ascii a in
  bool_decide (97 <= n <= 122) || bool_decide (48 <= n <= 57) || bool_decide (n = 45).

Definition url_plain (s : string) : Prop :=
  forallb url_plain_byte (String.list_ascii_of_string s) = true.

Lemma url_plain_slash s : url_plain s -> ContainsByte s "/" = false.
Proof.
  unfold url_plain. induction s as [|a s IH]; cbn; [done|].
  intros [Ha Hs]%andb_true_iff. rewrite IH by done. rewrite orb_false_r.
  apply bool_decide_eq_false. by intros ->.
Qed.

(** What the program relies on of [url.Parse]: the parts of the address of a
    volume. *)
Class UrlParseLaws `{UrlParse} :=
  url_Parse_aws : forall host path,
    url_plain host -> url_plain path ->
    url_Parse ("aws://" +:+ host +:+ "/" +:+ path) = Ok ("aws", "/" +:+ path).

(** Names of volumes.  The three documented forms of a volume's name (the
    identifier alone, with an empty zone, with a zone) give the identifier;
    whatever the name and the parser, an identifier that is accepted starts
    with [vol-] and has no slash. *)
Theorem mapToAWSVolumeID_forms `{UrlParseLaws} zone id :
  url_plain zone -> url_plain id -> HasPrefix id "vol-" = true ->
  mapToAWSVolumeID id = Ok id /\
  mapToAWSVolumeID ("aws:///" +:+ id) = Ok id /\
  mapToAWSVolumeID ("aws://" +:+ zone +:+ "/" +:+ id) = Ok id /\
  forall name id', mapToAWSVolumeID name = Ok id' ->
                   HasPrefix id' "vol-" = true /\ ContainsByte id' "/" = false.
Proof.
  intros Hzone Hid Hvol.
  assert (url_plain "") as Hempty by done.
  assert (ContainsByte id "/" = false) as Hslash by by apply url_plain_slash.
  assert (forall host name, url_plain host ->
            (if negb (HasPrefix name "aws://") then "aws://" +:+ "" +:+ "/" +:+ name else name)
            = "aws://" +:+ host +:+ "/" +:+ id -> mapToAWSVolumeID name = Ok id) as Hmap.
  { intros host name Hhost Hs. unfold mapToAWSVolumeID. rewrite Hs, url_Parse_aws by done.
    rewrite bool_decide_eq_false_2 by (intros Hn; by apply Hn).
    change ("/" +:+ id) with (String "/" id). rewrite TrimByte_lead by done.
    by rewrite Hslash, Hvol. }
  assert (HasPrefix id "aws://" = false) as Hnot.
  { apply HasPrefix_spec in Hvol as [t ->]. done. }
  split_and!.
  - apply (Hmap ""); [done|]. by rewrite Hnot.
  - by apply (Hmap "").
  - by apply (Hmap zone).
  - intros name id'. unfold mapToAWSVolumeID.
    destruct (url_Parse _) as [[scheme path]|e]; [|done].
    case_bool_decide; [done|].
    destruct (ContainsByte (TrimByte path "/") "/") eqn:Hc; [done|].
    destruct (HasPrefix (TrimByte path "/") "vol-") eqn:Hp; [|done].
    cbn [orb negb]. intros [= <-]. by split.
Qed.

(** A parser of the addresses of volumes: it cuts the host off. *)
Definition parse_aws : UrlParse := fun s =>
  if HasPrefix s "aws://" then
    let rest := TrimPrefix s "aws://" in
    let host := hd "" (Split rest "/") in
    Ok ("aws", drop_bytes (String.length host) rest)
  else Err (errorf "unsupported" []).

Lemma parse_aws_laws : @UrlParseLaws parse_aws.
Proof.
  intros host path Hh _. unfold url_Parse, parse_aws.
  rewrite HasPrefix_app, TrimPrefix_app. change ("/" +:+ path) with (String "/" path).
  rewrite Split_app_sep by by apply url_plain_slash.
  cbn [hd]. by rewrite drop_bytes_app.
Qed.

Lemma mapToAWSVolumeID_forms_witness :
  let parser := parse_aws in
  mapToAWSVolumeID "aws://us-east-1a/vol-0f3c" = Ok "vol-0f3c" /\ mapToAWSVolumeID "vol-0f3c" = Ok "vol-0f3c".
Proof.
  intros parser. destruct (@mapToAWSVolumeID_forms parser parse_aws_laws "us-east-1a" "vol-0f3c")
    as (Hid & _ & Hzone & _); [reflexivity..|]. by split.
Defined.

(** ** The life of disks *)

Lemma volume_type_bounds opts t iops :
  volume_type opts = Ok (t, iops) ->
  (t ∈ ["gp2"; "sc1"; "st1"] /\ iops = 0 \/ t = "io1" /\ MinTotalIOPS <= iops <= MaxTotalIOPS)%Z.
Proof.
  unfold volume_type, DefaultVolumeType, MinTotalIOPS, MaxTotalIOPS.
  destruct (bool_decide (VolumeType opts = "gp2") || _ || _) eqn:Hgp.
  - intros [= <- <-]. left. split; [|done].
    apply orb_true_iff in Hgp as [[H|H]%orb_true_iff|H]; apply bool_decide_eq_true in H as ->;
      set_solver.
  - destruct (bool_decide (VolumeType opts = "io1")) eqn:Hio.
    + intros [= <- <-]. apply bool_decide_eq_true in Hio. right.
      split; [done|]. repeat case_bool_decide; lia.
    + destruct (bool_decide (VolumeType opts = "")); [|done].
      intros [= <- <-]. left. split; [set_solver|done].
Qed.

Section disks.
Context `{MapRange, UrlParse} (c : Cloud) (random : Z).

(** What follows the creation of the volume [v]. *)
Definition volume_created (opts : VolumeOptions) (v : Volume) (after : list aws_event)
    (o : outcome (res string)) : Prop :=
  let id := StringValue (vol_VolumeId v) in
  let name := "aws://" +:+ StringValue (vol_AvailabilityZone v) +:+ "/" +:+ id in
  let tags := buildTags ResourceLifecycleOwned (Tags opts) (tagging c) in
  if bool_decide (id = "") then after = [] /\ exists e, o = Returned (Err e)
  else exists tagged err,
    (tags = ∅ /\ err = None /\ tagged = [] \/ tagging_phase id (range tags) err tagged) /\
    match err with
    | None => after = tagged /\ o = Returned (Ok name)
    | Some _ =>
        (exists e, o = Returned (Err e)) /\
        match mapToAWSVolumeID name with
        | Ok id' => exists answer, after = (tagged ++ [Event (CallEc2 (DeleteVolume id')) answer])%list
        | Err _ => after = tagged
        end
    end.

Lemma volume_created_deleted opts v tagged err id' answer e :
  StringValue (vol_VolumeId v) <> "" ->
  tagging_phase (StringValue (vol_VolumeId v))
    (range (buildTags ResourceLifecycleOwned (Tags opts) (tagging c))) (Some err) tagged ->
  mapToAWSVolumeID ("aws://" +:+ StringValue (vol_AvailabilityZone v) +:+ "/" +:+
                    StringValue (vol_VolumeId v)) = Ok id' ->
  volume_created opts v (tagged ++ [Event (CallEc2 (DeleteVolume id')) answer])%list (Returned (Err e)).
Proof.
  intros Hid Htagged Hmap. unfold volume_created. rewrite bool_decide_eq_false_2 by done.
  exists tagged, (Some err). rewrite Hmap. eauto 6.
Qed.

Lemma tag_volume_created opts v tr :
  StringValue (vol_VolumeId v) <> "" ->
  always (tag_volume c (StringValue (vol_VolumeId v))
            ("aws://" +:+ StringValue (vol_AvailabilityZone v) +:+ "/" +:+ StringValue (vol_VolumeId v))
            (Tags opts))
    (fun tr' o => exists after, tr' = (tr ++ after)%list /\ volume_created opts v after o) tr.
Proof.
  intros Hid. unfold tag_volume. apply always_bind.
  eapply always_impl; [|apply createTags_phase]. cbn beta zeta.
  intros tr' o (tagged & err & -> & -> & Htagged).
  destruct err as [err|].
  - destruct Htagged as [(_ & [=] & _)|Htagged]. unfold DeleteDisk.
    destruct (mapToAWSVolumeID _) as [id'|e] eqn:Hmap.
    + unfold deleteVolume. go_unfold. cbn. intros answer.
      assert (forall e, exists after : list aws_event,
                ((tr ++ tagged) ++ [Event (CallEc2 (DeleteVolume id')) answer])%list = (tr ++ after)%list /\
                volume_created opts v after (Returned (Err e))) as Hend.
      { intros e. eexists. rewrite <- app_assoc. split; [done|].
        by eapply volume_created_deleted. }
      go_exec; apply Hend.
    + exists tagged. split; [done|]. unfold volume_created.
      rewrite bool_decide_eq_false_2, Hmap by done. exists tagged, (Some err). eauto.
  - exists tagged. split; [done|]. unfold volume_created.
    rewrite bool_decide_eq_false_2 by done. exists tagged, None. eauto.
Qed.

(** The zones of the nodes that [CreateDisk] chooses from. *)
Definition node_zones (instances : list Instance) : list string :=
  set_List (list_to_set
    (List.filter (fun i => hasClusterTag (i_Tags i) (tagging c)) instances ≫= candidate_zone)).

(** The request for a volume: in the zone asked for, or in that of a node;
    with a number of IOPS exactly when the type has one, within the limits of
    the service. *)
Definition valid_request (opts : VolumeOptions) (instances : list Instance) (req : CreateVolumeInput)
    : Prop :=
  (exists t iops, volume_type opts = Ok (t, iops) /\
                  req = create_request opts (cv_AvailabilityZone req) t iops) /\
  (if bool_decide (AvailabilityZone opts = "") then cv_AvailabilityZone req ∈ node_zones instances
   else cv_AvailabilityZone req = AvailabilityZone opts) /\
  cv_VolumeType req ∈ ["gp2"; "sc1"; "st1"; "io1"] /\
  match cv_Iops req with
  | Some iops => cv_VolumeType req = "io1" /\ (MinTotalIOPS <= iops <= MaxTotalIOPS)%Z
  | None => cv_VolumeType req <> "io1"
  end.

(** An execution of [CreateDisk] after the request for the instances. *)
Inductive create_run (opts : VolumeOptions) (instances : list Instance)
    : list aws_event -> outcome (res string) -> Prop :=
| create_refused e : create_run opts instances [] (Returned (Err e))
| create_no_zone :
    AvailabilityZone opts = "" -> node_zones instances = [] ->
    create_run opts instances [] (Panicked "integer divide by zero")
| create_failed req e :
    valid_request opts instances req ->
    create_run opts instances [Event (CallEc2 (CreateVolume req)) (Err e)] (Returned (Err e))
| create_done req v after o :
    valid_request opts instances req -> volume_created opts v after o ->
    create_run opts instances (Event (CallEc2 (CreateVolume req)) (Ok v) :: after) o.

Lemma create_request_valid opts instances az t iops :
  volume_type opts = Ok (t, iops) ->
  (if bool_decide (AvailabilityZone opts = "") then az ∈ node_zones instances
   else az = AvailabilityZone opts) ->
  valid_request opts instances (create_request opts az t iops).
Proof.
  intros Ht Haz. unfold valid_request. cbn [cv_AvailabilityZone cv_VolumeType cv_Iops create_request].
  pose proof (volume_type_bounds _ _ _ Ht) as Hbounds.
  split_and!; [by eauto|done|set_solver|].
  unfold MinTotalIOPS in *. destruct Hbounds as [[Hin ->]|[-> Hb]].
  - cbn. intros ->. set_solver.
  - by rewrite bool_decide_eq_true_2 by lia.
Qed.

Lemma ChooseZone_cases {E} (zones : list string) pvcName :
  (zones = [] /\ ChooseZoneForVolume (E:=E) random zones pvcName = Crash "integer divide by zero") \/
  exists zone, zone ∈ zones /\ ChooseZoneForVolume (E:=E) random zones pvcName = Done zone.
Proof.
  unfold ChooseZoneForVolume. destruct (if bool_decide (pvcName = "") then _ else _) as [hash index].
  destruct zones as [|z zs]; [by left|right]. eexists. split; [|done].
  apply list_elem_of_In, nth_In.
  assert (0 <= ((hash + index) mod 2 ^ 32) mod Z.of_nat (length (z :: zs)) < Z.of_nat (length (z :: zs)))%Z
    by (apply Z.mod_pos_bound; cbn; lia).
  lia.
Qed.

(** The creation, once the zone is known. *)
Lemma create_in_zone opts instances az tr :
  (if bool_decide (AvailabilityZone opts = "") then az ∈ node_zones instances
   else az = AvailabilityZone opts) ->
  always (match volume_type opts with
          | Err err => fail err
          | Ok (createType, iops) =>
              let? response := trigger (CreateVolume (create_request opts az createType iops)) in
              let awsID := StringValue (vol_VolumeId response) in
              if bool_decide (awsID = "")
              then fail (errorf "VolumeID was not returned by CreateVolume" [])
              else tag_volume c awsID
                     ("aws://" +:+ StringValue (vol_AvailabilityZone response) +:+ "/" +:+ awsID) (Tags opts)
          end)
    (fun tr' o => exists after, tr' = (tr ++ after)%list /\ create_run opts instances after o) tr.
Proof.
  intros Haz. destruct (volume_type opts) as [[t iops]|e] eqn:Ht.
  - pose proof (create_request_valid opts instances az t iops Ht Haz) as Hreq.
    unfold bind_ok, trigger, fail. cbn [bind always]. intros [v|e]; cbn [always].
    + destruct (decide (StringValue (vol_VolumeId v) = "")) as [Hid|Hid].
      * rewrite (bool_decide_eq_true_2 (StringValue _ = "")) by done.
        eexists. split; [done|]. apply create_done; [done|]. unfold volume_created.
        rewrite bool_decide_eq_true_2 by done. by eauto.
      * rewrite (bool_decide_eq_false_2 (StringValue _ = "")) by done.
        eapply always_impl; [|by apply tag_volume_created].
        intros tr' o (after & -> & Hafter). eexists. rewrite <- app_assoc. split; [done|].
        by apply create_done.
    + eexists. split; [done|]. by apply create_failed.
  - exists []. rewrite app_nil_r. split; [done|]. apply create_refused.
Qed.

(** C21: Creation of disks.  Every execution asks for the instances, and then
    at most once for a volume, with a valid request.  It returns the name
    [aws://zone/id] of the volume the service made only when the last attempt
    to tag it succeeded (or there was nothing to tag); when the tagging
    failed, the volume is deleted again as the last call, and an error is
    returned.  The one panic is the choice of a zone when all the nodes are
    masters. *)
Theorem CreateDisk_transaction opts :
  always (CreateDisk c random opts)
    (fun tr o => exists filters answer after,
       tr = Event (CallEc2 (DescribeInstances [] filters)) answer :: after /\
       match answer with
       | Err _ => after = [] /\ exists e, o = Returned (Err e)
       | Ok instances => create_run opts instances after o
       end) [].
Proof.
  unfold CreateDisk, getCandidateZonesForDynamicVolume, describeInstances.
  unfold bind_or at 1, bind_ok at 1 2, trigger at 1. cbn [bind always app].
  intros [instances|e]; cbn [bind].
  2: { eexists _, (Err e), []. eauto. }
  set (filters := addFilters _ _).
  destruct (List.filter _ instances) as [|i rest] eqn:Hfilter; cbn [bind].
  { eexists _, (Ok instances), []. split; [done|]. apply create_refused. }
  assert (set_List (list_to_set ((i :: rest) ≫= candidate_zone)) = node_zones instances) as Hzones
    by (unfold node_zones; by rewrite Hfilter).
  pose proof (fun az => create_in_zone opts instances az
    [Event (CallEc2 (DescribeInstances [] filters)) (Ok instances)]) as Hrest.
  destruct (bool_decide (AvailabilityZone opts = "")) eqn:Haz.
  - unfold ok. cbn [bind]. rewrite Hzones.
    destruct (ChooseZone_cases (E:=AwsE) (node_zones instances) (PVCName opts)) as [[Hnone ->]|(az & Hin & ->)].
    + eexists _, (Ok instances), []. split; [done|]. apply create_no_zone; [|done].
      by apply bool_decide_eq_true in Haz.
    + cbn [bind]. eapply always_impl; [|apply (Hrest az Hin)].
      intros tr o (after & -> & Hrun). by eexists _, (Ok instances), after.
  - cbn [bind]. eapply always_impl; [|by apply (Hrest (AvailabilityZone opts))].
    intros tr o (after & -> & Hrun). by eexists _, (Ok instances), after.
Qed.
End disks.

(** ** Waiting for an attachment *)

Definition is_poll (ev : aws_event) : bool :=
  match ev with Event (CallEc2 (DescribeVolumes _)) _ => true | _ => false end.

(** A poll of the volume, or the pause before one. *)
Definition poll_event (id : string) (ev : aws_event) : Prop :=
  (exists answer, ev = Event (CallEc2 (DescribeVolumes [id])) answer) \/
  (exists d u, ev = Event (CallAwsSys (Sleep d)) u).

(** The number of failed polls in a row. *)
Definition error_streak (n : nat) (ev : aws_event) : nat :=
  match ev with
  | Event (CallEc2 e) x =>
      match e in Ec2E X return X -> nat with
      | DescribeVolumes _ => fun r => match r with Ok [_] => 0 | _ => S n end
      | _ => fun _ => n
      end x
  | _ => n
  end.

(** The end of a phase of polls after [n] failures in a row: on success the
    last poll saw the attachment in the state wanted; the phase fails when it
    runs out of tries or at the eleventh failure in a row. *)
Definition polling_phase (id status : string) (steps n : nat) (new : list aws_event)
    (attachment : option VolumeAttachment) (err : option error) : Prop :=
  Forall (poll_event id) new /\ count is_poll new <= steps /\
  match err with
  | None => exists before v before_attachment s,
      new = (before ++ [Event (CallEc2 (DescribeVolumes [id])) (Ok [v])])%list /\
      last_attachment (vol_Attachments v) "" before_attachment = (s, attachment) /\
      (if bool_decide (s = "") then "detached" else s) = status
  | Some e => e = ErrWaitTimeout /\ count is_poll new = steps \/
              fold_left error_streak new n = S volumeAttachmentStatusConsecutiveErrorLimit
  end.

Lemma polling_cons id status steps n ev new attachment err :
  is_poll ev = true -> poll_event id ev ->
  polling_phase id status steps (error_streak n ev) new attachment err ->
  polling_phase id status (S steps) n (ev :: new) attachment err.
Proof.
  intros Hpoll Hev (Hnew & Hcount & Hend). split_and!.
  - by constructor.
  - cbn. rewrite Hpoll. lia.
  - destruct err as [e|]; cbn; rewrite ?Hpoll.
    + destruct Hend as [[-> <-]|?]; [left; split; [done|lia]|by right].
    + destruct Hend as (before & v & att & s & -> & ? & ?). by exists (ev :: before), v, att, s.
Qed.

Lemma polling_sleep id status steps n d u new attachment err :
  polling_phase id status steps n new attachment err ->
  polling_phase id status steps n (Event (CallAwsSys (Sleep d)) u :: new) attachment err.
Proof.
  intros (Hnew & Hcount & Hend). split_and!.
  - constructor; [right; by eexists _, _|done].
  - done.
  - destruct err as [e|]; cbn; [done|].
    destruct Hend as (before & v & att & s & -> & ? & ?). by eexists (_ :: before), v, att, s.
Qed.

Section waiting.
Context (id status : string) (scale : Z -> Z).

(** What the waiting guarantees of the calls after [tr]. *)
Definition waited (steps n : nat) (tr tr' : list aws_event)
    (o : outcome ((nat * option VolumeAttachment) * option error)) : Prop :=
  exists new n' attachment err,
    tr' = (tr ++ new)%list /\ o = Returned ((n', attachment), err) /\
    polling_phase id status steps n new attachment err.

Lemma waited_poll steps n tr tr' o answer :
  waited steps (error_streak n (Event (CallEc2 (DescribeVolumes [id])) answer))
    (tr ++ [Event (CallEc2 (DescribeVolumes [id])) answer])%list tr' o ->
  waited (S steps) n tr tr' o.
Proof.
  intros (new & n' & att & err & -> & -> & Hphase). eexists (_ :: new), n', att, err.
  rewrite <- app_assoc. split_and!; [done..|]. apply polling_cons; [done| |done]. left. by eexists.
Qed.

Lemma one_poll steps n attachment (rest : nat * option VolumeAttachment -> prog AwsE _) tr :
  n <= volumeAttachmentStatusConsecutiveErrorLimit ->
  (forall s' tr', s'.1 <= volumeAttachmentStatusConsecutiveErrorLimit ->
     always (rest s') (waited steps s'.1 tr') tr') ->
  always (bind (poll_attachment id status (n, attachment))
            (fun r => let '(s', (done_, err)) := r in
                      match err with
                      | Some err => Done (s', Some err)
                      | None => if done_ : bool then Done (s', None) else rest s'
                      end))
    (waited (S steps) n tr) tr.
Proof.
  intros Hn Hrest. unfold poll_attachment, describeVolume, bind_or, trigger, ok, fail.
  cbn [bind always]. intros answer. fold (inject (CallEc2 (DescribeVolumes [id]))).
  assert (forall err, (forall v, answer <> Ok [v]) ->
            always (bind (let describeErrorCount := S n in
              if bool_decide (volumeAttachmentStatusConsecutiveErrorLimit < describeErrorCount)
              then Done ((describeErrorCount, attachment), (false, Some err))
              else Done ((describeErrorCount, attachment), (false, None)))
             (fun r => let '(s', (done_, err)) := r in
                      match err with
                      | Some err => Done (s', Some err)
                      | None => if done_ : bool then Done (s', None) else rest s'
                      end))
            (waited (S steps) n tr)
            (tr ++ [Event (CallEc2 (DescribeVolumes [id])) answer])) as Hfailed.
  { intros err Hfail.
    assert (error_streak n (Event (CallEc2 (DescribeVolumes [id])) answer) = S n) as Hstreak
      by (cbn; destruct answer as [[|v [|? ?]]|?]; naive_solver).
    cbn zeta. case_bool_decide as Hlimit; cbn [bind always].
    - apply (waited_poll steps n tr _ _ answer).
      eexists [], _, _, _. rewrite app_nil_r, Hstreak. split_and!; [done|done|].
      split_and!; [constructor|cbn; lia|]. right. cbn. lia.
    - eapply always_impl; [|apply Hrest; cbn [fst]; lia].
      intros tr' o Hw. apply (waited_poll steps n tr _ _ answer). by rewrite Hstreak. }
  destruct answer as [[|v [|v' vs]]|e]; cbn [bind]; try (by apply Hfailed).
  destruct (last_attachment (vol_Attachments v) "" attachment) as [s att] eqn:Hlast.
  set (st := if bool_decide (s = "") then "detached" else s).
  destruct (bool_decide (st = status)) eqn:Hst; cbn [bind always].
  - apply bool_decide_eq_true in Hst.
    eexists [_], _, _, _. split_and!; [done|done|]. split_and!.
    + constructor; [left; by eexists|constructor].
    + cbn. lia.
    + by exists [], v, attachment, s.
  - eapply always_impl; [|apply Hrest; cbn [fst]; unfold volumeAttachmentStatusConsecutiveErrorLimit; lia].
    intros tr' o Hw. by apply (waited_poll steps n tr _ _ (Ok [v])).
Qed.

Lemma backoff_waited steps first d s tr :
  s.1 <= volumeAttachmentStatusConsecutiveErrorLimit ->
  always (backoff_tries (poll_attachment id status) steps first d scale s)
    (waited steps s.1 tr) tr.
Proof.
  revert first d s tr; induction steps as [|steps IH]; intros first d [n attachment] tr Hn.
  - eexists [], _, _, _. rewrite app_nil_r. split_and!; [done|done|].
    split_and!; [constructor|cbn; lia|]. by left.
  - pose proof (fun tr' => one_poll steps n attachment
      (backoff_tries (poll_attachment id status) steps false (if first then d else scale d) scale) tr' Hn
      (fun s' tr' Hs' => IH false _ s' tr' Hs')) as Hbody.
    destruct first; [exact (Hbody tr)|].
    intros u. eapply always_impl; [|exact (Hbody _)].
    intros tr' o (new & n' & att & err & -> & -> & Hphase).
    eexists (_ :: new), n', att, err. rewrite <- app_assoc. split_and!; [done..|].
    by apply polling_sleep.
Qed.

Lemma waitForAttachmentStatus_phase tr :
  always (waitForAttachmentStatus scale id status)
    (fun tr' o => exists new attachment err,
       tr' = (tr ++ new)%list /\ o = Returned (attachment, err) /\
       polling_phase id status volumeAttachmentStatusSteps 0 new attachment err) tr.
Proof.
  unfold waitForAttachmentStatus. apply always_bind.
  eapply always_impl; [|apply backoff_waited; cbn; lia].
  intros tr' o (new & n' & att & err & -> & -> & Hphase). by exists new, att, err.
Qed.
End waiting.

(** ** Attaching *)

Lemma last_attachment_In attachments status att0 s att :
  last_attachment attachments status att0 = (s, att) ->
  (s = status /\ att = att0) \/ exists a, a ∈ attachments /\ att = Some a /\ va_State a = Some s.
Proof.
  revert status att0; induction attachments as [|a rest IH]; intros status att0; cbn.
  - intros [= <- <-]. by left.
  - destruct (va_State a) as [s'|] eqn:Ha; intros Hlast; apply IH in Hlast as [[-> ->]|(b & Hb & ? & ?)].
    + right. exists a. split; [by left|done].
    + right. exists b. split; [by right|done].
    + by left.
    + right. exists b. split; [by right|done].
Qed.

Section attaching.
Context `{MapRange, UrlParse} (c : Cloud) (scale : Z -> Z).

Definition is_lookup (ev : aws_event) : Prop :=
  exists ids filters answer, ev = Event (CallEc2 (DescribeInstances ids filters)) answer.

Definition attach_call (i : awsInstance) (id host : string) (already : bool) : list aws_event :=
  if already then [] else [Event (CallEc2 (AttachVolume host (awsID i) id)) (Ok tt)].

Definition end_event (i : awsInstance) (id device : string) (b : bool) : aws_event :=
  Event (CallAttach (EndAttaching (nodeName i) id device)) b.

(** An execution of [AttachDisk] from the moment it has a device. *)
Inductive attach_run (diskName node id : string) (i : awsInstance) (device : string) (already : bool)
    : list aws_event -> outcome (res string) -> Prop :=
| attach_refused e e' b :
    already = false ->
    attach_run diskName node id i device already
      [Event (CallEc2 (AttachVolume ("/dev/xvd" +:+ device) (awsID i) id)) (Err e);
       end_event i id device b] (Returned (Err e'))
| attach_unknown polls attachment e :
    polling_phase id "attached" volumeAttachmentStatusSteps 0 polls attachment (Some e) ->
    attach_run diskName node id i device already
      (attach_call i id ("/dev/xvd" +:+ device) already ++ polls) (Returned (Err e))
| attach_ended polls v a b r :
    polling_phase id "attached" volumeAttachmentStatusSteps 0
      (polls ++ [Event (CallEc2 (DescribeVolumes [id])) (Ok [v])]) (Some a) None ->
    a ∈ vol_Attachments v -> va_State a = Some "attached" ->
    (if bool_decide (StringValue (va_Device a) = "/dev/xvd" +:+ device /\
                     StringValue (va_InstanceId a) = awsID i)
     then r = Ok ("/dev/xvd" +:+ device) else exists e, r = Err e) ->
    attach_run diskName node id i device already
      (attach_call i id ("/dev/xvd" +:+ device) already ++
       (polls ++ [Event (CallEc2 (DescribeVolumes [id])) (Ok [v])]) ++ [end_event i id device b])
      (Returned r).

Lemma check_attachment_spec diskName node host i a :
  let r := check_attachment diskName node host host i (Some a) in
  if bool_decide (StringValue (va_Device a) = host /\ StringValue (va_InstanceId a) = awsID i)
  then r = Ok host else exists e, r = Err e.
Proof. cbn. repeat case_bool_decide; naive_solver. Qed.

(** The last part of [AttachDisk]: the waiting and the check. *)
Lemma attach_wait_run diskName node id i device already tr :
  always (let! waited := waitForAttachmentStatus scale id "attached" in
          let '(attachment, err) := waited in
          match err with
          | Some err => fail err
          | None =>
              end_attaching i id device
                (check_attachment diskName node ("/dev/xvd" +:+ device) ("/dev/xvd" +:+ device) i attachment)
          end)
    (fun tr' o => exists after, tr' = (tr ++ after)%list /\
       attach_run diskName node id i device already
         (attach_call i id ("/dev/xvd" +:+ device) already ++ after) o) tr.
Proof.
  apply always_bind. eapply always_impl; [|apply waitForAttachmentStatus_phase].
  intros tr' o (new & att & err & -> & -> & Hphase). destruct err as [e|].
  - exists new. split; [done|]. by eapply attach_unknown.
  - destruct Hphase as (Hnew & Hcount & before & v & att0 & s & -> & Hlast & Hs).
    intros b. fold (end_event i id device b).
    eexists. rewrite <- app_assoc. split; [done|].
    destruct (last_attachment_In _ _ _ _ _ Hlast) as [[-> _]|(a & Ha & -> & Hstate)]; [done|].
    assert (s = "attached") as -> by (case_bool_decide; [done|done]).
    eapply attach_ended; [|done|done|apply check_attachment_spec].
    split_and!; [done|done|]. by exists before, v, att0, "attached".
Qed.

(** The lookups before: one request at most. *)
Lemma getFullInstance_lookup node tr :
  always (getFullInstance c node)
    (fun tr' o => exists lookups, tr' = (tr ++ lookups)%list /\ Forall is_lookup lookups /\
                                  length lookups <= 1 /\ exists r, o = Returned r) tr.
Proof.
  assert (forall ids filters answer (r : res (awsInstance * option Instance)),
    exists lookups, (tr ++ [Event (CallEc2 (DescribeInstances ids filters)) answer] = tr ++ lookups)%list /\
      Forall is_lookup lookups /\ length lookups <= 1 /\
      exists r', Returned r = Returned r') as Hone.
  { intros ids filters answer r. eexists. split; [done|]. split_and!; [|done|by eexists].
    repeat constructor. by eexists _, _, _. }
  unfold getFullInstance, getInstanceByID, getInstancesByIDs, getInstanceByNodeName,
    findInstanceByNodeName, describeInstances.
  go_exec; apply Hone.
Qed.

(** The calls of [AttachDisk] after the lookups. *)
Inductive attach_disk_run (diskName node : string) (readOnly : bool)
    : list aws_event -> outcome (res string) -> Prop :=
| attach_no_device o :
    (forall host, o <> Returned (Ok host)) -> attach_disk_run diskName node readOnly [] o
| attach_too_many id i reported e :
    readOnly = false -> mapToAWSVolumeID diskName = Ok id ->
    attach_disk_run diskName node readOnly
      [Event (CallAttach (GetMountDevice (nodeName i) reported id true)) (Err e)] (Returned (Err e))
| attach_device id i reported device already rest o :
    readOnly = false -> mapToAWSVolumeID diskName = Ok id ->
    attach_run diskName node id i device already rest o ->
    attach_disk_run diskName node readOnly
      (Event (CallAttach (GetMountDevice (nodeName i) reported id true)) (Ok (device, already)) :: rest) o.

(** C20: Attaching a disk.  Until it has a device [AttachDisk] makes at most
    one request, a lookup.  From then on it asks for the attachment once,
    unless the volume has that device already, and polls at most 21 times.
    It succeeds only if the last poll saw the volume attached to this device
    and this instance.  The device is given back, as the last call, exactly
    when the attachment was refused or seen to be done: when the waiting
    fails it stays taken, for the next try to find it. *)
Theorem AttachDisk_protocol diskName node readOnly :
  always (AttachDisk c scale diskName node readOnly)
    (fun tr o => exists lookups after,
       tr = (lookups ++ after)%list /\ Forall is_lookup lookups /\ length lookups <= 1 /\
       attach_disk_run diskName node readOnly after o) [].
Proof.
  unfold AttachDisk. destruct (mapToAWSVolumeID diskName) as [id|e] eqn:Hid.
  2: { exists [], []. split_and!; [done|done|cbn; lia|by apply attach_no_device]. }
  unfold bind_or at 1. apply always_bind. eapply always_impl; [|apply getFullInstance_lookup].
  intros tr o (lookups & -> & Hlookups & Hlen & [r ->]). cbn [app].
  assert (forall o : outcome (res string), (forall host, o <> Returned (Ok host)) ->
    exists lookups' after, lookups = (lookups' ++ after)%list /\ Forall is_lookup lookups' /\
      length lookups' <= 1 /\ attach_disk_run diskName node readOnly after o) as Hearly.
  { intros o Ho. exists lookups, []. rewrite app_nil_r. split_and!; [done..|].
    by apply attach_no_device. }
  destruct r as [[i info]|e]; [|by apply Hearly].
  destruct readOnly; [by apply Hearly|].
  unfold getMountDevice. destruct (info ≫= _) as [reported|]; [|by apply Hearly].
  unfold bind_ok at 1, trigger at 1. cbn [bind always].
  intros [[device already]|e].
  2: { eexists lookups, _. split_and!; [done..|]. by apply attach_too_many. }
  cbn [bind]. set (got := Event _ _).
  assert (forall rest tr' o, tr' = ((lookups ++ [got]) ++ rest)%list ->
    attach_run diskName node id i device already rest o ->
    exists lookups' after, tr' = (lookups' ++ after)%list /\ Forall is_lookup lookups' /\
      length lookups' <= 1 /\ attach_disk_run diskName node false after o) as Hlate.
  { intros rest tr' o -> Hrun. eexists lookups, _. rewrite <- app_assoc.
    split_and!; [done..|]. by apply attach_device. }
  pose proof (attach_wait_run diskName node id i device already) as Hwait.
  destruct already; cbn [negb].
  - unfold ok at 1. cbn [bind]. eapply always_impl; [|apply Hwait].
    intros tr' o (after & -> & Hrun). by eapply Hlate.
  - intros [[]|e].
    + eapply always_impl; [|apply Hwait].
      intros tr' o (after & -> & Hrun). eapply Hlate; [|exact Hrun]. by rewrite <- app_assoc.
    + intros b. eapply Hlate; [|by eapply (attach_refused _ _ _ _ _ _ e _ b)].
      by rewrite <- app_assoc.
Qed.
End attaching.

(** ** Snapshots *)

(** The state the service reports of the one snapshot it answers with. *)
Definition reported_state (answer : res (list Snapshot)) : option (option string * option string) :=
  match answer with Ok [s] => Some (sn_State s, sn_StateMessage s) | _ => None end.

(** The state of a snapshot.  Whatever EC2 answers, a snapshot is said to
    be complete exactly when the one snapshot reported is completed.  It is
    never said to be in progress: every other answer is an error, or, when the
    state comes without a message (as that of a pending snapshot does), a nil
    dereference. *)
Theorem DescribeSnapshot_states snapshotId :
  always (DescribeSnapshot snapshotId)
    (fun tr o => exists answer,
       tr = [Event (CallEc2 (DescribeSnapshots [snapshotId])) answer] /\
       (o = Returned (true, None) <-> exists m, reported_state answer = Some (Some "completed", m)) /\
       ((exists why, o = Panicked why) <->
        exists state, state <> "completed" /\ reported_state answer = Some (Some state, None)) /\
       o <> Returned (false, None)) [].
Proof.
  unfold DescribeSnapshot, nil_dereference, trigger. cbn [bind always app]. intros answer.
  destruct answer as [[|[? state message] [|? ?]]|e]; cbn [sn_State sn_StateMessage];
    try (eexists; split; [done|]; cbn; naive_solver).
  destruct state as [state|]; [|eexists; split; [done|]; cbn; naive_solver].
  case_bool_decide as Hc; [subst; eexists; split; [done|]; cbn; naive_solver|].
  destruct message as [message|]; [case_bool_decide|]; eexists; (split; [done|]); cbn; naive_solver.
Qed.
