(* ===== verification/SecurityGroups.v ===== *)
(** The firewall of the AWS provider: sets of permissions
    ([sets_ippermissions.go]), the ingress rules of security groups, and the
    choice of groups and subnets for load balancers ([aws.go]).

    A set of permissions is a Go map from the JSON text of a permission to the
    permission.  The text is that of the standard library ([PermissionKey]). *)

From S2P Require Import Prelude GoStrings Types Api Wait Ec2.
From Stdlib Require Import Lia.

#[local] Open Scope string_scope.

(** * Objects *)

Record UserIdGroupPair := { pair_GroupId : option string; pair_UserId : option string }.

(** [ip_Other] is what the program copies without reading it. *)
Record IpPermission := {
  FromPort : option Z;
  ToPort : option Z;
  IpProtocol : option string;
  IpRanges : list (option string);
  UserIdGroupPairs : list UserIdGroupPair;
  PrefixListIds : list (option string);
  ip_Other : string;
}.

Record SecurityGroup := {
  sg_GroupId : option string;
  sg_Tags : list ec2_Tag;
  sg_IpPermissions : list IpPermission;
}.

Record Subnet := {
  sub_SubnetId : option string;
  sub_AvailabilityZone : option string;
  sub_Tags : list ec2_Tag;
}.

(** An association is its subnet and its [Main] flag; a route its gateway. *)
Record RouteTable := {
  rt_Associations : list (option string * option bool);
  rt_Routes : list (option string);
}.

(** * Sets of permissions *)

(** [keyForIPPermission]: the JSON text of a permission; marshalling the
    structure cannot fail. *)
Class PermissionKey := keyForIPPermission : IpPermission -> string.

Abbreviation IPPermissionSet := (gmap string IpPermission).

Section sets.
Context `{PermissionKey, MapRange}.

Definition Insert (items : list IpPermission) (s : IPPermissionSet) : IPPermissionSet :=
  fold_left (fun s p => <[keyForIPPermission p := p]> s) items s.

Definition NewIPPermissionSet (items : list IpPermission) : IPPermissionSet := Insert items ∅.

Definition List_ (s : IPPermissionSet) : list IpPermission := (range s).*2.

Definition IsSuperset (s1 s2 : IPPermissionSet) : bool :=
  forallb (fun '(k, _) => bool_decide (is_Some (s1 !! k))) (range s2).

Definition Equal (s1 s2 : IPPermissionSet) : bool :=
  bool_decide (size s1 = size s2) && IsSuperset s1 s2.

Definition Difference (s s2 : IPPermissionSet) : IPPermissionSet :=
  fold_left (fun result '(k, v) => match s2 !! k with
                                   | Some _ => result
                                   | None => <[k := v]> result
                                   end) (range s) (NewIPPermissionSet []).

Definition Len (s : IPPermissionSet) : nat := size s.

(** The copies of a permission with one element of one of its lists. *)
Definition with_range (p : IpPermission) (r : option string) : IpPermission :=
  {| FromPort := FromPort p; ToPort := ToPort p; IpProtocol := IpProtocol p; IpRanges := [r];
     UserIdGroupPairs := UserIdGroupPairs p; PrefixListIds := PrefixListIds p; ip_Other := ip_Other p |}.
Definition with_pair (p : IpPermission) (u : UserIdGroupPair) : IpPermission :=
  {| FromPort := FromPort p; ToPort := ToPort p; IpProtocol := IpProtocol p; IpRanges := IpRanges p;
     UserIdGroupPairs := [u]; PrefixListIds := PrefixListIds p; ip_Other := ip_Other p |}.
Definition with_prefix (p : IpPermission) (v : option string) : IpPermission :=
  {| FromPort := FromPort p; ToPort := ToPort p; IpProtocol := IpProtocol p; IpRanges := IpRanges p;
     UserIdGroupPairs := UserIdGroupPairs p; PrefixListIds := [v]; ip_Other := ip_Other p |}.

Definition ungroup_ranges (l : list IpPermission) : list IpPermission :=
  p ← l; if bool_decide (length (IpRanges p) <= 1)%nat then [p] else map (with_range p) (IpRanges p).

(** [l2 = append(l, c)]: the new list starts from [l] again. *)
Definition ungroup_pairs (l : list IpPermission) : list IpPermission :=
  fold_left (fun l2 p =>
               if bool_decide (length (UserIdGroupPairs p) <= 1)%nat then l2 ++ [p]
               else fold_left (fun _ u => l ++ [with_pair p u]) (UserIdGroupPairs p) l2)%list
            l [].

Definition ungroup_prefixes (l : list IpPermission) : list IpPermission :=
  p ← l; if bool_decide (length (PrefixListIds p) <= 1)%nat then [p]
         else map (with_prefix p) (PrefixListIds p).

Definition Ungroup (s : IPPermissionSet) : IPPermissionSet :=
  NewIPPermissionSet (ungroup_prefixes (ungroup_pairs (ungroup_ranges (List_ s)))).
End sets.

(** * Comparing permissions *)

Definition isEqualIntPointer (l r : option Z) : bool :=
  match l, r with
  | None, None => true
  | Some l, Some r => bool_decide (l = r)
  | _, _ => false
  end.

Definition isEqualStringPointer (l r : option string) : bool :=
  match l, r with
  | None, None => true
  | Some l, Some r => bool_decide (l = r)
  | _, _ => false
  end.

(** [None]: the log statement dereferences a nil group. *)
Definition isEqualUserGroupPair (l r : UserIdGroupPair) (compareGroupUserIDs : bool) : option bool :=
  match pair_GroupId l, pair_GroupId r with
  | Some _, Some _ =>
      Some (isEqualStringPointer (pair_GroupId l) (pair_GroupId r) &&
            (negb compareGroupUserIDs || isEqualStringPointer (pair_UserId l) (pair_UserId r)))
  | _, _ => None
  end.

Fixpoint pair_in (l : UserIdGroupPair) (rs : list UserIdGroupPair) (compareGroupUserIDs : bool)
    : option bool :=
  match rs with
  | [] => Some false
  | r :: rs' =>
      match isEqualUserGroupPair l r compareGroupUserIDs with
      | None => None
      | Some true => Some true
      | Some false => pair_in l rs' compareGroupUserIDs
      end
  end.

(** The loop over the new pairs returns in its first turn. *)
Definition ipPermissionExists (newPermission existing : IpPermission) (compareGroupUserIDs : bool)
    : option bool :=
  if negb (isEqualIntPointer (FromPort newPermission) (FromPort existing)) then Some false
  else if negb (isEqualIntPointer (ToPort newPermission) (ToPort existing)) then Some false
  else if negb (isEqualStringPointer (IpProtocol newPermission) (IpProtocol existing)) then Some false
  else if bool_decide (length (IpRanges existing) < length (IpRanges newPermission))%nat then Some false
  else if negb (forallb (fun r => existsb (isEqualStringPointer r) (IpRanges existing))
                        (IpRanges newPermission)) then Some false
  else match UserIdGroupPairs newPermission with
       | [] => Some true
       | leftPair :: _ => pair_in leftPair (UserIdGroupPairs existing) compareGroupUserIDs
       end.

Definition hasUserID (p : IpPermission) : bool :=
  existsb (fun u => bool_decide (pair_UserId u <> None)) (UserIdGroupPairs p).

(** The loop over the permissions of the group. *)
Fixpoint permission_in (p : IpPermission) (existing : list IpPermission) : option bool :=
  match existing with
  | [] => Some false
  | e :: rest =>
      match ipPermissionExists p e (hasUserID p) with
      | None => None
      | Some true => Some true
      | Some false => permission_in p rest
      end
  end.

(** The changes: the permissions that are in the group, or those that are
    not. *)
Fixpoint select_permissions (wanted : bool) (ps existing : list IpPermission)
    : option (list IpPermission) :=
  match ps with
  | [] => Some []
  | p :: ps' =>
      match permission_in p existing, select_permissions wanted ps' existing with
      | Some found, Some changes => Some (if Bool.eqb found wanted then p :: changes else changes)
      | _, _ => None
      end
  end.

(** * Operations *)

Inductive GroupE : Type -> Type :=
| DescribeSecurityGroups (ids : list string) (filters : option (list Ec2Filter)) : GroupE (res (list SecurityGroup))
| AuthorizeSecurityGroupIngress (groupId : string) (permissions : list IpPermission) : GroupE (option error)
| RevokeSecurityGroupIngress (groupId : string) (permissions : list IpPermission) : GroupE (option error)
| CreateSecurityGroup (vpcId name description : string) : GroupE (res (option string))
| DescribeSubnets (filters : option (list Ec2Filter)) : GroupE (res (list Subnet))
| DescribeRouteTables (filters : option (list Ec2Filter)) : GroupE (res (list RouteTable)).

(** A load balancer as far as it is read. *)
Record LoadBalancerDescription := {
  lb_Name : option string;
  lb_SecurityGroups : list (option string);
}.

(** The fields of [Cloud] this code reads. *)
Record GroupCloud := {
  g_tagging : awsTagging;
  g_vpcID : string;
  g_selfSubnetID : string;
  g_DisableSecurityGroupIngress : bool;
}.

Definition MaxReadThenCreateRetries : nat := 30.
Definition TagNameSubnetInternalELB : string := "kubernetes.io/role/internal-elb".
Definition TagNameSubnetPublicELB : string := "kubernetes.io/role/elb".

(** [sets.String] of the port names and [sets.Int64] of the numbers. *)
Record portSets := { ps_names : gset string; ps_numbers : gset Z }.

Definition getPortSets (annotation : string) : option portSets :=
  if bool_decide (annotation <> "") && bool_decide (annotation <> "*") then
    Some (fold_left (fun ports item =>
                       match Atoi item with
                       | None => {| ps_names := {[item]} ∪ ps_names ports; ps_numbers := ps_numbers ports |}
                       | Some port => {| ps_names := ps_names ports; ps_numbers := {[port]} ∪ ps_numbers ports |}
                       end)
                    (Split annotation ",") {| ps_names := ∅; ps_numbers := ∅ |})
  else None.

Fixpoint findTag (tags : list ec2_Tag) (key : string) : string * bool :=
  match tags with
  | [] => ("", false)
  | tag :: rest =>
      if bool_decide (StringValue (tag_Key tag) = key) then (StringValue (tag_Value tag), true)
      else findTag rest key
  end.

(** The last table with an association to the subnet, or else with a main
    association. *)
Definition last_table (p : option string * option bool -> bool) (rt : list RouteTable)
    : option RouteTable :=
  fold_left (fun found table => if existsb p (rt_Associations table) then Some table else found) rt None.

Definition isSubnetPublic (rt : list RouteTable) (subnetID : string) : res bool :=
  let explicit := last_table (fun '(s, _) => bool_decide (StringValue s = subnetID)) rt in
  let subnetTable := match explicit with
                     | Some table => Some table
                     | None => last_table (fun '(_, main) => default false main) rt
                     end in
  match subnetTable with
  | None => Err (errorf "Could not locate routing table for subnet %s" [subnetID])
  | Some table => Ok (existsb (fun gateway => HasPrefix (StringValue gateway) "igw") (rt_Routes table))
  end.

(** The groups of an instance, with and without an entry in the tagged ones. *)
Definition findSecurityGroupForInstance {V} (instance : Instance) (taggedSecurityGroups : gmap string V)
    : res (option GroupIdentifier) :=
  let instanceID := StringValue (i_InstanceId instance) in
  let groups := List.filter (fun g => negb (bool_decide (StringValue (gi_GroupId g) = "")))
                            (i_SecurityGroups instance) in
  let is_tagged g := bool_decide (is_Some (taggedSecurityGroups !! StringValue (gi_GroupId g))) in
  match List.filter is_tagged groups with
  | [g] => Ok (Some g)
  | _ :: _ => Err (errorf "Multiple tagged security groups found for instance %s; ensure only the k8s security group is tagged" [instanceID])
  | [] =>
      match List.filter (fun g => negb (is_tagged g)) groups with
      | [g] => Ok (Some g)
      | _ :: _ => Err (errorf "Multiple untagged security groups found for instance %s; ensure the k8s security group is tagged" [instanceID])
      | [] => Ok None
      end
  end.

Section operations.
Context `{PermissionKey, MapRange} {E : Type -> Type} `{!SubE GroupE E, !SubE Ec2E E, !SubE SysE E}.
Context (c : GroupCloud).
#[local] Abbreviation M A := (prog E A).

Definition nil_group {A} : M A := Crash "invalid memory address or nil pointer dereference".

(** Retrieved by its identifier; nil if there is none. *)
Definition findSecurityGroup (securityGroupID : string) : M (res (option SecurityGroup)) :=
  let? groups := trigger (DescribeSecurityGroups [securityGroupID] None) in
  match groups with
  | [] => ok None
  | [group] => ok (Some group)
  | _ => fail (errorf "multiple security groups found with same id %q" [securityGroupID])
  end.

(** The two requests of [setSecurityGroupIngress], each if there is something
    to ask for. *)
Definition authorize (securityGroupID : string) (add : IPPermissionSet) : M (res unit) :=
  if bool_decide (Len add <> 0) then
    let! err := trigger (AuthorizeSecurityGroupIngress securityGroupID (List_ add)) in
    match err with
    | Some err => fail (Errorf "error authorizing security group ingress: %v" [FErr (Some err)])
    | None => ok tt
    end
  else ok tt.

Definition revoke (securityGroupID : string) (remove : IPPermissionSet) : M (res unit) :=
  if bool_decide (Len remove <> 0) then
    let! err := trigger (RevokeSecurityGroupIngress securityGroupID (List_ remove)) in
    match err with
    | Some err => fail (Errorf "error revoking security group ingress: %v" [FErr (Some err)])
    | None => ok tt
    end
  else ok tt.

Definition setSecurityGroupIngress (securityGroupID : string) (permissions : IPPermissionSet)
    : M (res bool) :=
  let? group := findSecurityGroup securityGroupID in
  match group with
  | None => fail (errorf "security group not found: %s" [securityGroupID])
  | Some group =>
      let actual := NewIPPermissionSet (sg_IpPermissions group) in
      let permissions := Ungroup permissions in
      let actual := Ungroup actual in
      let remove := Difference actual permissions in
      let add := Difference permissions actual in
      if bool_decide (Len add = 0) && bool_decide (Len remove = 0) then ok false
      else
        let? _ := authorize securityGroupID add in
        let? _ := revoke securityGroupID remove in
        ok true
  end.

Definition addSecurityGroupIngress (securityGroupID : string) (addPermissions : list IpPermission)
    : M (res bool) :=
  let? group := findSecurityGroup securityGroupID in
  match group with
  | None => fail (errorf "security group not found: %s" [securityGroupID])
  | Some group =>
      match select_permissions false addPermissions (sg_IpPermissions group) with
      | None => nil_group
      | Some [] => ok false
      | Some changes =>
          let! err := trigger (AuthorizeSecurityGroupIngress securityGroupID changes) in
          match err with
          | Some err => fail (Errorf "error authorizing security group ingress: %v" [FErr (Some err)])
          | None => ok true
          end
      end
  end.

Definition removeSecurityGroupIngress (securityGroupID : string) (removePermissions : list IpPermission)
    : M (res bool) :=
  let? group := findSecurityGroup securityGroupID in
  match group with
  | None => ok false
  | Some group =>
      match select_permissions true removePermissions (sg_IpPermissions group) with
      | None => nil_group
      | Some [] => ok false
      | Some changes =>
          let! err := trigger (RevokeSecurityGroupIngress securityGroupID changes) in
          match err with
          | Some err => fail err
          | None => ok true
          end
      end
  end.

(** The loop of [ensureSecurityGroup] with the number of attempts made; a
    group that was found is returned at once ([inl]), a created one is left
    to be tagged ([inr]). *)
Fixpoint ensure_group (fuel attempt : nat) (name description : string)
    : M (option (res (string + string))) :=
  match fuel with
  | O => Done None
  | S fuel' =>
      let attempt := S attempt in
      let! found := trigger (DescribeSecurityGroups []
        (Some [newEc2Filter "group-name" [name]; newEc2Filter "vpc-id" [g_vpcID c]])) in
      match found with
      | Err err => Done (Some (Err err))
      | Ok (group :: _) =>
          let! err := readRepairClusterTags (StringValue (sg_GroupId group)) ResourceLifecycleOwned ∅
                        (sg_Tags group) (g_tagging c) in
          match err with
          | Some err => Done (Some (Err err))
          | None => Done (Some (Ok (inl (StringValue (sg_GroupId group)))))
          end
      | Ok [] =>
          let! created := trigger (CreateSecurityGroup (g_vpcID c) name description) in
          match created with
          | Ok id => Done (Some (Ok (inr (orEmpty id))))
          | Err err =>
              let ignore := match err with
                            | AwsError code _ => bool_decide (code = "InvalidGroup.Duplicate") &&
                                                 bool_decide (attempt < MaxReadThenCreateRetries)
                            | _ => false
                            end in
              if ignore then
                let! _ := trigger (Sleep (1 * Second)) in
                ensure_group fuel' attempt name description
              else Done (Some (Err err))
          end
      end
  end.

(** Thirty turns are enough ([ensureSecurityGroup_attempts] below). *)
Definition ensureSecurityGroup (name description : string) : M (res string) :=
  let! got := ensure_group MaxReadThenCreateRetries 0 name description in
  match got with
  | None => Crash "out of fuel"
  | Some (Err err) => fail err
  | Some (Ok (inl groupID)) => ok groupID
  | Some (Ok (inr groupID)) =>
      if bool_decide (groupID = "") then
        fail (errorf "created security group, but id was not returned: %s" [name])
      else
        let! err := createTags groupID ResourceLifecycleOwned ∅ (g_tagging c) in
        match err with
        | Some err => fail (Errorf "error tagging security group: %v" [FErr (Some err)])
        | None => ok groupID
        end
  end.

Definition findSubnets : M (res (list Subnet)) :=
  let describe_error err := Errorf "error describing subnets: %v" [FErr (Some err)] in
  let? subnets := trigger (DescribeSubnets
      (addFilters [newEc2Filter "vpc-id" [g_vpcID c]] (g_tagging c))) else describe_error in
  match List.filter (fun s => hasClusterTag (sub_Tags s) (g_tagging c)) subnets with
  | [] =>
      let? subnets := trigger (DescribeSubnets
          (Some [newEc2Filter "subnet-id" [g_selfSubnetID c]])) else describe_error in
      ok subnets
  | matches => ok matches
  end.

(** One turn of the loop over the subnets. *)
Definition choose_subnet (internalELB : bool) (rt : list RouteTable) (subnet : Subnet)
    (subnetsByAZ : gmap string Subnet) : res (gmap string Subnet) :=
  let az := StringValue (sub_AvailabilityZone subnet) in
  let id := StringValue (sub_SubnetId subnet) in
  if bool_decide (az = "") || bool_decide (id = "") then Ok subnetsByAZ
  else
    match isSubnetPublic rt id with
    | Err err => Err err
    | Ok isPublic =>
        if negb internalELB && negb isPublic then Ok subnetsByAZ
        else
          match subnetsByAZ !! az with
          | None => Ok (<[az := subnet]> subnetsByAZ)
          | Some existing =>
              let tagName := if internalELB then TagNameSubnetInternalELB else TagNameSubnetPublicELB in
              let existingHasTag := (findTag (sub_Tags existing) tagName).2 in
              let subnetHasTag := (findTag (sub_Tags subnet) tagName).2 in
              if negb (Bool.eqb existingHasTag subnetHasTag) && subnetHasTag
              then Ok (<[az := subnet]> subnetsByAZ)
              else Ok subnetsByAZ
          end
    end.

Fixpoint choose_subnets (internalELB : bool) (rt : list RouteTable) (subnets : list Subnet)
    (subnetsByAZ : gmap string Subnet) : res (gmap string Subnet) :=
  match subnets with
  | [] => Ok subnetsByAZ
  | subnet :: rest =>
      match choose_subnet internalELB rt subnet subnetsByAZ with
      | Err err => Err err
      | Ok subnetsByAZ => choose_subnets internalELB rt rest subnetsByAZ
      end
  end.

Definition findELBSubnets (internalELB : bool) : M (res (list string)) :=
  let? subnets := findSubnets in
  let? rt := trigger (DescribeRouteTables (Some [newEc2Filter "vpc-id" [g_vpcID c]]))
    else (fun err => Errorf "error describe route table: %v" [FErr (Some err)]) in
  match choose_subnets internalELB rt subnets ∅ with
  | Err err => fail err
  | Ok subnetsByAZ => ok (map (fun '(_, subnet) => StringValue (sub_SubnetId subnet)) (range subnetsByAZ))
  end.

Definition getTaggedSecurityGroups : M (res (gmap string SecurityGroup)) :=
  let? groups := trigger (DescribeSecurityGroups [] (addFilters [] (g_tagging c)))
    else (fun err => Errorf "error querying security groups: %v" [FErr (Some err)]) in
  ok (fold_left (fun m group =>
                   if negb (hasClusterTag (sg_Tags group) (g_tagging c)) then m
                   else
                     let id := StringValue (sg_GroupId group) in
                     if bool_decide (id = "") then m else <[id := group]> m)
                groups ∅).

(** The last group of the load balancer with an identifier. *)
Definition loadBalancerSecurityGroupID (lb : LoadBalancerDescription) : string :=
  fold_left (fun found g => if isNilOrEmpty g then found else StringValue g) (lb_SecurityGroups lb) "".

(** The groups of the instances, as changes to make. *)
Fixpoint wanted_groups {V} (instances : list Instance) (tagged : gmap string V) (ids : gmap string bool)
    : res (gmap string bool) :=
  match instances with
  | [] => Ok ids
  | instance :: rest =>
      match findSecurityGroupForInstance instance tagged with
      | Err err => Err err
      | Ok None => wanted_groups rest tagged ids
      | Ok (Some group) =>
          let id := StringValue (gi_GroupId group) in
          wanted_groups rest tagged (if bool_decide (id = "") then ids else <[id := true]> ids)
      end
  end.

(** Compared to the groups that are open already. *)
Definition compare_actual (actualGroups : list SecurityGroup) (ids : gmap string bool)
    : gmap string bool :=
  fold_left (fun ids group =>
               let id := StringValue (sg_GroupId group) in
               if bool_decide (id = "") then ids
               else match ids !! id with
                    | Some true => delete id ids
                    | _ => <[id := false]> ids
                    end)
            actualGroups ids.

Definition lb_permission (loadBalancerGroup : string) : IpPermission :=
  {| FromPort := None; ToPort := None; IpProtocol := Some "-1"; IpRanges := [];
     UserIdGroupPairs := [{| pair_GroupId := Some loadBalancerGroup; pair_UserId := None |}];
     PrefixListIds := []; ip_Other := "" |}.

Fixpoint apply_changes (loadBalancerGroup : string) (changes : list (string * bool)) : M (option error) :=
  match changes with
  | [] => Done None
  | (id, add) :: rest =>
      let permissions := [lb_permission loadBalancerGroup] in
      let! changed := (if add : bool then addSecurityGroupIngress id permissions
                       else removeSecurityGroupIngress id permissions) in
      match changed with
      | Err err => Done (Some err)
      | Ok _ => apply_changes loadBalancerGroup rest
      end
  end.

Definition updateInstanceSecurityGroupsForLoadBalancer (lb : LoadBalancerDescription)
    (allInstances : list Instance) : M (option error) :=
  if g_DisableSecurityGroupIngress c then Done None
  else
    let group := loadBalancerSecurityGroupID lb in
    if bool_decide (group = "") then
      Done (Some (errorf "Could not determine security group for load balancer: %s" [orEmpty (lb_Name lb)]))
    else
      let! response := trigger (DescribeSecurityGroups []
        (addFilters [newEc2Filter "ip-permission.group-id" [group]] (g_tagging c))) in
      match response with
      | Err err => Done (Some (Errorf "error querying security groups for ELB: %v" [FErr (Some err)]))
      | Ok response =>
          let actualGroups := List.filter (fun sg => hasClusterTag (sg_Tags sg) (g_tagging c)) response in
          let! tagged := getTaggedSecurityGroups in
          match tagged with
          | Err err => Done (Some (Errorf "error querying for tagged security groups: %v" [FErr (Some err)]))
          | Ok tagged =>
              match wanted_groups allInstances tagged ∅ with
              | Err err => Done (Some err)
              | Ok ids => apply_changes group (range (compare_actual actualGroups ids))
              end
          end
      end.
End operations.

(** * Theorems *)

Section theorems.
Context `{PermissionKey, MapRange}.

(** ** Sets *)

(** The keys of a list of permissions. *)
Definition keys_of (l : list IpPermission) : gset string := list_to_set (keyForIPPermission <$> l).

Lemma Insert_dom items s : dom (Insert items s) = keys_of items ∪ dom s.
Proof.
  unfold Insert, keys_of. revert s; induction items as [|p items IH]; intros s; cbn; [set_solver|].
  rewrite IH, dom_insert_L. set_solver.
Qed.

Lemma NewIPPermissionSet_dom items : dom (NewIPPermissionSet items) = keys_of items.
Proof. unfold NewIPPermissionSet. rewrite Insert_dom. set_solver. Qed.

Lemma Difference_spec (s s2 : IPPermissionSet) : Difference s s2 = s ∖ s2.
Proof.
  unfold Difference. change (NewIPPermissionSet []) with (∅ : IPPermissionSet).
  assert (forall (l : list (string * IpPermission)) acc, NoDup l.*1 -> (forall k, k ∈ l.*1 -> acc !! k = None) ->
            fold_left (fun result '(k, v) => match s2 !! k with
                                   | Some _ => result
                                   | None => <[k := v]> result
                                   end) l acc = (list_to_map l ∖ s2) ∪ acc) as Hfold.
  { induction l as [|[k v] l IH]; intros acc Hnd Hacc; cbn.
    - by rewrite map_empty_difference, (left_id_L ∅ (∪)).
    - apply NoDup_cons in Hnd as [Hk Hnd]. cbn in Hacc.
      assert ((list_to_map l : IPPermissionSet) !! k = None) as Hnone
        by by apply not_elem_of_list_to_map_1.
      destruct (s2 !! k) as [v2|] eqn:H2.
      + rewrite IH by (done || (intros; apply Hacc; by right)). f_equal.
        apply map_eq. intros i. rewrite !lookup_difference.
        destruct (decide (i = k)) as [->|Hi]; [by rewrite H2|by rewrite lookup_insert_ne].
      + rewrite IH; [|done|].
        * apply map_eq. intros i. rewrite !lookup_union, !lookup_difference.
          destruct (decide (i = k)) as [->|Hi].
          -- by rewrite H2, !lookup_insert_eq, Hnone, Hacc by by left.
          -- by rewrite !lookup_insert_ne by done.
        * intros i Hi. rewrite lookup_insert_ne by (intros ->; done). apply Hacc. by right. }
  rewrite Hfold by (apply range_NoDup || done). by rewrite list_to_map_range, (right_id_L ∅ (∪)).
Qed.

(** Every permission is under its own key. *)
Definition well_keyed (s : IPPermissionSet) : Prop := map_Forall (fun k p => keyForIPPermission p = k) s.

Lemma Insert_keyed items s : well_keyed s -> well_keyed (Insert items s).
Proof.
  unfold Insert. revert s; induction items as [|p items IH]; intros s Hs; cbn; [done|].
  apply IH. by apply map_Forall_insert_2.
Qed.

Lemma NewIPPermissionSet_keyed items : well_keyed (NewIPPermissionSet items).
Proof. apply Insert_keyed, map_Forall_empty. Qed.

Lemma List_keys s : well_keyed s -> keys_of (List_ s) = dom s.
Proof.
  intros Hs. unfold keys_of, List_. apply set_eq. intros k.
  rewrite elem_of_list_to_set, <- list_fmap_compose, list_elem_of_fmap, elem_of_dom. split.
  - intros ([k' p] & -> & Hin). apply elem_of_range in Hin. cbn.
    rewrite (Hs _ _ Hin : keyForIPPermission p = k'). by exists p.
  - intros [p Hp]. exists (k, p). cbn. split; [by rewrite (Hs _ _ Hp)|]. by apply elem_of_range.
Qed.

Lemma Difference_keyed s s2 : well_keyed s -> well_keyed (Difference s s2).
Proof.
  rewrite Difference_spec. intros Hs k p [Hp _]%lookup_difference_Some. by apply Hs.
Qed.

(** A permission that cannot be split any more. *)
Definition ungrouped (p : IpPermission) : bool :=
  bool_decide (length (IpRanges p) <= 1)%nat && bool_decide (length (UserIdGroupPairs p) <= 1)%nat &&
  bool_decide (length (PrefixListIds p) <= 1)%nat.

(** The parts of a permission with one group at most: one for every range and
    every prefix list. *)
Definition parts (p : IpPermission) : list IpPermission :=
  q ← (if bool_decide (length (IpRanges p) <= 1)%nat then [p] else map (with_range p) (IpRanges p));
  if bool_decide (length (PrefixListIds q) <= 1)%nat then [q] else map (with_prefix q) (PrefixListIds q).

Definition one_group (p : IpPermission) : Prop := length (UserIdGroupPairs p) <= 1.

Lemma ungroup_pairs_one l : Forall one_group l -> ungroup_pairs l = l.
Proof.
  intros Hl. unfold ungroup_pairs.
  assert (forall l', Forall one_group l' -> forall acc,
    fold_left (fun l2 p =>
               if bool_decide (length (UserIdGroupPairs p) <= 1)%nat then l2 ++ [p]
               else fold_left (fun _ u => l ++ [with_pair p u]) (UserIdGroupPairs p) l2)%list l' acc
    = (acc ++ l')%list) as Hfold; [|by rewrite Hfold].
  clear. induction 1 as [|p l' Hp _ IH]; intros acc; cbn; [by rewrite app_nil_r|].
  rewrite bool_decide_eq_true_2 by done. rewrite IH. by rewrite <- app_assoc.
Qed.

Lemma ungroup_ranges_one l : Forall one_group l -> Forall one_group (ungroup_ranges l).
Proof.
  rewrite !Forall_forall. intros Hl q. unfold ungroup_ranges. rewrite list_elem_of_bind.
  intros (p & Hq & Hp). specialize (Hl p Hp). case_bool_decide.
  - by apply list_elem_of_singleton in Hq as ->.
  - apply list_elem_of_In, in_map_iff in Hq as (r & <- & _). exact Hl.
Qed.

Lemma parts_ungrouped p q : one_group p -> q ∈ parts p -> ungrouped q = true.
Proof.
  intros Hp. unfold parts. rewrite list_elem_of_bind. intros (m & Hq & Hm).
  assert (length (IpRanges m) <= 1 /\ one_group m) as [Hr Hg].
  { case_bool_decide; [by apply list_elem_of_singleton in Hm as ->|].
    apply list_elem_of_In, in_map_iff in Hm as (r & <- & _). split; [cbn; lia|exact Hp]. }
  unfold ungrouped, one_group in *.
  destruct (decide (length (PrefixListIds m) <= 1)) as [Hpre|Hpre];
    [rewrite bool_decide_eq_true_2 in Hq by done|rewrite bool_decide_eq_false_2 in Hq by done].
  - apply list_elem_of_singleton in Hq as ->. by rewrite !bool_decide_eq_true_2 by done.
  - apply list_elem_of_In, in_map_iff in Hq as (v & <- & _). cbn.
    by rewrite !bool_decide_eq_true_2 by (done || lia).
Qed.

(** The loop over the groups never drops a permission. *)
Lemma ungroup_pairs_keeps l p : p ∈ l -> p ∈ ungroup_pairs l.
Proof.
  intros Hp. unfold ungroup_pairs.
  assert (forall l' acc, (forall q, q ∈ l -> q ∈ (acc ++ l')%list) ->
    p ∈ fold_left (fun l2 p =>
               if bool_decide (length (UserIdGroupPairs p) <= 1)%nat then l2 ++ [p]
               else fold_left (fun _ u => l ++ [with_pair p u]) (UserIdGroupPairs p) l2)%list l' acc)
    as Hfold; [|by apply Hfold].
  induction l' as [|q l' IH]; intros acc Hacc; cbn.
  - specialize (Hacc p Hp). by rewrite app_nil_r in Hacc.
  - case_bool_decide as Hq.
    + apply IH. intros r Hr. rewrite <- app_assoc. by apply Hacc.
    + apply IH. intros r Hr. apply elem_of_app. left.
      assert (forall us l2, us <> [] ->
        r ∈ (fold_left (fun _ u => l ++ [with_pair q u])%list us l2)) as Hus.
      { clear -Hr. induction us as [|u us IHus]; intros l2 Hne; cbn; [done|].
        destruct us as [|u' us]; [cbn; apply elem_of_app; by left|by apply IHus]. }
      apply Hus. intros Hnil. by rewrite Hnil in Hq; cbn in Hq; lia.
Qed.

Lemma elem_of_keys_of k l : k ∈ keys_of l <-> exists p, p ∈ l /\ k = keyForIPPermission p.
Proof. unfold keys_of. rewrite elem_of_list_to_set, list_elem_of_fmap. naive_solver. Qed.

(** Ungrouping.  When no permission of a set has more than one group, the
    ungrouped set is that of the parts of its permissions (every combination
    of one range and one prefix list), and none of them can be split further.
    A permission with several groups is not split: if it has no other lists to
    split it stays in the set as it is, next to a part of it. *)
Theorem Ungroup_parts (s : IPPermissionSet) :
  ((forall p, p ∈ List_ s -> one_group p) ->
   dom (Ungroup s) = keys_of (List_ s ≫= parts) /\
   forall q, q ∈ List_ s ≫= parts -> ungrouped q = true) /\
  (forall p, p ∈ List_ s -> ~ one_group p -> length (IpRanges p) <= 1 -> length (PrefixListIds p) <= 1 ->
   keyForIPPermission p ∈ dom (Ungroup s) /\ ungrouped p = false).
Proof.
  split.
  - intros Hone. apply Forall_forall in Hone. split.
    + unfold Ungroup. rewrite NewIPPermissionSet_dom.
      rewrite ungroup_pairs_one by by apply ungroup_ranges_one. f_equal.
      unfold ungroup_prefixes, ungroup_ranges, parts. by rewrite list_bind_assoc.
    + intros q Hq. apply list_elem_of_bind in Hq as (p & Hq & Hp).
      rewrite Forall_forall in Hone. eapply parts_ungrouped; [by apply Hone|done].
  - intros p Hp Hmany Hr Hpre. split.
    + unfold Ungroup. rewrite NewIPPermissionSet_dom. apply elem_of_keys_of. exists p. split; [|done].
      unfold ungroup_prefixes. apply list_elem_of_bind. exists p. split.
      * rewrite bool_decide_eq_true_2 by done. by apply list_elem_of_singleton.
      * apply ungroup_pairs_keeps. unfold ungroup_ranges. apply list_elem_of_bind. exists p.
        split; [|done]. rewrite bool_decide_eq_true_2 by done. by apply list_elem_of_singleton.
    + unfold ungrouped, one_group in *. rewrite (bool_decide_eq_false_2 (length (UserIdGroupPairs p) <= 1)) by done.
      by rewrite andb_false_r.
Qed.

(** ** Ingress rules *)

#[local] Abbreviation group_event := (event GroupE).

(** The execution of [setSecurityGroupIngress] once the group is known:
    [wanted] and [actual] are the keys of the two sets. *)
Inductive ingress_run (id : string) (wanted actual : gset string)
    : list group_event -> outcome (res bool) -> Prop :=
| ingress_same : wanted = actual -> ingress_run id wanted actual [] (Returned (Ok false))
| ingress_changed add remove :
    wanted <> actual ->
    keys_of add = wanted ∖ actual -> keys_of remove = actual ∖ wanted ->
    ingress_run id wanted actual
      ((if bool_decide (add = []) then [] else [Event (AuthorizeSecurityGroupIngress id add) None]) ++
       (if bool_decide (remove = []) then [] else [Event (RevokeSecurityGroupIngress id remove) None]))
      (Returned (Ok true))
| ingress_not_authorized add err e :
    keys_of add = wanted ∖ actual -> add <> [] ->
    ingress_run id wanted actual [Event (AuthorizeSecurityGroupIngress id add) (Some err)] (Returned (Err e))
| ingress_not_revoked add remove err e :
    keys_of add = wanted ∖ actual -> keys_of remove = actual ∖ wanted -> remove <> [] ->
    ingress_run id wanted actual
      ((if bool_decide (add = []) then [] else [Event (AuthorizeSecurityGroupIngress id add) None]) ++
       [Event (RevokeSecurityGroupIngress id remove) (Some err)])
      (Returned (Err e)).

Lemma List_nil (s : IPPermissionSet) : List_ s = [] <-> s = ∅.
Proof.
  unfold List_. split.
  - intros Hr%fmap_nil_inv. apply map_size_empty_iff. by rewrite <- length_range, Hr.
  - intros ->. by rewrite range_empty.
Qed.

Lemma keys_of_nil l : keys_of l = ∅ <-> l = [].
Proof. unfold keys_of. destruct l; cbn; set_solver. Qed.

Lemma keys_of_Difference s s2 :
  well_keyed s -> keys_of (List_ (Difference s s2)) = dom s ∖ dom s2.
Proof.
  intros Hs. rewrite List_keys by by apply Difference_keyed.
  by rewrite Difference_spec, dom_difference_L.
Qed.

Lemma bool_Len_0 s : bool_decide (Len s = 0) = bool_decide (List_ s = []).
Proof. apply bool_decide_ext. rewrite List_nil. apply map_size_empty_iff. Qed.

Lemma bool_Len_nil s : bool_decide (Len s <> 0) = negb (bool_decide (List_ s = [])).
Proof.
  unfold Len. destruct (decide (s = ∅)) as [->|Hs].
  - rewrite (bool_decide_eq_true_2 (List_ ∅ = [])) by by apply List_nil.
    by rewrite bool_decide_eq_false_2 by (rewrite map_size_empty; auto).
  - rewrite (bool_decide_eq_false_2 (List_ s = [])) by by rewrite List_nil.
    by rewrite bool_decide_eq_true_2 by by rewrite map_size_empty_iff.
Qed.

(** The requests, for any two sets. *)
Lemma ingress_requests id (want have : IPPermissionSet) tr :
  well_keyed want -> well_keyed have ->
  always (E:=GroupE)
    (if bool_decide (Len (Difference want have) = 0) && bool_decide (Len (Difference have want) = 0)
     then ok false
     else let? _ := authorize id (Difference want have) in
          let? _ := revoke id (Difference have want) in
          ok true)
    (fun tr' o => exists after, tr' = (tr ++ after)%list /\
                                ingress_run id (dom want) (dom have) after o) tr.
Proof.
  intros Hwant Hhave.
  pose proof (keys_of_Difference want have Hwant) as Hadd.
  pose proof (keys_of_Difference have want Hhave) as Hremove.
  unfold authorize, revoke. rewrite !bool_Len_nil, !bool_Len_0.
  generalize (List_ (Difference want have)) (List_ (Difference have want)) Hadd Hremove.
  generalize (dom want) (dom have). clear. intros wanted actual add remove Hadd Hremove.
  destruct (decide (wanted = actual)) as [Hsame|Hdiff].
  { assert (add = [] /\ remove = []) as [-> ->]
      by (rewrite <- !keys_of_nil, Hadd, Hremove; set_solver).
    exists []. rewrite app_nil_r. split; [done|]. by constructor. }
  assert (add = [] -> remove <> []) as Hboth.
  { rewrite <- !keys_of_nil, Hadd, Hremove. clear -Hdiff. intros Ha Hr. apply Hdiff, set_eq. intros k.
    destruct (decide (k ∈ wanted)), (decide (k ∈ actual)); set_solver. }
  pose proof (ingress_changed id wanted actual add remove Hdiff Hadd Hremove) as Hchanged.
  pose proof (fun err e => ingress_not_revoked id wanted actual add remove err e Hadd Hremove) as Hrevoke.
  destruct add as [|p add]; destruct remove as [|q remove];
    [exfalso; by apply Hboth| | |]; clear Hboth; cbn.
  - intros [err|]; cbn; eexists; (split; [reflexivity|]).
    + apply Hrevoke. discriminate.
    + exact Hchanged.
  - intros [err|]; cbn; eexists; (split; [reflexivity|]).
    + apply ingress_not_authorized; [exact Hadd|discriminate].
    + exact Hchanged.
  - intros [err|]; cbn.
    + eexists. split; [reflexivity|]. apply ingress_not_authorized; [exact Hadd|discriminate].
    + intros [err|]; cbn; eexists; (split; [rewrite <- app_assoc; reflexivity|]).
      * apply Hrevoke. discriminate.
      * exact Hchanged.
Qed.


(** ** The loop that finds or creates a group *)

(** The loop returns within thirty turns: it goes on only after a creation
    that lost a race, before the thirtieth. *)
Lemma ensure_group_returns {E} `{!SubE GroupE E, !SubE Ec2E E, !SubE SysE E} c fuel attempt name description tr :
  attempt + fuel = MaxReadThenCreateRetries -> fuel <> 0 ->
  always (E:=E) (ensure_group c fuel attempt name description)
    (fun _ o => exists r, o = Returned (Some r)) tr.
Proof.
  revert attempt tr; induction fuel as [|fuel IH]; intros attempt tr Hsum Hfuel; [done|]. cbn.
  intros [[|group groups]|e]; cbn.
  - intros [id|e]; cbn; [by eexists|].
    assert (bool_decide (S attempt < MaxReadThenCreateRetries) = true -> fuel <> 0) as Hmore
      by (intros ?%bool_decide_eq_true; lia).
    assert (forall (b : bool), (b = true -> fuel <> 0) ->
      always (E:=E) (if b then let! _ := trigger (Sleep (1 * Second)) in
                               ensure_group c fuel (S attempt) name description
                     else Done (Some (Err e)))
        (fun _ o => exists r, o = Returned (Some r))
        ((tr ++ [Event (inject (DescribeSecurityGroups []
            (Some [newEc2Filter "group-name" [name]; newEc2Filter "vpc-id" [g_vpcID c]]))) (Ok [])])
         ++ [Event (inject (CreateSecurityGroup (g_vpcID c) name description)) (Err e)])) as Hgo.
    { intros [|] Hb; [|by eexists]. intros u. apply IH; [lia|by apply Hb]. }
    apply Hgo. destruct e as [| |code m| | | | | | | |]; try done.
    intros [_ Hb]%andb_true_iff. by apply Hmore.
  - apply always_bind. eapply always_impl; [|apply readRepair_returns].
    intros tr' o [[err|] ->]; by eexists.
  - by eexists.
Qed.

(** The fuel of [ensureSecurityGroup] is enough: it never panics. *)
Lemma ensureSecurityGroup_attempts {E} `{!SubE GroupE E, !SubE Ec2E E, !SubE SysE E} c name description :
  always (E:=E) (ensureSecurityGroup c name description) (fun _ o => exists r, o = Returned r) [].
Proof.
  unfold ensureSecurityGroup. apply always_bind.
  eapply always_impl; [|apply ensure_group_returns; done].
  intros tr o [[[groupID|groupID]|e] ->]; cbn; [by eexists| |by eexists].
  case_bool_decide; [by eexists|]. apply always_bind.
  eapply always_impl; [|apply createTags_returns]. intros tr' o [[err|] ->]; by eexists.
Qed.

(** ** Comparing permissions *)

Lemma isEqualStringPointer_spec l r : isEqualStringPointer l r = bool_decide (l = r).
Proof.
  destruct l as [l|], r as [r|]; cbn.
  - apply bool_decide_ext. naive_solver.
  - by rewrite bool_decide_eq_false_2.
  - by rewrite bool_decide_eq_false_2.
  - by rewrite bool_decide_eq_true_2.
Qed.

Lemma isEqualIntPointer_spec l r : isEqualIntPointer l r = bool_decide (l = r).
Proof.
  destruct l as [l|], r as [r|]; cbn.
  - apply bool_decide_ext. naive_solver.
  - by rewrite bool_decide_eq_false_2.
  - by rewrite bool_decide_eq_false_2.
  - by rewrite bool_decide_eq_true_2.
Qed.

(** Two pairs name the same group (of the same user, if that is compared). *)
Definition same_group (cmp : bool) (l r : UserIdGroupPair) : Prop :=
  pair_GroupId l = pair_GroupId r /\ (cmp = true -> pair_UserId l = pair_UserId r).

Lemma isEqualUserGroupPair_spec l r cmp :
  pair_GroupId l <> None -> pair_GroupId r <> None ->
  exists b, isEqualUserGroupPair l r cmp = Some b /\ (b = true <-> same_group cmp l r).
Proof.
  unfold isEqualUserGroupPair, same_group. intros Hl Hr.
  destruct (pair_GroupId l) as [gl|] eqn:Hgl; [|done]. destruct (pair_GroupId r) as [gr|] eqn:Hgr; [|done].
  eexists. split; [done|]. rewrite !isEqualStringPointer_spec, andb_true_iff, bool_decide_eq_true, orb_true_iff,
    negb_true_iff, bool_decide_eq_true.
  destruct cmp; naive_solver.
Qed.

Lemma pair_in_spec l rs cmp :
  pair_GroupId l <> None -> (forall r, r ∈ rs -> pair_GroupId r <> None) ->
  exists b, pair_in l rs cmp = Some b /\ (b = true <-> exists r, r ∈ rs /\ same_group cmp l r).
Proof.
  intros Hl. induction rs as [|r rs IH]; intros Hrs; cbn.
  - exists false. split; [done|]. split; [done|]. by intros (r & ?%elem_of_nil & _).
  - destruct (isEqualUserGroupPair_spec l r cmp) as (b & -> & Hb); [done|apply Hrs; by left|].
    destruct b.
    + exists true. split; [done|]. split; [|done]. intros _. exists r. split; [by left|]. by apply Hb.
    + destruct IH as (b & -> & Hin); [intros r' Hr'; apply Hrs; by right|].
      exists b. split; [done|]. rewrite Hin. setoid_rewrite elem_of_cons.
      assert (~ same_group cmp l r) by (intros Hs; by apply Hb in Hs). naive_solver.
Qed.

(** A rule that is covered by an existing one: same ports and protocol, its
    ranges and its groups among those of the other. *)
Definition covered (cmp : bool) (p e : IpPermission) : Prop :=
  FromPort p = FromPort e /\ ToPort p = ToPort e /\ IpProtocol p = IpProtocol e /\
  length (IpRanges p) <= length (IpRanges e) /\
  (forall r, r ∈ IpRanges p -> r ∈ IpRanges e) /\
  (forall u, u ∈ UserIdGroupPairs p -> exists v, v ∈ UserIdGroupPairs e /\ same_group cmp u v).

Definition groups_named (p : IpPermission) : Prop :=
  forall u, u ∈ UserIdGroupPairs p -> pair_GroupId u <> None.

(** C28: When a rule exists.  For rules with named groups, one of them at most
    in the new rule, the test says exactly whether the existing rule covers
    the new one.  With more groups only the first counts: a rule can be said
    to exist although one of its groups is not in the existing rule. *)
Theorem ipPermissionExists_covered :
  (forall p e cmp, one_group p -> groups_named p -> groups_named e ->
     exists b, ipPermissionExists p e cmp = Some b /\ (b = true <-> covered cmp p e)) /\
  (exists p e cmp, groups_named p /\ groups_named e /\
     ipPermissionExists p e cmp = Some true /\ ~ covered cmp p e).
Proof.
  split.
  - intros p e cmp Hone Hp He. unfold ipPermissionExists, covered.
    rewrite !isEqualIntPointer_spec, isEqualStringPointer_spec.
    repeat (case_bool_decide; [|exists false; naive_solver]).
    case_bool_decide; [exists false; split; [done|]; split; [done|]; intros; lia|].
    destruct (forallb _ _) eqn:Hranges; cbn.
    + rewrite forallb_forall in Hranges.
      assert (forall r, r ∈ IpRanges p -> r ∈ IpRanges e) as Hsub.
      { intros r Hr. apply list_elem_of_In, Hranges, existsb_exists in Hr as (r' & Hr' & Heq).
        rewrite isEqualStringPointer_spec in Heq. apply bool_decide_eq_true in Heq as ->.
        by apply list_elem_of_In. }
      unfold one_group, groups_named in *.
      destruct (UserIdGroupPairs p) as [|u [|u' us]] eqn:Hu; [|cbn|cbn in Hone; lia].
      * exists true. split; [done|]. split; [|done]. intros _. split_and!; [done..|lia|done|].
        by intros u ?%elem_of_nil.
      * destruct (pair_in_spec u (UserIdGroupPairs e) cmp) as (b & -> & Hb); [by apply Hp; left|done|].
        exists b. split; [done|]. rewrite Hb. setoid_rewrite list_elem_of_singleton.
        split; [intros Hex|naive_solver]. split_and!; [done..|lia|done|]. by intros ? ->.
    + exists false. split; [done|]. split; [done|]. intros (_ & _ & _ & _ & Hsub & _). exfalso.
      apply not_true_iff_false in Hranges. apply Hranges, forallb_forall. intros r Hr.
      apply existsb_exists. exists r. split; [by apply list_elem_of_In, Hsub, list_elem_of_In|].
      rewrite isEqualStringPointer_spec. by apply bool_decide_eq_true.
  - set (pair g := {| pair_GroupId := Some g; pair_UserId := None |}).
    set (rule us := {| FromPort := None; ToPort := None; IpProtocol := Some "-1"; IpRanges := [];
                       UserIdGroupPairs := us; PrefixListIds := []; ip_Other := "" |}).
    exists (rule [pair "sg-1"; pair "sg-2"]), (rule [pair "sg-1"]), false. split_and!.
    + intros u Hu. cbn in Hu. set_solver.
    + intros u Hu. cbn in Hu. set_solver.
    + reflexivity.
    + intros (_ & _ & _ & _ & _ & Hall).
      destruct (Hall (pair "sg-2")) as (v & Hv & [Hg _]); [cbn; set_solver|].
      cbn in Hv. apply list_elem_of_singleton in Hv as ->. discriminate.
Qed.

(** ** The firewall between a load balancer and the instances *)

(** The groups that are open, with an identifier. *)
Definition open_groups (actual : list SecurityGroup) : list string :=
  List.filter (fun id => negb (bool_decide (id = ""))) (map (fun g => StringValue (sg_GroupId g)) actual).

(** The changes to the firewall.  When the service reports every open group
    once, the groups to open are exactly those of the instances that are not
    open, and the groups to close are exactly those open that are not of the
    instances; so after the changes the open groups are those of the
    instances. *)
Theorem firewall_changes (ids : gmap string bool) actual :
  (forall id, ids !! id <> Some false) -> NoDup (open_groups actual) ->
  forall id,
    (compare_actual actual ids !! id = Some true <-> ids !! id = Some true /\ id ∉ open_groups actual) /\
    (compare_actual actual ids !! id = Some false <-> ids !! id = None /\ id ∈ open_groups actual) /\
    (ids !! id = Some true <->
     id ∈ open_groups actual /\ compare_actual actual ids !! id <> Some false \/
     compare_actual actual ids !! id = Some true).
Proof.
  intros Htrue Hnd id.
  assert (forall actual ids, NoDup (open_groups actual) ->
    (forall i, ids !! i = Some false -> i ∉ open_groups actual) ->
    compare_actual actual ids !! id =
      if bool_decide (id ∈ open_groups actual)
      then match ids !! id with Some true => None | _ => Some false end
      else ids !! id) as Hlookup.
  { clear. unfold compare_actual, open_groups. induction actual as [|g actual IH]; intros ids Hnd Hfalse; cbn.
    - by rewrite bool_decide_eq_false_2 by apply not_elem_of_nil.
    - cbn in Hnd, Hfalse. set (i := StringValue (sg_GroupId g)) in *.
      destruct (decide (i = "")) as [Hi|Hi].
      { rewrite !(bool_decide_eq_true_2 (i = "")) in * by done. cbn in *. by apply IH. }
      rewrite !(bool_decide_eq_false_2 (i = "")) in * by done. cbn in *.
      apply NoDup_cons in Hnd as [Hnin Hnd].
      set (ids' := match ids !! i with Some true => delete i ids | _ => <[i := false]> ids end).
      assert (ids' !! i = match ids !! i with Some true => None | _ => Some false end /\
              forall j, j <> i -> ids' !! j = ids !! j) as [Hat Hother].
      { unfold ids'. destruct (ids !! i) as [[|]|]; split; intros;
          rewrite ?lookup_delete_eq, ?lookup_insert_eq, ?lookup_delete_ne, ?lookup_insert_ne by done; done. }
      rewrite IH; [|done|].
      + destruct (decide (id = i)) as [->|Hne].
        * rewrite bool_decide_eq_false_2 by done. rewrite bool_decide_eq_true_2 by by left. done.
        * rewrite Hother by done. by rewrite (bool_decide_ext (id ∈ i :: _) (id ∈
            List.filter (fun id => negb (bool_decide (id = ""))) (map (fun g => StringValue (sg_GroupId g)) actual)))
            by (rewrite elem_of_cons; naive_solver).
      + intros j Hj. destruct (decide (j = i)) as [->|Hne]; [done|].
        rewrite Hother in Hj by done. specialize (Hfalse j Hj). set_solver. }
  rewrite Hlookup by (done || (intros i Hi; by destruct (Htrue i))).
  specialize (Htrue id). case_bool_decide; destruct (ids !! id) as [[|]|]; naive_solver.
Qed.

Lemma firewall_changes_witness :
  let group id := {| sg_GroupId := Some id; sg_Tags := []; sg_IpPermissions := [] |} in
  compare_actual [group "sg-old"; group "sg-kept"] {["sg-kept" := true; "sg-new" := true]} !! "sg-old" = Some false.
Proof.
  intros group.
  refine (proj2 (proj1 (proj2 (firewall_changes _ _ _ _ "sg-old"))) _).
  - intros id. rewrite lookup_insert_Some, lookup_singleton_Some. naive_solver.
  - apply (bool_decide_unpack _). vm_compute. exact I.
  - split; [reflexivity|]. apply (bool_decide_unpack _). vm_compute. exact I.
Defined.
End theorems.
