(* ===== verification/AwsElb.v ===== *)
(** The load balancers of the AWS provider: [aws_loadbalancer.go], and the
    LoadBalancer interface of [aws.go] with the listeners and the cache of
    instances it uses.

    The requests to the ELB service are calls; a [*string] of the SDK is an
    [option string].  The source ranges of a service are computed by a
    library and come with the service. *)

From stdpp Require Import pretty.
From S2P Require Import Prelude GoStrings Types Api Wait Ec2 CloudProvider AwsDevices AwsVolumes SecurityGroups.
From Stdlib Require Import Lia.

#[local] Open Scope string_scope.

(** * Data *)

Record Listener := {
  li_Protocol : option string;
  li_InstanceProtocol : option string;
  li_InstancePort : option Z;
  li_LoadBalancerPort : option Z;
  li_SSLCertificateId : option string;
}.

Record BackendServer := { bs_InstancePort : option Z; bs_PolicyNames : list (option string) }.

Record HealthCheck := {
  hc_Target : option string;
  hc_HealthyThreshold : option Z;
  hc_UnhealthyThreshold : option Z;
  hc_Timeout : option Z;
  hc_Interval : option Z;
}.

(** [elb.LoadBalancerDescription]: a listener of its descriptions may be
    nil, and so may the health check; an instance is its identifier. *)
Record elb_description := {
  ed_LoadBalancerName : option string;
  ed_Subnets : list (option string);
  ed_SecurityGroups : list (option string);
  ed_Listeners : list (option Listener);
  ed_Backends : list BackendServer;
  ed_HealthCheck : option HealthCheck;
  ed_Instances : list (option string);
  ed_DNSName : option string;
}.

(** What the groups of the instances are opened for. *)
Definition as_description (lb : elb_description) : LoadBalancerDescription :=
  {| lb_Name := ed_LoadBalancerName lb; lb_SecurityGroups := ed_SecurityGroups lb |}.

Record AccessLog := {
  al_Enabled : option bool;
  al_EmitInterval : option Z;
  al_S3BucketName : option string;
  al_S3BucketPrefix : option string;
}.
Record ConnectionDraining := { cd_Enabled : option bool; cd_Timeout : option Z }.

(** [elb.LoadBalancerAttributes]: the idle timeout and the flag of the
    cross-zone balancing are in structures of their own. *)
Record LoadBalancerAttributes := {
  at_AccessLog : option AccessLog;
  at_ConnectionDraining : option ConnectionDraining;
  at_IdleTimeout : option (option Z);
  at_CrossZone : option (option bool);
  at_Additional : option (list (option string * option string));
}.
#[export] Instance AccessLog_eq_dec : EqDecision AccessLog.
Proof. solve_decision. Defined.
#[export] Instance ConnectionDraining_eq_dec : EqDecision ConnectionDraining.
Proof. solve_decision. Defined.
#[export] Instance LoadBalancerAttributes_eq_dec : EqDecision LoadBalancerAttributes.
Proof. solve_decision. Defined.

(** The fields used of a service. *)
Record ServicePort := {
  svp_Name : string;
  svp_Protocol : string;
  svp_Port : Z;
  svp_NodePort : Z;
}.
Record Service := {
  svc_Namespace : string;
  svc_Name : string;
  svc_UID : string;
  svc_Annotations : gmap string string;
  svc_Ports : list ServicePort;
  svc_LoadBalancerIP : string;
  svc_SessionAffinity : string;
  svc_SourceRanges : res (list string);
}.

Record CreateLoadBalancerInput := {
  cl_LoadBalancerName : string;
  cl_Listeners : list Listener;
  cl_Scheme : option string;
  cl_Subnets : list string;
  cl_SecurityGroups : list string;
  cl_Tags : list (string * string);
}.

(** * Calls *)

Inductive ElbE : Type -> Type :=
| DescribeLoadBalancers (name : string) : ElbE (res (list elb_description))
| CreateLoadBalancer (request : CreateLoadBalancerInput) : ElbE (option error)
| DeleteLoadBalancer (name : option string) : ElbE (option error)
| DetachLoadBalancerFromSubnets (name : string) (subnets : list string) : ElbE (option error)
| AttachLoadBalancerToSubnets (name : string) (subnets : list string) : ElbE (option error)
| ApplySecurityGroupsToLoadBalancer (name : string) (groups : list string) : ElbE (option error)
| DeleteLoadBalancerListeners (name : string) (ports : list (option Z)) : ElbE (option error)
| CreateLoadBalancerListeners (name : string) (listeners : list Listener) : ElbE (option error)
| CreateLoadBalancerPolicy (name policy type : string) (attributes : list (string * string))
    : ElbE (option error)
| SetLoadBalancerPoliciesForBackendServer (name : string) (port : Z) (policies : list string)
    : ElbE (option error)
| DescribeLoadBalancerAttributes (name : string) : ElbE (res LoadBalancerAttributes)
| ModifyLoadBalancerAttributes (name : string) (attributes : LoadBalancerAttributes)
    : ElbE (option error)
| ConfigureHealthCheck (name : option string) (check : HealthCheck) : ElbE (option error)
| RegisterInstances (name : string) (instances : list string) : ElbE (option error)
| DeregisterInstances (name : string) (instances : list string) : ElbE (option error)
| DeleteSecurityGroup (id : string) : ElbE (option error).

(** With the requests of the security groups and of the rest of the
    provider. *)
Inductive AwsLbE (X : Type) : Type :=
| CallElb (e : ElbE X)
| CallGroup (e : GroupE X)
| CallAws (e : AwsE X).
Arguments CallElb {X} e.
Arguments CallGroup {X} e.
Arguments CallAws {X} e.
#[export] Instance SubE_elb : SubE ElbE AwsLbE := fun _ e => CallElb e.
#[export] Instance SubE_elb_group : SubE GroupE AwsLbE := fun _ e => CallGroup e.
#[export] Instance SubE_elb_aws : SubE AwsE AwsLbE := fun _ e => CallAws e.
#[export] Instance SubE_elb_ec2 : SubE Ec2E AwsLbE := fun _ e => CallAws (CallEc2 e).
#[export] Instance SubE_elb_sys : SubE SysE AwsLbE := fun _ e => CallAws (CallAwsSys e).

(** The iteration over a map of ports, in any order. *)
Class PortRange := {
  range_ports : forall {V : Type}, gmap Z V -> list (Z * V);
  range_ports_perm : forall {V : Type} (m : gmap Z V), range_ports m ≡ₚ map_to_list m;
}.

Definition ProxyProtocolPolicyName : string := "k8s-proxyprotocol-enabled".
Definition ServiceAnnotationLoadBalancerInternal : string :=
  "service.beta.kubernetes.io/aws-load-balancer-internal".
Definition ServiceAnnotationLoadBalancerProxyProtocol : string :=
  "service.beta.kubernetes.io/aws-load-balancer-proxy-protocol".
Definition ServiceAnnotationLoadBalancerAccessLogEmitInterval : string :=
  "service.beta.kubernetes.io/aws-load-balancer-access-log-emit-interval".
Definition ServiceAnnotationLoadBalancerAccessLogEnabled : string :=
  "service.beta.kubernetes.io/aws-load-balancer-access-log-enabled".
Definition ServiceAnnotationLoadBalancerAccessLogS3BucketName : string :=
  "service.beta.kubernetes.io/aws-load-balancer-access-log-s3-bucket-name".
Definition ServiceAnnotationLoadBalancerAccessLogS3BucketPrefix : string :=
  "service.beta.kubernetes.io/aws-load-balancer-access-log-s3-bucket-prefix".
Definition ServiceAnnotationLoadBalancerConnectionDrainingEnabled : string :=
  "service.beta.kubernetes.io/aws-load-balancer-connection-draining-enabled".
Definition ServiceAnnotationLoadBalancerConnectionDrainingTimeout : string :=
  "service.beta.kubernetes.io/aws-load-balancer-connection-draining-timeout".
Definition ServiceAnnotationLoadBalancerConnectionIdleTimeout : string :=
  "service.beta.kubernetes.io/aws-load-balancer-connection-idle-timeout".
Definition ServiceAnnotationLoadBalancerCrossZoneLoadBalancingEnabled : string :=
  "service.beta.kubernetes.io/aws-load-balancer-cross-zone-load-balancing-enabled".
Definition ServiceAnnotationLoadBalancerCertificate : string :=
  "service.beta.kubernetes.io/aws-load-balancer-ssl-cert".
Definition ServiceAnnotationLoadBalancerSSLPorts : string :=
  "service.beta.kubernetes.io/aws-load-balancer-ssl-ports".
Definition ServiceAnnotationLoadBalancerBEProtocol : string :=
  "service.beta.kubernetes.io/aws-load-balancer-backend-protocol".
Definition TagNameKubernetesService : string := "kubernetes.io/service-name".

(** * Pure parts *)

Definition orZero (v : option Z) : Z := default 0%Z v.

(** [awserr.Error] with the code. *)
Definition is_code (code : string) (err : error) : bool :=
  match err with AwsError c _ => bool_decide (c = code) | _ => false end.

Definition stringSetFromPointers (l : list (option string)) : gset string :=
  list_to_set (orEmpty <$> l).

Definition annotation (a : gmap string string) (name : string) : string := default "" (a !! name).

Definition backendProtocolMapping (protocol : string) : string :=
  if bool_decide (protocol = "https") then "https"
  else if bool_decide (protocol = "http") then "https"
  else if bool_decide (protocol = "ssl") then "ssl"
  else if bool_decide (protocol = "tcp") then "ssl"
  else "".

Definition has_port (sslPorts : option portSets) (number : Z) (name : string) : bool :=
  match sslPorts with
  | None => true
  | Some ports => bool_decide (number ∈ ps_numbers ports) || bool_decide (name ∈ ps_names ports)
  end.

Definition buildListener (port : ServicePort) (annotations : gmap string string)
    (sslPorts : option portSets) : res Listener :=
  let portName := ToLower (svp_Name port) in
  let protocol := ToLower (svp_Protocol port) in
  let certID := annotation annotations ServiceAnnotationLoadBalancerCertificate in
  let backend := annotation annotations ServiceAnnotationLoadBalancerBEProtocol in
  let listener protocol instanceProtocol cert :=
    {| li_Protocol := Some protocol; li_InstanceProtocol := Some instanceProtocol;
       li_InstancePort := Some (svp_NodePort port); li_LoadBalancerPort := Some (svp_Port port);
       li_SSLCertificateId := cert |} in
  if bool_decide (certID <> "") && has_port sslPorts (svp_Port port) portName then
    if bool_decide (backend = "") then Ok (listener "ssl" "tcp" (Some certID))
    else
      let protocol := backendProtocolMapping backend in
      if bool_decide (protocol = "") then
        Err (errorf "Invalid backend protocol %s for %s in %s"
                    [backend; certID; ServiceAnnotationLoadBalancerBEProtocol])
      else Ok (listener protocol backend (Some certID))
  else if bool_decide (backend = "http") then Ok (listener "http" backend None)
  else Ok (listener protocol protocol None).

(** The listeners for the ports; a port without a node port is passed over. *)
Fixpoint build_listeners (ports : list ServicePort) (annotations : gmap string string)
    (sslPorts : option portSets) : res (list Listener) :=
  match ports with
  | [] => Ok []
  | port :: ports' =>
      if bool_decide (svp_Protocol port <> "TCP") then
        Err (errorf "Only TCP LoadBalancer is supported for AWS ELB" [])
      else if bool_decide (svp_NodePort port = 0%Z) then build_listeners ports' annotations sslPorts
      else
        match buildListener port annotations sslPorts with
        | Err err => Err err
        | Ok listener =>
            match build_listeners ports' annotations sslPorts with
            | Err err => Err err
            | Ok listeners => Ok (listener :: listeners)
            end
        end
  end.

Definition IsAllowAll (ranges : list string) : bool :=
  existsb (fun r => bool_decide (r = "0.0.0.0/0")) ranges.

Definition is_internal (service : Service) (sourceRanges : list string) : res bool :=
  let internal := annotation (svc_Annotations service) ServiceAnnotationLoadBalancerInternal in
  if bool_decide (internal = "") then Ok false
  else if bool_decide (internal <> "0.0.0.0/0") then
    Err (errorf "annotation %q=%q detected, but the only value supported currently is 0.0.0.0/0"
                [ServiceAnnotationLoadBalancerInternal; internal])
  else if negb (IsAllowAll sourceRanges) then
    Err (errorf "source-range annotation cannot be combined with the internal-elb annotation" [])
  else Ok true.

Definition has_proxy_protocol (service : Service) : res bool :=
  let proxy := annotation (svc_Annotations service) ServiceAnnotationLoadBalancerProxyProtocol in
  if bool_decide (proxy = "") then Ok false
  else if bool_decide (proxy <> "*") then
    Err (errorf "annotation %q=%q detected, but the only value supported currently is '*'"
                [ServiceAnnotationLoadBalancerProxyProtocol; proxy])
  else Ok true.

(** An annotation with a default; [parse] is [ParseInt] in base 10 with 64
    bits, which is [Atoi] there, or [ParseBool]. *)
Definition parsed_annotation {T} (parse : string -> option T) (a : gmap string string)
    (name : string) (def : option T) : res (option T) :=
  let text := annotation a name in
  if bool_decide (text = "") then Ok def
  else
    match parse text with
    | Some v => Ok (Some v)
    | None => Err (errorf "error parsing service annotation: %s=%s" [name; text])
    end.

Definition text_annotation (a : gmap string string) (name : string) : option string :=
  let text := annotation a name in if bool_decide (text = "") then None else Some text.

Definition res_bind {A B} (r : res A) (f : A -> res B) : res B :=
  match r with Ok a => f a | Err err => Err err end.

Definition load_balancer_attributes (a : gmap string string) : res LoadBalancerAttributes :=
  res_bind (parsed_annotation Atoi a ServiceAnnotationLoadBalancerAccessLogEmitInterval None) (fun interval =>
  res_bind (parsed_annotation ParseBool a ServiceAnnotationLoadBalancerAccessLogEnabled (Some false)) (fun logged =>
  res_bind (parsed_annotation ParseBool a ServiceAnnotationLoadBalancerConnectionDrainingEnabled (Some false)) (fun draining =>
  res_bind (parsed_annotation Atoi a ServiceAnnotationLoadBalancerConnectionDrainingTimeout None) (fun timeout =>
  res_bind (parsed_annotation Atoi a ServiceAnnotationLoadBalancerConnectionIdleTimeout (Some 60%Z)) (fun idle =>
  res_bind (parsed_annotation ParseBool a ServiceAnnotationLoadBalancerCrossZoneLoadBalancingEnabled (Some false)) (fun crossZone =>
  Ok {| at_AccessLog :=
          Some {| al_Enabled := logged; al_EmitInterval := interval;
                  al_S3BucketName := text_annotation a ServiceAnnotationLoadBalancerAccessLogS3BucketName;
                  al_S3BucketPrefix := text_annotation a ServiceAnnotationLoadBalancerAccessLogS3BucketPrefix |};
        at_ConnectionDraining := Some {| cd_Enabled := draining; cd_Timeout := timeout |};
        at_IdleTimeout := Some idle;
        at_CrossZone := Some crossZone;
        at_Additional := None |})))))).

Definition toStatus (lb : elb_description) : list string :=
  if isNilOrEmpty (ed_DNSName lb) then [] else [orEmpty (ed_DNSName lb)].

Definition proxyProtocolEnabled (backend : BackendServer) : bool :=
  existsb (fun policy => bool_decide (StringValue policy = ProxyProtocolPolicyName))
          (bs_PolicyNames backend).

Definition same_listener (actual expected : Listener) : bool :=
  bool_decide (orEmpty (li_Protocol actual) = orEmpty (li_Protocol expected)) &&
  bool_decide (orEmpty (li_InstanceProtocol actual) = orEmpty (li_InstanceProtocol expected)) &&
  bool_decide (orZero (li_InstancePort actual) = orZero (li_InstancePort expected)) &&
  bool_decide (orZero (li_LoadBalancerPort actual) = orZero (li_LoadBalancerPort expected)) &&
  bool_decide (orEmpty (li_SSLCertificateId actual) = orEmpty (li_SSLCertificateId expected)).

(** The last listener, from the index [i], that is the actual one. *)
Fixpoint found_listener (actual : Listener) (listeners : list Listener) (i : nat) (found : option nat)
    : option nat :=
  match listeners with
  | [] => found
  | expected :: listeners' =>
      found_listener actual listeners' (S i) (if same_listener actual expected then Some i else found)
  end.

(** The indexes found, and the ports of the listeners to remove. *)
Definition compare_listener (listeners : list Listener) (acc : gset nat * list (option Z))
    (description : option Listener) : gset nat * list (option Z) :=
  match description with
  | None => acc
  | Some actual =>
      match found_listener actual listeners 0 None with
      | Some i => ({[i]} ∪ acc.1, acc.2)
      | None => (acc.1, (acc.2 ++ [li_LoadBalancerPort actual])%list)
      end
  end.

Definition compare_listeners (listeners : list Listener) (descriptions : list (option Listener))
    : gset nat * list (option Z) :=
  fold_left (compare_listener listeners) descriptions (∅, []).

Definition added_listeners (listeners : list Listener) (foundSet : gset nat) : list Listener :=
  (filter (fun il => il.1 ∉ foundSet) (imap pair listeners)).*2.

Definition expected_target (listeners : list Listener) : string :=
  match List.find (fun l => bool_decide (li_InstancePort l <> None)) listeners with
  | Some l => "TCP:" +:+ pretty (orZero (li_InstancePort l))
  | None => ""
  end.

(** * Operations *)

(** The cache of the instances last asked for by names. *)
Record instance_cache := { last_NodeNames : gset string; last_Instances : list Instance }.

Section elb.
Context `{PermissionKey, MapRange, UrlParse, PortRange} (gc : GroupCloud) (c : Cloud).
#[local] Abbreviation M A := (prog AwsLbE A).

Definition nil_pointer {A} : M A := Crash "invalid memory address or nil pointer dereference".

(** A request whose error is returned, wrapped. *)
Definition asked (e : ElbE (option error)) (wrap : error -> error) : M (res unit) :=
  let! err := trigger e in
  match err with Some err => fail (wrap err) | None => ok tt end.

(** The last of the descriptions, none when the service says the name is
    not found. *)
Definition describeLoadBalancer (name : string) : M (res (option elb_description)) :=
  let! response := trigger (DescribeLoadBalancers name) in
  match response with
  | Err err =>
      if is_code "LoadBalancerNotFound" err then ok None else fail err
  | Ok descriptions => ok (last descriptions)
  end.

Definition getInstancesByNodeNamesCached (cache : instance_cache) (nodeNames : gset string)
    : M (instance_cache * res (list Instance)) :=
  if bool_decide (nodeNames = last_NodeNames cache) &&
     bool_decide (0 < length (last_Instances cache))%nat
  then Done (cache, Ok (last_Instances cache))
  else
    let! got := lift (getInstancesByNodeNames c (set_List nodeNames)) in
    match got with
    | Err err => Done (cache, Err err)
    | Ok [] => Done (cache, Ok [])
    | Ok instances => Done ({| last_NodeNames := nodeNames; last_Instances := instances |}, Ok instances)
    end.

(** ** Making the load balancer as wanted *)

Definition createProxyProtocolPolicy (loadBalancerName : string) : M (res unit) :=
  asked (CreateLoadBalancerPolicy loadBalancerName ProxyProtocolPolicyName "ProxyProtocolPolicyType"
           [("ProxyProtocol", "true")])
    (fun err => Errorf "error creating proxy protocol policy on load balancer: %v" [FErr (Some err)]).

Definition setBackendPolicies (loadBalancerName : string) (instancePort : Z) (policies : list string)
    : M (res unit) :=
  asked (SetLoadBalancerPoliciesForBackendServer loadBalancerName instancePort policies)
    (fun err => Errorf "error adjusting AWS loadbalancer backend policies: %v" [FErr (Some err)]).

Definition set_policies (loadBalancerName : string) (policies : list string) (_ : unit) (l : Listener)
    : M (res unit) :=
  match li_InstancePort l with
  | None => nil_pointer
  | Some port => setBackendPolicies loadBalancerName port policies
  end.

Definition create_load_balancer (namespacedName loadBalancerName : string) (listeners : list Listener)
    (subnetIDs securityGroupIDs : list string) (internalELB proxyProtocol : bool) : M (res unit) :=
  let tags := buildTags ResourceLifecycleOwned {[TagNameKubernetesService := namespacedName]}
                (g_tagging gc) in
  let? _ := asked (CreateLoadBalancer
    {| cl_LoadBalancerName := loadBalancerName; cl_Listeners := listeners;
       cl_Scheme := if internalELB then Some "internal" else None;
       cl_Subnets := subnetIDs; cl_SecurityGroups := securityGroupIDs; cl_Tags := range tags |}) id in
  if proxyProtocol then
    let? _ := createProxyProtocolPolicy loadBalancerName in
    fold_ok (set_policies loadBalancerName [ProxyProtocolPolicyName]) listeners tt
  else ok tt.

(** Each synchronisation answers whether it changed anything. *)
Definition sync_subnets (loadBalancerName : string) (lb : elb_description) (subnetIDs : list string)
    : M (res bool) :=
  let expected : gset string := list_to_set subnetIDs in
  let actual := stringSetFromPointers (ed_Subnets lb) in
  let additions := expected ∖ actual in
  let removals := actual ∖ expected in
  let? _ := (if bool_decide (size removals <> 0) then
               asked (DetachLoadBalancerFromSubnets loadBalancerName (range_set removals))
                 (fun err => Errorf "error detaching AWS loadbalancer from subnets: %v" [FErr (Some err)])
             else ok tt) in
  let? _ := (if bool_decide (size additions <> 0) then
               asked (AttachLoadBalancerToSubnets loadBalancerName (range_set additions))
                 (fun err => Errorf "error attaching AWS loadbalancer to subnets: %v" [FErr (Some err)])
             else ok tt) in
  ok (bool_decide (size removals <> 0) || bool_decide (size additions <> 0)).

Definition sync_groups (loadBalancerName : string) (lb : elb_description)
    (securityGroupIDs : list string) : M (res bool) :=
  let expected : gset string := list_to_set securityGroupIDs in
  if bool_decide (expected = stringSetFromPointers (ed_SecurityGroups lb)) then ok false
  else
    let? _ := asked (ApplySecurityGroupsToLoadBalancer loadBalancerName securityGroupIDs)
      (fun err => Errorf "error applying AWS loadbalancer security groups: %v" [FErr (Some err)]) in
    ok true.

Definition sync_listeners (loadBalancerName : string) (lb : elb_description)
    (listeners : list Listener) : M (res bool) :=
  let '(foundSet, removals) := compare_listeners listeners (ed_Listeners lb) in
  let additions := added_listeners listeners foundSet in
  let? _ := (if bool_decide (removals <> []) then
               asked (DeleteLoadBalancerListeners loadBalancerName removals)
                 (fun err => Errorf "error deleting AWS loadbalancer listeners: %v" [FErr (Some err)])
             else ok tt) in
  let? _ := (if bool_decide (additions <> []) then
               asked (CreateLoadBalancerListeners loadBalancerName additions)
                 (fun err => Errorf "error creating AWS loadbalancer listeners: %v" [FErr (Some err)])
             else ok tt) in
  ok (bool_decide (removals <> []) || bool_decide (additions <> [])).

(** The backends of the load balancer: whether each speaks the proxy
    protocol. *)
Definition scan_backend (states : gmap Z bool) (backend : BackendServer) : M (res (gmap Z bool)) :=
  match bs_InstancePort backend with
  | None => nil_pointer
  | Some port => ok (<[port := proxyProtocolEnabled backend]> states)
  end.

(** One listener: the backends found so far, and whether anything changed. *)
Definition sync_backend (loadBalancerName : string) (proxyProtocol : bool) (proxyPolicies : list string)
    (states : gmap Z bool) (acc : gmap Z bool * bool) (l : Listener) : M (res (gmap Z bool * bool)) :=
  match li_InstancePort l with
  | None => nil_pointer
  | Some port =>
      let '(foundBackends, setPolicy) :=
        match states !! port with
        | None => (acc.1, proxyProtocol)
        | Some currentState => (<[port := true]> acc.1, negb (Bool.eqb currentState proxyProtocol))
        end in
      if setPolicy : bool then
        let? _ := setBackendPolicies loadBalancerName port proxyPolicies in
        ok (foundBackends, true)
      else ok (foundBackends, acc.2)
  end.

(** The policies of a backend without a listener are removed. *)
Definition clear_backend (loadBalancerName : string) (dirty : bool) (entry : Z * bool) : M (res bool) :=
  if negb entry.2 then
    let? _ := setBackendPolicies loadBalancerName entry.1 [] in
    ok true
  else ok dirty.

Definition sync_proxy (loadBalancerName : string) (lb : elb_description) (listeners : list Listener)
    (proxyProtocol : bool) : M (res bool) :=
  let? proxyPolicies := (if proxyProtocol then
                           let? _ := createProxyProtocolPolicy loadBalancerName in
                           ok [ProxyProtocolPolicyName]
                         else ok []) in
  let? states := fold_ok scan_backend (ed_Backends lb) ∅ in
  let foundBackends := (fun _ => false) <$> states in
  let? synced := fold_ok (sync_backend loadBalancerName proxyProtocol proxyPolicies states) listeners
                   (foundBackends, false) in
  fold_ok (clear_backend loadBalancerName) (range_ports synced.1) synced.2.

Definition sync_attributes (loadBalancerName : string) (attributes : LoadBalancerAttributes)
    : M (res bool) :=
  let? found := trigger (DescribeLoadBalancerAttributes loadBalancerName) in
  if bool_decide (attributes = found) then ok false
  else
    let? _ := asked (ModifyLoadBalancerAttributes loadBalancerName attributes)
      (fun err => Errorf "Unable to update load balancer attributes during attribute sync: %v"
                         [FErr (Some err)]) in
    ok true.

Definition ensureLoadBalancer (namespacedName loadBalancerName : string) (listeners : list Listener)
    (subnetIDs securityGroupIDs : list string) (internalELB proxyProtocol : bool)
    (attributes : LoadBalancerAttributes) : M (res (option elb_description)) :=
  let? loadBalancer := describeLoadBalancer loadBalancerName in
  let? dirty := (match loadBalancer with
    | None =>
        let? _ := create_load_balancer namespacedName loadBalancerName listeners subnetIDs
                    securityGroupIDs internalELB proxyProtocol in
        ok true
    | Some lb =>
        let? d1 := sync_subnets loadBalancerName lb subnetIDs in
        let? d2 := sync_groups loadBalancerName lb securityGroupIDs in
        let? d3 := sync_listeners loadBalancerName lb listeners in
        let? d4 := sync_proxy loadBalancerName lb listeners proxyProtocol in
        ok (d1 || d2 || d3 || d4)
    end) in
  let? changed := sync_attributes loadBalancerName attributes in
  if dirty || changed then describeLoadBalancer loadBalancerName else ok loadBalancer.

Definition wanted_check (target : string) : HealthCheck :=
  {| hc_Target := Some target; hc_HealthyThreshold := Some 2%Z; hc_UnhealthyThreshold := Some 6%Z;
     hc_Timeout := Some 5%Z; hc_Interval := Some 10%Z |}.

Definition same_check (target : string) (actual : HealthCheck) : bool :=
  bool_decide (target = orEmpty (hc_Target actual)) &&
  bool_decide (2%Z = orZero (hc_HealthyThreshold actual)) &&
  bool_decide (6%Z = orZero (hc_UnhealthyThreshold actual)) &&
  bool_decide (5%Z = orZero (hc_Timeout actual)) &&
  bool_decide (10%Z = orZero (hc_Interval actual)).

(** The load balancer may be nil, and its health check. *)
Definition ensureLoadBalancerHealthCheck (loadBalancer : option elb_description)
    (listeners : list Listener) : M (res unit) :=
  match loadBalancer with
  | None => nil_pointer
  | Some lb =>
      let name := StringValue (ed_LoadBalancerName lb) in
      let target := expected_target listeners in
      if bool_decide (target = "") then
        fail (errorf "unable to determine health check port for %q (no valid listeners)" [name])
      else
        match ed_HealthCheck lb with
        | None => nil_pointer
        | Some actual =>
            if same_check target actual then ok tt
            else asked (ConfigureHealthCheck (ed_LoadBalancerName lb) (wanted_check target))
                   (fun err => Errorf "error configuring load-balancer health-check for %q: %v"
                                      [FStr name; FErr (Some err)])
        end
  end.

Definition ensureLoadBalancerInstances (loadBalancerName : string) (lbInstances : list (option string))
    (instances : list Instance) : M (res unit) :=
  let expected : gset string := list_to_set ((fun i => orEmpty (i_InstanceId i)) <$> instances) in
  let actual := stringSetFromPointers lbInstances in
  let additions := set_List (expected ∖ actual) in
  let removals := set_List (actual ∖ expected) in
  let? _ := (if bool_decide (0 < length additions)%nat
             then asked (RegisterInstances loadBalancerName additions) id else ok tt) in
  if bool_decide (0 < length removals)%nat
  then asked (DeregisterInstances loadBalancerName removals) id else ok tt.

(** ** The LoadBalancer interface *)

Definition node_names (nodes : list string) : gset string := list_to_set nodes.

(** What is checked before the first request: the listeners. *)
Definition wanted_listeners (service : Service) : res (list Listener) :=
  if bool_decide (svc_SessionAffinity service <> "None") then
    Err (errorf "unsupported load balancer affinity: %v" [svc_SessionAffinity service])
  else if bool_decide (svc_Ports service = []) then
    Err (errorf "requested load balancer with no ports" [])
  else
    let annotations := svc_Annotations service in
    res_bind (build_listeners (svc_Ports service) annotations
                (getPortSets (annotation annotations ServiceAnnotationLoadBalancerSSLPorts)))
      (fun listeners =>
         if bool_decide (svc_LoadBalancerIP service <> "") then
           Err (errorf "LoadBalancerIP cannot be specified for AWS ELB" [])
         else Ok listeners).

(** The source ranges, and what the annotations ask for. *)
Definition wanted_options (service : Service)
    : res (list string * bool * bool * LoadBalancerAttributes) :=
  res_bind (svc_SourceRanges service) (fun sourceRanges =>
  res_bind (is_internal service sourceRanges) (fun internalELB =>
  res_bind (has_proxy_protocol service) (fun proxyProtocol =>
  res_bind (load_balancer_attributes (svc_Annotations service)) (fun attributes =>
  Ok (sourceRanges, internalELB, proxyProtocol, attributes))))).

Definition port_permission (sourceRanges : list string) (port : ServicePort) : IpPermission :=
  {| FromPort := Some (svp_Port port); ToPort := Some (svp_Port port);
     IpProtocol := Some (ToLower (svp_Protocol port)); IpRanges := Some <$> sourceRanges;
     UserIdGroupPairs := []; PrefixListIds := []; ip_Other := "" |}.

(** ICMP fragmentation packets. *)
Definition icmp_permission : IpPermission :=
  {| FromPort := Some 3%Z; ToPort := Some 4%Z; IpProtocol := Some "icmp";
     IpRanges := [Some "0.0.0.0/0"]; UserIdGroupPairs := []; PrefixListIds := []; ip_Other := "" |}.

Definition wanted_permissions (service : Service) (sourceRanges : list string) : IPPermissionSet :=
  Insert [icmp_permission]
    (fold_left (fun s port => Insert [port_permission sourceRanges port] s) (svc_Ports service)
               (NewIPPermissionSet [])).

(** The security group of the load balancer. *)
Definition ensure_elb_group (loadBalancerName serviceName : string) (permissions : IPPermissionSet)
    : M (res string) :=
  let? securityGroupID := ensureSecurityGroup gc ("k8s-elb-" +:+ loadBalancerName)
    ("Security group for Kubernetes ELB " +:+ loadBalancerName +:+ " (" +:+ serviceName +:+ ")") in
  let? _ := setSecurityGroupIngress securityGroupID permissions in
  ok securityGroupID.

(** From the subnets on. *)
Definition ensure_all (service : Service) (listeners : list Listener) (instances : list Instance)
    (sourceRanges : list string) (internalELB proxyProtocol : bool)
    (attributes : LoadBalancerAttributes) : M (res (list string)) :=
  let? subnetIDs := findELBSubnets gc internalELB in
  if bool_decide (subnetIDs = []) then
    fail (errorf "could not find any suitable subnets for creating the ELB" [])
  else
    let loadBalancerName := GetLoadBalancerName (svc_UID service) in
    let serviceName := svc_Namespace service +:+ "/" +:+ svc_Name service in
    let? securityGroupID := ensure_elb_group loadBalancerName serviceName
                              (wanted_permissions service sourceRanges) in
    let? loadBalancer := ensureLoadBalancer serviceName loadBalancerName listeners subnetIDs
                           [securityGroupID] internalELB proxyProtocol attributes in
    let? _ := ensureLoadBalancerHealthCheck loadBalancer listeners in
    match loadBalancer with
    | None => nil_pointer
    | Some lb =>
        let! err := updateInstanceSecurityGroupsForLoadBalancer gc (as_description lb) instances in
        match err with
        | Some err => fail err
        | None =>
            let? _ := ensureLoadBalancerInstances (orEmpty (ed_LoadBalancerName lb)) (ed_Instances lb)
                        instances in
            ok (toStatus lb)
        end
    end.

(** The cache and the host names of the load balancer. *)
Definition EnsureLoadBalancer (cache : instance_cache) (service : Service) (nodes : list string)
    : M (instance_cache * res (list string)) :=
  match wanted_listeners service with
  | Err err => Done (cache, Err err)
  | Ok listeners =>
      let! '(cache, got) := getInstancesByNodeNamesCached cache (node_names nodes) in
      match got with
      | Err err => Done (cache, Err err)
      | Ok instances =>
          match wanted_options service with
          | Err err => Done (cache, Err err)
          | Ok (sourceRanges, internalELB, proxyProtocol, attributes) =>
              let! r := ensure_all service listeners instances sourceRanges internalELB proxyProtocol
                          attributes in
              Done (cache, r)
          end
      end
  end.

(** The host names, whether it exists, and the error. *)
Definition GetLoadBalancer (service : Service) : M (list string * bool * option error) :=
  let! got := describeLoadBalancer (GetLoadBalancerName (svc_UID service)) in
  match got with
  | Err err => Done ([], false, Some err)
  | Ok None => Done ([], false, None)
  | Ok (Some lb) => Done (toStatus lb, true, None)
  end.

(** One passage over the groups that are left. *)
Fixpoint delete_groups_pass (ids : list string) (rest : gset string) : M (res (gset string)) :=
  match ids with
  | [] => ok rest
  | id :: ids' =>
      let! err := trigger (DeleteSecurityGroup id) in
      match err with
      | None => delete_groups_pass ids' (rest ∖ {[id]})
      | Some err =>
          if is_code "DependencyViolation" err then delete_groups_pass ids' rest
          else fail (Errorf "error while deleting load balancer security group (%s): %v"
                            [FStr id; FErr (Some err)])
      end
  end.

(** The loop has no bound but the clock: [fuel] is the number of passages,
    and [None] means they were not enough. *)
Fixpoint delete_groups_loop (fuel : nat) (timeoutAt : Z) (name : string) (rest : gset string)
    : M (option (res unit)) :=
  match fuel with
  | O => Done None
  | S fuel' =>
      let! passed := delete_groups_pass (range_set rest) rest in
      match passed with
      | Err err => Done (Some (Err err))
      | Ok rest =>
          if bool_decide (rest = ∅) then Done (Some (Ok tt))
          else
            let! now := trigger Now in
            if bool_decide (timeoutAt < now)%Z then
              Done (Some (Err (errorf "timed out deleting ELB: %s. Could not delete security groups %v"
                                      [name; Join (range_set rest) ","])))
            else
              let! _ := trigger (Sleep (10 * Second)) in
              delete_groups_loop fuel' timeoutAt name rest
      end
  end.

(** The groups of the load balancer that have an identifier. *)
Definition groups_to_delete (lb : elb_description) : gset string :=
  list_to_set (orEmpty <$> List.filter (fun id => negb (isNilOrEmpty id)) (ed_SecurityGroups lb)).

Definition EnsureLoadBalancerDeleted (fuel : nat) (service : Service) : M (option (res unit)) :=
  let! got := describeLoadBalancer (GetLoadBalancerName (svc_UID service)) in
  match got with
  | Err err => Done (Some (Err err))
  | Ok None => Done (Some (Ok tt))
  | Ok (Some lb) =>
      let! err := updateInstanceSecurityGroupsForLoadBalancer gc (as_description lb) [] in
      match err with
      | Some err => Done (Some (Err err))
      | None =>
          let! err := trigger (DeleteLoadBalancer (ed_LoadBalancerName lb)) in
          match err with
          | Some err => Done (Some (Err err))
          | None =>
              let! now := trigger Now in
              delete_groups_loop fuel (now + 600 * Second)%Z (svc_Name service) (groups_to_delete lb)
          end
      end
  end.

(** The error of registering the instances is dropped. *)
Definition UpdateLoadBalancer (cache : instance_cache) (service : Service) (nodes : list string)
    : M (instance_cache * res unit) :=
  let! '(cache, got) := getInstancesByNodeNamesCached cache (node_names nodes) in
  match got with
  | Err err => Done (cache, Err err)
  | Ok instances =>
      let! described := describeLoadBalancer (GetLoadBalancerName (svc_UID service)) in
      match described with
      | Err err => Done (cache, Err err)
      | Ok None => Done (cache, Err (errorf "Load balancer not found" []))
      | Ok (Some lb) =>
          let! registered := ensureLoadBalancerInstances (orEmpty (ed_LoadBalancerName lb))
                               (ed_Instances lb) instances in
          match registered with
          | Err _ => Done (cache, Ok tt)
          | Ok _ =>
              let! err := updateInstanceSecurityGroupsForLoadBalancer gc (as_description lb) instances in
              match err with
              | Some err => Done (cache, Err err)
              | None => Done (cache, Ok tt)
              end
          end
      end
  end.
End elb.

(** * Theorems *)

Section elb_theorems.
Context `{PermissionKey, MapRange, UrlParse, PortRange}.

(** ** Listeners *)

(** What the comparison of listeners sees of one. *)
Definition listener_key (l : Listener) : string * string * Z * Z * string :=
  (orEmpty (li_Protocol l), orEmpty (li_InstanceProtocol l), orZero (li_InstancePort l),
   orZero (li_LoadBalancerPort l), orEmpty (li_SSLCertificateId l)).

Lemma same_listener_key a b : same_listener a b = true <-> listener_key a = listener_key b.
Proof.
  unfold same_listener, listener_key. rewrite !andb_true_iff, !bool_decide_eq_true. split.
  - by intros [[[[-> ->] ->] ->] ->].
  - by intros [= -> -> -> -> ->].
Qed.

Lemma found_listener_spec actual ls i found :
  match found_listener actual ls i found with
  | Some j => found = Some j \/
              exists k l, j = i + k /\ ls !! k = Some l /\ listener_key actual = listener_key l
  | None => found = None /\ forall l, l ∈ ls -> listener_key actual <> listener_key l
  end.
Proof.
  revert i found; induction ls as [|l ls IH]; intros i found; cbn.
  { destruct found; [by left|]. split; [done|]. by intros ? ?%elem_of_nil. }
  specialize (IH (S i) (if same_listener actual l then Some i else found)).
  destruct (same_listener actual l) eqn:Hl; destruct (found_listener _ _ _ _) as [j|].
  - apply same_listener_key in Hl. destruct IH as [[= <-]|(k & l' & -> & Hk & Heq)]; right.
    + exists 0, l. by rewrite Nat.add_0_r.
    + exists (S k), l'. by rewrite Nat.add_succ_r.
  - by destruct IH.
  - destruct IH as [->|(k & l' & -> & Hk & Heq)]; [by left|]. right.
    exists (S k), l'. by rewrite Nat.add_succ_r.
  - destruct IH as [-> Hno]. split; [done|]. intros l' [->|?]%elem_of_cons; [|by apply Hno].
    intros ?%same_listener_key. congruence.
Qed.

(** The actual listeners that are not nil. *)
Definition actual_listeners (descriptions : list (option Listener)) : list Listener :=
  omap id descriptions.

Definition is_wanted (listeners : list Listener) (actual : Listener) : Prop :=
  listener_key actual ∈ (listener_key <$> listeners).

#[local] Instance is_wanted_dec listeners actual : Decision (is_wanted listeners actual).
Proof. unfold is_wanted. exact _. Defined.

(** With distinct listeners wanted, the indexes found are those of the
    listeners that are there, and the rest is to be removed. *)
Lemma compare_listeners_spec listeners descriptions :
  NoDup (listener_key <$> listeners) ->
  let compared := compare_listeners listeners descriptions in
  (forall i l, listeners !! i = Some l ->
     i ∈ compared.1 <-> listener_key l ∈ (listener_key <$> actual_listeners descriptions)) /\
  compared.2 = li_LoadBalancerPort <$>
                 filter (fun a => ~ is_wanted listeners a) (actual_listeners descriptions).
Proof.
  intros Hnd. unfold compare_listeners.
  induction descriptions as [|d descriptions IH] using rev_ind; cbn -[filter]; [split; [set_solver|done]|].
  rewrite fold_left_app. cbn -[filter]. destruct IH as [Hfound Hremoved].
  set (acc := fold_left _ _ _) in *. unfold actual_listeners in *. rewrite omap_app, filter_app, !fmap_app.
  unfold compare_listener. destruct d as [actual|]; cbn -[filter].
  2: { rewrite !app_nil_r. by split. }
  pose proof (found_listener_spec actual listeners 0 None) as Hspec.
  destruct (found_listener actual listeners 0 None) as [j|]; cbn -[filter].
  - destruct Hspec as [?|(k & l & -> & Hk & Heq)]; [done|].
    assert (is_wanted listeners actual) as Hw.
    { unfold is_wanted. rewrite Heq. apply list_elem_of_fmap_2. by eapply list_elem_of_lookup_2. }
    rewrite filter_cons_False, filter_nil, app_nil_r by tauto. split; [|done].
    intros i l' Hi. rewrite elem_of_union, elem_of_singleton, elem_of_app, list_elem_of_singleton, (Hfound i l' Hi).
    cbn. enough (i = k <-> listener_key l' = listener_key actual) by tauto. rewrite Heq. split.
    + intros ->. congruence.
    + intros Hkey. eapply (NoDup_lookup _ _ _ (listener_key l)); [exact Hnd| |].
      * rewrite list_lookup_fmap, Hi. cbn. by rewrite Hkey.
      * by rewrite list_lookup_fmap, Hk.
  - destruct Hspec as [_ Hno]. assert (~ is_wanted listeners actual) as Hw.
    { unfold is_wanted. intros (l & Heq & Hl)%list_elem_of_fmap. by apply (Hno l). }
    rewrite filter_cons_True, filter_nil by done. cbn. rewrite Hremoved. split; [|done].
    intros i l' Hi. rewrite elem_of_app, list_elem_of_singleton, (Hfound i l' Hi).
    split; [by left|]. intros [?|Heq]; [done|]. exfalso. apply (Hno l'); [|done].
    by eapply list_elem_of_lookup_2.
Qed.

Lemma added_listeners_spec listeners (found : gset nat) (P : Listener -> Prop) `{forall l, Decision (P l)} :
  (forall i l, listeners !! i = Some l -> i ∈ found <-> P l) ->
  added_listeners listeners found = filter (fun l => ~ P l) listeners.
Proof.
  unfold added_listeners. enough (forall n, (forall i l, listeners !! i = Some l -> n + i ∈ found <-> P l) ->
    (filter (fun il : nat * Listener => il.1 ∉ found) (imap (fun i l => (n + i, l)) listeners)).*2 =
    filter (fun l => ~ P l) listeners) as Hn by by apply (Hn 0).
  induction listeners as [|l listeners IH]; intros n Hfound; [done|].
  cbn -[filter]. rewrite !filter_cons. cbn -[filter].
  pose proof (Hfound 0 l eq_refl) as Hhead. rewrite Nat.add_0_r in Hhead.
  assert ((filter (fun il : nat * Listener => il.1 ∉ found)
             (imap ((fun i l => (n + i, l)) ∘ S) listeners)).*2 =
          filter (fun l => ~ P l) listeners) as Hrest.
  { rewrite <- (IH (S n)).
    - do 2 f_equal. apply imap_ext. intros; cbn. by rewrite Nat.add_succ_r.
    - intros i l' Hl'. rewrite <- (Hfound (S i) l' Hl'). by rewrite Nat.add_succ_r. }
  rewrite Nat.add_0_r. cbn -[filter] in Hrest. repeat case_decide; cbn -[filter]; try tauto; by rewrite Hrest.
Qed.

(** The requests about the listeners that were accepted, as changes of the
    listeners. *)
Definition apply_listeners (ls : list Listener) (ev : event AwsLbE) : list Listener :=
  match ev with
  | Event (CallElb e) x =>
      match e in ElbE X return X -> list Listener with
      | DeleteLoadBalancerListeners _ ports => fun err =>
          match err with
          | None => filter (fun l => li_LoadBalancerPort l ∉ ports) ls
          | Some _ => ls
          end
      | CreateLoadBalancerListeners _ added => fun err =>
          match err with None => (ls ++ added)%list | Some _ => ls end
      | _ => fun _ => ls
      end x
  | _ => ls
  end.

Definition port_of (l : Listener) : Z := orZero (li_LoadBalancerPort l).

(** Removing the ports of the listeners that are not wanted leaves those that
    are, when the ports are distinct. *)
Lemma removed_ports ls actual :
  NoDup (port_of <$> actual) ->
  filter (fun l => li_LoadBalancerPort l ∉
            (li_LoadBalancerPort <$> filter (fun a => ~ is_wanted ls a) actual)) actual =
  filter (is_wanted ls) actual.
Proof.
  intros Hnd. apply filter_ext_in. intros l Hl. rewrite list_elem_of_fmap. split.
  - intros Hno. destruct (decide (is_wanted ls l)) as [|Hw]; [done|]. exfalso. apply Hno. exists l.
    split; [done|]. by apply list_elem_of_filter.
  - intros Hw (l' & Hport & [Hl' Hin]%list_elem_of_filter). apply Hl'.
    enough (l' = l) as -> by done. apply (NoDup_fmap_inj port_of actual); try done.
    unfold port_of. by rewrite Hport.
Qed.

(** The wanted listeners that are kept, with those that are added, are the
    wanted ones. *)
Lemma listeners_converge listeners descriptions :
  let actual := actual_listeners descriptions in
  let compared := compare_listeners listeners descriptions in
  NoDup (listener_key <$> listeners) -> NoDup (port_of <$> actual) ->
  listener_key <$> (filter (fun l => li_LoadBalancerPort l ∉ compared.2) actual ++
                    added_listeners listeners compared.1)%list
  ≡ₚ listener_key <$> listeners.
Proof.
  intros actual compared Hnd Hports.
  destruct (compare_listeners_spec listeners descriptions Hnd) as [Hfound Hremoved].
  fold compared actual in Hfound, Hremoved.
  rewrite (added_listeners_spec listeners compared.1
             (fun l => listener_key l ∈ (listener_key <$> actual))) by done.
  rewrite Hremoved, removed_ports, fmap_app by done.
  apply NoDup_Permutation; [|done|].
  - apply NoDup_app. split_and!.
    + apply (NoDup_fmap_1 (fun key : string * string * Z * Z * string => key.1.2)).
      rewrite <- list_fmap_compose. eapply sublist_NoDup; [exact Hports|].
      exact (fmap_sublist port_of _ _ (sublist_filter _ _)).
    + intros key (l & -> & [_ Hl]%list_elem_of_filter)%list_elem_of_fmap.
      intros (l' & Heq & [Hno _]%list_elem_of_filter)%list_elem_of_fmap.
      apply Hno. rewrite <- Heq. by apply list_elem_of_fmap_2.
    + eapply sublist_NoDup; [exact Hnd|]. exact (fmap_sublist _ _ _ (sublist_filter _ _)).
  - intros key. rewrite elem_of_app, !list_elem_of_fmap. setoid_rewrite list_elem_of_filter. split.
    + intros [(l & -> & Hw & _)|(l & -> & _ & Hl)]; [by apply list_elem_of_fmap in Hw|by exists l].
    + intros (l & -> & Hl).
      destruct (decide (listener_key l ∈ (listener_key <$> actual))) as [Hin|Hin]; [left|right; by exists l].
      apply list_elem_of_fmap in Hin as (a & Heq & Ha). exists a. split_and!; [done| |done].
      unfold is_wanted. rewrite <- Heq. by apply list_elem_of_fmap_2.
Qed.

Lemma no_port_removed (ls : list Listener) : filter (fun l => li_LoadBalancerPort l ∉ @nil (option Z)) ls = ls.
Proof.
  induction ls as [|l ls IH]; [done|]. rewrite filter_cons_True by apply not_elem_of_nil. by rewrite IH.
Qed.

(** The listeners that are there and not wanted, and those that are wanted
    and not there. *)
Definition surplus (listeners actual : list Listener) : list Listener :=
  filter (fun a => ~ is_wanted listeners a) actual.
Definition missing (listeners actual : list Listener) : list Listener :=
  filter (fun l => listener_key l ∉ (listener_key <$> actual)) listeners.

(** What is to be asked for, in order: no request without listeners. *)
Definition requests_for (name : string) (removals : list (option Z)) (additions : list Listener)
    : list (ElbE (option error)) :=
  (match removals with [] => [] | _ => [DeleteLoadBalancerListeners name removals] end ++
   match additions with [] => [] | _ => [CreateLoadBalancerListeners name additions] end)%list.

Definition listener_requests (name : string) (listeners actual : list Listener)
    : list (ElbE (option error)) :=
  requests_for name (li_LoadBalancerPort <$> surplus listeners actual) (missing listeners actual).

Definition elb_events (requests : list (ElbE (option error))) (answers : list (option error))
    : list (event AwsLbE) :=
  zip_with (fun e err => Event (E:=AwsLbE) (CallElb e) err) requests answers.

(** Nothing is to be asked for when the same listeners are there. *)
Lemma no_listener_requests name listeners actual :
  listener_requests name listeners actual = [] <->
  forall key, key ∈ (listener_key <$> actual) <-> key ∈ (listener_key <$> listeners).
Proof.
  assert (surplus listeners actual = [] <-> Forall (is_wanted listeners) actual) as Hs.
  { unfold surplus. rewrite Forall_forall. split.
    - intros Hnil a Ha. destruct (decide (is_wanted listeners a)) as [|Hno]; [done|].
      exfalso. eapply (elem_of_nil (A:=Listener)). rewrite <- Hnil. by apply list_elem_of_filter.
    - intros Hall. apply elem_of_nil_inv. by intros a [Hno ?%Hall]%list_elem_of_filter. }
  assert (missing listeners actual = [] <-> Forall (is_wanted actual) listeners) as Hm.
  { unfold missing. rewrite Forall_forall. split.
    - intros Hnil l Hl. destruct (decide (is_wanted actual l)) as [|Hno]; [done|].
      exfalso. eapply (elem_of_nil (A:=Listener)). rewrite <- Hnil. by apply list_elem_of_filter.
    - intros Hall. apply elem_of_nil_inv. by intros l [Hno ?%Hall]%list_elem_of_filter. }
  unfold listener_requests, requests_for. trans (surplus listeners actual = [] /\ missing listeners actual = []).
  { destruct (surplus _ _), (missing _ _); naive_solver. }
  rewrite Hs, Hm, !Forall_forall. unfold is_wanted. setoid_rewrite list_elem_of_fmap. split.
  - intros [Ha Hl] key. split; intros (l & -> & Hin); [by apply Ha|by apply Hl].
  - intros Hsame. split; intros l Hin; apply Hsame; eauto.
Qed.

Lemma compared_requests name listeners descriptions :
  NoDup (listener_key <$> listeners) ->
  let compared := compare_listeners listeners descriptions in
  listener_requests name listeners (actual_listeners descriptions) =
  requests_for name compared.2 (added_listeners listeners compared.1).
Proof.
  intros Hnd compared. destruct (compare_listeners_spec listeners descriptions Hnd) as [Hfound Hremoved].
  unfold listener_requests, surplus. rewrite <- Hremoved. f_equal. symmetry.
  exact (added_listeners_spec listeners compared.1 _ Hfound).
Qed.

#[local] Ltac accepted answers :=
  exists answers, None; split_and!; [done..|naive_solver|assumption].
#[local] Ltac refused answers k :=
  eexists answers, (Some _); split_and!; [done|by exists k; split; [lia|]|done].

(** C30: Making the listeners as wanted always returns.  With distinct
    listeners wanted, it asks for the deletion of the listeners that are not
    wanted, by their ports, and then for the creation of those that are
    missing, for no empty one, and for nothing at all exactly when the wanted
    listeners are those that are there.  It stops with an error at the first
    refusal, and succeeds when both were accepted; with distinct ports the
    accepted requests then leave exactly the wanted listeners.  It answers
    whether anything was changed. *)
Theorem sync_listeners_converges name lb listeners :
  always (sync_listeners name lb listeners) (fun tr o =>
    exists r, o = Returned r /\
    (NoDup (listener_key <$> listeners) ->
     let actual := actual_listeners (ed_Listeners lb) in
     let requests := listener_requests name listeners actual in
     exists answers refusal,
       tr = elb_events requests answers /\ until_refused (length requests) answers refusal /\
       match r with
       | Err _ => refusal <> None
       | Ok dirty =>
           refusal = None /\
           (dirty = false <->
            forall key, key ∈ (listener_key <$> actual) <-> key ∈ (listener_key <$> listeners)) /\
           (NoDup (port_of <$> actual) ->
            listener_key <$> fold_left apply_listeners tr actual ≡ₚ listener_key <$> listeners)
       end)) [].
Proof.
  unfold sync_listeners. pose proof (listeners_converge listeners (ed_Listeners lb)) as Hconv.
  pose proof (compared_requests name listeners (ed_Listeners lb)) as Hcmp.
  set (actual := actual_listeners (ed_Listeners lb)) in *.
  pose proof (no_listener_requests name listeners actual) as Hno.
  set (requests := listener_requests name listeners actual) in *. clearbody requests.
  destruct (compare_listeners listeners (ed_Listeners lb)) as [foundSet removals].
  cbn -[filter] in Hconv, Hcmp.
  set (additions := added_listeners listeners foundSet) in *. pose proof (no_port_removed actual) as Hnil.
  destruct removals as [|r removals], additions as [|a additions].
  all: unfold asked; go_unfold; cbn -[filter]; repeat (intros [?|]; cbn -[filter]).
  all: eexists; split; [done|]; intros Hnd; rewrite (Hcmp Hnd) in Hno |- *; cbn -[filter]; specialize (Hconv Hnd).
  all: rewrite ?Hnil, ?app_nil_r in Hconv; cbn in Hno.
  - accepted (@nil (option error)).
  - refused [Some e] 0.
  - accepted [@None error].
  - refused [Some e] 0.
  - accepted [@None error].
  - refused [Some e] 0.
  - refused [None; Some e] 1.
  - accepted [@None error; None].
Qed.

(** ** Deleting *)

Section deleting.
Context (gc : GroupCloud).

(** The groups whose deletion the service accepted. *)
Definition deleted_groups (tr : list (event AwsLbE)) : list string :=
  ev ← tr;
  match ev with
  | Event (CallElb e) x =>
      match e in ElbE X return X -> list string with
      | DeleteSecurityGroup id => fun err => match err with None => [id] | Some _ => [] end
      | _ => fun _ => []
      end x
  | _ => []
  end.

(** The pauses between the passages, and the times that were read. *)
Definition pauses (tr : list (event AwsLbE)) : list Z :=
  ev ← tr;
  match ev with Event (CallAws (CallAwsSys (Sleep d))) _ => [d] | _ => [] end.

Definition times_read (tr : list (event AwsLbE)) : list Z :=
  ev ← tr;
  match ev with
  | Event (CallAws (CallAwsSys e)) x =>
      match e in SysE X return X -> list Z with Now => fun t => [t] | _ => fun _ => [] end x
  | _ => []
  end.

Lemma deleted_groups_app tr tr' : deleted_groups (tr ++ tr') = (deleted_groups tr ++ deleted_groups tr')%list.
Proof. apply bind_app. Qed.
Lemma pauses_app tr tr' : pauses (tr ++ tr') = (pauses tr ++ pauses tr')%list.
Proof. apply bind_app. Qed.
Lemma times_read_app tr tr' : times_read (tr ++ tr') = (times_read tr ++ times_read tr')%list.
Proof. apply bind_app. Qed.

Lemma delete_groups_pass_spec ids rest tr :
  always (delete_groups_pass ids rest)
    (fun tr' o => exists new r, tr' = (tr ++ new)%list /\ o = Returned r /\
       pauses new = [] /\ times_read new = [] /\
       forall rest', r = Ok rest' -> forall id, id ∈ rest -> id ∈ rest' \/ id ∈ deleted_groups new) tr.
Proof.
  revert rest tr; induction ids as [|id ids IH]; intros rest tr; cbn.
  { exists [], (Ok rest). rewrite app_nil_r. split_and!; [done..|]. intros ? [= <-]. by left. }
  assert (forall err rest1 tr1, tr1 = (tr ++ [Event (CallElb (DeleteSecurityGroup id)) err])%list ->
    (forall id', id' ∈ rest -> id' ∈ rest1 \/ id' ∈ deleted_groups [Event (CallElb (DeleteSecurityGroup id)) err]) ->
    always (delete_groups_pass ids rest1)
      (fun tr' o => exists new r, tr' = (tr ++ new)%list /\ o = Returned r /\
         pauses new = [] /\ times_read new = [] /\
         forall rest', r = Ok rest' -> forall id, id ∈ rest -> id ∈ rest' \/ id ∈ deleted_groups new) tr1) as Hnext.
  { intros err rest1 tr1 -> Hrest1. eapply always_impl; [|apply IH].
    intros tr' o (new & r & -> & -> & Hp & Ht & Hr). eexists _, r. rewrite <- app_assoc.
    split_and!; [done|done|by rewrite pauses_app, Hp|by rewrite times_read_app, Ht|].
    intros rest' Hrest' id' Hid'. rewrite deleted_groups_app, elem_of_app.
    destruct (Hrest1 id' Hid') as [Hin|?]; [|tauto].
    destruct (Hr rest' Hrest' id' Hin); tauto. }
  intros [err|]; cbn.
  - destruct (is_code _ err); [eapply Hnext; [reflexivity|intros id' ?; by left]|].
    cbn. eexists _, (Err _). split_and!; [reflexivity|reflexivity|done..].
  - eapply Hnext; [reflexivity|]. intros id' Hid'. destruct (decide (id' = id)) as [->|Hne].
    + right. by apply list_elem_of_singleton.
    + left. set_solver.
Qed.

(** The loop ends well only when every group is deleted, and runs out of
    passages only after as many pauses, the clock never past the limit. *)
Lemma delete_groups_loop_spec fuel timeoutAt name rest tr :
  always (delete_groups_loop fuel timeoutAt name rest)
    (fun tr' o => exists new r, tr' = (tr ++ new)%list /\ o = Returned r /\
       match r with
       | Some (Ok _) => forall id, id ∈ rest -> id ∈ deleted_groups new
       | Some (Err _) => True
       | None => pauses new = replicate fuel (10 * Second)%Z /\
                 Forall (fun t => t <= timeoutAt)%Z (times_read new)
       end) tr.
Proof.
  revert rest tr; induction fuel as [|fuel IH]; intros rest tr; cbn -[Second].
  { exists [], None. rewrite app_nil_r. split_and!; [done..|constructor]. }
  rewrite always_bind. eapply always_impl; [|apply delete_groups_pass_spec].
  intros tr' o (new & r & -> & -> & Hp & Ht & Hr). destruct r as [rest'|e]; cbn -[Second].
  2: by exists new, (Some (Err e)).
  specialize (Hr rest' eq_refl). case_bool_decide as Hempty; cbn -[Second].
  { subst rest'. exists new, (Some (Ok tt)). split_and!; [done..|]. intros id Hid.
    destruct (Hr id Hid) as [?%elem_of_empty|?]; done. }
  intros now. case_bool_decide as Hnow; cbn -[Second].
  { eexists _, (Some (Err _)). rewrite <- app_assoc. by split_and!. }
  intros u. eapply always_impl; [|apply IH]. intros tr' o (new' & r & -> & -> & Hr').
  eexists _, r. rewrite <- !app_assoc. split_and!; [reflexivity|done|].
  destruct r as [[[]|e]|]; [|done|].
  - intros id Hid. rewrite !deleted_groups_app, !elem_of_app.
    destruct (Hr id Hid) as [Hin|?]; [|tauto]. specialize (Hr' id Hin). tauto.
  - destruct Hr' as [Hpauses Htimes].
    rewrite !pauses_app, !times_read_app, Hp, Ht, Hpauses. split; [done|].
    cbn. constructor; [lia|done].
Qed.

Lemma always_grows {A} (p : prog AwsLbE A) tr :
  always p (fun tr' _ => exists new, tr' = (tr ++ new)%list) tr.
Proof.
  eapply always_impl; [|apply (only_always (fun _ _ => True))].
  - intros tr' o (new & -> & _). by exists new.
  - induction p; cbn; auto.
Qed.

End deleting.

(** ** Instances *)

Lemma set_List_set (s : gset string) : list_to_set (set_List s) = s.
Proof.
  unfold set_List. apply set_eq. intros x.
  by rewrite elem_of_list_to_set, (merge_sort_Permutation string_le), elem_of_elements.
Qed.

Lemma set_List_nil (s : gset string) : length (set_List s) = 0 -> s = ∅.
Proof. intros Hs%nil_length_inv. by rewrite <- (set_List_set s), Hs. Qed.

(** The requests about the instances, as changes of those registered. *)
Definition apply_instances (s : gset string) (ev : event AwsLbE) : gset string :=
  match ev with
  | Event (CallElb e) _ =>
      match e with
      | RegisterInstances _ ids => s ∪ list_to_set ids
      | DeregisterInstances _ ids => s ∖ list_to_set ids
      | _ => s
      end
  | _ => s
  end.

(** Registering the instances always returns, asks for one registration and
    one deregistration at most, and when it succeeds exactly the given
    instances are registered. *)
Theorem ensureLoadBalancerInstances_converges name lbInstances instances :
  always (ensureLoadBalancerInstances name lbInstances instances) (fun tr o =>
    exists r, o = Returned r /\ length tr <= 2 /\
    (is_ok r = true ->
     fold_left apply_instances tr (stringSetFromPointers lbInstances) =
     list_to_set ((fun i => orEmpty (i_InstanceId i)) <$> instances))) [].
Proof.
  unfold ensureLoadBalancerInstances.
  generalize (stringSetFromPointers lbInstances)
    (list_to_set (C:=gset string) ((fun i => orEmpty (i_InstanceId i)) <$> instances)).
  intros actual expected.
  pose proof (set_List_set (expected ∖ actual)) as Hadd. pose proof (set_List_set (actual ∖ expected)) as Hdel.
  pose proof (set_List_nil (expected ∖ actual)) as Hadd0. pose proof (set_List_nil (actual ∖ expected)) as Hdel0.
  generalize dependent (set_List (expected ∖ actual)). generalize dependent (set_List (actual ∖ expected)).
  intros removals Hdel Hdel0 additions Hadd Hadd0. unfold asked. go_unfold.
  assert (forall s : gset string, (actual ∪ expected ∖ actual) ∖ (actual ∖ expected) = expected) as Hboth.
  { intros _. apply set_eq. intros x. destruct (decide (x ∈ actual)), (decide (x ∈ expected)); set_solver. }
  destruct additions as [|a additions]; destruct removals as [|d removals]; cbn.
  - exists (Ok tt). split_and!; [done|cbn; lia|]. intros _. specialize (Hadd0 eq_refl). specialize (Hdel0 eq_refl).
    set_solver.
  - intros [e|]; cbn; eexists; (split_and!; [done|cbn; lia|intros Hok]); [done|]. cbn in Hdel |- *. rewrite Hdel.
    specialize (Hadd0 eq_refl). rewrite <- (Hboth ∅). set_solver.
  - intros [e|]; cbn; eexists; (split_and!; [done|cbn; lia|intros Hok]); [done|]. cbn in Hadd |- *. rewrite Hadd.
    specialize (Hdel0 eq_refl). rewrite <- (Hboth ∅). set_solver.
  - intros [e|]; cbn; [eexists; (split_and!; [done|cbn; lia|done])|].
    intros [e|]; cbn; eexists; (split_and!; [done|cbn; lia|intros Hok]); [done|].
    cbn in Hadd, Hdel |- *. rewrite Hadd, Hdel. apply (Hboth ∅).
Qed.

(** A load balancer that the service no longer describes after it was made
    is dereferenced. *)
Lemma health_check_panics listeners :
  ensureLoadBalancerHealthCheck None listeners = Crash "invalid memory address or nil pointer dereference".
Proof. reflexivity. Qed.

End elb_theorems.
