(* ===== verification/Cinder.v ===== *)
(** The volumes and snapshots of the OpenStack provider
    ([openstack_volumes.go], [openstack_snapshots.go], and the services of
    [openstack.go] and [openstack_client.go] they use).

    The calls are those of gophercloud: making a service client for the
    region, and the requests of the block storage and compute services.  The
    records below hold the fields of its answers that the program reads. *)

From S2P Require Import Prelude GoStrings Types Api VolumePlugins.
From Stdlib Require Import Lia.

#[local] Open Scope string_scope.

(** * Calls *)

Record VolumeCreateOpts := {
  vco_Size : Z;
  vco_Availability : string;
  vco_Name : string;
  vco_VolumeType : string;
  vco_Metadata : gmap string string;
  vco_SourceSnapshotID : string;
}.

Record SnapshotCreateOpts := {
  sco_VolumeID : string;
  sco_Name : string;
  sco_Description : string;
  sco_Metadata : gmap string string;
}.

(** [volumesV2.Volume]: its attachments are pairs of server and device. *)
Record volumeV2 := {
  v2_ID : string;
  v2_Name : string;
  v2_Status : string;
  v2_Attachments : list (string * string);
}.

(** [openstack.Volume] *)
Record Volume := {
  AttachedServerID : string;
  AttachedDevice : string;
  ID : string;
  VolumeName : string;
  VolumeStatus : string;
}.

(** [openstack.Snapshot] *)
Record Snapshot := {
  ss_ID : string;
  ss_Name : string;
  ss_Status : string;
  ss_SourceVolumeID : string;
}.

Inductive service := BlockStorageV2 | ComputeV2.

Inductive CinderE : Type -> Type :=
| NewClient (s : service) : CinderE (option error)
| VolumeCreate (opts : VolumeCreateOpts) : CinderE (res (string * string))
| VolumeGet (volumeID : string) : CinderE (res volumeV2)
| VolumeDeleteCall (volumeID : string) : CinderE (option error)
| AttachCreate (instanceID volumeID : string) : CinderE (option error)
| AttachDelete (instanceID volumeID : string) : CinderE (option error)
| SnapCreate (force : bool) (opts : SnapshotCreateOpts) : CinderE (res string)
| SnapGet (snapshotID : string) : CinderE (res Snapshot)
| SnapDelete (snapshotID : string) : CinderE (option error)
| ReadDir (path : string) : CinderE (list string).

Definition VolumeAvailableStatus : string := "available".
Definition VolumeInUseStatus : string := "in-use".
Definition VolumeDeletedStatus : string := "deleted".
Definition VolumeErrorStatus : string := "error".

Section openstack.
Context {E : Type -> Type} `{!SubE CinderE E}.
#[local] Abbreviation M A := (prog E A).

(** [NewBlockStorageV2], [NewComputeV2]: the client or the error. *)
Definition new_client (s : service) : M (res unit) :=
  let! err := trigger (NewClient s) in
  match err with
  | Some err => fail err
  | None => ok tt
  end.

Definition volumeService : M (res unit) := new_client BlockStorageV2.
Definition snapshotService : M (res unit) := new_client BlockStorageV2.

(** ** The services *)

Definition v2_createVolume (opts : VolumeCreateOpts) : M (res (string * string)) :=
  let? vol := trigger (VolumeCreate opts) in
  ok vol.

Definition v2_getVolume (volumeID : string) : M (res Volume) :=
  let? v := trigger (VolumeGet volumeID) in
  let '(server, device) := match v2_Attachments v with
                           | [] => ("", "")
                           | (server, device) :: _ => (server, device)
                           end in
  ok {| AttachedServerID := server; AttachedDevice := device; ID := v2_ID v;
        VolumeName := v2_Name v; VolumeStatus := v2_Status v |}.

Definition v2_deleteVolume (volumeID : string) : M (option error) :=
  trigger (VolumeDeleteCall volumeID).

Definition createSnapshot (opts : SnapshotCreateOpts) : M (res string) :=
  let? snap := trigger (SnapCreate false opts) in
  ok snap.

Definition getSnapshot (snapshotID : string) : M (res Snapshot) :=
  let? snapshot := trigger (SnapGet snapshotID) in
  ok {| ss_ID := ss_ID snapshot; ss_Name := ss_Name snapshot; ss_Status := ss_Status snapshot;
        ss_SourceVolumeID := ss_SourceVolumeID snapshot |}.

Definition v2_deleteSnapshot (snapshotID : string) : M (option error) :=
  trigger (SnapDelete snapshotID).

(** ** Volumes *)

Definition getVolume (volumeID : string) : M (res Volume) :=
  let? _ := volumeService in
  v2_getVolume volumeID.

(** Pending, the status, or the error. *)
Definition OperationPending (diskName : string) : M (res (bool * string)) :=
  let? volume := getVolume diskName in
  let volumeStatus := VolumeStatus volume in
  if bool_decide (volumeStatus = VolumeErrorStatus) then ok (false, volumeStatus)
  else if bool_decide (volumeStatus = VolumeAvailableStatus) ||
          bool_decide (volumeStatus = VolumeInUseStatus) ||
          bool_decide (volumeStatus = VolumeDeletedStatus)
  then ok (false, volumeStatus)
  else ok (true, volumeStatus).

Definition DetachDisk (instanceID volumeID : string) : M (option error) :=
  let! got := getVolume volumeID in
  match got with
  | Err err => Done (Some err)
  | Ok volume =>
      if bool_decide (VolumeStatus volume <> VolumeInUseStatus) then
        Done (Some (errorf "can not detach volume %s, its status is %s."
                           [VolumeName volume; VolumeStatus volume]))
      else
        let! client := new_client ComputeV2 in
        match client with
        | Err err => Done (Some err)
        | Ok _ =>
            if bool_decide (AttachedServerID volume <> instanceID) then
              Done (Some (errorf "Disk: %s has no attachments or is not attached to compute: %s"
                                 [VolumeName volume; instanceID]))
            else trigger (AttachDelete instanceID (ID volume))
        end
  end.

(** The last part of [AttachDisk]. *)
Definition attach (instanceID : string) (volume : Volume) : M (res string) :=
  let! err := trigger (AttachCreate instanceID (ID volume)) in
  match err with
  | Some err => fail err
  | None => ok (ID volume)
  end.

Definition AttachDisk (instanceID volumeID : string) : M (res string) :=
  let? volume := getVolume volumeID in
  if bool_decide (VolumeStatus volume <> VolumeAvailableStatus) then
    fail (errorf "volume %s status is %s, not %s, can not be attached to instance %s."
                 [VolumeName volume; VolumeStatus volume; VolumeAvailableStatus; instanceID])
  else
    let? _ := new_client ComputeV2 in
    if bool_decide (AttachedServerID volume <> "") then
      if bool_decide (instanceID = AttachedServerID volume) then ok (ID volume)
      else
        let! err := DetachDisk (AttachedServerID volume) volumeID in
        match err with
        | Some err => fail err
        | None => attach instanceID volume
        end
    else attach instanceID volume.

(** [tags] is never nil. *)
Definition CreateVolume (name : string) (size : Z) (vtype availability snapshotID : string)
    (tags : gmap string string) : M (res (string * string)) :=
  let? _ := volumeService in
  v2_createVolume {| vco_Name := name; vco_Size := size; vco_VolumeType := vtype;
                     vco_Availability := availability; vco_SourceSnapshotID := snapshotID;
                     vco_Metadata := tags |}.

(** [volumeID[:20]] panics on a shorter identifier. *)
Definition candidateDeviceNodes (volumeID : string) : list string :=
  ["virtio-" +:+ take_bytes 20 volumeID;
   "scsi-0QEMU_QEMU_HARDDISK_" +:+ take_bytes 20 volumeID;
   "wwn-0x" +:+ RemoveByte volumeID "-"].

(** The error of [ReadDir] is ignored: the files read until then remain. *)
Definition GetDevicePath (volumeID : string) : M string :=
  if bool_decide (String.length volumeID < 20)%nat then Crash "slice bounds out of range"
  else
    let! files := trigger (ReadDir "/dev/disk/by-id/") in
    match List.find (fun f => bool_decide (f ∈ candidateDeviceNodes volumeID)) files with
    | Some f => Done ("/dev/disk/by-id/" +:+ f)
    | None => Done ""
    end.

Definition diskIsUsed (volumeID : string) : M (res bool) :=
  let? volume := getVolume volumeID in
  ok (bool_decide (AttachedServerID volume <> "")).

(** The error of the deletion itself is logged only. *)
Definition DeleteVolume (volumeID : string) : M (option error) :=
  let! used := diskIsUsed volumeID in
  match used with
  | Err err => Done (Some err)
  | Ok true =>
      Done (Some (errorf "Cannot delete the volume %q, it's still attached to a node" [volumeID]))
  | Ok false =>
      let! service := volumeService in
      match service with
      | Err err => Done (Some err)
      | Ok _ =>
          let! err := v2_deleteVolume volumeID in
          Done None
      end
  end.

Definition GetAttachmentDiskPath (instanceID volumeID : string) : M (res string) :=
  let? volume := getVolume volumeID in
  if bool_decide (VolumeStatus volume <> VolumeInUseStatus) then
    fail (errorf "can not get device path of volume %s, its status is %s."
                 [VolumeName volume; VolumeStatus volume])
  else if bool_decide (AttachedServerID volume <> "") then
    if bool_decide (instanceID = AttachedServerID volume) then ok (AttachedDevice volume)
    else fail (errorf "Disk %q is attached to a different compute: %q, should be detached before proceeding"
                      [volumeID; AttachedServerID volume])
  else fail (errorf "volume %s has no ServerId" [volumeID]).

Definition DiskIsAttached (instanceID volumeID : string) : M (bool * option error) :=
  let! got := getVolume volumeID in
  match got with
  | Err err => Done (false, Some err)
  | Ok volume => Done (bool_decide (instanceID = AttachedServerID volume), None)
  end.

(** The errors are ignored. *)
Fixpoint disks_attached (instanceID : string) (volumeIDs : list string) (attached : gmap string bool)
    : M (gmap string bool) :=
  match volumeIDs with
  | [] => Done attached
  | volumeID :: rest =>
      let! r := DiskIsAttached instanceID volumeID in
      disks_attached instanceID rest (<[volumeID := r.1]> attached)
  end.

Definition DisksAreAttached (instanceID : string) (volumeIDs : list string)
    : M (res (gmap string bool)) :=
  let! attached := disks_attached instanceID volumeIDs ∅ in
  ok attached.

(** ** Snapshots *)

Definition CreateSnapshot (sourceVolumeID name description : string) (tags : gmap string string)
    : M (res string) :=
  let? _ := snapshotService in
  createSnapshot {| sco_VolumeID := sourceVolumeID; sco_Name := name;
                    sco_Description := description; sco_Metadata := tags |}.

(** The error of the deletion itself is logged only. *)
Definition DeleteSnapshot (snapshotID : string) : M (option error) :=
  let! service := snapshotService in
  match service with
  | Err err => Done (Some err)
  | Ok _ =>
      let! err := v2_deleteSnapshot snapshotID in
      Done None
  end.

Definition DescribeSnapshot (snapshotID : string) : M (bool * option error) :=
  let! service := snapshotService in
  match service with
  | Err err => Done (false, Some err)
  | Ok _ =>
      let! got := getSnapshot snapshotID in
      match got with
      | Err err => Done (false, Some err)
      | Ok snap =>
          if bool_decide (ss_Status snap <> "available")
          then Done (false, Some (errorf "current snapshot status is: %s" [ss_Status snap]))
          else Done (true, None)
      end
  end.

(** The operations the Cinder plugin uses. *)
Definition openstack_cloud : OpenStackCloud E :=
  {| os_DeleteVolume := DeleteVolume;
     os_CreateSnapshot := CreateSnapshot;
     os_DeleteSnapshot := DeleteSnapshot;
     os_CreateVolume := CreateVolume;
     os_DescribeSnapshot := DescribeSnapshot |}.
End openstack.

(** * Theorems *)

Section theorems.
Context `{MapRange}.

#[local] Abbreviation cinder_event := (event CinderE).

Definition cinder_source (id : string) : VolumeSnapshotDataSource :=
  {| ds_HostPath := None; ds_AWSElasticBlockStore := None; ds_GCEPersistentDiskSnapshot := None;
     ds_CinderSnapshot := Some {| cinders_SnapshotID := id |} |}.

Definition is_volume_delete (ev : cinder_event) : bool :=
  match ev with Event (VolumeDeleteCall _) _ => true | _ => false end.
Definition is_attach_change (ev : cinder_event) : bool :=
  match ev with Event (AttachCreate _ _) _ | Event (AttachDelete _ _) _ => true | _ => false end.

(** C33: What a deletion by the Cinder plugin reports.  Once there is a client
    of the service, [SnapshotDelete] asks for the deletion of this snapshot and
    answers success whatever the service answers, an error included; the only
    error it gives is that there is no client.  [DeleteVolume] asks for the
    deletion only of a volume that it saw without an attachment, and then
    answers success in the same way; otherwise it gives an error. *)
Theorem cinder_deletions_swallow_errors snapshotID volumeID pv :
  always (E:=CinderE) (CinderPlugin.SnapshotDelete openstack_cloud (Some (cinder_source snapshotID)) pv)
    (fun tr o => exists client,
       match client with
       | Some err => tr = [Event (NewClient BlockStorageV2) (Some err)] /\ o = Returned (Some err)
       | None => exists answer, tr = [Event (NewClient BlockStorageV2) None;
                                      Event (SnapDelete snapshotID) answer] /\
                                o = Returned None
       end) [] /\
  always (E:=CinderE) (DeleteVolume volumeID)
    (fun tr o =>
       (existsb is_volume_delete tr = false /\ exists e, o = Returned (Some e)) \/
       (o = Returned None /\ exists v answer,
          tr = [Event (NewClient BlockStorageV2) None; Event (VolumeGet volumeID) (Ok v);
                Event (NewClient BlockStorageV2) None; Event (VolumeDeleteCall volumeID) answer] /\
          default "" (head (v2_Attachments v).*1) = "")) [].
Proof.
  split.
  - unfold CinderPlugin.SnapshotDelete, openstack_cloud, DeleteSnapshot, snapshotService, new_client.
    cbn. intros [err|]; cbn; [by exists (Some err)|]. intros answer. exists None. by exists answer.
  - unfold DeleteVolume, diskIsUsed, getVolume, volumeService, new_client, v2_getVolume, v2_deleteVolume.
    cbn. intros [err|]; cbn; [by left; eauto|]. intros [v|err]; cbn; [|by left; eauto].
    destruct (v2_Attachments v) as [|[server device] rest] eqn:Hatt; cbn.
    + intros [err|]; cbn; [by left; eauto|]. intros answer. right. split; [done|].
      exists v, answer. by rewrite Hatt.
    + case_bool_decide as Hserver; cbn; [by left; eauto|].
      intros [err|]; cbn; [by left; eauto|]. intros answer. right. split; [done|].
      exists v, answer. by rewrite Hatt.
Qed.

(** ** Attaching *)

(** What the service answered to the readings of volumes, in order. *)
Definition volumes_read (tr : list cinder_event) : list (res volumeV2) :=
  ev ← tr;
  match ev with
  | Event e x =>
      match e in CinderE X return X -> list (res volumeV2) with
      | VolumeGet _ => fun v => [v]
      | _ => fun _ => []
      end x
  end.

(** The server a volume is attached to. *)
Definition server_of (v : volumeV2) : string := default "" (head (v2_Attachments v).*1).

Definition read_volume (v : volumeV2) : Volume :=
  {| AttachedServerID := server_of v;
     AttachedDevice := default "" (head (v2_Attachments v).*2);
     ID := v2_ID v; VolumeName := v2_Name v; VolumeStatus := v2_Status v |}.

(** Going through a reading of a volume. *)
Lemma always_getVolume {A} volumeID (k : res Volume -> prog CinderE A) Q tr :
  (forall err, always (k (Err err)) Q (tr ++ [Event (NewClient BlockStorageV2) (Some err)])) ->
  (forall err, always (k (Err err)) Q
     (tr ++ [Event (NewClient BlockStorageV2) None; Event (VolumeGet volumeID) (Err err)])) ->
  (forall v, always (k (Ok (read_volume v))) Q
     (tr ++ [Event (NewClient BlockStorageV2) None; Event (VolumeGet volumeID) (Ok v)])) ->
  always (bind (getVolume volumeID) k) Q tr.
Proof.
  intros Hclient Hget Hk. intros [err|]; [apply Hclient|]. cbn. intros answer. rewrite <- app_assoc.
  destruct answer as [v|err]; [|apply Hget]. specialize (Hk v).
  unfold read_volume, server_of in Hk.
  by destruct (v2_Attachments v) as [|[server device] rest].
Qed.

Lemma volumes_read_app tr tr' : volumes_read (tr ++ tr') = (volumes_read tr ++ volumes_read tr')%list.
Proof. apply bind_app. Qed.

(** What [AttachDisk] promises of an execution. *)
Definition attach_result (instanceID : string) (tr : list cinder_event) (o : outcome (res string)) : Prop :=
  (forall id, o = Returned (Ok id) -> exists v rest,
     volumes_read tr = Ok v :: rest /\ v2_Status v = VolumeAvailableStatus /\ id = v2_ID v /\
     ((server_of v = instanceID /\ existsb is_attach_change tr = false) \/
      exists before, tr = (before ++ [Event (AttachCreate instanceID id) None])%list)) /\
  (forall v, Forall (eq (Ok v)) (volumes_read tr) ->
     server_of v <> "" -> server_of v <> instanceID ->
     existsb is_attach_change tr = false /\ exists e, o = Returned (Err e)).

(** The attachment of the volume [v], which was the first reading. *)
Lemma attach_ends instanceID v before w :
  v2_Status v = VolumeAvailableStatus -> volumes_read before = Ok v :: w ->
  (server_of v = "" \/ (server_of v <> instanceID /\ exists v', w = [Ok v'] /\ v2_Status v' = VolumeInUseStatus)) ->
  always (E:=CinderE) (attach instanceID (read_volume v)) (attach_result instanceID) before.
Proof.
  intros Hst Hw Hcase err.
  enough (forall o, (forall id, o = Returned (Ok id) -> err = None /\ id = v2_ID v) ->
    attach_result instanceID (before ++ [Event (AttachCreate instanceID (v2_ID v)) err]) o) as Hends
    by (destruct err as [e|]; apply Hends; [done|by intros id [= <-]]).
  intros o Ho. split.
  - intros id [-> ->]%Ho. exists v, w. rewrite volumes_read_app, Hw, app_nil_r.
    split_and!; [done..|]. right. by eexists.
  - intros v0. rewrite volumes_read_app, Hw, app_nil_r. intros [[= ->] Hw']%Forall_cons Hne Hother. exfalso.
    destruct Hcase as [?|[_ (v' & -> & Hst')]]; [done|].
    apply Forall_singleton in Hw' as [= <-]. by rewrite Hst in Hst'.
Qed.

(** The volume is detached first, after the reading of [v]. *)
Lemma detach_ends instanceID volumeID v before :
  v2_Status v = VolumeAvailableStatus -> volumes_read before = [Ok v] ->
  existsb is_attach_change before = false -> server_of v <> instanceID ->
  always (E:=CinderE)
    (let! err := DetachDisk (server_of v) volumeID in
     match err with Some err => fail err | None => attach instanceID (read_volume v) end)
    (attach_result instanceID) before.
Proof.
  intros Hst Hread Hquiet Hhere.
  assert (forall e tr, existsb is_attach_change tr = false ->
    attach_result instanceID (before ++ tr) (Returned (Err e))) as Hfail.
  { intros e tr Htr. split; [done|]. intros. rewrite existsb_app, Hquiet, Htr. eauto. }
  unfold DetachDisk. rewrite always_bind.
  apply always_getVolume; [intros err; by apply Hfail..|]. intros v'.
  cbn [read_volume VolumeStatus AttachedServerID ID].
  destruct (decide (v2_Status v' = VolumeInUseStatus)) as [Hst'|Hst'].
  2: { rewrite (bool_decide_eq_true_2 (v2_Status v' <> _)) by done. by apply Hfail. }
  rewrite (bool_decide_eq_false_2 (v2_Status v' <> _)) by (intros Hn; by apply Hn).
  intros [err|]; cbn [bind]; rewrite <- app_assoc; [by apply Hfail|].
  destruct (decide (server_of v' = server_of v)) as [Hsame|Hsame].
  2: { rewrite (bool_decide_eq_true_2 (server_of v' <> _)) by done. by apply Hfail. }
  rewrite (bool_decide_eq_false_2 (server_of v' <> _)) by (intros Hn; by apply Hn).
  intros [err|]; rewrite <- app_assoc.
  - split; [done|]. intros v0. rewrite volumes_read_app, Hread.
    intros [[= ->] [[= ->] _]%Forall_cons]%Forall_cons. by rewrite Hst in Hst'.
  - apply (attach_ends _ _ _ [Ok v']); [done|by rewrite volumes_read_app, Hread|right; eauto].
Qed.

(** Attaching a Cinder volume.  [AttachDisk] succeeds only for a volume it
    saw available, with the identifier of that volume, after an attachment
    that succeeded or with no call when the volume was on this instance
    already.  A volume attached elsewhere is never moved as long as the
    service gives the same answer about it: the detachment it asks for first
    refuses a volume that is not in use, so [AttachDisk] fails and changes
    nothing. *)
Theorem cinder_AttachDisk_available instanceID volumeID :
  always (E:=CinderE) (AttachDisk instanceID volumeID) (attach_result instanceID) [].
Proof.
  unfold AttachDisk, bind_ok at 1.
  apply always_getVolume; [by split; eauto..|]. intros v.
  cbn [read_volume VolumeStatus AttachedServerID ID].
  destruct (decide (v2_Status v = VolumeAvailableStatus)) as [Hst|Hst].
  2: { rewrite (bool_decide_eq_true_2 (v2_Status v <> _)) by done. by split; eauto. }
  rewrite (bool_decide_eq_false_2 (v2_Status v <> _)) by (intros Hn; by apply Hn).
  intros [err|]; [by split; eauto|]. cbn [bind].
  destruct (decide (server_of v = "")) as [Hfree|Htaken].
  { rewrite (bool_decide_eq_false_2 (server_of v <> "")) by (intros Hn; by apply Hn).
    by apply (attach_ends _ _ _ []); [| |left]. }
  rewrite (bool_decide_eq_true_2 (server_of v <> "")) by done.
  destruct (decide (instanceID = server_of v)) as [Hhere|Hhere].
  { rewrite (bool_decide_eq_true_2 (instanceID = _)) by done. split.
    - intros id [= <-]. exists v, []. by split_and!; [..|left].
    - intros v0 [[= ->] _]%Forall_cons _ Hother. done. }
  rewrite (bool_decide_eq_false_2 (instanceID = _)) by done. by apply detach_ends.
Qed.
End theorems.
