(* ===== verification/Gce.v ===== *)
(** The disks and snapshots of the GCE provider ([gce.go]): waiting for
    operations, zones, the life of disks and snapshots, attaching.

    The calls are the requests of the Compute service, each with the answer
    of [Do()], the ticks of the poller and the answers of the rate limiter,
    whose waiting is not observable here.  A nil operation is [None]. *)

From S2P Require Import Prelude GoStrings Types Api Wait CloudProvider VolumePlugins.
From Stdlib Require Import Lia.

#[local] Open Scope string_scope.

(** * Calls *)

(** [compute.Operation]: its error is the list of messages, or nil. *)
Record Operation := {
  op_Name : string;
  op_Status : string;
  op_Error : option (list string);
  op_HttpErrorStatusCode : Z;
}.

Record gceDisk := { d_Zone : string; d_Name : string; d_Kind : string }.
Record gceSnapshot := { s_Name : string; s_Kind : string; s_Status : string }.

(** [compute.Disk] as it is created. *)
Record diskToCreate := {
  dc_Name : string;
  dc_SizeGb : Z;
  dc_Description : string;
  dc_Type : string;
  dc_SourceSnapshot : string;
}.

Record AttachedDisk := {
  ad_DeviceName : string;
  ad_Kind : string;
  ad_Mode : string;
  ad_Source : string;
  ad_Type : string;
}.

(** An instance: the device names of its disks are what is read of them. *)
Record gceInstance := {
  in_Zone : string;
  in_Name : string;
  in_ID : Z;
  in_Disks : list string;
  in_Type : string;
}.

(** The requests of the project.  A failed [Do()] answers with a nil operation
    and the error; the polling reads the operation all the same. *)
Inductive GceE : Type -> Type :=
| DisksInsert (zone : string) (disk : diskToCreate) : GceE (res Operation)
| DisksGet (zone name : string) : GceE (res gceDisk)
| DisksDelete (zone name : string) : GceE (res Operation)
| DisksCreateSnapshot (zone diskName snapshotName description : string) : GceE (res Operation)
| SnapshotsGet (name : string) : GceE (res gceSnapshot)
| SnapshotsDelete (name : string) : GceE (res Operation)
| InstancesList (zone : string) : GceE (res (list string))
| InstancesGet (zone name : string) : GceE (res gceInstance)
| InstancesAttachDisk (zone instance : string) (disk : AttachedDisk) : GceE (res Operation)
| InstancesDetachDisk (zone instance devicePath : string) : GceE (res Operation)
| ZoneOperationsGet (zone name : string) : GceE (option Operation * option error)
| RegionOperationsGet (region name : string) : GceE (option Operation * option error)
| GlobalOperationsGet (name : string) : GceE (option Operation * option error).

Inductive GceSysE (X : Type) : Type :=
| CallGce (e : GceE X)
| GceTick (e : TickE X).
Arguments CallGce {X} e.
Arguments GceTick {X} e.
#[export] Instance SubE_gce : SubE GceE GceSysE := fun _ e => CallGce e.
#[export] Instance SubE_gce_tick : SubE TickE GceSysE := fun _ e => GceTick e.

#[local] Abbreviation M A := (prog GceSysE A).

(** * Errors *)

Definition isHTTPErrorCode (err : error) (code : Z) : bool :=
  match err with GoogleError c _ _ => bool_decide (c = code) | _ => false end.

(** A nil error is no [googleapi.Error]. *)
Definition isGCEError (err : option error) (reason : string) : bool :=
  match err with
  | Some (GoogleError _ _ reasons) => existsb (fun r => bool_decide (r = reason)) reasons
  | _ => false
  end.

(** * Operations *)

Definition operationPollInterval : Z := 3 * Second.
Definition operationPollTimeoutDuration : Z := 60 * Minute.

Definition opIsDone (op : option Operation) : bool :=
  match op with Some op => bool_decide (op_Status op = "DONE") | None => false end.

(** The new error has the code and the first message, and no reasons. *)
Definition getErrorFromOp (op : option Operation) : option error :=
  match op with
  | Some op =>
      match op_Error op with
      | Some (message :: _) => Some (GoogleError (op_HttpErrorStatusCode op) message [])
      | _ => None
      end
  | None => None
  end.

(** The error of a poll is logged only. *)
Definition poll_operation (getOperation : string -> M (option Operation * option error)) (opName : string)
    : M (bool * option error) :=
  let! polled := getOperation opName in
  Done (opIsDone polled.1, getErrorFromOp polled.1).

Definition waitForOp (op : option Operation)
    (getOperation : string -> M (option Operation * option error)) : M (option error) :=
  match op with
  | None => Done (Some (errorf "operation must not be nil" []))
  | Some o =>
      if opIsDone op then Done (getErrorFromOp op)
      else Poll (poll_operation getOperation (op_Name o))
             operationPollInterval operationPollTimeoutDuration
  end.

Definition waitForGlobalOp (op : option Operation) : M (option error) :=
  waitForOp op (fun name => trigger (GlobalOperationsGet name)).

Definition waitForRegionOp (op : option Operation) (region : string) : M (option error) :=
  waitForOp op (fun name => trigger (RegionOperationsGet region name)).

Definition waitForZoneOp (op : option Operation) (zone : string) : M (option error) :=
  waitForOp op (fun name => trigger (ZoneOperationsGet zone name)).

(** * Names *)

Definition lastComponent (s : string) : string :=
  match LastIndexByte s "/" with
  | Some lastSlash => drop_bytes (S lastSlash) s
  | None => s
  end.

Definition GetGCERegion (zone : string) : res string :=
  match LastIndexByte zone "-" with
  | None => Err (errorf "unexpected zone: %s" [zone])
  | Some ix => Ok (take_bytes ix zone)
  end.

(** Names of instances are host names: the domain is cut off. *)
Definition canonicalizeInstanceName (name : string) : string := hd "" (Split name ".").

Definition mapNodeNameToInstanceName (nodeName : string) : string := nodeName.

(** [path.Clean]: the elements, innermost first, as they are visited. *)
Fixpoint clean_elements (rooted : bool) (elements stack : list string) : list string :=
  match elements with
  | [] => rev stack
  | x :: rest =>
      if bool_decide (x = "") || bool_decide (x = ".") then clean_elements rooted rest stack
      else if bool_decide (x = "..") then
        match stack with
        | top :: stack' =>
            if bool_decide (top = "..") then clean_elements rooted rest (x :: stack)
            else clean_elements rooted rest stack'
        | [] => if rooted then clean_elements rooted rest [] else clean_elements rooted rest [x]
        end
      else clean_elements rooted rest (x :: stack)
  end.

Definition path_Clean (path : string) : string :=
  let rooted := HasPrefix path "/" in
  let cleaned := Join (clean_elements rooted (Split path "/") []) "/" in
  if rooted then "/" +:+ cleaned else if bool_decide (cleaned = "") then "." else cleaned.

Definition path_Join (elements : list string) : string :=
  match List.filter (fun x => negb (bool_decide (x = ""))) elements with
  | [] => ""
  | elements => path_Clean (Join elements "/")
  end.

(** [json.Marshal] of a map of strings. *)
Class JsonMarshal := json_Marshal : gmap string string -> string.

(** [GCECloud], without the clients of the services and the rate limiter. *)
Record GCECloud := {
  projectID : string;
  gce_region : string;
  localZone : string;
  managedZones : list string;
  networkURL : string;
  nodeTags : list string;
  nodeInstancePrefix : string;
  useMetadataServer : bool;
}.

Section cloud.
Context `{JsonMarshal} (gce : GCECloud).

(** ** Lookups *)

Definition findDiskByName (diskName zone : string) : M (res (option gceDisk)) :=
  let! got := trigger (DisksGet zone diskName) in
  match got with
  | Ok disk => ok (Some {| d_Zone := lastComponent (d_Zone disk); d_Name := d_Name disk;
                           d_Kind := d_Kind disk |})
  | Err err => if negb (isHTTPErrorCode err 404) then fail err else ok None
  end.

Definition getDiskByName (diskName zone : string) : M (res gceDisk) :=
  let? disk := findDiskByName diskName zone in
  match disk with
  | None => fail (errorf "GCE persistent disk not found: diskName=%q zone=%q" [diskName; zone])
  | Some disk => ok disk
  end.

(** The loop over the managed zones, with the disk found so far. *)
Fixpoint find_in_zones (diskName : string) (zones : list string) (found : option gceDisk)
    : M (res (option gceDisk)) :=
  match zones with
  | [] => ok found
  | zone :: rest =>
      let? disk := findDiskByName diskName zone in
      match disk with
      | None => find_in_zones diskName rest found
      | Some disk =>
          match found with
          | Some _ => fail (errorf "GCE persistent disk name was found in multiple zones: %q" [diskName])
          | None => find_in_zones diskName rest (Some disk)
          end
      end
  end.

Definition getDiskByNameUnknownZone (diskName : string) : M (res gceDisk) :=
  let? found := find_in_zones diskName (managedZones gce) None in
  match found with
  | Some disk => ok disk
  | None => fail DiskNotFound
  end.

Definition getSnapshotByName (snapshotName : string) : M (res (option gceSnapshot)) :=
  let! got := trigger (SnapshotsGet snapshotName) in
  match got with
  | Ok snapshot => ok (Some snapshot)
  | Err err => if negb (isHTTPErrorCode err 404) then fail err else ok None
  end.

Fixpoint instance_in_zones (name : string) (zones : list string) : M (res gceInstance) :=
  match zones with
  | [] => fail InstanceNotFound
  | zone :: rest =>
      let name := canonicalizeInstanceName name in
      let! got := trigger (InstancesGet zone name) in
      match got with
      | Err err => if isHTTPErrorCode err 404 then instance_in_zones name rest else fail err
      | Ok res => ok {| in_Zone := lastComponent (in_Zone res); in_Name := in_Name res;
                        in_ID := in_ID res; in_Disks := in_Disks res;
                        in_Type := lastComponent (in_Type res) |}
      end
  end.

Definition getInstanceByName (name : string) : M (res gceInstance) :=
  instance_in_zones name (managedZones gce).

(** The zones with instances, of several; the only one otherwise. *)
Fixpoint used_zones (zones : list string) (used : gset string) : M (res (gset string)) :=
  match zones with
  | [] => ok used
  | zone :: rest =>
      let? items := trigger (InstancesList zone) in
      used_zones rest (match items with [] => used | _ => {[zone]} ∪ used end)
  end.

Definition GetAllZones : M (res (gset string)) :=
  match managedZones gce with
  | [zone] => ok {[zone]}
  | zones => used_zones zones ∅
  end.

(** ** Disks *)

Definition DiskTypeSSD : string := "pd-ssd".
Definition DiskTypeStandard : string := "pd-standard".
Definition diskTypeDefault : string := DiskTypeStandard.

Definition is_managed (zone : string) : bool := bool_decide (zone ∈ managedZones gce).

(** Marshalling a map of strings cannot fail. *)
Definition encodeDiskTags (tags : gmap string string) : string :=
  if bool_decide (tags = ∅) then "" else json_Marshal tags.

Definition disk_type (diskType : string) : res string :=
  if bool_decide (diskType = DiskTypeSSD) || bool_decide (diskType = DiskTypeStandard) then Ok diskType
  else if bool_decide (diskType = "") then Ok diskTypeDefault
  else Err (errorf "invalid GCE disk type %q" [diskType]).

Definition diskTypeUri (zone diskType : string) : string :=
  "https://www.googleapis.com/compute/v1/projects/" +:+ projectID gce +:+ "/zones/" +:+ zone +:+
  "/diskTypes/" +:+ diskType.

Definition not_managed (zone : string) : error :=
  errorf "kubernetes does not manage zone %q" [zone].

Definition CreateDisk (name diskType zone : string) (sizeGb : Z) (tags : gmap string string)
    : M (option error) :=
  if negb (is_managed zone) then Done (Some (not_managed zone))
  else
    match disk_type diskType with
    | Err err => Done (Some err)
    | Ok diskType =>
        let! created := trigger (DisksInsert zone
          {| dc_Name := name; dc_SizeGb := sizeGb; dc_Description := encodeDiskTags tags;
             dc_Type := diskTypeUri zone diskType; dc_SourceSnapshot := "" |}) in
        match created with
        | Err err => Done (Some err)
        | Ok createOp =>
            let! err := waitForZoneOp (Some createOp) zone in
            if isGCEError err "alreadyExists" then Done None else Done err
        end
    end.

(** The error of the request is kept only if the disk exists already: the
    operation that is waited for is nil otherwise. *)
Definition CreateDiskFromSnapshot (snapshot name diskType zone : string) (sizeGb : Z)
    (tags : gmap string string) : M (option error) :=
  if negb (is_managed zone) then Done (Some (not_managed zone))
  else
    match disk_type diskType with
    | Err err => Done (Some err)
    | Ok diskType =>
        let! created := trigger (DisksInsert zone
          {| dc_Name := name; dc_SizeGb := sizeGb; dc_Description := encodeDiskTags tags;
             dc_Type := diskTypeUri zone diskType;
             dc_SourceSnapshot := "global/snapshots/" +:+ snapshot |}) in
        if isGCEError (res_error created) "alreadyExists" then Done None
        else
          let createOp := match created with Ok op => Some op | Err _ => None end in
          let! err := waitForZoneOp createOp zone in
          if isGCEError err "alreadyExists" then Done None else Done err
    end.

Definition doDeleteDisk (diskToDelete : string) : M (option error) :=
  let! got := getDiskByNameUnknownZone diskToDelete in
  match got with
  | Err err => Done (Some err)
  | Ok disk =>
      let! deleted := trigger (DisksDelete (d_Zone disk) (d_Name disk)) in
      match deleted with
      | Err err => Done (Some err)
      | Ok op => waitForZoneOp (Some op) (d_Zone disk)
      end
  end.

Definition DeleteDisk (diskToDelete : string) : M (option error) :=
  let! err := doDeleteDisk diskToDelete in
  if isGCEError err "resourceInUseByAnotherResource" then Done (Some (Errorf "%v" [FErr err]))
  else if is_DiskNotFound err then Done None
  else Done err.

Definition GetAutoLabelsForPD (name zone : string) : M (res (gmap string string)) :=
  let? disk := (if bool_decide (zone = "") then getDiskByNameUnknownZone name
                else getDiskByName name zone) in
  let zone := if bool_decide (zone = "") then d_Zone disk else zone in
  match GetGCERegion zone with
  | Err err => fail err
  | Ok region =>
      if bool_decide (zone = "") || bool_decide (region = "") then
        fail (errorf "PD did not have zone/region information: %q" [d_Name disk])
      else ok (<[LabelZoneRegion := region]> {[LabelZoneFailureDomain := zone]})
  end.

(** ** Attaching *)

Definition convertDiskToAttachedDisk (disk : gceDisk) (readWrite : string) : AttachedDisk :=
  {| ad_DeviceName := d_Name disk; ad_Kind := d_Kind disk; ad_Mode := readWrite;
     ad_Source := "https://" +:+ path_Join ["www.googleapis.com/compute/v1/projects/"; projectID gce;
                                            "zones"; d_Zone disk; "disks"; d_Name disk];
     ad_Type := "PERSISTENT" |}.

Definition AttachDisk (diskName nodeName : string) (readOnly : bool) : M (option error) :=
  let instanceName := mapNodeNameToInstanceName nodeName in
  let! got := getInstanceByName instanceName in
  match got with
  | Err _ => Done (Some (errorf "error getting instance %q" [instanceName]))
  | Ok instance =>
      let! found := getDiskByName diskName (in_Zone instance) in
      match found with
      | Err err => Done (Some err)
      | Ok disk =>
          let readWrite := if readOnly then "READ_ONLY" else "READ_WRITE" in
          let! attached := trigger (InstancesAttachDisk (d_Zone disk) (in_Name instance)
                                      (convertDiskToAttachedDisk disk readWrite)) in
          match attached with
          | Err err => Done (Some err)
          | Ok op => waitForZoneOp (Some op) (d_Zone disk)
          end
      end
  end.

Definition DetachDisk (devicePath nodeName : string) : M (option error) :=
  let instanceName := mapNodeNameToInstanceName nodeName in
  let! got := getInstanceByName instanceName in
  match got with
  | Err err => if is_InstanceNotFound err then Done None
               else Done (Some (errorf "error getting instance %q" [instanceName]))
  | Ok inst =>
      let! detached := trigger (InstancesDetachDisk (in_Zone inst) (in_Name inst) devicePath) in
      match detached with
      | Err err => Done (Some err)
      | Ok op => waitForZoneOp (Some op) (in_Zone inst)
      end
  end.

Definition DiskIsAttached (diskName nodeName : string) : M (res bool) :=
  let! got := getInstanceByName (mapNodeNameToInstanceName nodeName) in
  match got with
  | Err err => if is_InstanceNotFound err then ok false else fail err
  | Ok instance => ok (existsb (fun d => bool_decide (d = diskName)) (in_Disks instance))
  end.

(** The map is returned with the error. *)
Definition DisksAreAttached (diskNames : list string) (nodeName : string)
    : M (gmap string bool * option error) :=
  let attached := fold_left (fun m d => <[d := false]> m) diskNames (∅ : gmap string bool) in
  let! got := getInstanceByName (mapNodeNameToInstanceName nodeName) in
  match got with
  | Err err => if is_InstanceNotFound err then Done (attached, None) else Done (attached, Some err)
  | Ok instance =>
      Done (fold_left (fun m instanceDisk =>
                         fold_left (fun m d => if bool_decide (instanceDisk = d) then <[d := true]> m else m)
                                   diskNames m)
                      (in_Disks instance) attached, None)
  end.

(** ** Snapshots *)

Definition DescribeSnapshot (snapshotToGet : string) : M (bool * option error) :=
  let! got := getSnapshotByName snapshotToGet in
  match got with
  | Err err => Done (false, Some err)
  | Ok None => Done (false, Some (errorf "snapshot %s is found" [snapshotToGet]))
  | Ok (Some snapshot) => Done (bool_decide (s_Status snapshot = "READY"), None)
  end.

Definition DeleteSnapshot (snapshotToDelete : string) : M (option error) :=
  let! got := getSnapshotByName snapshotToDelete in
  match got with
  | Err err => Done (Some err)
  | Ok None => Done None
  | Ok (Some _) =>
      let! deleted := trigger (SnapshotsDelete snapshotToDelete) in
      match deleted with
      | Err err => Done (Some err)
      | Ok op => waitForGlobalOp (Some op)
      end
  end.

Definition CreateSnapshot (diskName zone snapshotName : string) (tags : gmap string string)
    : M (option error) :=
  if negb (is_managed zone) then Done (Some (not_managed zone))
  else
    let! created := trigger (DisksCreateSnapshot zone diskName snapshotName (encodeDiskTags tags)) in
    match created with
    | Err err => Done (Some err)
    | Ok op =>
        let! err := waitForZoneOp (Some op) zone in
        if isGCEError err "alreadyExists" then Done None else Done err
    end.

(** The operations the GCE plugin uses; [zones.List()] sorts. *)
Definition gce_cloud : GceCloud GceSysE :=
  {| gce_CreateSnapshot := CreateSnapshot;
     gce_DeleteSnapshot := DeleteSnapshot;
     gce_DescribeSnapshot := DescribeSnapshot;
     gce_GetAllZones := let? zones := GetAllZones in ok (set_List zones);
     gce_CreateDiskFromSnapshot := CreateDiskFromSnapshot;
     gce_GetAutoLabelsForPD := fun name zone =>
       let! r := GetAutoLabelsForPD name zone in
       Done (match r with Ok labels => (labels, None) | Err err => (∅, Some err) end);
     gce_DeleteDisk := DeleteDisk |}.
End cloud.

(** * Theorems *)

#[local] Abbreviation gce_event := (event GceSysE).

(** ** Waiting for an operation *)

(** The answers to the polls, in order, and the operations in them. *)
Definition op_answers (tr : list gce_event) : list (option Operation * option error) :=
  ev ← tr;
  match ev with
  | Event (CallGce e) x =>
      match e in GceE X return X -> list (option Operation * option error) with
      | ZoneOperationsGet _ _ | RegionOperationsGet _ _ | GlobalOperationsGet _ => fun r => [r]
      | _ => fun _ => []
      end x
  | _ => []
  end.
Definition polled (tr : list gce_event) : list (option Operation) := (op_answers tr).*1.

Lemma op_answers_app tr tr' : op_answers (tr ++ tr') = (op_answers tr ++ op_answers tr')%list.
Proof. apply bind_app. Qed.

Lemma polled_app tr tr' : polled (tr ++ tr') = (polled tr ++ polled tr')%list.
Proof. unfold polled. by rewrite op_answers_app, fmap_app. Qed.

Lemma getErrorFromOp_no_reason op reason : isGCEError (getErrorFromOp op) reason = false.
Proof. by destruct op as [[? ? [[|m ms]|] ?]|]. Qed.

(** A request for an operation by its name. *)
Definition op_request (get : string -> GceE (option Operation * option error)) : Prop :=
  forall name, (exists zone, get name = ZoneOperationsGet zone name) \/
               (exists region, get name = RegionOperationsGet region name) \/
               get name = GlobalOperationsGet name.

(** The result of the waiting, from the operation waited for and the ones the
    polls saw: at most 1201, and all but the last not done. *)
Definition wait_outcome (op : option Operation) (seen : list (option Operation)) (err : option error)
    : Prop :=
  match op with
  | None => seen = [] /\ err = Some (errorf "operation must not be nil" [])
  | Some _ =>
      exists before last, op :: seen = (before ++ [last])%list /\ length seen <= 1201 /\
        Forall (fun o => opIsDone o = false) before /\
        Forall (fun o => getErrorFromOp o = None) (tail before) /\
        err = match getErrorFromOp last with
              | Some e => Some e
              | None => if opIsDone last then None else Some ErrWaitTimeout
              end
  end.

Lemma waitForOp_outcome get op tr :
  op_request get ->
  always (waitForOp op (fun name => trigger (get name)))
    (fun tr' o => exists seen err,
       polled tr' = (polled tr ++ seen)%list /\ o = Returned err /\ wait_outcome op seen err) tr.
Proof.
  intros Hget. unfold waitForOp. destruct op as [op|].
  2: { exists [], (Some (errorf "operation must not be nil" [])). by rewrite app_nil_r. }
  destruct (opIsDone (Some op)) eqn:Hdone.
  { exists [], (getErrorFromOp (Some op)). rewrite app_nil_r. split_and!; [done..|].
    exists [], (Some op). split_and!; [done|cbn; lia|constructor|constructor|]. rewrite Hdone.
    by destruct (getErrorFromOp _). }
  eapply always_impl;
    [|apply (WaitFor_ends (CallGce (get (op_Name op)))
        (fun r : option Operation * option error => (opIsDone r.1, getErrorFromOp r.1))
        (poll_operation (fun name => trigger (get name)) (op_Name op)) op_answers)].
  - intros tr' o (before & last & Htr & Hbefore & Hlen & ->).
    exists ((before ++ [last]).*1)%list, (wait_end (opIsDone last.1, getErrorFromOp last.1)).
    split_and!; [|done|].
    + unfold polled. by rewrite Htr, fmap_app.
    + exists (Some op :: before.*1), last.1. rewrite fmap_app. split_and!; [done| | | |].
      * rewrite length_app, length_fmap. cbn.
        change (Z.to_nat (operationPollTimeoutDuration / operationPollInterval)) with 1200 in Hlen. lia.
      * constructor; [done|]. apply Forall_fmap. eapply Forall_impl; [exact Hbefore|]. by intros [o e] [= ].
      * apply Forall_fmap. eapply Forall_impl; [exact Hbefore|]. by intros [o e] [= ].
      * unfold wait_end; cbn. by destruct (getErrorFromOp last.1).
  - eexists. split; [done|]. by intros [o e].
  - apply op_answers_app.
  - done.
  - intros r. by destruct (Hget (op_Name op)) as [[zone ->]|[[region ->]| ->]].
Qed.

(** No error of an operation has a reason. *)
Lemma wait_outcome_no_reason op seen err reason :
  wait_outcome op seen err -> isGCEError err reason = false.
Proof.
  destruct op as [op|]; [|by intros [_ ->]]. intros (before & last & _ & _ & _ & _ & ->).
  pose proof (getErrorFromOp_no_reason last reason).
  destruct (getErrorFromOp last); [done|]. by destruct (opIsDone last).
Qed.

Lemma wait_outcome_found op seen err : wait_outcome op seen err -> is_DiskNotFound err = false.
Proof.
  destruct op as [op|]; [|by intros [_ ->]]. intros (before & last & _ & _ & _ & _ & ->).
  destruct last as [[? ? [[|m ms]|] ?]|]; cbn; by try case_bool_decide.
Qed.

(** The calls made while waiting for the operation of a zone. *)
Lemma zone_op_outcome op zone tr :
  always (waitForZoneOp op zone)
    (fun tr' o => exists rest seen err,
       tr' = (tr ++ rest)%list /\ polled rest = seen /\ o = Returned err /\ wait_outcome op seen err) tr.
Proof.
  apply always_extend.
  eapply always_impl; [|apply waitForOp_outcome; intros name; by left; eexists].
  intros rest o (seen & err & Hseen & -> & Hout). by exists rest, seen, err.
Qed.

(** C34: Waiting for an operation.  It ends after at most 1201 polls, at the
    first operation that is done, the one given included, or that a poll sees
    with an error: with success only if that one is done without an error.  The error
    it gives never has a reason that [isGCEError] recognises, so what
    [CreateSnapshot], [CreateDisk] and [DeleteDisk] do for "alreadyExists" and
    "resourceInUseByAnotherResource" is never done for a failed operation. *)
Theorem gce_waitForOp_ends op zone :
  always (waitForZoneOp op zone)
    (fun tr o => exists err,
       o = Returned err /\ wait_outcome op (polled tr) err /\
       forall reason, isGCEError err reason = false) [].
Proof.
  eapply always_impl; [|apply waitForOp_outcome; intros name; by left; eexists].
  intros tr o (seen & err & Hseen & -> & Hout). cbn in Hseen.
  exists err. rewrite Hseen. split_and!; [done..|]. intros reason. by eapply wait_outcome_no_reason.
Qed.

(** ** Disks from snapshots *)

Section disks.
Context `{JsonMarshal} (gce : GCECloud).

(** Disks made from snapshots.  Nothing is asked for in a zone that is not
    managed or for a type that is not known.  Otherwise there is one request,
    for a disk of this name and size from this snapshot; when it is answered
    with an operation the operation is waited for.  When it fails, the error
    is lost: unless the disk exists already the caller is told only that the
    operation is nil. *)
Theorem gce_CreateDiskFromSnapshot_masks snapshot name diskType zone sizeGb tags :
  always (CreateDiskFromSnapshot gce snapshot name diskType zone sizeGb tags)
    (fun tr o =>
       if is_managed gce zone && is_ok (disk_type diskType) then
         exists disk created rest,
           tr = Event (CallGce (DisksInsert zone disk)) created :: rest /\
           dc_Name disk = name /\ dc_SizeGb disk = sizeGb /\
           dc_SourceSnapshot disk = "global/snapshots/" +:+ snapshot /\
           match created with
           | Ok op => exists err, o = Returned err /\ wait_outcome (Some op) (polled rest) err
           | Err err =>
               rest = [] /\ o = Returned (if isGCEError (Some err) "alreadyExists" then None
                                          else Some (errorf "operation must not be nil" []))
           end
       else tr = [] /\ exists e, o = Returned (Some e)) [].
Proof.
  unfold CreateDiskFromSnapshot. destruct (is_managed gce zone); [|by cbn; eauto].
  destruct (disk_type diskType) as [t|e]; [|by cbn; eauto]. cbn [negb andb is_ok bind trigger always].
  set (disk := Build_diskToCreate _ _ _ _ _). intros [op|err]; cbn [res_error].
  - cbn [isGCEError]. apply always_bind. eapply always_impl; [|by apply zone_op_outcome].
    intros tr o (rest & seen & err & -> & Hseen & -> & Hout).
    pose proof (wait_outcome_no_reason _ _ _ "alreadyExists" Hout) as ->.
    eexists disk, (Ok op), rest. rewrite Hseen. by eauto 8.
  - destruct (isGCEError (Some err) "alreadyExists") eqn:He;
      eexists disk, (Err err), []; by rewrite He.
Qed.
(** ** Finding a disk by its name *)

(** A reading that found no disk, and the disk of one that did. *)
Definition missing (r : res gceDisk) : bool :=
  match r with Err e => isHTTPErrorCode e 404 | Ok _ => false end.
Definition hit (r : res gceDisk) : list gceDisk :=
  match r with
  | Ok disk => [{| d_Zone := lastComponent (d_Zone disk); d_Name := d_Name disk; d_Kind := d_Kind disk |}]
  | Err _ => []
  end.
Definition answered (r : res gceDisk) : bool := missing r || is_ok r.

(** The readings of the first zones, one each, in order. *)
Definition disk_reads (diskName : string) (zones : list string) (reads : list (res gceDisk))
    : list gce_event :=
  zip_with (fun zone r => Event (CallGce (DisksGet zone diskName)) r) zones reads.

(** How the search in [zones] ends after these readings, when [found] is known
    already. *)
Definition find_outcome (zones : list string) (found : list gceDisk) (reads : list (res gceDisk))
    (r : res (option gceDisk)) : Prop :=
  match r with
  | Ok disk => length reads = length zones /\ forallb answered reads = true /\
               found ++ (reads ≫= hit) = option_list disk
  | Err e => exists before last, reads = before ++ [last] /\ length reads <= length zones /\
               forallb answered before = true /\
               (last = Err e /\ missing last = false \/
                length (found ++ (before ≫= hit)) = 1 /\ length (hit last) = 1 /\
                is_DiskNotFound (Some e) = false)
  end%list.

Lemma find_outcome_cons zones zone found r reads res :
  answered r = true ->
  find_outcome zones (found ++ hit r) reads res ->
  find_outcome (zone :: zones) found (r :: reads) res.
Proof.
  intros Hr. destruct res as [disk|e]; cbn.
  - intros (Hlen & Hall & Hhits). rewrite Hr. split_and!; [by f_equal|done|]. by rewrite app_assoc.
  - intros (before & last & -> & Hlen & Hall & Hend). exists (r :: before), last.
    split_and!; [done|cbn; lia|cbn; by rewrite Hr|]. cbn. by rewrite app_assoc.
Qed.

Lemma find_in_zones_outcome diskName zones found :
  always (find_in_zones diskName zones found)
    (fun tr o => exists reads r, tr = disk_reads diskName zones reads /\ o = Returned r /\
                                 find_outcome zones (option_list found) reads r) [].
Proof.
  revert found; induction zones as [|zone zones IH]; intros found; cbn.
  - exists [], (Ok found). split_and!; [done..|]. cbn. by rewrite app_nil_r.
  - assert (forall r found', answered r = true -> option_list found' = (option_list found ++ hit r)%list ->
      always (find_in_zones diskName zones found')
        (fun tr o => exists reads r,
           tr = disk_reads diskName (zone :: zones) reads /\ o = Returned r /\
           find_outcome (zone :: zones) (option_list found) reads r)
        [Event (CallGce (DisksGet zone diskName)) r]) as Hnext.
    { intros r found' Hr Hfound. apply always_extend.
      eapply always_impl; [|apply IH]. intros tr o (reads & res & -> & -> & Hres).
      exists (r :: reads), res. split_and!; [done..|]. apply find_outcome_cons; [done|].
      by rewrite <- Hfound. }
    intros [disk|e]; cbn.
    + destruct found as [d|]; [|by apply Hnext].
      eexists [Ok disk], _. split_and!; [by destruct zones|done|].
      eexists [], (Ok disk). split_and!; [done|cbn; lia|done|]. by right.
    + destruct (isHTTPErrorCode e 404) eqn:He; cbn.
      * apply Hnext; [by unfold answered; cbn; rewrite He|]. cbn. by rewrite app_nil_r.
      * eexists [Err e], _. split_and!; [by destruct zones|done|].
        eexists [], (Err e). split_and!; [done|cbn; lia|done|]. by left.
Qed.

(** What [DeleteDisk] does after the readings. *)
Definition delete_outcome (reads : list (res gceDisk)) (rest : list gce_event)
    (o : outcome (option error)) : Prop :=
  if bool_decide (length reads = length (managedZones gce)) && forallb answered reads then
    match reads ≫= hit with
    | [] => rest = [] /\ o = Returned None
    | [disk] => exists answer after,
        rest = Event (CallGce (DisksDelete (d_Zone disk) (d_Name disk))) answer :: after /\
        match answer with
        | Ok op => exists err, o = Returned err /\ wait_outcome (Some op) (polled after) err
        | Err e => after = [] /\ (is_DiskNotFound (Some e) = false -> exists e', o = Returned (Some e'))
        end
    | _ => rest = [] /\ exists e, o = Returned (Some e)
    end
  else rest = [].

(** Deleting a disk by its name.  The managed zones are asked in order, once
    each.  When all have answered, a disk that exactly one of them has is
    deleted there, and the operation is waited for; a disk that none has is a
    success; a name that several have is an error, and nothing is deleted.
    Nothing is deleted either when a zone could not be asked. *)
Theorem gce_DeleteDisk_unique diskName :
  always (DeleteDisk gce diskName)
    (fun tr o => exists reads rest,
       tr = (disk_reads diskName (managedZones gce) reads ++ rest)%list /\
       delete_outcome reads rest o) [].
Proof.
  unfold DeleteDisk, doDeleteDisk, getDiskByNameUnknownZone.
  apply always_bind, always_bind, always_bind. eapply always_impl; [|apply find_in_zones_outcome].
  intros tr o (reads & [disk|e] & -> & -> & Hout); cbn [option_list app] in Hout.
  - destruct Hout as (Hlen & Hall & Hhits). destruct disk as [disk|]; cbn in Hhits.
    + intros answer. cbn [bind].
      assert (forall after o, (match answer with
             | Ok op => exists err, o = Returned err /\ wait_outcome (Some op) (polled after) err
             | Err e => after = [] /\ (is_DiskNotFound (Some e) = false -> exists e', o = Returned (Some e'))
             end) ->
        exists reads' rest,
          ((disk_reads diskName (managedZones gce) reads ++
            [Event (CallGce (DisksDelete (d_Zone disk) (d_Name disk))) answer]) ++ after
           = disk_reads diskName (managedZones gce) reads' ++ rest)%list /\
          delete_outcome reads' rest o) as Hdeleted.
      { intros after o Ho. eexists reads, _. rewrite <- app_assoc. split; [done|].
        unfold delete_outcome. rewrite Hall, bool_decide_eq_true_2, Hhits by done. by exists answer, after. }
      destruct answer as [op|e]; cbn [bind].
      * eapply always_impl; [|by apply zone_op_outcome].
        intros tr o (after & seen & err & -> & Hseen & -> & Hwait).
        cbn [always]. rewrite (wait_outcome_no_reason _ _ _ _ Hwait), (wait_outcome_found _ _ _ Hwait).
        apply Hdeleted. exists err. by rewrite Hseen.
      * assert (forall err, (is_DiskNotFound (Some e) = false -> is_Some err) ->
          exists reads' rest,
            (disk_reads diskName (managedZones gce) reads ++
              [Event (CallGce (DisksDelete (d_Zone disk) (d_Name disk))) (Err e)]
             = disk_reads diskName (managedZones gce) reads' ++ rest)%list /\
            delete_outcome reads' rest (Returned err)) as Hfail.
        { intros err Herr. rewrite <- (app_nil_r (_ ++ _)). apply Hdeleted. split; [done|].
          intros Hf. destruct (Herr Hf) as [e' ->]. by exists e'. }
        go_exec; apply Hfail; try done; congruence.
    + exists reads, []. rewrite app_nil_r. split; [done|]. unfold delete_outcome.
      by rewrite Hall, bool_decide_eq_true_2, Hhits.
  - assert (forall err, (is_DiskNotFound (Some e) = false -> is_Some err) ->
      exists reads' rest, disk_reads diskName (managedZones gce) reads
                          = (disk_reads diskName (managedZones gce) reads' ++ rest)%list /\
                          delete_outcome reads' rest (Returned err)) as Hfail.
    { intros err Herr. exists reads, []. rewrite app_nil_r. split; [done|]. unfold delete_outcome.
      destruct (bool_decide _ && _) eqn:Hall; [|done].
      destruct Hout as (before & last & -> & _ & _ & Hend).
      apply andb_true_iff in Hall as [_ Hall]. rewrite forallb_app in Hall. cbn in Hall.
      destruct Hend as [[-> Hm]|(Hone & Hlast & Hfound)].
      - unfold answered in Hall. rewrite Hm in Hall. cbn in Hall. by rewrite andb_false_r in Hall.
      - rewrite bind_app. destruct (before ≫= hit) as [|d [|d' ds]]; [done| |done].
        cbn. rewrite app_nil_r. destruct (hit last) as [|d' ds]; [done|]. cbn.
        split; [done|]. destruct (Herr Hfound) as [e' ->]. by exists e'. }
    go_exec; apply Hfail; try done; congruence.
Qed.
End disks.
