(* ===== verification/OpenStackInstances.v ===== *)
(** The servers of the OpenStack provider ([openstack.go],
    [openstack_instances.go]) and the metadata of the host
    ([metadata.go]).

    A listing of gophercloud is one call: it answers with the pages the
    service gives and the error of the request that ended the listing, if
    any; the code's handler sees the pages in order until it stops. *)

From S2P Require Import Prelude GoStrings Types CloudProvider.
From Stdlib Require Import Lia.

#[local] Open Scope string_scope.

Definition ErrNotFound : error := errorf "Failed to find object" [].
Definition ErrMultipleResults : error := errorf "Multiple results where only one expected" [].
Definition ErrNoAddressFound : error := errorf "No address found for host" [].

(** [err == ErrNotFound], on the errors of this provider. *)
Definition is_ErrNotFound (err : error) : bool :=
  match err with
  | Errorf f [] => bool_decide (f = "Failed to find object")
  | _ => false
  end.

(** * Listings *)

(** [pager.EachPage(handler)]: the handler's state stands for the variables
    its closure assigns. *)
Fixpoint EachPage {S P} (handler : S -> P -> S * bool * option error) (pages : list P)
    (last : option error) (s : S) : S * option error :=
  match pages with
  | [] => (s, last)
  | p :: pages' =>
      let '(s', ok, err) := handler s p in
      match err with
      | Some err => (s', Some err)
      | None => if ok then EachPage handler pages' last s' else (s', None)
      end
  end.

(** The handler that collects the items, and gives up when there are two. *)
Definition collect_one {T} (found : list T) (page : list T) : list T * bool * option error :=
  let found' := (found ++ page)%list in
  if bool_decide (1 < length found')%nat then (found', false, Some ErrMultipleResults)
  else (found', true, None).

(** * Servers *)

(** What [mapstructure] decodes of an address. *)
Record Address := { IpType : string; Addr : string }.

(** [servers.Server]: [sv_Addresses] is what [mapstructure.Decode] gives for
    its addresses, by network. *)
Record server := {
  sv_ID : string;
  sv_Name : string;
  sv_Addresses : res (gmap string (list Address));
  sv_AccessIPv4 : string;
  sv_AccessIPv6 : string;
}.

Record NodeAddress := { na_Type : string; na_Address : string }.

#[export] Instance NodeAddress_eq_dec : EqDecision NodeAddress.
Proof. solve_decision. Defined.

Definition NodeInternalIP : string := "InternalIP".
Definition NodeExternalIP : string := "ExternalIP".

Inductive ServerE : Type -> Type :=
| ListServers (name status : string) : ServerE (list (list server) * option error).

Definition mapNodeNameToServerName (nodeName : string) : string := nodeName.
Definition mapServerToNodeName (srv : server) : string := ToLower (sv_Name srv).

(** [regexp.QuoteMeta(s)] *)
Fixpoint QuoteMeta (s : string) : string :=
  match s with
  | EmptyString => ""
  | String a s' =>
      if ContainsByte "\.+*?()|[]{}^$" a then String "\" (String a (QuoteMeta s'))
      else String a (QuoteMeta s')
  end.

Definition addToNodeAddresses (addresses add : list NodeAddress) : list NodeAddress :=
  fold_left (fun addresses a =>
    if existsb (fun existing => bool_decide (na_Address existing = na_Address a) &&
                                bool_decide (na_Type existing = na_Type a)) addresses
    then addresses else (addresses ++ [a])%list) add addresses.

(** The type of an address of a network. *)
Definition address_type (network : string) (props : Address) : string :=
  if bool_decide (IpType props = "floating") || bool_decide (network = "public")
  then NodeExternalIP else NodeInternalIP.

Section instances.
Context `{MapRange} {E : Type -> Type} `{!SubE ServerE E}.
#[local] Abbreviation M A := (prog E A).

Definition nodeAddresses (srv : server) : res (list NodeAddress) :=
  match sv_Addresses srv with
  | Err err => Err err
  | Ok addresses =>
      let addrs :=
        fold_left (fun addrs '(network, addrList) =>
          fold_left (fun addrs props =>
            addToNodeAddresses addrs [{| na_Type := address_type network props;
                                         na_Address := Addr props |}])
            addrList addrs)
          (range addresses) [] in
      let addrs :=
        if bool_decide (sv_AccessIPv4 srv <> "")
        then addToNodeAddresses addrs [{| na_Type := NodeExternalIP;
                                          na_Address := sv_AccessIPv4 srv |}]
        else addrs in
      let addrs :=
        if bool_decide (sv_AccessIPv6 srv <> "")
        then addToNodeAddresses addrs [{| na_Type := NodeExternalIP;
                                          na_Address := sv_AccessIPv6 srv |}]
        else addrs in
      Ok addrs
  end.

(** One page of [foreachServer]. *)
Fixpoint foreach_page {S} (handler : S -> server -> S * bool * option error) (s : S)
    (page : list server) : S * bool * option error :=
  match page with
  | [] => (s, true, None)
  | srv :: page' =>
      let '(s', ok, err) := handler s srv in
      match err with
      | Some _ => (s', false, err)
      | None => if ok then foreach_page handler s' page' else (s', false, None)
      end
  end.

Definition foreachServer {S} (name status : string) (handler : S -> server -> S * bool * option error)
    (s : S) : M (S * option error) :=
  let! listed := trigger (ListServers name status) in
  Done (EachPage (foreach_page handler) listed.1 listed.2 s).

Definition getServerByName (name : string) : M (res server) :=
  let! listed := trigger (ListServers ("^" +:+ QuoteMeta (mapNodeNameToServerName name) +:+ "$")
                                      "ACTIVE") in
  match EachPage collect_one listed.1 listed.2 [] with
  | (_, Some err) => fail err
  | ([], None) => fail ErrNotFound
  | (srv :: _, None) => ok srv
  end.

Definition getAddressesByName (name : string) : M (res (list NodeAddress)) :=
  let? srv := getServerByName name in
  Done (nodeAddresses srv).

Definition getAddressByName (name : string) : M (res string) :=
  let? addrs := getAddressesByName name in
  match addrs with
  | [] => fail ErrNoAddressFound
  | first :: _ =>
      match List.find (fun addr => bool_decide (na_Type addr = NodeInternalIP)) addrs with
      | Some addr => ok (na_Address addr)
      | None => ok (na_Address first)
      end
  end.

(** ** [Instances] *)

Definition list_page (ret : list string) (page : list server)
    : list string * bool * option error :=
  ((ret ++ (mapServerToNodeName <$> page))%list, true, None).

Definition instances_List (name_filter : string) : M (res (list string)) :=
  let! listed := trigger (ListServers name_filter "ACTIVE") in
  match EachPage list_page listed.1 listed.2 [] with
  | (_, Some err) => fail err
  | (ret, None) => ok ret
  end.

Definition NodeAddresses (name : string) : M (res (list NodeAddress)) :=
  let? addrs := getAddressesByName name in
  ok addrs.

Definition ExternalID (name : string) : M (res string) :=
  let! got := getServerByName name in
  match got with
  | Err err => if is_ErrNotFound err then fail InstanceNotFound else fail err
  | Ok srv => ok (sv_ID srv)
  end.

Definition InstanceID (name : string) : M (res string) :=
  let? srv := getServerByName name in
  ok ("/" +:+ sv_ID srv).
End instances.

(** * Metadata of the host *)

Record Metadata := { Uuid : string; md_Name : string; AvailabilityZone : string }.

Definition metadataUrl : string := "http://169.254.169.254/openstack/2012-08-10/meta_data.json".
Definition configDriveLabel : string := "config-2".
Definition configDrivePath : string := "openstack/2012-08-10/meta_data.json".
Definition ErrBadMetadata : error := errorf "Invalid OpenStack metadata, got empty uuid" [].

(** The calls to the host: a JSON document is the fields it decodes to. *)
Inductive HostMetaE : Type -> Type :=
| StatIsNotExist (path : string) : HostMetaE bool
| Blkid (label : string) : HostMetaE (res string)
| TempDir : HostMetaE (res string)
| Mount (dev dir fstype : string) : HostMetaE (option error)
| Unmount (dir : string) : HostMetaE unit
| RemoveDir (dir : string) : HostMetaE unit
| OpenFile (path : string) : HostMetaE (option error)
| DecodeFile (path : string) : HostMetaE (res Metadata)
| CloseFile (path : string) : HostMetaE unit
| HttpGet (url : string) : HostMetaE (res Z)
| DecodeBody : HostMetaE (res Metadata)
| CloseBody : HostMetaE unit.

Section metadata.
Context {E : Type -> Type} `{!SubE HostMetaE E}.
#[local] Abbreviation M A := (prog E A).

Definition parseMetadata (decoded : res Metadata) : res Metadata :=
  match decoded with
  | Err err => Err err
  | Ok metadata =>
      if bool_decide (Uuid metadata = "") then Err ErrBadMetadata else Ok metadata
  end.

(** The deferred calls run in the reverse order of their [defer]. *)
Definition getMetadataFromConfigDrive : M (res Metadata) :=
  let dev := "/dev/disk/by-label/" +:+ configDriveLabel in
  let! missing := (trigger (StatIsNotExist dev) : M bool) in
  let? dev := (if missing then let? out := trigger (Blkid configDriveLabel) in ok (TrimSpace out)
               else ok dev) in
  let? mntdir := trigger TempDir in
  let! err := trigger (Mount dev mntdir "iso9660") in
  let! err := match err with
              | Some _ => trigger (Mount dev mntdir "vfat")
              | None => Done None
              end in
  match err with
  | Some err =>
      let! _ := trigger (RemoveDir mntdir) in
      fail err
  | None =>
      let path := mntdir +:+ "/" +:+ configDrivePath in
      let! err := trigger (OpenFile path) in
      match err with
      | Some err =>
          let! _ := trigger (Unmount mntdir) in
          let! _ := trigger (RemoveDir mntdir) in
          fail err
      | None =>
          let! decoded := trigger (DecodeFile path) in
          let! _ := trigger (CloseFile path) in
          let! _ := trigger (Unmount mntdir) in
          let! _ := trigger (RemoveDir mntdir) in
          Done (parseMetadata decoded)
      end
  end.

Definition getMetadataFromMetadataService : M (res Metadata) :=
  let? status := trigger (HttpGet metadataUrl) in
  if bool_decide (status <> 200%Z) then
    let! _ := trigger CloseBody in
    fail (errorf "Unexpected status code when reading metadata from %s: %s" [metadataUrl])
  else
    let! decoded := trigger DecodeBody in
    let! _ := trigger CloseBody in
    Done (parseMetadata decoded).

(** The state is [metadataCache]. *)
Definition getMetadata (metadataCache : option Metadata) : M (option Metadata * res Metadata) :=
  match metadataCache with
  | Some md => Done (metadataCache, Ok md)
  | None =>
      let! md := getMetadataFromConfigDrive in
      let! md := match md with
                 | Err _ => getMetadataFromMetadataService
                 | Ok _ => Done md
                 end in
      match md with
      | Err err => Done (None, Err err)
      | Ok md => Done (Some md, Ok md)
      end
  end.

Definition CurrentNodeName (hostname : string) (metadataCache : option Metadata)
    : M (option Metadata * res string) :=
  let! r := getMetadata metadataCache in
  Done (r.1, match r.2 with Err err => Err err | Ok md => Ok (md_Name md) end).

(** Failure domain and region. *)
Definition GetZone (region : string) (metadataCache : option Metadata)
    : M (option Metadata * res (string * string)) :=
  let! r := getMetadata metadataCache in
  Done (r.1, match r.2 with
             | Err err => Err err
             | Ok md => Ok (AvailabilityZone md, region)
             end).
End metadata.

(** * Theorems *)

(** Collecting what should be one item. *)
Lemma EachPage_collect {T} (pages : list (list T)) last found :
  length found <= 1 ->
  if bool_decide (1 < length (found ++ concat pages))%nat
  then (EachPage collect_one pages last found).2 = Some ErrMultipleResults
  else EachPage collect_one pages last found = ((found ++ concat pages)%list, last).
Proof.
  revert found; induction pages as [|p pages IH]; intros found Hfound; cbn.
  - rewrite app_nil_r, bool_decide_eq_false_2 by lia. done.
  - unfold collect_one at 1 3. rewrite app_assoc. case_bool_decide as Hlen.
    + case_bool_decide as Hp; cbn; [done|]. specialize (IH (found ++ p)%list).
      rewrite bool_decide_eq_true_2 in IH by done. apply IH. lia.
    + case_bool_decide as Hp; cbn; [rewrite length_app in Hlen; lia|].
      specialize (IH (found ++ p)%list). rewrite bool_decide_eq_false_2 in IH by done.
      apply IH. lia.
Qed.

(** A listing that should find one item finds it, nothing, or too many. *)
Definition one_of {T} (pages : list (list T)) (last : option error) : res T :=
  match concat pages, last with
  | _ :: _ :: _, _ => Err ErrMultipleResults
  | _, Some err => Err err
  | [], None => Err ErrNotFound
  | [x], None => Ok x
  end.

Lemma EachPage_one_of {T} (pages : list (list T)) last :
  match EachPage collect_one pages last [] with
  | (_, Some err) => Err err
  | ([], None) => Err ErrNotFound
  | (x :: _, None) => Ok x
  end = one_of pages last.
Proof.
  pose proof (EachPage_collect pages last [] (Nat.le_0_l 1)) as Hc. cbn [app] in Hc.
  unfold one_of. destruct (concat pages) as [|x [|y rest]] eqn:Hpages; cbn in Hc.
  - rewrite Hc. by destruct last.
  - rewrite Hc. by destruct last.
  - rewrite bool_decide_eq_true_2 in Hc by lia.
    destruct (EachPage _ _ _ _) as [found err]. cbn in Hc. subst err. by destruct found.
Qed.

(** A server is found by its name only when the service lists exactly one
    active server of that name. *)
Theorem getServerByName_unique name :
  always (E:=ServerE) (getServerByName name)
    (fun tr o => exists pages last,
       tr = [Event (ListServers ("^" +:+ QuoteMeta name +:+ "$") "ACTIVE") (pages, last)] /\
       o = Returned (one_of pages last)) [].
Proof.
  cbn. intros [pages last]. cbn. pose proof (EachPage_one_of pages last) as Hone.
  destruct (EachPage _ _ _ _) as [[|srv found] [err|]]; exists pages, last; by rewrite <- Hone.
Qed.

(** ** Addresses *)

Lemma addToNodeAddresses_cons addresses b add :
  addToNodeAddresses addresses (b :: add) =
  addToNodeAddresses
    (if existsb (fun existing => bool_decide (na_Address existing = na_Address b) &&
                                 bool_decide (na_Type existing = na_Type b)) addresses
     then addresses else (addresses ++ [b])%list) add.
Proof. reflexivity. Qed.

Lemma elem_of_addToNodeAddresses addresses add a :
  a ∈ addToNodeAddresses addresses add <-> a ∈ addresses \/ a ∈ add.
Proof.
  revert addresses; induction add as [|b add IH]; intros addresses.
  - cbn. set_solver.
  - rewrite addToNodeAddresses_cons, IH, elem_of_cons. destruct (existsb _ addresses) eqn:Hex.
    + apply existsb_exists in Hex as (e & He%list_elem_of_In & Heq).
      apply andb_true_iff in Heq as [Ha%bool_decide_eq_true Ht%bool_decide_eq_true].
      assert (e = b) as -> by (destruct e, b; cbn in *; congruence). set_solver.
    + set_solver.
Qed.

Lemma NoDup_addToNodeAddresses addresses add :
  NoDup addresses -> NoDup (addToNodeAddresses addresses add).
Proof.
  revert addresses; induction add as [|b add IH]; intros addresses Hnd; [done|].
  rewrite addToNodeAddresses_cons. apply IH. destruct (existsb _ addresses) eqn:Hex; [done|].
  apply NoDup_app. split_and!; [done| |apply NoDup_singleton].
  intros e He ->%list_elem_of_singleton. apply not_true_iff_false in Hex. apply Hex.
  apply existsb_exists. exists b. rewrite <- list_elem_of_In. split; [done|].
  by rewrite !bool_decide_eq_true_2.
Qed.

(** Where an address of a server comes from. *)
Definition address_of (addresses : gmap string (list Address)) (srv : server) (a : NodeAddress)
    : Prop :=
  (exists network addrList props, addresses !! network = Some addrList /\ props ∈ addrList /\
     a = {| na_Type := address_type network props; na_Address := Addr props |}) \/
  (sv_AccessIPv4 srv <> "" /\ a = {| na_Type := NodeExternalIP; na_Address := sv_AccessIPv4 srv |}) \/
  (sv_AccessIPv6 srv <> "" /\ a = {| na_Type := NodeExternalIP; na_Address := sv_AccessIPv6 srv |}).

Lemma add_addresses_spec (l : list NodeAddress) acc :
  NoDup acc ->
  let r := fold_left (fun addrs x => addToNodeAddresses addrs [x]) l acc in
  NoDup r /\ forall a, a ∈ r <-> a ∈ acc \/ a ∈ l.
Proof.
  revert acc; induction l as [|x l IH]; intros acc Hnd; cbn -[addToNodeAddresses].
  - split; [done|]. set_solver.
  - destruct (IH (addToNodeAddresses acc [x])) as [Hnd' Hin]; [by apply NoDup_addToNodeAddresses|].
    split; [exact Hnd'|]. intros a. rewrite Hin, elem_of_addToNodeAddresses. set_solver.
Qed.

Lemma fold_left_concat {A B C} (f : C -> B -> C) (g : A -> list B) l acc :
  fold_left (fun acc x => fold_left f (g x) acc) l acc = fold_left f (l ≫= g) acc.
Proof.
  revert acc; induction l as [|x l IH]; intros acc; cbn; [done|].
  by rewrite IH, fold_left_app.
Qed.

Lemma fold_left_map {A B C} (f : C -> B -> C) (g : A -> B) l acc :
  fold_left (fun acc x => f acc (g x)) l acc = fold_left f (g <$> l) acc.
Proof. revert acc; induction l as [|x l IH]; intros acc; cbn; [done|]. apply IH. Qed.

(** The addresses of a network. *)
Definition network_addresses : string * list Address -> list NodeAddress :=
  fun '(network, addrList) =>
    (fun props => {| na_Type := address_type network props; na_Address := Addr props |}) <$> addrList.

Lemma nodeAddresses_all `{MapRange} srv addresses :
  sv_Addresses srv = Ok addresses ->
  nodeAddresses srv = Ok (fold_left (fun addrs x => addToNodeAddresses addrs [x])
    ((range addresses ≫= network_addresses) ++
     (if bool_decide (sv_AccessIPv4 srv <> "")
      then [{| na_Type := NodeExternalIP; na_Address := sv_AccessIPv4 srv |}] else []) ++
     (if bool_decide (sv_AccessIPv6 srv <> "")
      then [{| na_Type := NodeExternalIP; na_Address := sv_AccessIPv6 srv |}] else [])) []).
Proof.
  intros Hsrv. unfold nodeAddresses. rewrite Hsrv. f_equal.
  rewrite !fold_left_app, <- fold_left_concat.
  assert (forall l acc,
    fold_left (fun addrs '(network, addrList) =>
      fold_left (fun addrs props =>
        addToNodeAddresses addrs [{| na_Type := address_type network props;
                                     na_Address := Addr props |}]) addrList addrs) l acc =
    fold_left (fun acc x =>
      fold_left (fun addrs x => addToNodeAddresses addrs [x]) (network_addresses x) acc) l acc)
    as ->.
  { induction l as [|[network addrList] l IH]; intros acc; cbn -[addToNodeAddresses]; [done|].
    rewrite IH. f_equal. unfold network_addresses. by rewrite <- fold_left_map. }
  by repeat case_bool_decide.
Qed.

(** The addresses of a server: each exactly once, whatever the order in which
    its networks are visited; the private ones are internal, the public and
    floating ones and the two access addresses external. *)
Theorem nodeAddresses_spec `{MapRange} srv addresses :
  sv_Addresses srv = Ok addresses ->
  exists addrs, nodeAddresses srv = Ok addrs /\ NoDup addrs /\
    forall a, a ∈ addrs <-> address_of addresses srv a.
Proof.
  intros Hsrv. rewrite (nodeAddresses_all _ _ Hsrv). eexists; split; [reflexivity|].
  destruct (add_addresses_spec
    ((range addresses ≫= network_addresses) ++
     (if bool_decide (sv_AccessIPv4 srv <> "")
      then [{| na_Type := NodeExternalIP; na_Address := sv_AccessIPv4 srv |}] else []) ++
     (if bool_decide (sv_AccessIPv6 srv <> "")
      then [{| na_Type := NodeExternalIP; na_Address := sv_AccessIPv6 srv |}] else [])) [])
    as [Hnd Hin]; [constructor|].
  split; [exact Hnd|]. intros a. rewrite Hin, !elem_of_app, list_elem_of_bind. unfold address_of.
  assert ((exists y, a ∈ network_addresses y /\ y ∈ range addresses) <->
    exists network addrList props, addresses !! network = Some addrList /\ props ∈ addrList /\
      a = {| na_Type := address_type network props; na_Address := Addr props |}) as ->.
  { split.
    - intros ([network addrList] & Ha & Hr%elem_of_range). apply list_elem_of_fmap in Ha as (props & -> & ?).
      by exists network, addrList, props.
    - intros (network & addrList & props & Hr%elem_of_range & Hp & ->).
      exists (network, addrList). split; [|done]. apply list_elem_of_fmap. by exists props. }
  repeat case_bool_decide; set_solver.
Qed.

(** ** Metadata *)

Definition is_mount_ok (ev : event HostMetaE) : bool :=
  match ev with Event (Mount _ _ _) None => true | _ => false end.
Definition is_unmount (ev : event HostMetaE) : bool :=
  match ev with Event (Unmount _) _ => true | _ => false end.
Definition is_tempdir (ev : event HostMetaE) : bool :=
  match ev with Event TempDir (Ok _) => true | _ => false end.
Definition is_rmdir (ev : event HostMetaE) : bool :=
  match ev with Event (RemoveDir _) _ => true | _ => false end.

(** The metadata of the host.  What is cached is not asked for again; what
    is returned has an identifier and is cached; a failure is not.  The
    config drive is unmounted as often as it was mounted, and the directory
    made for it is removed, on every branch. *)
Theorem getMetadata_releases cache :
  (forall md, cache = Some md -> Uuid md <> "") ->
  always (E:=HostMetaE) (getMetadata cache)
    (fun tr o => exists cache' r,
       o = Returned (cache', r) /\
       count is_mount_ok tr = count is_unmount tr /\ count is_tempdir tr = count is_rmdir tr /\
       match r with
       | Ok md => cache' = Some md /\ Uuid md <> "" /\
                  (forall md0, cache = Some md0 -> md = md0 /\ tr = [])
       | Err _ => cache = None /\ cache' = None
       end) [].
Proof.
  intros Hcache. unfold getMetadata. destruct cache as [md|].
  { cbn. exists (Some md), (Ok md). split_and!; try done; [by apply Hcache|].
    by intros md0 [= <-]. }
  unfold getMetadataFromConfigDrive, getMetadataFromMetadataService, parseMetadata.
  go_exec; do 2 eexists; (split; [reflexivity|]); (split; [reflexivity|]); (split; [reflexivity|]); done.
Qed.
