(* ===== verification/OpenStackRoutes.v ===== *)
(** The routes of the OpenStack provider ([openstack_routes.go], with
    [getPortByIP] of [openstack_loadbalancer.go] and the [Caller] of
    [openstack.go]).

    A slice is the list of its elements; where the code writes through a
    slice that another one shares its array with, the model gives the other
    one its new elements. *)

From S2P Require Import Prelude GoStrings Types OpenStackInstances.
From Stdlib Require Import Lia.

#[local] Open Scope string_scope.

(** * Data and calls *)

(** [cloudprovider.Route] *)
Record Route := { RouteName : string; TargetNode : string; DestinationCIDR : string }.

(** [routers.Route] and [routers.Router] *)
Record router_route := { rr_DestinationCIDR : string; rr_NextHop : string }.
Record router := { rt_ID : string; rt_Routes : list router_route }.

#[export] Instance router_route_eq_dec : EqDecision router_route.
Proof. solve_decision. Defined.

(** [neutronports.AddressPair] and [neutronports.Port] *)
Record AddressPair := { IPAddress : string; MACAddress : string }.
Record port := {
  port_ID : string;
  FixedIPs : list string;
  AllowedAddressPairs : list AddressPair;
}.

Inductive RouterE : Type -> Type :=
| RouterGet (routerId : string) : RouterE (res router)
| RouterUpdate (routerId : string) (routes : list router_route) : RouterE (option error)
| ListPorts : RouterE (list (list port) * option error)
| PortUpdate (portId : string) (pairs : list AddressPair) : RouterE (option error).

Inductive NetE (X : Type) : Type :=
| CallServers (e : ServerE X)
| CallRouter (e : RouterE X).
Arguments CallServers {X} e.
Arguments CallRouter {X} e.

#[export] Instance SubE_net_servers : SubE ServerE NetE := fun _ e => CallServers e.
#[export] Instance SubE_net_router : SubE RouterE NetE := fun _ e => CallRouter e.

Definition ErrNoRouterId : error := errorf "router-id not set in cloud provider config" [].

(** [NewRoutes], of the identifier in the options. *)
Definition NewRoutes (RouterId : string) : res string :=
  if bool_decide (RouterId = "") then Err ErrNoRouterId else Ok RouterId.

(** * Unwinding *)

(** [Caller]: is the unwinding armed? *)
Definition Caller : Type := bool.
Definition NewCaller : Caller := true.
Definition Disarm (c : Caller) : Caller := false.

Section routes.
Context `{MapRange}.
#[local] Abbreviation M A := (prog NetE A).

Definition Call (c : Caller) (f : M unit) : M unit := if c then f else Done tt.

(** [defer onFailure.Call(unwind)] before [body]: the deferred call is made
    when the body returns, with the caller as it then is, and when it panics,
    which is before any [Disarm]. *)
Fixpoint deferred {A} (unwind : M unit) (body : M (Caller * A)) : M (Caller * A) :=
  match body with
  | Done (c, a) => let! _ := Call c unwind in Done (c, a)
  | Crash why => let! _ := unwind in Crash why
  | Vis e k => Vis e (fun x => deferred unwind (k x))
  end.

(** The unwinder, or the error. *)
Definition updateRoutes (rtr : router) (newRoutes : list router_route) : M (res (M unit)) :=
  let! err := trigger (RouterUpdate (rt_ID rtr) newRoutes) in
  match err with
  | Some err => fail err
  | None => ok (let! _ := trigger (RouterUpdate (rt_ID rtr) (rt_Routes rtr)) in Done tt)
  end.

Definition updateAllowedAddressPairs (p : port) (newPairs : list AddressPair) : M (res (M unit)) :=
  let! err := trigger (PortUpdate (port_ID p) newPairs) in
  match err with
  | Some err => fail err
  | None => ok (let! _ := trigger (PortUpdate (port_ID p) (AllowedAddressPairs p)) in Done tt)
  end.

(** The handler of [getPortByIP]. *)
Definition find_port (ipAddress : string) (found : option port) (page : list port)
    : option port * bool * option error :=
  match List.find (fun p => bool_decide (ipAddress ∈ FixedIPs p)) page with
  | Some p => (Some p, false, None)
  | None => (found, true, None)
  end.

Definition getPortByIP (ipAddress : string) : M (res port) :=
  let! listed := trigger ListPorts in
  match EachPage (find_port ipAddress) listed.1 listed.2 None with
  | (_, Some err) => fail err
  | (None, None) => fail ErrNotFound
  | (Some p, None) => ok p
  end.

(** ** [Routes] *)

(** The handler of [ListRoutes]. *)
Definition name_addresses (nodeNamesByAddr : gmap string string) (srv : server)
    : gmap string string * bool * option error :=
  match nodeAddresses srv with
  | Err err => (nodeNamesByAddr, false, Some err)
  | Ok addrs =>
      (fold_left (fun m addr => <[na_Address addr := mapServerToNodeName srv]> m) addrs nodeNamesByAddr,
       true, None)
  end.

Definition routes_of (nodeNamesByAddr : gmap string string) (items : list router_route)
    : list Route :=
  item ← items;
  match nodeNamesByAddr !! rr_NextHop item with
  | None => []
  | Some nodeName =>
      [{| RouteName := rr_DestinationCIDR item; TargetNode := nodeName;
          DestinationCIDR := rr_DestinationCIDR item |}]
  end.

Definition ListRoutes (routerId : string) : M (res (list Route)) :=
  let! named := foreachServer "" "ACTIVE" name_addresses ∅ in
  match named with
  | (_, Some err) => fail err
  | (nodeNamesByAddr, None) =>
      let? rtr := trigger (RouterGet routerId) in
      ok (routes_of nodeNamesByAddr (rt_Routes rtr))
  end.

Definition is_route (route : Route) (addr : string) (item : router_route) : bool :=
  bool_decide (rr_DestinationCIDR item = DestinationCIDR route) &&
  bool_decide (rr_NextHop item = addr).

Definition is_pair (route : Route) (item : AddressPair) : bool :=
  bool_decide (IPAddress item = DestinationCIDR route).

(** What [CreateRoute] does once the router has the new route. *)
Definition allow_addresses (route : Route) (addr : string) (onFailure : Caller)
    : M (Caller * option error) :=
  let! got := getPortByIP addr in
  match got with
  | Err err => Done (onFailure, Some err)
  | Ok p =>
      if existsb (is_pair route) (AllowedAddressPairs p) then Done (Disarm onFailure, None)
      else
        let newPairs := (AllowedAddressPairs p ++
                         [{| IPAddress := DestinationCIDR route; MACAddress := "" |}])%list in
        let! updated := updateAllowedAddressPairs p newPairs in
        match updated with
        | Err err => Done (onFailure, Some err)
        | Ok unwind => deferred unwind (Done (Disarm onFailure, None))
        end
  end.

Definition CreateRoute (routerId : string) (route : Route) : M (option error) :=
  let onFailure := NewCaller in
  let! got := getAddressByName (TargetNode route) in
  match got with
  | Err err => Done (Some err)
  | Ok addr =>
      let! got := trigger (RouterGet routerId) in
      match got with
      | Err err => Done (Some err)
      | Ok rtr =>
          let routes := rt_Routes rtr in
          if existsb (is_route route addr) routes then Done None
          else
            let routes := (routes ++ [{| rr_DestinationCIDR := DestinationCIDR route;
                                         rr_NextHop := addr |}])%list in
            let! updated := updateRoutes rtr routes in
            match updated with
            | Err err => Done (Some err)
            | Ok unwind =>
                let! ended := deferred unwind (allow_addresses route addr onFailure) in
                Done ended.2
            end
      end
  end.

(** [xs[i] = xs[j]; xs = xs[:j]]: the elements of the array, which every
    slice that shares it sees, and those of the new [xs]; an index that is
    not in [xs] panics. *)
Definition swap_remove {A} (xs : list A) (i : nat) (j : Z) : option (list A * list A) :=
  if bool_decide (j < 0)%Z then None
  else match xs !! Z.to_nat j with
       | None => None
       | Some x => let array := <[i := x]> xs in Some (array, take (Z.to_nat j) array)
       end.

(** The position of the first element that satisfies [f]. *)
Fixpoint find_index {A} (f : A -> bool) (xs : list A) : option nat :=
  match xs with
  | [] => None
  | x :: xs' => if f x then Some O else S <$> find_index f xs'
  end.

(** What [DeleteRoute] does once the router is without the route; [n] is the
    number of routes left. *)
Definition disallow_addresses (route : Route) (addr : string) (n : nat) (onFailure : Caller)
    : M (Caller * option error) :=
  let! got := getPortByIP addr in
  match got with
  | Err err => Done (onFailure, Some err)
  | Ok p =>
      match find_index (is_pair route) (AllowedAddressPairs p) with
      | None => Done (Disarm onFailure, None)
      | Some index =>
          (* the length is that of the routes, not of the pairs *)
          match swap_remove (AllowedAddressPairs p) index (Z.of_nat n - 1) with
          | None => Crash "index out of range"
          | Some (array, addr_pairs) =>
              let p := {| port_ID := port_ID p; FixedIPs := FixedIPs p;
                          AllowedAddressPairs := array |} in
              let! updated := updateAllowedAddressPairs p addr_pairs in
              match updated with
              | Err err => Done (onFailure, Some err)
              | Ok unwind => deferred unwind (Done (Disarm onFailure, None))
              end
          end
      end
  end.

Definition DeleteRoute (routerId : string) (route : Route) : M (option error) :=
  let onFailure := NewCaller in
  let! got := getAddressByName (TargetNode route) in
  match got with
  | Err err => Done (Some err)
  | Ok addr =>
      let! got := trigger (RouterGet routerId) in
      match got with
      | Err err => Done (Some err)
      | Ok rtr =>
          match find_index (is_route route addr) (rt_Routes rtr) with
          | None => Done None
          | Some index =>
              match swap_remove (rt_Routes rtr) index (Z.of_nat (length (rt_Routes rtr)) - 1) with
              | None => Crash "index out of range"
              | Some (array, routes) =>
                  (* [router.Routes] shares the array *)
                  let rtr := {| rt_ID := rt_ID rtr; rt_Routes := array |} in
                  let! updated := updateRoutes rtr routes in
                  match updated with
                  | Err err => Done (Some err)
                  | Ok unwind =>
                      let! ended := deferred unwind
                                      (disallow_addresses route addr (length routes) onFailure) in
                      Done ended.2
                  end
              end
          end
      end
  end.
End routes.

(** * Theorems *)

(** ** Observations *)

#[local] Abbreviation net_event := (event NetE).

(** The answers to the readings of the router, and the updates of its routes
    and of the pairs of a port, each with whether it was accepted. *)
Definition routers_read (tr : list net_event) : list (res router) :=
  ev ← tr;
  match ev with
  | Event (CallServers _) _ => []
  | Event (CallRouter e) x =>
      match e in RouterE X return X -> list (res router) with
      | RouterGet _ => fun r => [r]
      | _ => fun _ => []
      end x
  end.

Definition accepted (err : option error) : bool :=
  match err with None => true | Some _ => false end.

Definition route_updates (tr : list net_event) : list (list router_route * bool) :=
  ev ← tr;
  match ev with
  | Event (CallServers _) _ => []
  | Event (CallRouter e) x =>
      match e in RouterE X return X -> list (list router_route * bool) with
      | RouterUpdate _ routes => fun err => [(routes, accepted err)]
      | _ => fun _ => []
      end x
  end.

Definition pair_updates (tr : list net_event) : list (list AddressPair * bool) :=
  ev ← tr;
  match ev with
  | Event (CallServers _) _ => []
  | Event (CallRouter e) x =>
      match e in RouterE X return X -> list (list AddressPair * bool) with
      | PortUpdate _ pairs => fun err => [(pairs, accepted err)]
      | _ => fun _ => []
      end x
  end.

(** The writes of a run, as events. *)
Definition read_router (routerId : string) (got : res router) : net_event :=
  Event (CallRouter (RouterGet routerId)) got.
Definition wrote_routes (routerId : string) (routes : list router_route) (err : option error) : net_event :=
  Event (CallRouter (RouterUpdate routerId routes)) err.
Definition wrote_pairs (portId : string) (pairs : list AddressPair) (err : option error) : net_event :=
  Event (CallRouter (PortUpdate portId pairs)) err.

Definition no_writes (tr : list net_event) : Prop := route_updates tr = [] /\ pair_updates tr = [].

Definition route_item (route : Route) (addr : string) : router_route :=
  {| rr_DestinationCIDR := DestinationCIDR route; rr_NextHop := addr |}.
Definition route_pair (route : Route) : AddressPair :=
  {| IPAddress := DestinationCIDR route; MACAddress := "" |}.

(** ** Lemmas *)

Section theorems.
Context `{MapRange}.

#[local] Abbreviation M A := (prog NetE A).

Lemma always_getAddress {B} name (f : res string -> M B) Q tr :
  (forall listed r, always (f r) Q (tr ++ [Event (CallServers (ListServers
      ("^" +:+ QuoteMeta name +:+ "$") "ACTIVE")) listed])) ->
  always (bind (getAddressByName name) f) Q tr.
Proof.
  intros Hf. unfold getAddressByName, getAddressesByName, getServerByName, mapNodeNameToServerName.
  go_unfold. cbn. intros listed. specialize (Hf listed).
  destruct (EachPage _ _ _ _) as [[|srv found] [err|]]; cbn; try apply Hf.
  destruct (nodeAddresses srv) as [[|first addrs]|err]; cbn; try apply Hf.
  destruct (bool_decide _); [apply Hf|]. destruct (List.find _ _); apply Hf.
Qed.

Lemma find_exact route addr routes :
  existsb (is_route route addr) routes =
  bool_decide ({| rr_DestinationCIDR := DestinationCIDR route; rr_NextHop := addr |} ∈ routes).
Proof.
  apply eq_true_iff_eq. rewrite existsb_exists, bool_decide_eq_true. unfold is_route. split.
  - intros ([c h] & Hin%list_elem_of_In & Heq). apply andb_true_iff in Heq as [Hc Hh].
    apply bool_decide_eq_true in Hc, Hh. cbn in *. by subst.
  - intros Hin. eexists. split; [by apply list_elem_of_In|].
    cbn. by rewrite !bool_decide_eq_true_2.
Qed.

(** The look-ups write nothing. *)
Lemma getAddress_no_writes name lookup r :
  exec (getAddressByName name : M (res string)) lookup (Returned r) -> no_writes lookup.
Proof.
  intros He. refine (always_exec _ (fun tr _ => no_writes tr) _ _ _ He).
  rewrite <- bind_Done. apply always_getAddress. by intros listed r'.
Qed.

Lemma getAddress_returns name lookup why :
  ~ exec (getAddressByName name : M (res string)) lookup (Panicked why).
Proof.
  intros He. refine (always_exec _ (fun _ o => forall why, o <> Panicked why) _ _ _ He _ eq_refl).
  rewrite <- bind_Done. apply always_getAddress. by intros listed r' why'.
Qed.

Lemma no_writes_app tr tr' : no_writes tr -> no_writes tr' -> no_writes (tr ++ tr').
Proof.
  unfold no_writes, route_updates, pair_updates. intros [Hr Hp] [Hr' Hp'].
  by rewrite !bind_app, Hr, Hp, Hr', Hp'.
Qed.

(** The calls of a creation that succeeded, and of one that failed. *)
Definition route_created (routerId : string) (route : Route) (tr : list net_event) : Prop :=
  exists lookup addr rtr,
    exec (getAddressByName (TargetNode route) : M (res string)) lookup (Returned (Ok addr)) /\
    if bool_decide (route_item route addr ∈ rt_Routes rtr) then
      tr = (lookup ++ [read_router routerId (Ok rtr)])%list
    else exists listing p,
      exec (getPortByIP addr : M (res port)) listing (Returned (Ok p)) /\
      tr = (lookup ++ [read_router routerId (Ok rtr);
                       wrote_routes (rt_ID rtr) (rt_Routes rtr ++ [route_item route addr]) None]
            ++ listing
            ++ (if existsb (is_pair route) (AllowedAddressPairs p) then []
                else [wrote_pairs (port_ID p) (AllowedAddressPairs p ++ [route_pair route]) None]))%list.

Definition route_not_created (routerId : string) (route : Route) (tr : list net_event) : Prop :=
  exists before, no_writes before /\
    (tr = before \/
     exists lookup addr rtr,
       exec (getAddressByName (TargetNode route) : M (res string)) lookup (Returned (Ok addr)) /\
       before = (lookup ++ [read_router routerId (Ok rtr)])%list /\
       let new := (rt_Routes rtr ++ [route_item route addr])%list in
       ((exists e, tr = (before ++ [wrote_routes (rt_ID rtr) new (Some e)])%list) \/
        exists middle restored,
          tr = (before ++ [wrote_routes (rt_ID rtr) new None] ++ middle
                ++ [wrote_routes (rt_ID rtr) (rt_Routes rtr) restored])%list /\
          route_updates middle = [] /\ Forall (fun '(_, ok) => ok = false) (pair_updates middle))).

Lemma read_no_writes lookup routerId got : no_writes lookup -> no_writes (lookup ++ [read_router routerId got]).
Proof. intros Hl. by apply no_writes_app. Qed.

(** Once the router has the new route. *)
Lemma allow_addresses_run routerId route lookup addr rtr :
  no_writes lookup ->
  exec (getAddressByName (TargetNode route) : M (res string)) lookup (Returned (Ok addr)) ->
  route_item route addr ∉ rt_Routes rtr ->
  let new := (rt_Routes rtr ++ [route_item route addr])%list in
  always (let! ended := deferred (let! _ := trigger (RouterUpdate (rt_ID rtr) (rt_Routes rtr)) in Done tt)
                          (allow_addresses route addr NewCaller) in
          Done ended.2)
    (fun tr o => exists err, o = Returned err /\
       match err with
       | None => route_created routerId route tr
       | Some _ => route_not_created routerId route tr
       end) (lookup ++ [read_router routerId (Ok rtr); wrote_routes (rt_ID rtr) new None]).
Proof.
  intros Hlookup Haddr Hnew new. unfold allow_addresses.
  assert (forall middle restored, route_updates middle = [] ->
    Forall (fun '(_, ok) => ok = false) (pair_updates middle) ->
    route_not_created routerId route
      (((lookup ++ [read_router routerId (Ok rtr); wrote_routes (rt_ID rtr) new None]) ++ middle) ++
       [wrote_routes (rt_ID rtr) (rt_Routes rtr) restored])) as Hundone.
  { intros middle restored Hroutes Hpairs. eexists. split; [by apply read_no_writes|]. right.
    exists lookup, addr, rtr. split_and!; [done..|]. right. exists middle, restored. split; [|done].
    by rewrite <- !app_assoc. }
  assert (forall listing p, exec (getPortByIP addr : M (res port)) listing (Returned (Ok p)) ->
    route_created routerId route
      ((lookup ++ [read_router routerId (Ok rtr); wrote_routes (rt_ID rtr) new None]) ++ listing ++
       (if existsb (is_pair route) (AllowedAddressPairs p) then []
        else [wrote_pairs (port_ID p) (AllowedAddressPairs p ++ [route_pair route]) None]))) as Hdone.
  { intros listing p Hp. exists lookup, addr, rtr. split; [done|].
    rewrite bool_decide_eq_false_2 by done. exists listing, p. split; [done|]. by rewrite <- app_assoc. }
  unfold getPortByIP, updateAllowedAddressPairs. go_unfold. cbn. intros [pages last].
  assert (forall p, EachPage (find_port addr) pages last None = (Some p, None) ->
    exec (getPortByIP addr : M (res port)) [Event (CallRouter ListPorts) (pages, last)] (Returned (Ok p))) as Hp.
  { intros p Hp. unfold getPortByIP. cbn. do 2 eexists. split; [done|]. cbn. by rewrite Hp. }
  destruct (EachPage _ _ _ _) as [[p|] [e|]]; cbn.
  1,3,4: intros restored; eexists; split; [done|]; by apply Hundone.
  specialize (Hdone _ p (Hp p eq_refl)). destruct (existsb _ _) eqn:Hpair; cbn.
  - eexists. split; [done|]. by rewrite app_nil_r in Hdone.
  - intros [e|]; cbn.
    + intros restored. exists (Some e). split; [done|].
      rewrite <- (app_assoc _ [_] [Event (inject (PortUpdate _ _)) _]).
      apply Hundone; [done|]. by repeat constructor.
    + eexists. split; [done|]. by rewrite <- app_assoc.
Qed.

(** C38: Creating a route is a transaction.  [CreateRoute] never panics.  When it
    succeeds it has found the address of the node and read the router; if the
    router has the route nothing is written, and the port is not looked at;
    otherwise it wrote to the router the routes it had with the new one at the
    end, found the port of the address, and, unless one of the port's pairs
    is for the route, wrote to this port the pairs it had with the new one at
    the end, and every write was accepted.  When it fails nothing was written,
    or the router refused the new routes, or after at most refused updates of
    the port the last request writes the routes back that the router had. *)
Theorem CreateRoute_transaction routerId route :
  always (CreateRoute routerId route)
    (fun tr o => exists err, o = Returned err /\
       match err with
       | None => route_created routerId route tr
       | Some _ => route_not_created routerId route tr
       end) [].
Proof.
  unfold CreateRoute. apply exec_then; [|by intros lookup why ?%getAddress_returns].
  intros lookup [addr|e] Haddr; pose proof (getAddress_no_writes _ _ _ Haddr) as Hlookup; cbn.
  2: { eexists. split; [done|]. by exists lookup; split; [|left]. }
  intros [rtr|e]; cbn.
  2: { eexists. split; [done|]. eexists. split; [by apply read_no_writes|by left]. }
  rewrite find_exact. fold (route_item route addr). destruct (bool_decide _) eqn:Hnew; cbn.
  { eexists. split; [done|]. exists lookup, addr, rtr. split; [done|]. by rewrite Hnew. }
  apply bool_decide_eq_false in Hnew. intros [e|]; cbn; rewrite <- app_assoc.
  - eexists. split; [done|]. eexists. split; [by apply read_no_writes|]. right.
    exists lookup, addr, rtr. split_and!; [done..|]. left. exists e. by rewrite <- app_assoc.
  - by apply allow_addresses_run.
Qed.

Lemma find_index_Some {A} (f : A -> bool) xs i :
  find_index f xs = Some i -> exists x, xs !! i = Some x /\ f x = true.
Proof.
  revert i; induction xs as [|x xs IH]; intros i; cbn; [done|]. destruct (f x) eqn:Hf.
  - intros [= <-]. by exists x.
  - destruct (find_index f xs) as [j|]; [|done]. intros [= <-]. by apply IH.
Qed.

Lemma find_index_route route addr routes :
  match find_index (is_route route addr) routes with
  | Some i => routes !! i = Some {| rr_DestinationCIDR := DestinationCIDR route; rr_NextHop := addr |}
  | None => True
  end.
Proof.
  destruct (find_index _ _) as [i|] eqn:Hi; [|done]. apply find_index_Some in Hi as ([c h] & Hi & Heq).
  apply andb_true_iff in Heq as [Hc%bool_decide_eq_true Hh%bool_decide_eq_true]. cbn in *. by subst.
Qed.

(** The array of the routes after the element [i] was overwritten with the
    last. *)
Definition overwritten {A} (i : nat) (xs : list A) : list A :=
  match last xs with Some x => <[i := x]> xs | None => xs end.

Lemma swap_remove_last {A} (xs : list A) i x :
  xs !! i = Some x ->
  swap_remove xs i (Z.of_nat (length xs) - 1) =
    Some (overwritten i xs, take (length xs - 1) (overwritten i xs)).
Proof.
  intros Hi. pose proof (lookup_lt_Some _ _ _ Hi) as Hlt. unfold swap_remove, overwritten.
  rewrite bool_decide_eq_false_2 by lia.
  replace (Z.to_nat (Z.of_nat (length xs) - 1)) with (length xs - 1) by lia.
  rewrite last_lookup. replace (Nat.pred (length xs)) with (length xs - 1) by lia.
  destruct (lookup_lt_is_Some_2 xs (length xs - 1)) as [y ->]; [lia|done].
Qed.

(** What is left is the rest. *)
Lemma swap_remove_rest {A} (xs : list A) i x :
  xs !! i = Some x -> xs ≡ₚ x :: take (length xs - 1) (overwritten i xs).
Proof.
  intros Hi. pose proof (lookup_lt_Some _ _ _ Hi) as Hlt. unfold overwritten.
  destruct (last xs) as [y|] eqn:Hy; [|apply last_None in Hy; by subst].
  apply last_Some in Hy as [l ->]. rewrite length_app in *; cbn in *.
  replace (length l + 1 - 1) with (length l) by lia.
  destruct (decide (i = length l)) as [->|Hne].
  - rewrite lookup_app_r, Nat.sub_diag in Hi by lia. injection Hi as ->.
    rewrite insert_app_r_alt, Nat.sub_diag by lia. rewrite take_app_length.
    by rewrite (Permutation_app_comm l).
  - rewrite lookup_app_l in Hi by lia. rewrite insert_app_l by lia.
    rewrite take_app_le by (rewrite length_insert; lia).
    rewrite take_ge by (rewrite length_insert; lia).
    rewrite (Permutation_app_comm l); cbn.
    rewrite <- (take_drop_middle l i x) at 1 by done.
    rewrite (insert_take_drop l i y) by lia. by rewrite <- !Permutation_middle, Permutation_swap.
Qed.

(** Overwriting an element that is not the last loses it. *)
Lemma overwritten_loses {A} (xs : list A) i x :
  NoDup xs -> xs !! i = Some x -> S i < length xs -> x ∉ overwritten i xs.
Proof.
  intros Hnd Hi Hlt. unfold overwritten.
  destruct (last xs) as [y|] eqn:Hy; [|apply last_None in Hy; subst; cbn in Hlt; lia].
  rewrite last_lookup in Hy. intros [j Hj]%list_elem_of_lookup.
  apply list_lookup_insert_Some in Hj as [(-> & -> & _)|[Hne Hj]].
  - assert (j = Nat.pred (length xs)) by (by eapply NoDup_lookup). lia.
  - by assert (i = j) by (by eapply NoDup_lookup).
Qed.

(** What [DeleteRoute] writes to the router, for the route at [i]: the rest
    of the routes, and, if it does not succeed, the overwritten array. *)
Definition delete_updates (routes : list router_route) (i : nat)
    (updates : list (list router_route * bool)) (o : outcome (option error)) : Prop :=
  let rest := take (length routes - 1) (overwritten i routes) in
  match o with
  | Returned None => updates = [(rest, true)]
  | Returned (Some _) =>
      updates = [(rest, false)] \/
      exists restored, updates = [(rest, true); (overwritten i routes, restored)]
  | Panicked _ => exists restored, updates = [(rest, true); (overwritten i routes, restored)]
  end.

(** Deleting a route.  Nothing is written to the router if it has no such
    route, or something failed before.  Otherwise the router is first given
    the rest of its routes, in another order, and when that is accepted and
    [DeleteRoute] succeeds, this was the only update.  When it fails or
    panics after that, the update that should restore the router writes its
    routes with the deleted one overwritten by the last one: unless the
    deleted route was the last, the router is left without it although the
    caller is told that the deletion failed. *)
Theorem DeleteRoute_outcome routerId route :
  always (DeleteRoute routerId route)
    (fun tr o =>
       (route_updates tr = [] /\ pair_updates tr = [] /\ exists err, o = Returned err) \/
       exists rtr addr i,
         let old := {| rr_DestinationCIDR := DestinationCIDR route; rr_NextHop := addr |} in
         routers_read tr = [Ok rtr] /\ rt_Routes rtr !! i = Some old /\
         delete_updates (rt_Routes rtr) i (route_updates tr) o /\
         rt_Routes rtr ≡ₚ old :: take (length (rt_Routes rtr) - 1) (overwritten i (rt_Routes rtr)) /\
         (NoDup (rt_Routes rtr) -> S i < length (rt_Routes rtr) ->
          old ∉ overwritten i (rt_Routes rtr))) [].
Proof.
  unfold DeleteRoute. apply always_getAddress. intros listed [addr|e]; cbn.
  2: by left; eauto.
  intros [rtr|e]; cbn.
  2: by left; eauto.
  pose proof (find_index_route route addr (rt_Routes rtr)) as Hi.
  destruct (find_index _ _) as [i|]; cbn; [|by left; eauto].
  rewrite (swap_remove_last _ _ _ Hi). cbn.
  pose proof (swap_remove_rest _ _ _ Hi) as Hrest.
  assert (NoDup (rt_Routes rtr) -> S i < length (rt_Routes rtr) -> _) as Hlost
    by (intros; by eapply overwritten_loses).
  intros [e|]; cbn; [right; exists rtr, addr, i; split_and!; try done; by left|].
  unfold disallow_addresses, getPortByIP, updateAllowedAddressPairs. go_unfold. cbn. intros [pages last].
  destruct (EachPage _ _ _ _) as [[p|] [e|]]; cbn.
  1,3,4: intros x; right; exists rtr, addr, i; split_and!; try done; right; by eexists.
  destruct (find_index (is_pair route) _) as [j|]; cbn; [|by right; exists rtr, addr, i].
  destruct (swap_remove (AllowedAddressPairs p) j _) as [[array pairs]|]; cbn.
  - intros [e|]; cbn; [|by right; exists rtr, addr, i].
    intros x; right; exists rtr, addr, i; split_and!; try done; right; by eexists.
  - intros x; right; exists rtr, addr, i; split_and!; try done; by eexists.
Qed.
End theorems.

(** * Runs *)

#[local] Instance sorted : MapRange := map_range_sorted.

(** A service with one server, a router with these routes and a port for the
    server with these pairs, if [with_port]; it accepts every update. *)
Definition example_net (routes : list router_route) (pairs : list AddressPair) (with_port : bool)
    : handler NetE unit := fun X e w =>
  match e with
  | CallServers e =>
      (match e in ServerE X return X with
       | ListServers _ _ =>
           ([[{| sv_ID := "id"; sv_Name := "node"; sv_Addresses := Ok ∅;
                 sv_AccessIPv4 := "10.0.0.1"; sv_AccessIPv6 := "" |}]], None)
       end, w)
  | CallRouter e =>
      (match e in RouterE X return X with
       | RouterGet id => Ok {| rt_ID := id; rt_Routes := routes |}
       | RouterUpdate _ _ => None
       | ListPorts =>
           (if with_port then
              [[{| port_ID := "port"; FixedIPs := ["10.0.0.1"]; AllowedAddressPairs := pairs |}]]
            else [], None)
       | PortUpdate _ _ => None
       end, w)
  end.

Definition example_route : Route :=
  {| RouteName := ""; TargetNode := "node"; DestinationCIDR := "10.1.0.0/24" |}.
Definition example_item (cidr : string) : router_route :=
  {| rr_DestinationCIDR := cidr; rr_NextHop := "10.0.0.1" |}.

(** The port is not found: the deletion fails, every update was accepted,
    and the route is gone. *)
Example DeleteRoute_loses_route :
  let h := example_net [example_item "10.1.0.0/24"; example_item "10.2.0.0/24"] [] false in
  run h (DeleteRoute "router" example_route) tt = (Returned (Some ErrNotFound), tt) /\
  route_updates (calls h (DeleteRoute "router" example_route) tt) =
    [([example_item "10.2.0.0/24"], true);
     ([example_item "10.2.0.0/24"; example_item "10.2.0.0/24"], true)].
Proof. split; vm_compute; reflexivity. Qed.

(** The only route of the router, with its pair at the port. *)
Example DeleteRoute_panics :
  let h := example_net [example_item "10.1.0.0/24"]
             [{| IPAddress := "10.1.0.0/24"; MACAddress := "" |}] true in
  run h (DeleteRoute "router" example_route) tt = (Panicked "index out of range", tt) /\
  route_updates (calls h (DeleteRoute "router" example_route) tt) =
    [([], true); ([example_item "10.1.0.0/24"], true)].
Proof. split; vm_compute; reflexivity. Qed.

(** With two routes and two pairs, the deletion of one pair drops both. *)
Example DeleteRoute_drops_pairs :
  let pair ip := {| IPAddress := ip; MACAddress := "" |} in
  let h := example_net (example_item <$> ["10.1.0.0/24"; "10.2.0.0/24"])
             [pair "10.1.0.0/24"; pair "10.2.0.0/24"] true in
  run h (DeleteRoute "router" example_route) tt = (Returned None, tt) /\
  pair_updates (calls h (DeleteRoute "router" example_route) tt) = [([], true)].
Proof. split; vm_compute; reflexivity. Qed.
