(* ===== verification/GceInstances.v ===== *)
(** The instances, zones, routes and clusters of the GCE provider ([gce.go]),
    and the making of its [GCECloud].

    The metadata server answers [MetaE]; the lists of the Compute service come
    in pages, of which [maxPages] are read. *)

From stdpp Require Import pretty.
From S2P Require Import Prelude GoStrings Types Api Wait CloudProvider VolumePlugins Gce OpenStackInstances OpenStackRoutes.
From Stdlib Require Import Lia.

#[local] Open Scope string_scope.

(** * Data and calls *)

(** [compute.Instance]; its tags are a pointer. *)
Record compute_Instance := {
  gi_Name : string;
  gi_Id : Z;
  gi_Disks : list string;
  gi_MachineType : string;
  gi_Tags : option (list string);
}.

(** [compute.Metadata]: the value of an item is a pointer. *)
Record MetadataItem := { mi_Key : string; mi_Value : option string }.
Record Metadata := { md_Fingerprint : string; md_Items : list MetadataItem }.

Record compute_Route := {
  cr_Name : string;
  cr_DestRange : string;
  cr_NextHopInstance : string;
  cr_Network : string;
  cr_Priority : Z;
  cr_Description : string;
}.

(** A page of a list, and the token of the next one. *)
Definition page_of (T : Type) : Type := list T * string.

Inductive MetaE : Type -> Type :=
| MetadataGet (suffix : string) : MetaE (res string)
| MetadataProjectID : MetaE (res string).

(** The requests; the metadata of a project is a pointer. *)
Inductive NodeE : Type -> Type :=
| InstancesListPage (zone filter pageToken : string) : NodeE (res (page_of compute_Instance))
| ProjectsGet : NodeE (res (option Metadata))
| SetCommonInstanceMetadata (metadata : option Metadata) : NodeE (res Operation)
| RoutesListPage (filter pageToken : string) : NodeE (res (page_of compute_Route))
| RoutesInsert (route : compute_Route) : NodeE (res Operation)
| RoutesDelete (name : string) : NodeE (res Operation)
| ClustersList (zone : string) : NodeE (res (list string)).

Inductive GceNodeE (X : Type) : Type :=
| NodeSys (e : GceSysE X)
| NodeMeta (e : MetaE X)
| NodeCall (e : NodeE X).
Arguments NodeSys {X} e.
Arguments NodeMeta {X} e.
Arguments NodeCall {X} e.
#[export] Instance SubE_node_sys : SubE GceSysE GceNodeE := fun _ e => NodeSys e.
#[export] Instance SubE_node_tick : SubE TickE GceNodeE := fun _ e => NodeSys (GceTick e).
#[export] Instance SubE_node_meta : SubE MetaE GceNodeE := fun _ e => NodeMeta e.
#[export] Instance SubE_node_call : SubE NodeE GceNodeE := fun _ e => NodeCall e.

#[local] Abbreviation M A := (prog GceNodeE A).

(** * The metadata server *)

Definition getProjectAndZone : M (res (string * string)) :=
  let? result := trigger (MetadataGet "instance/zone") in
  match Split result "/" with
  | [_; _; _; zone] =>
      let? projectID := trigger MetadataProjectID in
      ok (projectID, zone)
  | _ => fail (errorf "unexpected response: %s" [result])
  end.

(** [Split] gives at least one part. *)
Definition getInstanceIDViaMetadata : M (res string) :=
  let? result := trigger (MetadataGet "instance/hostname") in
  match Split result "." with
  | [] => fail (errorf "unexpected response: %s" [result])
  | part :: _ => ok part
  end.

Definition getCurrentExternalIDViaMetadata : M (res string) :=
  let? externalID := trigger (MetadataGet "instance/id")
    else (fun err => Errorf "couldn't get external ID: %v" [FErr (Some err)]) in
  ok externalID.

Definition getCurrentMachineTypeViaMetadata : M (res string) :=
  let? mType := trigger (MetadataGet "instance/machine-type")
    else (fun err => Errorf "couldn't get machine type: %v" [FErr (Some err)]) in
  match Split mType "/" with
  | [_; _; _; t] => ok t
  | _ => fail (errorf "unexpected response for machine type: %s" [mType])
  end.

Definition getNetworkNameViaMetadata : M (res string) :=
  let? result := trigger (MetadataGet "instance/network-interfaces/0/network") in
  match Split result "/" with
  | [_; _; _; name] => ok name
  | _ => fail (errorf "unexpected response: %s" [result])
  end.

Definition NodeAddresses (_ : string) : M (res (list NodeAddress)) :=
  let? internalIP := trigger (MetadataGet "instance/network-interfaces/0/ip")
    else (fun err => Errorf "couldn't get internal IP: %v" [FErr (Some err)]) in
  let? externalIP := trigger (MetadataGet "instance/network-interfaces/0/access-configs/0/external-ip")
    else (fun err => Errorf "couldn't get external IP: %v" [FErr (Some err)]) in
  ok [{| na_Type := "InternalIP"; na_Address := internalIP |};
      {| na_Type := "ExternalIP"; na_Address := externalIP |}].

(** An error is logged. *)
Definition isCurrentInstance (instanceID : string) : M bool :=
  let! got := getInstanceIDViaMetadata in
  Done (match got with
        | Err _ => false
        | Ok currentInstanceID => bool_decide (currentInstanceID = canonicalizeInstanceName instanceID)
        end).

(** * Names and addresses *)

Definition makeHostURL (projectID zone host : string) : string :=
  "https://www.googleapis.com/compute/v1/projects/" +:+ projectID +:+ "/zones/" +:+ zone +:+
  "/instances/" +:+ canonicalizeInstanceName host.

Definition makeComparableHostPath (h : gceInstance) : string :=
  "/zones/" +:+ in_Zone h +:+ "/instances/" +:+ in_Name h.

Definition hostURLToComparablePath (hostURL : string) : string :=
  match String.index 0 "/zones/" hostURL with
  | None => ""
  | Some idx => drop_bytes idx hostURL
  end.

Definition gceNetworkURL (project network : string) : string :=
  "https://www.googleapis.com/compute/v1/projects/" +:+ project +:+ "/global/networks/" +:+ network.

Definition truncateClusterName (clusterName : string) : string :=
  if bool_decide (26 < String.length clusterName) then take_bytes 26 clusterName else clusterName.

(** [path.Base] *)
Definition path_Base (path : string) : string :=
  if bool_decide (path = "") then "."
  else
    let path := lastComponent (TrimRightByte path "/") in
    if bool_decide (path = "") then "/" else path.

(** [strings.Contains(s, substr)] *)
Definition Contains (s substr : string) : bool := bool_decide (is_Some (String.index 0 substr s)).

Definition getMetadataValue (metadata : Metadata) (key : string) : M (option string) :=
  match List.find (fun item => bool_decide (mi_Key item = key)) (md_Items metadata) with
  | None => Done None
  | Some item =>
      match mi_Value item with
      | None => Crash "nil pointer dereference"
      | Some value => Done (Some value)
      end
  end.

(** * Pages *)

Definition maxPages : nat := 25.

(** The loop over the pages of a list: [left] more may follow this one. *)
Fixpoint each_page {E T S} (list_page : string -> prog E (res (page_of T)))
    (body : S -> list T -> prog E (res S)) (left_ : nat) (pageToken : string) (s : S)
    : prog E (res S) :=
  let? page := list_page pageToken in
  let? s' := body s page.1 in
  match left_ with
  | O => ok s'
  | Datatypes.S more =>
      if bool_decide (page.2 = "") then ok s' else each_page list_page body more page.2 s'
  end.

Definition all_pages {E T S} (list_page : string -> prog E (res (page_of T)))
    (body : S -> list T -> prog E (res S)) (s : S) : prog E (res S) :=
  each_page list_page body (pred maxPages) "" s.

Definition name_filter (prefix : string) : string :=
  if bool_decide (prefix = "") then "" else "name eq " +:+ prefix +:+ ".*".

(** * Instances *)

Section instances.
Context `{!MapRange} (gce : GCECloud).

(** The prefix that all the names have, or none. *)
Definition common_prefix (names : list string) : string :=
  if forallb (fun name => HasPrefix name (nodeInstancePrefix gce)) names then nodeInstancePrefix gce else "".

(** The instances found so far, and how many remain. *)
Definition search : Type := gmap string (option gceInstance) * Z.

Definition search_item (zone : string) (s : search) (i : compute_Instance) : search :=
  match s.1 !! gi_Name i with
  | None => s
  | Some _ =>
      (<[gi_Name i := Some {| in_Zone := zone; in_Name := gi_Name i; in_ID := gi_Id i;
                              in_Disks := gi_Disks i;
                              in_Type := lastComponent (gi_MachineType i) |}]> s.1, (s.2 - 1)%Z)
  end.

Fixpoint search_zones (filter : string) (zones : list string) (s : search) : M (res search) :=
  match zones with
  | [] => ok s
  | zone :: rest =>
      if bool_decide (s.2 = 0%Z) then ok s
      else
        let? s' := all_pages (fun pageToken => trigger (InstancesListPage zone filter pageToken))
                     (fun s items => ok (fold_left (search_item zone) items s)) s in
        search_zones filter rest s'
  end.

(** The array of the results, in the order of the names. *)
Fixpoint collect_instances (found : gmap string (option gceInstance)) (names : list string)
    : res (list gceInstance) :=
  match names with
  | [] => Ok []
  | name :: rest =>
      match found !! canonicalizeInstanceName name with
      | Some (Some instance) =>
          match collect_instances found rest with
          | Ok instances => Ok (instance :: instances)
          | Err err => Err err
          end
      | _ => Err InstanceNotFound
      end
  end.

Definition getInstancesByNames (names : list string) : M (res (list gceInstance)) :=
  let wanted := canonicalizeInstanceName <$> names in
  let? s := search_zones (name_filter (common_prefix wanted)) (managedZones gce)
              (fold_left (fun m name => <[name := None]> m) wanted ∅, Z.of_nat (length names)) in
  Done (collect_instances s.1 names).

Definition CurrentNodeName (hostname : string) : res string := Ok hostname.

Definition ExternalID (nodeName : string) : M (res string) :=
  let instanceName := mapNodeNameToInstanceName nodeName in
  let fallback : M (res string) :=
    let? inst := lift (getInstanceByName gce instanceName) in
    ok (pretty (in_ID inst)) in
  if useMetadataServer gce then
    let! current := isCurrentInstance instanceName in
    if current : bool then
      let! got := getCurrentExternalIDViaMetadata in
      match got with Ok externalInstanceID => ok externalInstanceID | Err _ => fallback end
    else fallback
  else fallback.

Definition InstanceID (nodeName : string) : M (res string) :=
  let instanceName := mapNodeNameToInstanceName nodeName in
  let fallback : M (res string) :=
    let? instance := lift (getInstanceByName gce instanceName) in
    ok (projectID gce +:+ "/" +:+ in_Zone instance +:+ "/" +:+ in_Name instance) in
  if useMetadataServer gce then
    let! current := isCurrentInstance instanceName in
    if current : bool then
      let! got := getProjectAndZone in
      match got with
      | Ok (projectID, zone) => ok (projectID +:+ "/" +:+ zone +:+ "/" +:+ canonicalizeInstanceName instanceName)
      | Err _ => fallback
      end
    else fallback
  else fallback.

Definition InstanceType (nodeName : string) : M (res string) :=
  let instanceName := mapNodeNameToInstanceName nodeName in
  let fallback : M (res string) :=
    let? instance := lift (getInstanceByName gce instanceName) in
    ok (in_Type instance) in
  if useMetadataServer gce then
    let! current := isCurrentInstance instanceName in
    if current : bool then
      let! got := getCurrentMachineTypeViaMetadata in
      match got with Ok mType => ok mType | Err _ => fallback end
    else fallback
  else fallback.

(** The key is added to the first item "sshKeys", or in a new one. *)
Fixpoint add_key (keyString : string) (items : list MetadataItem) : M (option (list MetadataItem)) :=
  match items with
  | [] => Done (Some [{| mi_Key := "sshKeys"; mi_Value := Some keyString |}])
  | item :: rest =>
      if bool_decide (mi_Key item = "sshKeys") then
        match mi_Value item with
        | None => Crash "nil pointer dereference"
        | Some value =>
            if Contains value keyString then Done None
            else Done (Some ({| mi_Key := mi_Key item;
                                mi_Value := Some (value +:+ String "010" keyString) |} :: rest))
        end
      else
        let! added := add_key keyString rest in
        Done (cons item <$> added)
  end.

Definition add_ssh_key (keyString : string) : M (bool * option error) :=
  let! got := trigger ProjectsGet in
  match got with
  | Err _ => Done (false, None)
  | Ok None => Crash "nil pointer dereference"
  | Ok (Some metadata) =>
      let! added := add_key keyString (md_Items metadata) in
      match added with
      | None => Done (true, None)
      | Some items =>
          let! set := trigger (SetCommonInstanceMetadata
                                 (Some {| md_Fingerprint := md_Fingerprint metadata; md_Items := items |})) in
          match set with
          | Err _ => Done (false, None)
          | Ok op =>
              let! err := lift (waitForGlobalOp (Some op)) in
              Done (bool_decide (err = None), None)
          end
      end
  end.

Definition AddSSHKeyToAllInstances (user keyData : string) : M (option error) :=
  Poll (add_ssh_key (user +:+ ":" +:+ TrimSpace keyData +:+ " " +:+ user +:+ "@" +:+ user))
    (2 * Second) (30 * Second).

(** ** Tags *)

(** The names of the hosts by their zones. *)
Definition host_names (hosts : list gceInstance) : gmap string (gset string) :=
  fold_left (fun m host => <[in_Zone host := {[in_Name host]} ∪ default ∅ (m !! in_Zone host)]> m) hosts ∅.

Definition longest_tag (name : string) (tags : list string) : string :=
  fold_left (fun longest tag =>
               if HasPrefix name tag && bool_decide (String.length longest < String.length tag)
               then tag else longest) tags "".

Fixpoint instance_tags (hostNames : gset string) (tags : gset string) (items : list compute_Instance)
    : M (res (gset string)) :=
  match items with
  | [] => ok tags
  | instance :: rest =>
      if bool_decide (gi_Name instance ∉ hostNames) then instance_tags hostNames tags rest
      else
        match gi_Tags instance with
        | None => Crash "nil pointer dereference"
        | Some items =>
            let tag := longest_tag (gi_Name instance) items in
            if bool_decide (tag = "") then
              fail (errorf "Could not find any tag that is a prefix of instance name for instance %s"
                           [gi_Name instance])
            else instance_tags hostNames ({[tag]} ∪ tags) rest
        end
  end.

Definition computeHostTags (hosts : list gceInstance) : M (res (list string)) :=
  let filter := name_filter (common_prefix (in_Name <$> hosts)) in
  let? tags := fold_ok (fun tags (e : string * gset string) =>
                 all_pages (fun pageToken => trigger (InstancesListPage e.1 filter pageToken))
                   (instance_tags e.2) tags) (range (host_names hosts)) ∅ in
  if bool_decide (tags = ∅) then fail (errorf "No instances found" []) else ok (set_List tags).

(** * Zones, routes and clusters *)

Definition GetZone : string * string := (localZone gce, gce_region gce).

Definition k8sNodeRouteTag : string := "k8s-node-route".

(** A route of the list, if it is managed. *)
Definition managed_route (prefix : string) (r : compute_Route) : option Route :=
  if negb (bool_decide (cr_Network r = networkURL gce)) then None
  else if negb (bool_decide (cr_Description r = k8sNodeRouteTag)) then None
  else if negb (HasPrefix (cr_Name r) prefix) then None
  else Some {| RouteName := cr_Name r; TargetNode := path_Base (cr_NextHopInstance r);
               DestinationCIDR := cr_DestRange r |}.

Definition ListRoutes (clusterName : string) : M (res (list Route)) :=
  let prefix := truncateClusterName clusterName in
  all_pages (fun pageToken => trigger (RoutesListPage ("name eq " +:+ prefix +:+ "-.*") pageToken))
    (fun routes items => ok (routes ++ omap (managed_route prefix) items)%list) [].

Definition CreateRoute (clusterName nameHint : string) (route : Route) : M (option error) :=
  let routeName := truncateClusterName clusterName +:+ "-" +:+ nameHint in
  let! got := lift (getInstanceByName gce (mapNodeNameToInstanceName (TargetNode route))) in
  match got with
  | Err err => Done (Some err)
  | Ok targetInstance =>
      let! inserted := trigger (RoutesInsert
        {| cr_Name := routeName; cr_DestRange := DestinationCIDR route;
           cr_NextHopInstance := "zones/" +:+ in_Zone targetInstance +:+ "/instances/" +:+ in_Name targetInstance;
           cr_Network := networkURL gce; cr_Priority := 1000; cr_Description := k8sNodeRouteTag |}) in
      match inserted with
      | Err err => if isHTTPErrorCode err 409 then Done None else Done (Some err)
      | Ok op => lift (waitForGlobalOp (Some op))
      end
  end.

Definition DeleteRoute (clusterName : string) (route : Route) : M (option error) :=
  let! deleted := trigger (RoutesDelete (RouteName route)) in
  match deleted with
  | Err err => Done (Some err)
  | Ok op => lift (waitForGlobalOp (Some op))
  end.

Definition listClustersInZone (zone : string) : M (res (list string)) :=
  let? list := trigger (ClustersList zone) in
  ok list.

Definition ListClusters : M (res (list string)) :=
  fold_ok (fun allClusters zone =>
             let? clusters := listClustersInZone zone in
             ok (allClusters ++ clusters)%list) (managedZones gce) [].

Definition Master (clusterName : string) : res string := Ok ("k8s-" +:+ clusterName +:+ "-master.internal").
End instances.

(** * Theorems *)

(** A loop over pages keeps what its body keeps. *)
Lemma wp_each_page {E T S G} (step : G -> event E -> G) (list_page : string -> prog E (res (page_of T)))
    (body : S -> list T -> prog E (res S)) (I : S -> G -> Prop) (Q : G -> outcome (res S) -> Prop)
    left_ pageToken s g :
  (forall s g pageToken, I s g ->
     wp step (let? page := list_page pageToken in let? s' := body s page.1 in ok (s', page.2))
       (fun g' o => match o with
                    | Returned (Ok (s', _)) => I s' g'
                    | Returned (Err e) => Q g' (Returned (Err e))
                    | Panicked why => Q g' (Panicked why)
                    end) g) ->
  (forall s g, I s g -> Q g (Returned (Ok s))) ->
  I s g -> wp step (each_page list_page body left_ pageToken s) Q g.
Proof.
  intros Hbody Hend. revert pageToken s g; induction left_ as [|more IH]; intros pageToken s g HI; cbn;
    specialize (Hbody s g pageToken HI); unfold bind_ok in *;
    rewrite wp_bind in Hbody |- *; (eapply wp_impl; [exact Hbody|]); intros g' [[page|e]|why]; cbn; try done;
    rewrite !wp_bind; intros Hb; (eapply wp_impl; [exact Hb|]); intros g'' [[s'|e]|why]; cbn; try done; auto.
  case_bool_decide; cbn; auto.
Qed.

Section theorems.
Context `{!MapRange} (gce : GCECloud).

(** The pages of instances that were read, with their zones, and the
    instances in them. *)
#[local] Abbreviation pages := (list (string * res (page_of compute_Instance))).

Definition note_page (read : pages) (ev : event GceNodeE) : pages :=
  match ev with
  | Event (NodeCall e) x =>
      match e in NodeE X return X -> _ with
      | InstancesListPage zone _ _ => fun r => (read ++ [(zone, r)])%list
      | _ => fun _ => read
      end x
  | _ => read
  end.

Definition listed (read : pages) : list (string * compute_Instance) :=
  read ≫= (fun x => match x.2 with Ok page => pair x.1 <$> page.1 | Err _ => [] end).

Definition instance_of (zone : string) (i : compute_Instance) : gceInstance :=
  {| in_Zone := zone; in_Name := gi_Name i; in_ID := gi_Id i; in_Disks := gi_Disks i;
     in_Type := lastComponent (gi_MachineType i) |}.

(** The last instance of a name that was listed. *)
Definition last_listed (read : list (string * compute_Instance)) (name : string) : option gceInstance :=
  last (omap (fun x => if bool_decide (gi_Name x.2 = name) then Some (instance_of x.1 x.2) else None) read).

Definition found_listed (wanted : list string) (s : search) (read : list (string * compute_Instance)) : Prop :=
  forall name, s.1 !! name = if bool_decide (name ∈ wanted) then Some (last_listed read name) else None.

Lemma found_listed_item wanted zone i s read :
  found_listed wanted s read -> found_listed wanted (search_item zone s i) (read ++ [(zone, i)]).
Proof.
  intros Hs name. unfold search_item. pose proof (Hs (gi_Name i)) as Hi. pose proof (Hs name) as Hn.
  unfold last_listed in *. rewrite omap_app. cbn.
  destruct (decide (gi_Name i = name)) as [<-|Hne].
  - rewrite Hn. case_bool_decide; cbn.
    + rewrite lookup_insert_eq, (bool_decide_eq_true_2 (gi_Name i = gi_Name i)) by done. cbn.
      by rewrite last_snoc.
    + by rewrite Hn.
  - rewrite (bool_decide_eq_false_2 (gi_Name i = name)) by done. rewrite app_nil_r.
    destruct (s.1 !! gi_Name i); cbn; [by rewrite lookup_insert_ne|done].
Qed.

Lemma found_listed_items wanted zone items s read :
  found_listed wanted s read ->
  found_listed wanted (fold_left (search_item zone) items s) (read ++ (pair zone <$> items)).
Proof.
  revert s read; induction items as [|i items IH]; intros s read Hs; cbn; [by rewrite app_nil_r|].
  rewrite cons_middle, app_assoc. apply IH. by apply found_listed_item.
Qed.

Lemma listed_snoc read zone (r : res (page_of compute_Instance)) :
  listed (read ++ [(zone, r)]) =
  (listed read ++ match r with Ok page => pair zone <$> page.1 | Err _ => [] end)%list.
Proof. unfold listed. rewrite bind_app. cbn. by rewrite app_nil_r. Qed.

Lemma search_zones_listed wanted filter zones s read :
  found_listed wanted s (listed read) ->
  wp note_page (search_zones filter zones s)
    (fun read' o => exists r, o = Returned r /\
       match r with
       | Ok s' => found_listed wanted s' (listed read')
       | Err e => exists zone, last read' = Some (zone, Err e)
       end) read.
Proof.
  revert s read; induction zones as [|zone zones IH]; intros s read Hs; cbn -[all_pages]; [by exists (Ok s)|].
  case_bool_decide; cbn -[all_pages]; [by exists (Ok s)|]. unfold bind_ok.
  eapply (wp_seq _ _ _ (fun read' o => exists r, o = Returned r /\
            match r with
            | Ok s' => found_listed wanted s' (listed read')
            | Err e => exists zone, last read' = Some (zone, Err e)
            end)).
  - apply (wp_each_page _ _ _ (fun s' g => found_listed wanted s' (listed g))); [|eauto|done].
    clear dependent s. clear read. intros s read token Hs. intros [page|e]; cbn.
    + rewrite listed_snoc. by apply found_listed_items.
    + eexists (Err e). split; [done|]. exists zone. by rewrite last_snoc.
  - intros read' o (r & -> & Hr). destruct r as [s'|e]; [by apply IH|cbn; eauto].
Qed.

Lemma initial_found wanted (m : gmap string (option gceInstance)) name :
  fold_left (fun m name => <[name := None]> m) wanted m !! name =
    if bool_decide (name ∈ wanted) then Some None else m !! name.
Proof.
  revert m; induction wanted as [|w wanted IH]; intros m; cbn; [done|].
  rewrite IH. repeat case_bool_decide; try set_solver.
  - assert (name = w) as -> by set_solver. by rewrite lookup_insert_eq.
  - rewrite lookup_insert_ne; [done|set_solver].
Qed.

Lemma collect_listed found names wanted read :
  found_listed wanted found read -> (forall name, name ∈ names -> canonicalizeInstanceName name ∈ wanted) ->
  match collect_instances found.1 names with
  | Ok instances =>
      Forall2 (fun name i => last_listed read (canonicalizeInstanceName name) = Some i) names instances
  | Err e => e = InstanceNotFound /\
               exists name, name ∈ names /\ last_listed read (canonicalizeInstanceName name) = None
  end.
Proof.
  intros Hf. induction names as [|name names IH]; intros Hin; cbn -[canonicalizeInstanceName]; [constructor|].
  pose proof (Hf (canonicalizeInstanceName name)) as Hn.
  rewrite bool_decide_eq_true_2 in Hn by (apply Hin; set_solver). rewrite Hn.
  specialize (IH (fun name Hname => Hin name (list_elem_of_further _ _ _ Hname))).
  destruct (last_listed read _) as [i|] eqn:Hl.
  - destruct (collect_instances found.1 names) as [instances|e].
    + by constructor.
    + destruct IH as (-> & name' & Hname' & Hnone). split; [done|]. exists name'. split; [by right|done].
  - split; [done|]. exists name. split; [by left|done].
Qed.

(** Instances by their names: whatever the service lists, the answer is made
    of the last instance that was listed with each name, in the order of the
    names.  It is [InstanceNotFound] exactly when all pages were answered and
    some name was not in them, and the error of the service otherwise. *)
Theorem getInstancesByNames_listed names :
  wp note_page (getInstancesByNames gce names)
    (fun read o => exists r, o = Returned r /\
       match r with
       | Ok instances =>
           Forall2 (fun name i => last_listed (listed read) (canonicalizeInstanceName name) = Some i)
             names instances
       | Err e => (exists zone, last read = Some (zone, Err e)) \/
                  e = InstanceNotFound /\
                    exists name, name ∈ names /\
                      last_listed (listed read) (canonicalizeInstanceName name) = None
       end) [].
Proof.
  unfold getInstancesByNames, bind_ok.
  eapply wp_seq; [apply (search_zones_listed (canonicalizeInstanceName <$> names))|].
  - intros name. cbn. rewrite initial_found. by case_bool_decide.
  - intros read o (r & -> & Hr). destruct r as [s|e]; cbn; [|exists (Err e); split; [done|by left]].
    exists (collect_instances s.1 names). split; [done|].
    pose proof (collect_listed s names _ _ Hr) as Hc.
    destruct (collect_instances s.1 names) as [l|e]; [apply Hc|right; apply Hc];
      intros name Hname; by apply list_elem_of_fmap_2.
Qed.
End theorems.
