(* ===== verification/GceLB.v ===== *)
(** The load balancers of the GCE provider ([gce.go]): forwarding rules,
    target pools, firewalls, static addresses and HTTP health checks.

    A region's and the project's requests are calls, answered with [Do()]'s
    answer.  Of a service the fields used are given, with its source ranges
    and the path and port of its health check, which a library computes from
    it. *)

From stdpp Require Import pretty.
From S2P Require Import Prelude GoStrings Par Types Api Wait VolumePlugins CloudProvider Gce GceInstances.
From Stdlib Require Import Lia.

#[local] Open Scope string_scope.

(** * Data *)

Record ServicePort := { sp_Protocol : string; sp_Port : Z }.

Record Service := {
  sv_Namespace : string;
  sv_Name : string;
  sv_UID : string;
  sv_Ports : list ServicePort;
  sv_LoadBalancerIP : string;
  sv_SessionAffinity : string;
  sv_SourceRanges : res (gset string);
  sv_HealthCheckPathPort : string * Z;
}.

Record Node := { nd_Name : string }.

Record ForwardingRule := {
  fr_Name : string;
  fr_Description : string;
  fr_IPAddress : string;
  fr_IPProtocol : string;
  fr_PortRange : string;
  fr_Target : string;
}.

Record TargetPool := {
  tp_Name : string;
  tp_Description : string;
  tp_Instances : list string;
  tp_SessionAffinity : string;
  tp_HealthChecks : list string;
}.

Record FirewallAllowed := { fa_IPProtocol : string; fa_Ports : list string }.
Record Firewall := {
  fw_Name : string;
  fw_Description : string;
  fw_Network : string;
  fw_SourceRanges : list string;
  fw_TargetTags : list string;
  fw_Allowed : list FirewallAllowed;
}.

Record Address := { addr_Name : string; addr_Description : string; addr_Address : string }.

Record HttpHealthCheck := {
  hh_Name : string;
  hh_Port : Z;
  hh_RequestPath : string;
  hh_Host : string;
  hh_Description : string;
  hh_CheckIntervalSec : Z;
  hh_TimeoutSec : Z;
  hh_HealthyThreshold : Z;
  hh_UnhealthyThreshold : Z;
  hh_SelfLink : string;
}.

(** * Calls *)

Inductive GceLbE : Type -> Type :=
| ForwardingRulesGet (region name : string) : GceLbE (res ForwardingRule)
| ForwardingRulesInsert (region : string) (rule : ForwardingRule) : GceLbE (res Operation)
| ForwardingRulesDelete (region name : string) : GceLbE (res Operation)
| TargetPoolsGet (region name : string) : GceLbE (res TargetPool)
| TargetPoolsInsert (region : string) (pool : TargetPool) : GceLbE (res Operation)
| TargetPoolsDelete (region name : string) : GceLbE (res Operation)
| TargetPoolsAddInstance (region name : string) (instances : list string) : GceLbE (res Operation)
| TargetPoolsRemoveInstance (region name : string) (instances : list string) : GceLbE (res Operation)
| FirewallsGet (name : string) : GceLbE (res Firewall)
| FirewallsInsert (firewall : Firewall) : GceLbE (res Operation)
| FirewallsUpdate (name : string) (firewall : Firewall) : GceLbE (res Operation)
| FirewallsDelete (name : string) : GceLbE (res Operation)
| AddressesListPage (region pageToken : string) : GceLbE (res (page_of Address))
| AddressesInsert (region : string) (address : Address) : GceLbE (res Operation)
| AddressesGet (region name : string) : GceLbE (res Address)
| AddressesDelete (region name : string) : GceLbE (res Operation)
| HttpHealthChecksGet (name : string) : GceLbE (res HttpHealthCheck)
| HttpHealthChecksInsert (hc : HttpHealthCheck) : GceLbE (res Operation)
| HttpHealthChecksUpdate (name : string) (hc : HttpHealthCheck) : GceLbE (res Operation)
| HttpHealthChecksDelete (name : string) : GceLbE (res Operation)
| HttpHealthChecksList : GceLbE (res (list HttpHealthCheck)).

Inductive GceNetE (X : Type) : Type :=
| CallNet (e : GceLbE X)
| CallNode (e : GceNodeE X).
Arguments CallNet {X} e.
Arguments CallNode {X} e.
#[export] Instance SubE_net : SubE GceLbE GceNetE := fun _ e => CallNet e.
#[export] Instance SubE_net_node : SubE GceNodeE GceNetE := fun _ e => CallNode e.
#[export] Instance SubE_net_sys : SubE GceSysE GceNetE := fun _ e => CallNode (NodeSys e).

#[local] Abbreviation M A := (prog GceNetE A).

(** [int32(x)] of an [int64]. *)
Definition wrap32 (z : Z) : Z := ((z + 2 ^ 31) mod 2 ^ 32 - 2 ^ 31)%Z.

(** What is done with the answer to an insertion: a conflict, of the request
    or of the operation, is a success. *)
Definition inserted (answer : res Operation) (wait : option Operation -> M (option error))
    : M (option error) :=
  match answer with
  | Err err => if negb (isHTTPErrorCode err 409) then Done (Some err) else Done None
  | Ok op =>
      let! err := wait (Some op) in
      match err with
      | Some err => if negb (isHTTPErrorCode err 409) then Done (Some err) else Done None
      | None => Done None
      end
  end.

(** And to a deletion: what is not found is deleted. *)
Definition deleted (answer : res Operation) (wait : option Operation -> M (option error))
    : M (option error) :=
  match answer with
  | Err err => if isHTTPErrorCode err 404 then Done None else Done (Some err)
  | Ok op => wait (Some op)
  end.

Definition region_wait (region : string) (op : option Operation) : M (option error) :=
  lift (waitForRegionOp op region).
Definition global_wait (op : option Operation) : M (option error) := lift (waitForGlobalOp op).

(** * Sets of networks *)

(** [net.ParseCIDR(s)]: the network, as it is printed. *)
Class CidrParser := ParseCIDR : string -> option string.

Definition ParseIPNets `{CidrParser} (specs : list string) : option (gset string) :=
  fold_left (fun nets spec =>
               match nets, ParseCIDR (TrimSpace spec) with
               | Some nets, Some k => Some ({[k]} ∪ nets)
               | _, _ => None
               end) specs (Some ∅).

Definition gceHcCheckIntervalSeconds : Z := 2.
Definition gceHcTimeoutSeconds : Z := 1.
Definition gceHcHealthyThreshold : Z := 1.
Definition gceHcUnhealthyThreshold : Z := 5.
Definition maxTargetPoolCreateInstances : nat := 200.

(** * Names and texts *)

Definition nodeNames (nodes : list Node) : list string := nd_Name <$> nodes.

Definition quote : string := String "034" "".
Definition service_description (serviceName : string) : string :=
  "{" +:+ quote +:+ "kubernetes.io/service-name" +:+ quote +:+ ":" +:+ quote +:+ serviceName +:+
  quote +:+ "}".

Definition makeHealthCheckDescription (serviceName : string) : string := service_description serviceName.

Definition makeFirewallName (name : string) : string := "k8s-fw-" +:+ name.

Definition makeFirewallDescription (serviceName ipAddress : string) : string :=
  "{" +:+ quote +:+ "kubernetes.io/service-name" +:+ quote +:+ ":" +:+ quote +:+ serviceName +:+
  quote +:+ ", " +:+ quote +:+ "kubernetes.io/service-ip" +:+ quote +:+ ":" +:+ quote +:+ ipAddress +:+
  quote +:+ "}".

(** Both are sorted. *)
Definition slicesEqual (x y : list string) : bool :=
  bool_decide (length x = length y) &&
  bool_decide (merge_sort string_le x = merge_sort string_le y).

Definition loadBalancerPortRange (ports : list ServicePort) : res string :=
  match ports with
  | [] => Err (errorf "no ports specified for GCE load balancer" [])
  | p :: _ =>
      if negb (bool_decide (sp_Protocol p = "TCP")) && negb (bool_decide (sp_Protocol p = "UDP")) then
        Err (errorf "Invalid protocol %s, only TCP and UDP are supported" [sp_Protocol p])
      else
        let minPort := fold_left (fun m p => if bool_decide (sp_Port p < m)%Z then sp_Port p else m) ports 65536%Z in
        let maxPort := fold_left (fun m p => if bool_decide (m < sp_Port p)%Z then sp_Port p else m) ports 0%Z in
        Ok (pretty minPort +:+ "-" +:+ pretty maxPort)
  end.

Definition translateAffinityType (affinityType : string) : string :=
  if bool_decide (affinityType = "ClientIP") then "CLIENT_IP" else "NONE".

Definition port_names (ports : list ServicePort) : list string := (fun p => pretty (sp_Port p)) <$> ports.

Section balancers.
Context `{!MapRange, !CidrParser} (gce : GCECloud).

Definition targetPoolURL (name region : string) : string :=
  "https://www.googleapis.com/compute/v1/projects/" +:+ projectID gce +:+ "/regions/" +:+ region +:+
  "/targetPools/" +:+ name.

(** * Health checks *)

Definition GetHttpHealthCheck (name : string) : M (res HttpHealthCheck) := trigger (HttpHealthChecksGet name).

Definition UpdateHttpHealthCheck (hc : HttpHealthCheck) : M (option error) :=
  let! updated := trigger (HttpHealthChecksUpdate (hh_Name hc) hc) in
  match updated with Err err => Done (Some err) | Ok op => global_wait (Some op) end.

Definition DeleteHttpHealthCheck (name : string) : M (option error) :=
  let! answer := trigger (HttpHealthChecksDelete name) in
  deleted answer global_wait.

Definition CreateHttpHealthCheck (hc : HttpHealthCheck) : M (option error) :=
  let! created := trigger (HttpHealthChecksInsert hc) in
  match created with Err err => Done (Some err) | Ok op => global_wait (Some op) end.

Definition ListHttpHealthChecks : M (res (list HttpHealthCheck)) := trigger HttpHealthChecksList.

Definition new_check (name path : string) (port : Z) : HttpHealthCheck :=
  {| hh_Name := name; hh_Port := port; hh_RequestPath := path; hh_Host := "";
     hh_Description := makeHealthCheckDescription name;
     hh_CheckIntervalSec := gceHcCheckIntervalSeconds; hh_TimeoutSec := gceHcTimeoutSeconds;
     hh_HealthyThreshold := gceHcHealthyThreshold; hh_UnhealthyThreshold := gceHcUnhealthyThreshold;
     hh_SelfLink := "" |}.

Definition drifted (hc new : HttpHealthCheck) : bool :=
  negb (bool_decide (hh_Port hc = hh_Port new)) ||
  negb (bool_decide (hh_RequestPath hc = hh_RequestPath new)) ||
  negb (bool_decide (hh_Description hc = hh_Description new)) ||
  negb (bool_decide (hh_CheckIntervalSec hc = hh_CheckIntervalSec new)) ||
  negb (bool_decide (hh_TimeoutSec hc = hh_TimeoutSec new)) ||
  negb (bool_decide (hh_UnhealthyThreshold hc = hh_UnhealthyThreshold new)) ||
  negb (bool_decide (hh_HealthyThreshold hc = hh_HealthyThreshold new)).

(** A check that could not be read, for any reason, is nil.  One that has
    drifted is returned as it was. *)
Definition ensureHttpHealthCheck (name path : string) (port : Z) : M (res HttpHealthCheck) :=
  let newHC := new_check name path port in
  let! got := GetHttpHealthCheck name in
  match got with
  | Err _ =>
      let! err := CreateHttpHealthCheck newHC in
      match err with
      | Some err => fail err
      | None => GetHttpHealthCheck name
      end
  | Ok hc =>
      if drifted hc newHC then
        let! err := UpdateHttpHealthCheck newHC in
        match err with
        | Some err => fail err
        | None => ok hc
        end
      else ok hc
  end.

(** * What needs an update *)

(** Whether the rule exists, whether it needs an update, and its address. *)
Definition forwardingRuleNeedsUpdate (name region loadBalancerIP : string) (ports : list ServicePort)
    : M (res (bool * bool * string)) :=
  let! got := trigger (ForwardingRulesGet region name) in
  match got with
  | Err err =>
      if isHTTPErrorCode err 404 then ok (false, true, "")
      else fail (Errorf "error getting load balancer's forwarding rule: %v" [FErr (Some err)])
  | Ok fwd =>
      if negb (bool_decide (loadBalancerIP = "")) && negb (bool_decide (loadBalancerIP = fr_IPAddress fwd)) then
        ok (true, true, fr_IPAddress fwd)
      else
        match loadBalancerPortRange ports with
        | Err err => fail err
        | Ok portRange =>
            if negb (bool_decide (portRange = fr_PortRange fwd)) then ok (true, true, fr_IPAddress fwd)
            else
              match ports with
              | [] => Crash "index out of range"
              | p :: _ =>
                  if negb (bool_decide (sp_Protocol p = fr_IPProtocol fwd)) then ok (true, true, fr_IPAddress fwd)
                  else ok (true, false, fr_IPAddress fwd)
              end
        end
  end.

Definition targetPoolNeedsUpdate (name region affinityType : string) : M (res (bool * bool)) :=
  let! got := trigger (TargetPoolsGet region name) in
  match got with
  | Err err =>
      if isHTTPErrorCode err 404 then ok (false, true)
      else fail (Errorf "error getting load balancer's target pool: %v" [FErr (Some err)])
  | Ok tp =>
      if negb (bool_decide (tp_SessionAffinity tp = "")) &&
         negb (bool_decide (translateAffinityType affinityType = tp_SessionAffinity tp)) then ok (true, true)
      else ok (true, false)
  end.

Definition firewall_matches (serviceName ipAddress : string) (ports : list ServicePort)
    (sourceRanges : gset string) (fw : Firewall) : bool :=
  if negb (bool_decide (fw_Description fw = makeFirewallDescription serviceName ipAddress)) then false
  else
    match fw_Allowed fw with
    | [a] =>
        if negb (bool_decide (fa_IPProtocol a = "tcp")) && negb (bool_decide (fa_IPProtocol a = "udp")) then false
        else if negb (slicesEqual (port_names ports) (fa_Ports a)) then false
        else
          match ParseIPNets (fw_SourceRanges fw) with
          | None => false
          | Some actualSourceRanges => bool_decide (sourceRanges = actualSourceRanges)
          end
    | _ => false
    end.

Definition firewallNeedsUpdate (name serviceName region ipAddress : string) (ports : list ServicePort)
    (sourceRanges : gset string) : M (res (bool * bool)) :=
  let! got := trigger (FirewallsGet (makeFirewallName name)) in
  match got with
  | Err err =>
      if isHTTPErrorCode err 404 then ok (false, true)
      else fail (Errorf "error getting load balancer's target pool: %v" [FErr (Some err)])
  | Ok fw => ok (true, negb (firewall_matches serviceName ipAddress ports sourceRanges fw))
  end.

(** * The resources *)

Definition createForwardingRule (name serviceName region ipAddress : string) (ports : list ServicePort)
    : M (option error) :=
  match loadBalancerPortRange ports with
  | Err err => Done (Some err)
  | Ok portRange =>
      match ports with
      | [] => Crash "index out of range"
      | p :: _ =>
          let! answer := trigger (ForwardingRulesInsert region
            {| fr_Name := name; fr_Description := service_description serviceName;
               fr_IPAddress := ipAddress; fr_IPProtocol := sp_Protocol p; fr_PortRange := portRange;
               fr_Target := targetPoolURL name region |}) in
          inserted answer (region_wait region)
      end
  end.

(** The text of the error reads the fields of the health check, which is nil
    when there is one. *)
Definition createTargetPool (name serviceName region : string) (hosts : list gceInstance)
    (affinityType : string) (hc : option HttpHealthCheck) : M (option error) :=
  let! hcLinks :=
    match hc with
    | None => Done []
    | Some hc =>
        let! got := ensureHttpHealthCheck name (hh_RequestPath hc) (wrap32 (hh_Port hc)) in
        match got with
        | Err _ => Crash "nil pointer dereference"
        | Ok hc => Done [hh_SelfLink hc]
        end
    end in
  let! answer := trigger (TargetPoolsInsert region
    {| tp_Name := name; tp_Description := service_description serviceName;
       tp_Instances := (fun host => makeHostURL (projectID gce) (in_Zone host) (in_Name host)) <$> hosts;
       tp_SessionAffinity := translateAffinityType affinityType; tp_HealthChecks := hcLinks |}) in
  inserted answer (region_wait region).

Definition firewallObject (name region desc : string) (sourceRanges : gset string)
    (ports : list ServicePort) (hosts : list gceInstance) : M (res Firewall) :=
  let? hostTags :=
    (match nodeTags gce with
     | [] => lift (computeHostTags gce hosts)
     | tags => ok tags
     end)
    else (fun _ => errorf "No node tags supplied and also failed to parse the given lists of hosts for tags. Abort creating firewall rule." []) in
  match ports with
  | [] => Crash "index out of range"
  | p :: _ =>
      ok {| fw_Name := makeFirewallName name; fw_Description := desc; fw_Network := networkURL gce;
            fw_SourceRanges := range_set sourceRanges; fw_TargetTags := hostTags;
            fw_Allowed := [{| fa_IPProtocol := ToLower (sp_Protocol p); fa_Ports := port_names ports |}] |}
  end.

Definition createFirewall (name region desc : string) (sourceRanges : gset string)
    (ports : list ServicePort) (hosts : list gceInstance) : M (option error) :=
  let! got := firewallObject name region desc sourceRanges ports hosts in
  match got with
  | Err err => Done (Some err)
  | Ok firewall =>
      let! answer := trigger (FirewallsInsert firewall) in
      inserted answer global_wait
  end.

(** A conflict of the request is a success, one of the operation is not. *)
Definition updateFirewall (name region desc : string) (sourceRanges : gset string)
    (ports : list ServicePort) (hosts : list gceInstance) : M (option error) :=
  let! got := firewallObject name region desc sourceRanges ports hosts in
  match got with
  | Err err => Done (Some err)
  | Ok firewall =>
      let! updated := trigger (FirewallsUpdate (makeFirewallName name) firewall) in
      match updated with
      | Err err => if negb (isHTTPErrorCode err 409) then Done (Some err) else Done None
      | Ok op => global_wait (Some op)
      end
  end.

(** ** Static addresses *)

(** The loop over the pages of addresses ends when the address is found. *)
Fixpoint owns_address (region ipAddress : string) (left_ : nat) (pageToken : string) : M (res bool) :=
  let? page := trigger (AddressesListPage region pageToken)
    else (fun err => Errorf "failed to list gce IP addresses: %v" [FErr (Some err)]) in
  if existsb (fun addr => bool_decide (addr_Address addr = ipAddress)) page.1 then ok true
  else
    match left_ with
    | O => ok false
    | S more => if bool_decide (page.2 = "") then ok false else owns_address region ipAddress more page.2
    end.

Definition projectOwnsStaticIP (name region ipAddress : string) : M (res bool) :=
  owns_address region ipAddress (pred maxPages) "".

(** The address, and whether it existed: the source names this result
    [created]. *)
Definition ensureStaticIP (name serviceName region existingIP : string) : M (res (string * bool)) :=
  let! answer := trigger (AddressesInsert region
    {| addr_Name := name; addr_Description := service_description serviceName; addr_Address := existingIP |}) in
  let? existed :=
    match answer with
    | Err err =>
        if negb (isHTTPErrorCode err 409)
        then fail (Errorf "error creating gce static IP address: %v" [FErr (Some err)])
        else ok true
    | Ok op =>
        let! err := region_wait region (Some op) in
        match err with
        | Some err =>
            if negb (isHTTPErrorCode err 409)
            then fail (Errorf "error waiting for gce static IP address to be created: %v" [FErr (Some err)])
            else ok true
        | None => ok false
        end
    end in
  let? address := trigger (AddressesGet region name)
    else (fun err => Errorf "error re-getting gce static IP address: %v" [FErr (Some err)]) in
  ok (addr_Address address, existed).

(** ** Deletion *)

Definition deleteForwardingRule (name region : string) : M (option error) :=
  let! answer := trigger (ForwardingRulesDelete region name) in
  deleted answer (region_wait region).

(** Without a health check the one with the pool's name is deleted, whatever
    the outcome. *)
Definition deleteTargetPool (name region : string) (hc : option HttpHealthCheck) : M (option error) :=
  let! answer := trigger (TargetPoolsDelete region name) in
  let! err := deleted answer (region_wait region) in
  match err with
  | Some err => Done (Some err)
  | None =>
      match hc with
      | Some hc => DeleteHttpHealthCheck (hh_Name hc)
      | None => let! _ := DeleteHttpHealthCheck name in Done None
      end
  end.

Definition deleteFirewall (name region : string) : M (option error) :=
  let! answer := trigger (FirewallsDelete (makeFirewallName name)) in
  deleted answer global_wait.

Definition deleteStaticIP (name region : string) : M (option error) :=
  let! answer := trigger (AddressesDelete region name) in
  deleted answer (region_wait region).

Definition DeleteForwardingRule (name : string) : M (option error) :=
  match GetGCERegion (localZone gce) with
  | Err err => Done (Some err)
  | Ok region => deleteForwardingRule name region
  end.

Definition DeleteTargetPool (name : string) (hc : option HttpHealthCheck) : M (option error) :=
  match GetGCERegion (localZone gce) with
  | Err err => Done (Some err)
  | Ok region => deleteTargetPool name region hc
  end.

(** ** Firewalls of others *)

Definition GetFirewall (name : string) : M (res Firewall) := trigger (FirewallsGet name).

Definition tcp_ports (ports : list Z) : list ServicePort :=
  (fun p => {| sp_Port := wrap32 p; sp_Protocol := "TCP" |}) <$> ports.

Definition CreateFirewall (name desc : string) (sourceRanges : gset string) (ports : list Z)
    (hostNames : list string) : M (option error) :=
  match GetGCERegion (localZone gce) with
  | Err err => Done (Some err)
  | Ok region =>
      let! got := lift (getInstancesByNames gce hostNames) in
      match got with
      | Err err => Done (Some err)
      | Ok hosts => createFirewall name region desc sourceRanges (tcp_ports ports) hosts
      end
  end.

Definition DeleteFirewall (name : string) : M (option error) :=
  match GetGCERegion (localZone gce) with
  | Err err => Done (Some err)
  | Ok region => deleteFirewall name region
  end.

Definition UpdateFirewall (name desc : string) (sourceRanges : gset string) (ports : list Z)
    (hostNames : list string) : M (option error) :=
  match GetGCERegion (localZone gce) with
  | Err err => Done (Some err)
  | Ok region =>
      let! got := lift (getInstancesByNames gce hostNames) in
      match got with
      | Err err => Done (Some err)
      | Ok hosts => updateFirewall name region desc sourceRanges (tcp_ports ports) hosts
      end
  end.

(** * The interface *)

(** The address of the balancer, if it exists. *)
Definition GetLoadBalancer (service : Service) : M (res (option string)) :=
  let loadBalancerName := GetLoadBalancerName (sv_UID service) in
  let! got := trigger (ForwardingRulesGet (gce_region gce) loadBalancerName) in
  match got with
  | Ok fwd => ok (Some (fr_IPAddress fwd))
  | Err err => if isHTTPErrorCode err 404 then ok None else fail err
  end.

(** ** Targets *)

(** The links to add, in the order of the hosts, and what is left of the
    existing ones. *)
Definition plan_targets (existing : gset string) (hosts : list gceInstance) : list string * gset string :=
  fold_left (fun '(toAdd, existing) host =>
               let link := makeComparableHostPath host in
               (if bool_decide (link ∉ existing) then (toAdd ++ [link])%list else toAdd, existing ∖ {[link]}))
    hosts ([], existing).

Definition change_targets (links : list string) (request : GceLbE (res Operation)) : M (option error) :=
  match links with
  | [] => Done None
  | _ =>
      let! changed := trigger request in
      match changed with
      | Err err => Done (Some err)
      | Ok op => region_wait (gce_region gce) (Some op)
      end
  end.

Definition updateTargetPool (loadBalancerName : string) (existing : gset string) (hosts : list gceInstance)
    : M (option error) :=
  let '(toAdd, existing) := plan_targets existing hosts in
  let toRemove := range_set existing in
  let! err := change_targets toAdd (TargetPoolsAddInstance (gce_region gce) loadBalancerName toAdd) in
  match err with
  | Some err => Done (Some err)
  | None =>
      let! err := change_targets toRemove
                    (TargetPoolsRemoveInstance (gce_region gce) loadBalancerName toRemove) in
      match err with
      | Some err => Done (Some err)
      | None =>
          let! got := trigger (TargetPoolsGet (gce_region gce) loadBalancerName) in
          match got with
          | Err err => Done (Some err)
          | Ok updatedPool =>
              if negb (bool_decide (length (tp_Instances updatedPool) = length hosts)) then
                Done (Some (Errorf "Unexpected number of instances (%d) in target pool %s after update (expected %d)"
                              [FInt (Z.of_nat (length (tp_Instances updatedPool))); FStr loadBalancerName;
                               FInt (Z.of_nat (length hosts))]))
              else Done None
          end
      end
  end.

Definition UpdateLoadBalancer (service : Service) (nodes : list Node) : M (option error) :=
  let! got := lift (getInstancesByNames gce (nodeNames nodes)) in
  match got with
  | Err err => Done (Some err)
  | Ok hosts =>
      let loadBalancerName := GetLoadBalancerName (sv_UID service) in
      let! got := trigger (TargetPoolsGet (gce_region gce) loadBalancerName) in
      match got with
      | Err err => Done (Some err)
      | Ok pool =>
          updateTargetPool loadBalancerName
            (list_to_set (hostURLToComparablePath <$> tp_Instances pool)) hosts
      end
  end.

(** ** Creation and update *)

(** [isUserOwnedIP] and [isSafeToReleaseIP] *)
Record ip_flags := { isUserOwnedIP : bool; isSafeToReleaseIP : bool }.

(** The deferred function; its error is logged. *)
Definition release (loadBalancerName : string) (f : ip_flags) : M unit :=
  if isUserOwnedIP f then Done tt
  else if isSafeToReleaseIP f then
    let! _ := deleteStaticIP loadBalancerName (gce_region gce) in Done tt
  else Done tt.

(** A part of the body, while the flags have these values: if the function
    returns or panics in it, the deferred function runs. *)
Fixpoint under {A B} (loadBalancerName : string) (f : ip_flags) (p : M (res A)) (k : A -> M (res B))
    : M (res B) :=
  match p with
  | Done (Ok a) => k a
  | Done (Err e) => let! _ := release loadBalancerName f in fail e
  | Crash why => let! _ := release loadBalancerName f in Crash why
  | Vis e next => Vis e (fun x => under loadBalancerName f (next x) k)
  end.

(** The address, and the flags once it is known. *)
Definition choose_ip (loadBalancerName serviceName loadBalancerIP fwdRuleIP : string)
    (k : string -> ip_flags -> M (res string)) : M (res string) :=
  let unsafe := {| isUserOwnedIP := false; isSafeToReleaseIP := false |} in
  let safe := {| isUserOwnedIP := false; isSafeToReleaseIP := true |} in
  let ensure := fun existingIP =>
    let? got := ensureStaticIP loadBalancerName serviceName (gce_region gce) existingIP
      else (fun err => Errorf "failed to ensure static IP %s: %v" [FStr fwdRuleIP; FErr (Some err)]) in
    ok got in
  if negb (bool_decide (loadBalancerIP = "")) then
    under loadBalancerName unsafe
      (let? isStatic := projectOwnsStaticIP loadBalancerName (gce_region gce) loadBalancerIP
         else (fun err => Errorf "failed to test if this GCE project owns the static IP %s: %v"
                            [FStr loadBalancerIP; FErr (Some err)]) in
       if negb isStatic && negb (bool_decide (loadBalancerIP = fwdRuleIP)) then
         fail (Errorf "requested ip %s is neither static nor assigned to LB %s(%v): %v"
                 [FStr loadBalancerIP; FStr loadBalancerName; FStr serviceName; FErr None])
       else ok isStatic)
      (fun isStatic : bool =>
         if isStatic then k loadBalancerIP {| isUserOwnedIP := true; isSafeToReleaseIP := false |}
         else under loadBalancerName safe (ensure fwdRuleIP) (fun got => k got.1 safe))
  else
    under loadBalancerName unsafe (ensure fwdRuleIP)
      (fun got => k got.1 {| isUserOwnedIP := false; isSafeToReleaseIP := negb got.2 |}).

(** The firewall is brought up to date. *)
Definition ensure_firewall (loadBalancerName serviceName ipAddress : string) (ports : list ServicePort)
    (sourceRanges : gset string) (hosts : list gceInstance) : M (res unit) :=
  let? needs := firewallNeedsUpdate loadBalancerName serviceName (gce_region gce) ipAddress ports sourceRanges in
  let '(firewallExists, firewallNeedsUpdate) := needs in
  if firewallNeedsUpdate then
    let desc := makeFirewallDescription serviceName ipAddress in
    let! err := (if firewallExists : bool
                 then updateFirewall loadBalancerName (gce_region gce) desc sourceRanges ports hosts
                 else createFirewall loadBalancerName (gce_region gce) desc sourceRanges ports hosts) in
    match err with Some err => fail err | None => ok tt end
  else ok tt.

(** What is known of the target pool and its health check. *)
Record pool_plan := {
  tpExists : bool;
  tpNeedsUpdate : bool;
  hcExisting : option HttpHealthCheck;
  hcToCreate : option HttpHealthCheck;
}.

Definition plan_pool (loadBalancerName : string) (service : Service) : M (res pool_plan) :=
  let? needs := targetPoolNeedsUpdate loadBalancerName (gce_region gce) (sv_SessionAffinity service) in
  let '(exists_, needsUpdate) := needs in
  let! got := GetHttpHealthCheck loadBalancerName in
  let hcExisting := match got with Ok hc => Some hc | Err _ => None end in
  match got with
  | Err err =>
      if negb (isHTTPErrorCode err 404) then
        fail (Errorf "Error checking HTTP health check %s: %v" [FStr loadBalancerName; FErr (Some err)])
      else
        let '(path, healthCheckNodePort) := sv_HealthCheckPathPort service in
        if negb (bool_decide (path = "")) then
          let? hc := ensureHttpHealthCheck loadBalancerName path healthCheckNodePort
            else (fun err => Errorf "Failed to ensure health check for localized service %v on node port %v: %v"
                               [FStr loadBalancerName; FInt healthCheckNodePort; FErr (Some err)]) in
          ok {| tpExists := exists_; tpNeedsUpdate := true; hcExisting := hcExisting; hcToCreate := Some hc |}
        else ok {| tpExists := exists_; tpNeedsUpdate := needsUpdate; hcExisting := hcExisting;
                   hcToCreate := None |}
  | Ok _ =>
      let '(path, healthCheckNodePort) := sv_HealthCheckPathPort service in
      if negb (bool_decide (path = "")) then
        let? hc := ensureHttpHealthCheck loadBalancerName path healthCheckNodePort
          else (fun err => Errorf "Failed to ensure health check for localized service %v on node port %v: %v"
                             [FStr loadBalancerName; FInt healthCheckNodePort; FErr (Some err)]) in
        ok {| tpExists := exists_; tpNeedsUpdate := needsUpdate; hcExisting := hcExisting;
              hcToCreate := Some hc |}
      else ok {| tpExists := exists_; tpNeedsUpdate := true; hcExisting := hcExisting; hcToCreate := None |}
  end.

(** The rule is taken down when it or the pool is to be made again. *)
Definition drop_rule (loadBalancerName : string) (replace : bool) : M (res unit) :=
  if replace then
    let! err := deleteForwardingRule loadBalancerName (gce_region gce) in
    match err with
    | Some err => fail (Errorf "failed to delete existing forwarding rule %s for load balancer update: %v"
                          [FStr loadBalancerName; FErr (Some err)])
    | None => ok tt
    end
  else ok tt.

Definition drop_pool (loadBalancerName : string) (service : Service) (plan : pool_plan) : M (res unit) :=
  if tpExists plan && tpNeedsUpdate plan then
    let! hcExisting :=
      (if negb (bool_decide ((sv_HealthCheckPathPort service).1 = "")) then
         let! got := GetHttpHealthCheck loadBalancerName in
         Done (match got with Ok hc => Some hc | Err _ => None end)
       else Done (hcExisting plan)) in
    let! err := deleteTargetPool loadBalancerName (gce_region gce) hcExisting in
    match err with
    | Some err => fail (Errorf "failed to delete existing target pool %s for load balancer update: %v"
                          [FStr loadBalancerName; FErr (Some err)])
    | None => ok tt
    end
  else ok tt.

(** The pool is made with its first 200 hosts, and then updated. *)
Definition make_pool (loadBalancerName serviceName : string) (service : Service) (plan : pool_plan)
    (hosts : list gceInstance) : M (res unit) :=
  if tpNeedsUpdate plan then
    let createInstances := if bool_decide (maxTargetPoolCreateInstances < length hosts)
                           then take maxTargetPoolCreateInstances hosts else hosts in
    let! err := createTargetPool loadBalancerName serviceName (gce_region gce) createInstances
                  (sv_SessionAffinity service) (hcToCreate plan) in
    match err with
    | Some err => fail (Errorf "failed to create target pool %s: %v" [FStr loadBalancerName; FErr (Some err)])
    | None =>
        if bool_decide (length hosts <= maxTargetPoolCreateInstances) then ok tt
        else
          let! err := updateTargetPool loadBalancerName
                        (list_to_set (makeComparableHostPath <$> createInstances)) hosts in
          match err with
          | Some err => fail (Errorf "failed to update target pool %s: %v"
                                [FStr loadBalancerName; FErr (Some err)])
          | None => ok tt
          end
    end
  else ok tt.

Definition make_rule (loadBalancerName serviceName ipAddress : string) (ports : list ServicePort)
    (needed : bool) : M (res unit) :=
  if needed then
    let! err := createForwardingRule loadBalancerName serviceName (gce_region gce) ipAddress ports in
    match err with
    | Some err => fail (Errorf "failed to create forwarding rule %s: %v"
                          [FStr loadBalancerName; FErr (Some err)])
    | None => ok tt
    end
  else ok tt.

(** The body once the address is known: [fwd] says whether the rule exists
    and needs an update. *)
Definition ensure_resources (loadBalancerName serviceName : string) (service : Service)
    (hosts : list gceInstance) (fwd : bool * bool) (ipAddress : string) (f : ip_flags) : M (res string) :=
  let ports := sv_Ports service in
  under loadBalancerName f
    (let? sourceRanges := Done (sv_SourceRanges service) in
     let? _ := ensure_firewall loadBalancerName serviceName ipAddress ports sourceRanges hosts in
     plan_pool loadBalancerName service)
    (fun plan =>
       let replace := fwd.1 && (fwd.2 || tpNeedsUpdate plan) in
       let f := if replace
                then {| isUserOwnedIP := isUserOwnedIP f; isSafeToReleaseIP := false |} else f in
       let needed := tpNeedsUpdate plan || fwd.2 in
       under loadBalancerName f
         (let? _ := drop_rule loadBalancerName replace in
          let? _ := drop_pool loadBalancerName service plan in
          let? _ := make_pool loadBalancerName serviceName service plan hosts in
          make_rule loadBalancerName serviceName ipAddress ports needed)
         (fun _ =>
            let f := if needed
                     then {| isUserOwnedIP := isUserOwnedIP f; isSafeToReleaseIP := true |} else f in
            let! _ := release loadBalancerName f in
            ok ipAddress)).

(** The answer is the address of the status. *)
Definition EnsureLoadBalancer (service : Service) (nodes : list Node) : M (res string) :=
  match nodes with
  | [] => fail (errorf "Cannot EnsureLoadBalancer() with no hosts" [])
  | _ =>
      let? hosts := lift (getInstancesByNames gce (nodeNames nodes)) in
      let loadBalancerName := GetLoadBalancerName (sv_UID service) in
      let serviceName := sv_Namespace service +:+ "/" +:+ sv_Name service in
      let? fwd := forwardingRuleNeedsUpdate loadBalancerName (gce_region gce)
                    (sv_LoadBalancerIP service) (sv_Ports service) in
      choose_ip loadBalancerName serviceName (sv_LoadBalancerIP service) fwd.2
        (ensure_resources loadBalancerName serviceName service hosts fwd.1)
  end.
End balancers.

(** ** The deletion of a balancer *)

Inductive GceParE (X : Type) : Type :=
| ParNet (e : GceNetE X)
| ParSched (e : SchedE X).
Arguments ParNet {X} e.
Arguments ParSched {X} e.
#[export] Instance SubE_par_net : SubE GceNetE GceParE := fun _ e => ParNet e.
#[export] Instance SubE_par_lb : SubE GceLbE GceParE := fun _ e => ParNet (CallNet e).
#[export] Instance SubE_par_sched : SubE SchedE GceParE := fun _ e => ParSched e.

Section deletion.
Context (gce : GCECloud).

(** The rule has to be deleted before the pool. *)
Definition delete_rule_and_pool (loadBalancerName : string) (hc : option HttpHealthCheck) : M (option error) :=
  let! err := deleteForwardingRule loadBalancerName (gce_region gce) in
  match err with
  | Some err => Done (Some err)
  | None => deleteTargetPool loadBalancerName (gce_region gce) hc
  end.

(** The aggregate of errors is the list of them; an empty one is nil. *)
Definition EnsureLoadBalancerDeleted (service : Service) : prog GceParE (list error) :=
  let loadBalancerName := GetLoadBalancerName (sv_UID service) in
  let delete := fun hc =>
    let! errs := par (E:=GceParE) (deleteFirewall loadBalancerName (gce_region gce))
                   (deleteStaticIP loadBalancerName (gce_region gce))
                   (delete_rule_and_pool loadBalancerName hc) in
    Done (omap id errs) in
  if negb (bool_decide ((sv_HealthCheckPathPort service).1 = "")) then
    let! got := trigger (HttpHealthChecksGet loadBalancerName) in
    match got with
    | Ok hc => delete (Some hc)
    | Err err => if negb (isHTTPErrorCode err 404) then Done [err] else delete None
    end
  else delete None.
End deletion.

(** * Theorems *)

(** ** The static address *)

Section static_address.
Context `{!MapRange, !CidrParser} (gce : GCECloud) (ip : string).

(** What a release must not be made in: the requested address was found among
    the project's own; or the balancer is without its rule, or its address
    was reserved before and none was requested, and no rule was made since. *)
Record address_state := { as_owned : bool; as_held : bool; as_misused : bool }.

Definition hold (g : address_state) (b : bool) : address_state :=
  {| as_owned := as_owned g; as_held := b; as_misused := as_misused g |}.

Definition address_step (g : address_state) (ev : event GceNetE) : address_state :=
  match ev with
  | Event (CallNet e) x =>
      match e in GceLbE X return X -> address_state with
      | AddressesListPage _ _ => fun r =>
          match r with
          | Ok page =>
              if existsb (fun addr => bool_decide (addr_Address addr = ip)) page.1
              then {| as_owned := true; as_held := as_held g; as_misused := as_misused g |} else g
          | Err _ => g
          end
      | AddressesInsert _ _ => fun r =>
          match r with
          | Err err => if bool_decide (ip = "") && isHTTPErrorCode err 409 then hold g true else g
          | Ok _ => g
          end
      | ForwardingRulesDelete _ _ => fun _ => hold g true
      | ForwardingRulesInsert _ _ => fun r =>
          match r with
          | Ok _ => hold g false
          | Err err => if isHTTPErrorCode err 409 then hold g false else g
          end
      | AddressesDelete _ _ => fun _ =>
          {| as_owned := as_owned g; as_held := as_held g;
             as_misused := as_misused g || as_owned g || as_held g |}
      | _ => fun _ => g
      end x
  | _ => g
  end.

Definition plain_call (X : Type) (e : GceNetE X) : Prop :=
  match e with
  | CallNet (AddressesListPage _ _ | AddressesInsert _ _ | ForwardingRulesDelete _ _
             | ForwardingRulesInsert _ _ | AddressesDelete _ _) => False
  | _ => True
  end.

Lemma address_plain {A} (p : M A) Q g :
  only plain_call p -> (forall o, Q g o) -> wp address_step p Q g.
Proof. apply wp_quiet. intros X [e|e]; [|done]. by destruct e. Qed.

(** No release was misused, and with these flags none would be. *)
Definition releasable (f : ip_flags) (g : address_state) : Prop :=
  as_misused g = false /\
  (isUserOwnedIP f = false -> as_owned g = false /\ (isSafeToReleaseIP f = true -> as_held g = false)).

#[local] Abbreviation kept := (fun g _ => as_misused g = false).

Lemma deleted_plain answer wait :
  (forall op, only plain_call (wait op)) -> only plain_call (deleted answer wait).
Proof. intros Hw. unfold deleted. only_exec. apply Hw. Qed.
Lemma inserted_plain answer wait :
  (forall op, only plain_call (wait op)) -> only plain_call (inserted answer wait).
Proof. intros Hw. unfold inserted. only_exec. apply Hw. Qed.
Lemma region_wait_plain region op : only plain_call (region_wait region op).
Proof. unfold region_wait. only_exec. Qed.
Lemma global_wait_plain op : only plain_call (global_wait op).
Proof. unfold global_wait. only_exec. Qed.

(** The parts that make no call the address depends on, by their names. *)
#[local] Ltac plain_part := fail.
#[local] Ltac plain_step :=
  lazymatch goal with
  | |- forall _, only _ _ => intros ?
  | |- only _ (deleted _ _) => apply deleted_plain
  | |- only _ (inserted _ _) => apply inserted_plain
  | |- only _ (region_wait _ _) => apply region_wait_plain
  | |- only _ (global_wait _) => apply global_wait_plain
  | |- _ => plain_part
  end.
#[local] Ltac plain := repeat (plain_step || only_step).

Lemma delete_check_plain name : only plain_call (DeleteHttpHealthCheck name).
Proof. unfold DeleteHttpHealthCheck. plain. Qed.
Lemma ensure_check_plain name path port : only plain_call (ensureHttpHealthCheck name path port).
Proof.
  unfold ensureHttpHealthCheck, GetHttpHealthCheck, CreateHttpHealthCheck, UpdateHttpHealthCheck. plain.
Qed.
Lemma change_targets_plain links request :
  plain_call _ (CallNet request) -> only plain_call (change_targets gce links request).
Proof. intros Hr. unfold change_targets. plain. Qed.
Lemma update_pool_plain name existing hosts : only plain_call (updateTargetPool gce name existing hosts).
Proof.
  unfold updateTargetPool. destruct (plan_targets existing hosts) as [add rest].
  only_exec; by apply change_targets_plain.
Qed.
#[local] Ltac plain_part ::=
  lazymatch goal with
  | |- only _ (DeleteHttpHealthCheck _) => apply delete_check_plain
  | |- only _ (ensureHttpHealthCheck _ _ _) => apply ensure_check_plain
  | |- only _ (updateTargetPool _ _ _ _) => apply update_pool_plain
  end.

Lemma make_pool_plain name serviceName service plan hosts :
  only plain_call (make_pool gce name serviceName service plan hosts).
Proof. unfold make_pool, createTargetPool. plain. Qed.
Lemma drop_pool_plain name service plan : only plain_call (drop_pool gce name service plan).
Proof. unfold drop_pool, deleteTargetPool, GetHttpHealthCheck. plain. Qed.
Lemma plan_pool_plain name service : only plain_call (plan_pool gce name service).
Proof. unfold plan_pool, targetPoolNeedsUpdate, GetHttpHealthCheck. plain. Qed.
Lemma firewall_plain name serviceName address ports ranges hosts :
  only plain_call (ensure_firewall gce name serviceName address ports ranges hosts).
Proof.
  unfold ensure_firewall, firewallNeedsUpdate, updateFirewall, createFirewall, firewallObject. plain.
Qed.

Lemma wp_release {A} name f (k : unit -> M A) g :
  releasable f g -> (forall g', as_misused g' = false -> wp address_step (k tt) kept g') ->
  wp address_step (bind (release gce name f) k) kept g.
Proof.
  intros [Hm Hf] Hk. unfold release. destruct (isUserOwnedIP f); [by apply Hk|].
  destruct (Hf eq_refl) as [Ho Hh].
  destruct (isSafeToReleaseIP f); [|by apply Hk]. unfold deleteStaticIP. cbn -[deleted]. intros x.
  rewrite Ho, (Hh eq_refl), Hm. cbn -[deleted].
  rewrite !wp_bind. apply address_plain; [plain|]. intros [err|why]; [|done]. by apply Hk.
Qed.

Lemma wp_under {A B} name f (p : M (res A)) (k : A -> M (res B)) g :
  wp address_step p (fun g o => match o with
     | Returned (Ok a) => wp address_step (k a) kept g
     | _ => releasable f g
     end) g ->
  wp address_step (under gce name f p k) kept g.
Proof.
  revert g; induction p as [[a|e]|why|X e next IH]; intros g; cbn; [done|..|by auto].
  all: intros Hr; by apply wp_release.
Qed.

Lemma owns_address_state region left_ pageToken g :
  as_owned g = false ->
  wp address_step (owns_address region ip left_ pageToken)
    (fun g' o => as_misused g' = as_misused g /\ as_held g' = as_held g /\
       exists r, o = Returned r /\ as_owned g' = match r with Ok b => b | Err _ => false end) g.
Proof.
  intros Hg. revert pageToken; induction left_ as [|more IH]; intros pageToken; cbn; unfold bind_or; cbn;
    intros [page|e]; cbn; try (by eauto); destruct (existsb _ page.1); cbn; eauto.
  case_bool_decide; [cbn; eauto|]. apply IH.
Qed.

Lemma static_address_state name serviceName region existingIP g :
  as_held g = false ->
  wp address_step (ensureStaticIP name serviceName region existingIP)
    (fun g' o => as_misused g' = as_misused g /\ as_owned g' = as_owned g /\
       (as_held g' = true -> ip = "" /\ forall address existed, o = Returned (Ok (address, existed)) -> existed = true)) g.
Proof.
  intros Hg. unfold ensureStaticIP, bind_ok, bind_or. apply wp_bind. cbn [trigger wp]. intros [op|e].
  - cbn [address_step inject SubE_net]. apply address_plain; [plain|]. intros o. by rewrite Hg.
  - destruct (bool_decide (ip = "") && isHTTPErrorCode e 409) eqn:Hc; cbn -[isHTTPErrorCode]; rewrite Hc.
    + apply andb_true_iff in Hc as [Hip%bool_decide_eq_true Hc]. rewrite Hc. cbn. intros [address|e']; cbn.
      * split_and!; [done..|]. intros _. split; [done|]. by intros ? ? [= _ <-].
      * done.
    + destruct (isHTTPErrorCode e 409); cbn; [|by rewrite Hg]. by intros [address|e']; cbn; rewrite Hg.
Qed.

Lemma make_rule_state name serviceName address ports needed g :
  wp address_step (make_rule gce name serviceName address ports needed)
    (fun g' o => as_misused g' = as_misused g /\ as_owned g' = as_owned g /\
       (as_held g' = true -> as_held g = true /\ (forall u, o = Returned (Ok u) -> needed = false))) g.
Proof.
  unfold make_rule. destruct needed; [|by cbn; eauto]. unfold createForwardingRule.
  destruct (loadBalancerPortRange ports) as [range_|e]; [|by cbn; eauto].
  destruct ports as [|p ports]; [by cbn; eauto|]. apply wp_bind, wp_bind. cbn [trigger wp]. intros [op|e].
  - cbn [address_step inject SubE_net]. apply address_plain; [plain|]. intros [[err|]|why]; by cbn.
  - cbn -[isHTTPErrorCode]. by destruct (isHTTPErrorCode e 409); cbn.
Qed.

Lemma drop_rule_state name replace g :
  wp address_step (drop_rule gce name replace)
    (fun g' o => as_misused g' = as_misused g /\ as_owned g' = as_owned g /\
       (replace = false -> g' = g)) g.
Proof.
  unfold drop_rule. destruct replace; [|done]. unfold deleteForwardingRule.
  apply wp_bind, wp_bind. cbn [trigger wp]. intros answer. cbn [address_step inject SubE_net].
  apply address_plain; [plain|]. intros [[err|]|why]; by cbn.
Qed.

Lemma resources_kept name serviceName service hosts fwd address f g :
  releasable f g -> wp address_step (ensure_resources gce name serviceName service hosts fwd address f) kept g.
Proof.
  intros Hf. unfold ensure_resources. apply wp_under. unfold bind_ok at 1. cbn [bind].
  destruct (sv_SourceRanges service) as [ranges|e]; [|done]. cbn [bind].
  apply wp_bind, address_plain; [apply firewall_plain|]. intros [[[]|e]|why]; [|done..].
  apply address_plain; [apply plan_pool_plain|]. intros [[plan|e]|why]; [|done..].
  set (replace := fwd.1 && _). set (needed := tpNeedsUpdate plan || fwd.2).
  set (f' := if replace then _ else f). apply wp_under, wp_bind.
  eapply wp_impl; [apply drop_rule_state|]. intros g1 o1 (Hm1 & Ho1 & Hg1).
  assert (releasable f' g1) as Hf'.
  { destruct Hf as [Hm Hf]. split; [congruence|]. subst f'. rewrite Ho1. destruct replace; cbn.
    - intros Hu. split; [apply Hf, Hu|done].
    - by rewrite (Hg1 eq_refl). }
  destruct o1 as [[[]|e]|why]; [|done..].
  apply wp_bind, address_plain; [apply drop_pool_plain|]. intros [[[]|e]|why]; [|done..].
  apply wp_bind, address_plain; [apply make_pool_plain|]. intros [[[]|e]|why]; [|done..].
  eapply wp_impl; [apply make_rule_state|]. intros g2 o2 (Hm2 & Ho2 & Hg2).
  destruct Hf' as [Hm' Hf'].
  assert (releasable f' g2) as Hf2.
  { split; [congruence|]. rewrite Ho2. intros Hu. destruct (Hf' Hu) as [Ho Hh]. split; [done|]. intros Hs.
    destruct (as_held g2) eqn:Hh2; [|done]. destruct (Hg2 eq_refl) as [Hh1 _]. by rewrite Hh in Hh1. }
  destruct o2 as [[[]|e]|why]; [|done..]. apply wp_release; [|done].
  destruct needed eqn:Hn; [|done]. split; [apply Hf2|]. cbn. intros Hu. split; [by apply Hf2|]. intros _.
  destruct (as_held g2) eqn:Hh2; [|done]. destruct (Hg2 eq_refl) as [_ Hno]. by specialize (Hno tt eq_refl).
Qed.
End static_address.


(** With a requested address that is the rule's and not static, it is not
    looked at whether the name of the balancer is reserved already: here it is,
    with another address, which is released when the update fails. *)
Section example.
#[local] Instance sorted : MapRange := map_range_sorted.
#[local] Instance no_cidr : CidrParser := fun _ => None.

Example reserved_address_released :
  let gce := {| projectID := "p"; gce_region := "r"; localZone := "r-a"; managedZones := ["r-a"];
                networkURL := ""; nodeTags := []; nodeInstancePrefix := ""; useMetadataServer := false |} in
  let service := {| sv_Namespace := "ns"; sv_Name := "s"; sv_UID := "1"; sv_Ports := [{| sp_Protocol := "TCP"; sp_Port := 80 |}];
                    sv_LoadBalancerIP := "1.2.3.4"; sv_SessionAffinity := "";
                    sv_SourceRanges := Err ErrWaitTimeout; sv_HealthCheckPathPort := ("", 0%Z) |} in
  let name := GetLoadBalancerName "1" in
  exists before middle r,
    exec (EnsureLoadBalancer gce service [{| nd_Name := "n" |}])
      (before ++
       [Event (CallNet (AddressesInsert "r"
                 {| addr_Name := name; addr_Description := service_description "ns/s";
                    addr_Address := "1.2.3.4" |})) (Err (GoogleError 409 "" []))]
       ++ middle ++
       [Event (CallNet (AddressesDelete "r" name)) (Err (GoogleError 404 "" []))]) (Returned (Err r)).
Proof.
  intros gce service name.
  set (fwd := {| fr_Name := name; fr_Description := ""; fr_IPAddress := "1.2.3.4"; fr_IPProtocol := "TCP";
                 fr_PortRange := ""; fr_Target := "" |}).
  set (node := {| gi_Name := "n"; gi_Id := 1; gi_Disks := []; gi_MachineType := ""; gi_Tags := None |}).
  exists [Event (CallNode (NodeCall (InstancesListPage "r-a" "" ""))) (Ok ([node], ""));
          Event (CallNet (ForwardingRulesGet "r" name)) (Ok fwd);
          Event (CallNet (AddressesListPage "r" "")) (Ok ([], ""))],
    [Event (CallNet (AddressesGet "r" name))
       (Ok {| addr_Name := name; addr_Description := ""; addr_Address := "5.6.7.8" |})].
  eexists. do 6 (eexists _, _; split; [reflexivity|]). by split.
Qed.
End example.

(** ** Deletion *)

Section deletion_theorems.

(** The answer to a deletion of something that is then gone: it was not
    found, or its operation ended without an error. *)
Definition gone (answer : res Operation) : Prop :=
  match answer with
  | Err e => isHTTPErrorCode e 404 = true
  | Ok op => exists seen, wait_outcome (Some op) seen None
  end.

(** A call of the polling of operations. *)
Definition is_poll (ev : event GceNetE) : Prop :=
  match ev with Event (CallNode _) _ => True | _ => False end.

Definition waits (wait : option Operation -> M (option error)) : Prop :=
  forall op, always (wait (Some op)) (fun tr o => Forall is_poll tr /\
    exists err, o = Returned err /\ exists seen, wait_outcome (Some op) seen err) [].

Lemma lift_waits get :
  op_request get -> waits (fun op => lift (waitForOp op (fun name => trigger (get name)))).
Proof.
  intros Hget op. apply always_lift. eapply always_impl; [|by apply waitForOp_outcome].
  intros tr o (seen & err & _ & -> & Hout). split; [|eauto]. apply Forall_fmap, Forall_true. by intros [].
Qed.

Lemma region_waits region : waits (region_wait region).
Proof. apply (lift_waits (RegionOperationsGet region)). intros name. right. left. by eexists. Qed.
Lemma global_waits : waits global_wait.
Proof. apply (lift_waits GlobalOperationsGet). intros name. by right; right. Qed.

Lemma deleted_outcome (request : GceLbE (res Operation)) wait :
  waits wait ->
  always (let! answer := trigger request in deleted answer wait)
    (fun tr o => exists answer rest err,
       tr = Event (CallNet request) answer :: rest /\ Forall is_poll rest /\ o = Returned err /\
       (err = None -> gone answer)) [].
Proof.
  intros Hwait. cbn [trigger bind always]. intros answer. apply (always_extend _ _ [_]).
  destruct answer as [op|e]; cbn [deleted].
  - eapply always_impl; [|apply Hwait]. intros tr o (Htr & err & -> & seen & Hout).
    eexists (Ok op), tr, err. split_and!; [done..|]. intros ->. by exists seen.
  - destruct (isHTTPErrorCode e 404) eqn:He; cbn.
    + eexists (Err e), [], None. by split_and!.
    + by eexists (Err e), [], (Some e).
Qed.

Definition pool_deletion (ev : event GceNetE) : Prop :=
  match ev with Event (CallNet (TargetPoolsDelete _ _)) _ => True | _ => False end.

Lemma poll_no_pool tr : Forall is_poll tr -> Forall (fun ev => ~ pool_deletion ev) tr.
Proof. intros Htr. eapply Forall_impl; [exact Htr|]. intros [X [e|e] x]; cbn; [by intros|]. by intros ? ?. Qed.

(** A deletion by itself. *)
Definition deletion_of (request : GceLbE (res Operation)) (tr : list (event GceNetE))
    (o : outcome (option error)) : Prop :=
  exists err, o = Returned err /\ Forall (fun ev => ~ pool_deletion ev) tr /\
    (err = None -> exists answer, Event (CallNet request) answer ∈ tr /\ gone answer).

Lemma plain_deletion (request : GceLbE (res Operation)) wait :
  waits wait -> (forall x, ~ pool_deletion (Event (CallNet request) x)) ->
  always (let! answer := trigger request in deleted answer wait) (deletion_of request) [].
Proof.
  intros Hwait Hnot. eapply always_impl; [|by apply deleted_outcome].
  intros tr o (answer & rest & err & -> & Hrest & -> & Hgone). exists err. split_and!; [done| |].
  - constructor; [by apply Hnot|by apply poll_no_pool].
  - intros He. exists answer. split; [by left|by apply Hgone].
Qed.

(** A deletion of the rule after which it is gone. *)
Definition rule_gone (region name : string) (ev : event GceNetE) : Prop :=
  exists answer, ev = Event (CallNet (ForwardingRulesDelete region name)) answer /\ gone answer.

(** The rule and the pool: the pool's deletion is asked for only when the rule
    is gone. *)
Definition rule_and_pool (region name : string) (tr : list (event GceNetE)) (o : outcome (option error))
    : Prop :=
  exists err, o = Returned err /\
    precedes (rule_gone region name) pool_deletion tr /\
    (err = None ->
     (exists answer, Event (CallNet (ForwardingRulesDelete region name)) answer ∈ tr /\ gone answer) /\
     exists answer, Event (CallNet (TargetPoolsDelete region name)) answer ∈ tr /\ gone answer).

Lemma rule_and_pool_deleted (gce : GCECloud) name hc :
  always (delete_rule_and_pool gce name hc) (rule_and_pool (gce_region gce) name) [].
Proof.
  unfold delete_rule_and_pool, deleteForwardingRule. apply always_bind.
  eapply always_impl; [|apply deleted_outcome, region_waits].
  intros tr1 o1 (a1 & rest1 & err1 & -> & Hrest1 & -> & Hgone1).
  destruct err1 as [err1|]; cbn [always].
  { exists (Some err1). split_and!; [done| |done]. apply precedes_none.
    constructor; [by intros ?|by apply poll_no_pool]. }
  specialize (Hgone1 eq_refl). apply always_extend. unfold deleteTargetPool.
  cbn [trigger bind always]. intros a2. apply always_bind.
  eapply always_impl; [|exact (deleted_outcome _ _ (region_waits _) a2)].
  intros tr2 o2 (a2' & rest2 & err2 & -> & Hrest2 & -> & Hgone2).
  set (rule := Event _ a1). set (pool := Event _ a2').
  assert (forall tr3 err, (err = None -> err2 = None) ->
    rule_and_pool (gce_region gce) name ((rule :: rest1) ++ (pool :: rest2) ++ tr3)%list (Returned err)) as Hend.
  { intros tr3 err Herr. exists err. split_and!; [done| |].
    - left. by exists a1.
    - intros He. split; [exists a1|exists a2']; (split; [|by auto]); set_solver. }
  destruct err2 as [err2|]; cbn [always].
  { rewrite <- (app_nil_r (pool :: rest2)). by apply Hend. }
  destruct hc as [hc|]; unfold DeleteHttpHealthCheck; [|apply always_bind]; apply always_extend;
    (eapply always_impl; [|apply deleted_outcome, global_waits]);
    intros tr3 o3 (a3 & rest3 & err3 & -> & _ & -> & _); by apply Hend.
Qed.

(** The same in the executions of the goroutines. *)
Definition par_pool_deletion (ev : event GceParE) : Prop :=
  match ev with Event (ParNet (CallNet (TargetPoolsDelete _ _))) _ => True | _ => False end.
Definition par_rule_gone (region name : string) (ev : event GceParE) : Prop :=
  exists answer, ev = Event (ParNet (CallNet (ForwardingRulesDelete region name))) answer /\ gone answer.

Lemma lift_pool ev : par_pool_deletion (lift_event ev) -> pool_deletion ev.
Proof. destruct ev as [X [e|e] x]; [|done]. by destruct e. Qed.

Lemma lift_no_pool tr :
  Forall (fun ev => ~ pool_deletion ev) tr -> Forall (fun ev => ~ par_pool_deletion (lift_event ev)) tr.
Proof. intros Htr. eapply Forall_impl; [exact Htr|]. intros ev Hev Hp. by apply Hev, lift_pool. Qed.

Lemma omap_id_nil (l l' : list (option error)) : l ≡ₚ l' -> omap id l = [] -> Forall (fun e => e = None) l'.
Proof.
  intros Hl Hnil. rewrite <- Hl. clear l' Hl. induction l as [|[e|] l IH]; cbn in Hnil; [constructor|done|].
  constructor; auto.
Qed.

Lemma goroutines_complete (gce : GCECloud) name hc :
  let region := gce_region gce in
  always (par (E:=GceParE) (deleteFirewall name region) (deleteStaticIP name region)
            (delete_rule_and_pool gce name hc))
    (fun tr o => exists errs, o = Returned errs /\
       precedes (par_rule_gone region name) par_pool_deletion tr /\
       (omap id errs = [] ->
        forall request, request ∈ [FirewallsDelete (makeFirewallName name); AddressesDelete region name;
                                   ForwardingRulesDelete region name; TargetPoolsDelete region name] ->
        exists answer, Event (ParNet (CallNet request)) answer ∈ tr /\ gone answer)) [].
Proof.
  intros region. eapply always_impl; [|apply (par_always (E:=GceParE)
    (deleteFirewall name region) (deleteStaticIP name region) (delete_rule_and_pool gce name hc)
    (deletion_of (FirewallsDelete (makeFirewallName name))) (deletion_of (AddressesDelete region name))
    (rule_and_pool region name))].
  2: { apply plain_deletion; [apply global_waits|by intros ? Hp]. }
  2: { apply plain_deletion; [apply region_waits|by intros ? ?]. }
  2: { apply rule_and_pool_deleted. }
  intros tr [errs|why]; [|by intros (tr' & [(err & ? & _)|[(err & ? & _)|(err & ? & _)]])].
  intros (tr1 & tr2 & tr3 & e1 & e2 & e3 & Htr & (? & [= <-] & Hp1 & H1) & (? & [= <-] & Hp2 & H2) &
    (? & [= <-] & Hp3 & H3) & Hl).
  exists errs. split_and!; [done| |].
  - eapply (interleaved_precedes (F:=GceNetE)); [exact Htr|by intros ? ?|by apply lift_no_pool..|].
    eapply precedes_impl; [| |exact Hp3]; [|apply lift_pool]. intros ev (answer & -> & Hg). by exists answer.
  - intros Hnil. apply (omap_id_nil _ _ Hl) in Hnil. rewrite !Forall_cons in Hnil.
    destruct Hnil as (-> & -> & -> & _).
    destruct (H1 eq_refl) as (a1 & Hin1 & Hg1), (H2 eq_refl) as (a2 & Hin2 & Hg2).
    destruct (H3 eq_refl) as [(a3 & Hin3 & Hg3) (a4 & Hin4 & Hg4)].
    assert (forall request a, Event (CallNet request) a ∈ (tr1 ++ tr2 ++ tr3)%list -> gone a ->
      exists answer, Event (ParNet (CallNet request)) answer ∈ tr /\ gone answer) as Hin.
    { intros request a Hin Hg. exists a. split; [|done].
      exact (interleaved_elem (F:=GceNetE) (Event (CallNet request) a) _ _ _ _ Htr Hin). }
    intros request Hr. rewrite !elem_of_cons in Hr.
    destruct Hr as [->|[->|[->|[->|Hr]]]]; [| | | |by apply elem_of_nil in Hr].
    + apply (Hin _ a1); [|exact Hg1]. rewrite !elem_of_app. left. exact Hin1.
    + apply (Hin _ a2); [|exact Hg2]. rewrite !elem_of_app. right; left. exact Hin2.
    + apply (Hin _ a3); [|exact Hg3]. rewrite !elem_of_app. right; right. exact Hin3.
    + apply (Hin _ a4); [|exact Hg4]. rewrite !elem_of_app. right; right. exact Hin4.
Qed.

End deletion_theorems.

(** ** The targets of a pool *)

Section targets.
Context `{!MapRange} (gce : GCECloud).

(** The targets of the pool, by the requests that were accepted. *)
Definition target_step (targets : gset string) (ev : event GceNetE) : gset string :=
  match ev with
  | Event (CallNet e) x =>
      match e in GceLbE X return X -> gset string with
      | TargetPoolsAddInstance _ _ links => fun r => if is_ok r then targets ∪ list_to_set links else targets
      | TargetPoolsRemoveInstance _ _ links => fun r => if is_ok r then targets ∖ list_to_set links else targets
      | _ => fun _ => targets
      end x
  | _ => targets
  end.

Definition links_of (hosts : list gceInstance) : gset string :=
  list_to_set (makeComparableHostPath <$> hosts).

Lemma plan_targets_spec existing hosts :
  (plan_targets existing hosts).2 = existing ∖ links_of hosts /\
  list_to_set (plan_targets existing hosts).1 ⊆ links_of hosts /\
  links_of hosts ⊆ existing ∪ list_to_set (plan_targets existing hosts).1.
Proof.
  unfold plan_targets, links_of.
  enough (forall (add : list string),
    let r := fold_left (fun '(toAdd, existing) host =>
               let link := makeComparableHostPath host in
               (if bool_decide (link ∉ existing) then (toAdd ++ [link])%list else toAdd, existing ∖ {[link]}))
             hosts (add, existing) in
    let links := list_to_set (makeComparableHostPath <$> hosts) : gset string in
    r.2 = existing ∖ links /\ list_to_set r.1 ⊆ links ∪ list_to_set add /\
    links ∪ list_to_set add ⊆ existing ∪ list_to_set r.1) as Hfold
    by (destruct (Hfold []) as (? & ? & ?); cbn in *; set_solver).
  revert existing; induction hosts as [|host hosts IH]; intros existing add; cbn; [set_solver|].
  generalize (makeComparableHostPath host). intros link. case_bool_decide as Hin.
  - specialize (IH (existing ∖ {[link]}) (add ++ [link])%list). cbn zeta in IH.
    destruct (fold_left _ hosts _) as [add' rest]. cbn in *. destruct IH as (-> & H2 & H3).
    rewrite list_to_set_app_L in H2, H3. cbn in H2, H3.
    generalize dependent (list_to_set (makeComparableHostPath <$> hosts) : gset string). intros links ??.
    generalize dependent (list_to_set add' : gset string). intros added ??.
    generalize dependent (list_to_set add : gset string). intros before H2 H3.
    rewrite (right_id_L ∅ (∪)) in H2, H3.
    split_and!; [by rewrite difference_difference_l_L|clear H3; set_solver|].
    intros x Hx. specialize (H3 x). set_solver.
  - specialize (IH (existing ∖ {[link]}) add). cbn zeta in IH.
    destruct (fold_left _ hosts _) as [add' rest]. cbn in *. destruct IH as (-> & H2 & H3).
    generalize dependent (list_to_set (makeComparableHostPath <$> hosts) : gset string). intros links ??.
    generalize dependent (list_to_set add' : gset string). intros added ??.
    generalize dependent (list_to_set add : gset string). intros before H2 H3.
    split_and!; [by rewrite difference_difference_l_L|clear H3; set_solver|].
    intros x Hx. specialize (H3 x). set_solver.
Qed.

(** A change of the pool: what it leaves, and what a failed one does. *)
Lemma change_targets_step links (request : GceLbE (res Operation)) targets targets' :
  (forall r, target_step targets (Event (CallNet request) r) = if is_ok r then targets' else targets) ->
  (links = [] -> targets' = targets) ->
  wp target_step (change_targets gce links request)
    (fun g o => (g = targets' \/ g = targets) /\ exists err, o = Returned err /\ (err = None -> g = targets')) targets.
Proof.
  intros Hstep Hnil. unfold change_targets. destruct links as [|l links].
  { cbn. rewrite Hnil by done. split; [by left|by exists None]. }
  apply wp_bind. cbn [trigger wp]. intros r. change (inject request) with (CallNet request). rewrite Hstep.
  destruct r as [op|e]; cbn [is_ok wp].
  - unfold region_wait. rewrite wp_lift. apply (wp_ignore _ _ _ []); [by intros g []|].
    eapply always_impl; [|apply (waitForOp_outcome (RegionOperationsGet (gce_region gce)))].
    + intros tr o (seen & err & _ & -> & _). split; [by left|]. by exists err.
    + intros name. right. left. by eexists.
  - split; [by right|]. by exists (Some e).
Qed.

End targets.
