(* ===== verification/GceL7.v ===== *)
(** The resources of HTTP load balancing of the GCE provider ([gce.go]):
    global addresses and forwarding rules, URL maps, proxies, certificates,
    backend services and instance groups.

    Each function makes a request and waits for its operation.  Of the
    resources the fields that the code reads or writes are given. *)

From stdpp Require Import pretty.
From S2P Require Import Prelude GoStrings Types Api Wait VolumePlugins Gce GceInstances GceLB.
From Stdlib Require Import Lia.

#[local] Open Scope string_scope.

(** * Data and calls *)

Record UrlMap := { um_Name : string; um_SelfLink : string; um_DefaultService : string }.
Record TargetProxy := {
  px_Name : string;
  px_SelfLink : string;
  px_UrlMap : string;
  px_SslCertificates : list string;
}.
Record SslCertificate := { ssl_Name : string; ssl_SelfLink : string }.
Record BackendService := { be_Name : string; be_SelfLink : string }.
Record NamedPort := { np_Name : string; np_Port : Z }.
Record InstanceGroup := { ig_Name : string; ig_Zone : string; ig_NamedPorts : list NamedPort }.

(** The health of a backend: the states of its instances. *)
Record GroupHealth := { gh_States : list (string * string) }.

Inductive L7E : Type -> Type :=
| GlobalAddressesInsert (address : Address) : L7E (res Operation)
| GlobalAddressesDelete (name : string) : L7E (res Operation)
| GlobalAddressesGet (name : string) : L7E (res Address)
| UrlMapsGet (name : string) : L7E (res UrlMap)
| UrlMapsInsert (urlMap : UrlMap) : L7E (res Operation)
| UrlMapsUpdate (name : string) (urlMap : UrlMap) : L7E (res Operation)
| UrlMapsDelete (name : string) : L7E (res Operation)
| UrlMapsList : L7E (res (list UrlMap))
| TargetHttpProxiesGet (name : string) : L7E (res TargetProxy)
| TargetHttpProxiesInsert (proxy : TargetProxy) : L7E (res Operation)
| TargetHttpProxiesSetUrlMap (name urlMap : string) : L7E (res Operation)
| TargetHttpProxiesDelete (name : string) : L7E (res Operation)
| TargetHttpProxiesList : L7E (res (list TargetProxy))
| TargetHttpsProxiesGet (name : string) : L7E (res TargetProxy)
| TargetHttpsProxiesInsert (proxy : TargetProxy) : L7E (res Operation)
| TargetHttpsProxiesSetUrlMap (name urlMap : string) : L7E (res Operation)
| TargetHttpsProxiesSetSslCertificates (name : string) (certificates : list string) : L7E (res Operation)
| TargetHttpsProxiesDelete (name : string) : L7E (res Operation)
| TargetHttpsProxiesList : L7E (res (list TargetProxy))
| SslCertificatesGet (name : string) : L7E (res SslCertificate)
| SslCertificatesInsert (certificate : SslCertificate) : L7E (res Operation)
| SslCertificatesDelete (name : string) : L7E (res Operation)
| SslCertificatesList : L7E (res (list SslCertificate))
| GlobalForwardingRulesInsert (rule : ForwardingRule) : L7E (res Operation)
| GlobalForwardingRulesSetTarget (name target : string) : L7E (res Operation)
| GlobalForwardingRulesDelete (name : string) : L7E (res Operation)
| GlobalForwardingRulesGet (name : string) : L7E (res ForwardingRule)
| GlobalForwardingRulesList : L7E (res (list ForwardingRule))
| BackendServicesGet (name : string) : L7E (res BackendService)
| BackendServicesInsert (service : BackendService) : L7E (res Operation)
| BackendServicesUpdate (name : string) (service : BackendService) : L7E (res Operation)
| BackendServicesDelete (name : string) : L7E (res Operation)
| BackendServicesList : L7E (res (list BackendService))
| BackendServicesGetHealth (name group : string) : L7E (res GroupHealth)
| InstanceGroupsInsert (zone name : string) : L7E (res Operation)
| InstanceGroupsDelete (zone name : string) : L7E (res Operation)
| InstanceGroupsGet (zone name : string) : L7E (res InstanceGroup)
| InstanceGroupsList (zone : string) : L7E (res (list InstanceGroup))
| InstanceGroupsListInstances (zone name state : string) : L7E (res (list string))
| InstanceGroupsAddInstances (zone name : string) (instances : list string) : L7E (res Operation)
| InstanceGroupsRemoveInstances (zone name : string) (instances : list string) : L7E (res Operation)
| InstanceGroupsSetNamedPorts (zone name : string) (ports : list NamedPort) : L7E (res Operation).

Inductive GceL7E (X : Type) : Type :=
| CallL7 (e : L7E X)
| L7Sys (e : GceSysE X).
Arguments CallL7 {X} e.
Arguments L7Sys {X} e.
#[export] Instance SubE_l7 : SubE L7E GceL7E := fun _ e => CallL7 e.
#[export] Instance SubE_l7_sys : SubE GceSysE GceL7E := fun _ e => L7Sys e.

#[local] Abbreviation M A := (prog GceL7E A).

(** * Requests and their operations *)

(** [if err != nil { return err }; return gce.waitForGlobalOp(op)] *)
Definition request (e : L7E (res Operation)) : M (option error) :=
  let! answer := trigger e in
  match answer with
  | Err err => Done (Some err)
  | Ok op => lift (waitForGlobalOp (Some op))
  end.

Definition zone_request (zone : string) (e : L7E (res Operation)) : M (option error) :=
  let! answer := trigger e in
  match answer with
  | Err err => Done (Some err)
  | Ok op => lift (waitForZoneOp (Some op) zone)
  end.

(** What is not found is deleted. *)
Definition delete_request (e : L7E (res Operation)) : M (option error) :=
  let! answer := trigger e in
  match answer with
  | Err err => if isHTTPErrorCode err 404 then Done None else Done (Some err)
  | Ok op => lift (waitForGlobalOp (Some op))
  end.

(** The resource is read once the operation is done. *)
Definition then_get {A} (p : M (option error)) (get : M (res A)) : M (res A) :=
  let! err := p in
  match err with Some err => fail err | None => get end.

(** ** Global addresses *)

Definition GetGlobalStaticIP (name : string) : M (res Address) := trigger (GlobalAddressesGet name).

Definition ReserveGlobalStaticIP (name ipAddress : string) : M (res Address) :=
  then_get (request (GlobalAddressesInsert
              {| addr_Name := name; addr_Description := ""; addr_Address := ipAddress |}))
    (trigger (GlobalAddressesGet name)).

Definition DeleteGlobalStaticIP (name : string) : M (option error) := request (GlobalAddressesDelete name).

(** ** URL maps *)

Definition GetUrlMap (name : string) : M (res UrlMap) := trigger (UrlMapsGet name).

Definition CreateUrlMap (backend : BackendService) (name : string) : M (res UrlMap) :=
  then_get (request (UrlMapsInsert
              {| um_Name := name; um_SelfLink := ""; um_DefaultService := be_SelfLink backend |}))
    (GetUrlMap name).

Definition UpdateUrlMap (urlMap : UrlMap) : M (res UrlMap) :=
  then_get (request (UrlMapsUpdate (um_Name urlMap) urlMap)) (trigger (UrlMapsGet (um_Name urlMap))).

Definition DeleteUrlMap (name : string) : M (option error) := delete_request (UrlMapsDelete name).
Definition ListUrlMaps : M (res (list UrlMap)) := trigger UrlMapsList.

(** ** Proxies *)

Definition GetTargetHttpProxy (name : string) : M (res TargetProxy) := trigger (TargetHttpProxiesGet name).

Definition CreateTargetHttpProxy (urlMap : UrlMap) (name : string) : M (res TargetProxy) :=
  then_get (request (TargetHttpProxiesInsert
              {| px_Name := name; px_SelfLink := ""; px_UrlMap := um_SelfLink urlMap; px_SslCertificates := [] |}))
    (GetTargetHttpProxy name).

Definition SetUrlMapForTargetHttpProxy (proxy : TargetProxy) (urlMap : UrlMap) : M (option error) :=
  request (TargetHttpProxiesSetUrlMap (px_Name proxy) (um_SelfLink urlMap)).

Definition DeleteTargetHttpProxy (name : string) : M (option error) :=
  delete_request (TargetHttpProxiesDelete name).
Definition ListTargetHttpProxies : M (res (list TargetProxy)) := trigger TargetHttpProxiesList.

Definition GetTargetHttpsProxy (name : string) : M (res TargetProxy) := trigger (TargetHttpsProxiesGet name).

Definition CreateTargetHttpsProxy (urlMap : UrlMap) (sslCert : SslCertificate) (name : string)
    : M (res TargetProxy) :=
  then_get (request (TargetHttpsProxiesInsert
              {| px_Name := name; px_SelfLink := ""; px_UrlMap := um_SelfLink urlMap;
                 px_SslCertificates := [ssl_SelfLink sslCert] |}))
    (GetTargetHttpsProxy name).

Definition SetUrlMapForTargetHttpsProxy (proxy : TargetProxy) (urlMap : UrlMap) : M (option error) :=
  request (TargetHttpsProxiesSetUrlMap (px_Name proxy) (um_SelfLink urlMap)).

Definition SetSslCertificateForTargetHttpsProxy (proxy : TargetProxy) (sslCert : SslCertificate)
    : M (option error) :=
  request (TargetHttpsProxiesSetSslCertificates (px_Name proxy) [ssl_SelfLink sslCert]).

Definition DeleteTargetHttpsProxy (name : string) : M (option error) :=
  delete_request (TargetHttpsProxiesDelete name).
Definition ListTargetHttpsProxies : M (res (list TargetProxy)) := trigger TargetHttpsProxiesList.

(** ** Certificates *)

Definition GetSslCertificate (name : string) : M (res SslCertificate) := trigger (SslCertificatesGet name).

Definition CreateSslCertificate (sslCerts : SslCertificate) : M (res SslCertificate) :=
  then_get (request (SslCertificatesInsert sslCerts)) (GetSslCertificate (ssl_Name sslCerts)).

Definition DeleteSslCertificate (name : string) : M (option error) :=
  delete_request (SslCertificatesDelete name).
Definition ListSslCertificates : M (res (list SslCertificate)) := trigger SslCertificatesList.

(** ** Global forwarding rules *)

Definition GetGlobalForwardingRule (name : string) : M (res ForwardingRule) :=
  trigger (GlobalForwardingRulesGet name).

Definition CreateGlobalForwardingRule (targetProxyLink ip name portRange : string)
    : M (res ForwardingRule) :=
  then_get (request (GlobalForwardingRulesInsert
              {| fr_Name := name; fr_Description := ""; fr_IPAddress := ip; fr_IPProtocol := "TCP";
                 fr_PortRange := portRange; fr_Target := targetProxyLink |}))
    (GetGlobalForwardingRule name).

Definition SetProxyForGlobalForwardingRule (fw : ForwardingRule) (targetProxyLink : string)
    : M (option error) :=
  request (GlobalForwardingRulesSetTarget (fr_Name fw) targetProxyLink).

Definition DeleteGlobalForwardingRule (name : string) : M (option error) :=
  delete_request (GlobalForwardingRulesDelete name).
Definition ListGlobalForwardingRules : M (res (list ForwardingRule)) := trigger GlobalForwardingRulesList.

(** ** Backend services *)

Definition GetBackendService (name : string) : M (res BackendService) := trigger (BackendServicesGet name).
Definition UpdateBackendService (bg : BackendService) : M (option error) :=
  request (BackendServicesUpdate (be_Name bg) bg).
Definition DeleteBackendService (name : string) : M (option error) :=
  delete_request (BackendServicesDelete name).
Definition CreateBackendService (bg : BackendService) : M (option error) :=
  request (BackendServicesInsert bg).
Definition ListBackendServices : M (res (list BackendService)) := trigger BackendServicesList.
Definition GetHealth (name instanceGroupLink : string) : M (res GroupHealth) :=
  trigger (BackendServicesGetHealth name instanceGroupLink).

(** ** Instance groups *)

Section groups.
Context (gce : GCECloud).

Definition GetInstanceGroup (name zone : string) : M (res InstanceGroup) :=
  trigger (InstanceGroupsGet zone name).

Definition CreateInstanceGroup (name zone : string) : M (res InstanceGroup) :=
  then_get (zone_request zone (InstanceGroupsInsert zone name)) (GetInstanceGroup name zone).

Definition DeleteInstanceGroup (name zone : string) : M (option error) :=
  zone_request zone (InstanceGroupsDelete zone name).

Definition ListInstanceGroups (zone : string) : M (res (list InstanceGroup)) :=
  trigger (InstanceGroupsList zone).

Definition ListInstancesInInstanceGroup (name zone state : string) : M (res (list string)) :=
  trigger (InstanceGroupsListInstances zone name state).

Definition instance_links (zone : string) (instanceNames : list string) : list string :=
  makeHostURL (projectID gce) zone <$> instanceNames.

Definition AddInstancesToInstanceGroup (name zone : string) (instanceNames : list string)
    : M (option error) :=
  match instanceNames with
  | [] => Done None
  | _ => zone_request zone (InstanceGroupsAddInstances zone name (instance_links zone instanceNames))
  end.

Definition RemoveInstancesFromInstanceGroup (name zone : string) (instanceNames : list string)
    : M (option error) :=
  match instanceNames with
  | [] => Done None
  | _ =>
      let! answer := trigger (InstanceGroupsRemoveInstances zone name (instance_links zone instanceNames)) in
      match answer with
      | Err err => if isHTTPErrorCode err 404 then Done None else Done (Some err)
      | Ok op => lift (waitForZoneOp (Some op) zone)
      end
  end.

(** The group is the caller's, and the port is appended to it before the
    request is made. *)
Definition AddPortToInstanceGroup (ig : InstanceGroup) (port : Z) : M (InstanceGroup * res NamedPort) :=
  match List.find (fun np => bool_decide (np_Port np = port)) (ig_NamedPorts ig) with
  | Some np => Done (ig, Ok np)
  | None =>
      let namedPort := {| np_Name := "port" +:+ pretty port; np_Port := port |} in
      let ig := {| ig_Name := ig_Name ig; ig_Zone := ig_Zone ig;
                   ig_NamedPorts := (ig_NamedPorts ig ++ [namedPort])%list |} in
      let zone := default "" (last (Split (ig_Zone ig) "/")) in
      let! err := zone_request zone (InstanceGroupsSetNamedPorts zone (ig_Name ig) (ig_NamedPorts ig)) in
      Done (ig, match err with Some err => Err err | None => Ok namedPort end)
  end.
End groups.

(** * Theorems *)

(** The operations a request started, as the polls saw them. *)
Definition l7_polled (tr : list (event GceL7E)) : list (option Operation) :=
  polled (tr ≫= (fun ev => match ev with Event (L7Sys e) x => [Event e x] | _ => [] end)).

(** Whatever is created is returned as it was read after the operation was
    done without an error: for each of the resources that are read back. *)
Theorem then_get_after_operation {A} (e : L7E (res Operation)) (get : L7E (res A)) :
  always (then_get (request e) (trigger get))
    (fun tr o => exists answer rest,
       tr = Event (CallL7 e) answer :: rest /\
       match answer with
       | Err err => rest = [] /\ o = Returned (Err err)
       | Ok op => exists polls err, wait_outcome (Some op) (l7_polled polls) err /\
           match err with
           | Some err => rest = polls /\ o = Returned (Err err)
           | None => exists r, rest = (polls ++ [Event (CallL7 get) r])%list /\ o = Returned r
           end
       end) [].
Proof.
  unfold then_get, request. cbn [trigger bind always]. intros [op|err]; cbn [bind].
  - rewrite always_bind. apply (always_extend _ _ [_]), always_lift.
    eapply always_impl; [|apply (waitForOp_outcome GlobalOperationsGet); by intros name; right; right].
    intros tr o (seen & err & Hseen & -> & Hout). cbn in Hseen.
    assert (l7_polled (lift_event <$> tr) = seen) as Hpolled.
    { rewrite <- Hseen. unfold l7_polled. f_equal. clear. induction tr as [|[X e x] tr IH]; [done|]. cbn. by f_equal. }
    destruct err as [err|]; cbn.
    + eexists (Ok op), _. split; [done|]. eexists _, (Some err). by rewrite Hpolled.
    + intros r. eexists (Ok op), _. split; [done|]. eexists _, None. rewrite Hpolled. split; [done|]. by exists r.
  - by eexists (Err err), [].
Qed.

(** Adding a port that could not be added: the caller's group has it all the
    same, so that adding it again succeeds, without any request. *)
Theorem AddPortToInstanceGroup_again ig port :
  always (AddPortToInstanceGroup ig port)
    (fun _ o => exists ig' r, o = Returned (ig', r) /\
       exists np, np_Port np = port /\ AddPortToInstanceGroup ig' port = Done (ig', Ok np)) [].
Proof.
  unfold AddPortToInstanceGroup at 1.
  destruct (List.find _ (ig_NamedPorts ig)) as [np|] eqn:Hfind.
  - exists ig, (Ok np). split; [done|]. exists np. pose proof (find_some _ _ Hfind) as [_ Hp%bool_decide_eq_true].
    split; [done|]. unfold AddPortToInstanceGroup. by rewrite Hfind.
  - apply always_bind. unfold zone_request. cbn [trigger bind always]. intros answer.
    set (np := Build_NamedPort _ port). set (ig' := Build_InstanceGroup _ _ _).
    assert (AddPortToInstanceGroup ig' port = Done (ig', Ok np)) as Hagain.
    { unfold AddPortToInstanceGroup. cbn [ig_NamedPorts ig'].
      assert (forall l, List.find (fun np => bool_decide (np_Port np = port)) l = None ->
        List.find (fun np => bool_decide (np_Port np = port)) (l ++ [np])%list = Some np) as Hl.
      { clear. induction l as [|x l IH]; cbn; [by rewrite (bool_decide_eq_true_2 (port = port))|].
        destruct (bool_decide _); [done|apply IH]. }
      by rewrite Hl. }
    destruct answer as [op|err]; cbn [always]; [|exists ig', (Err err); split; [done|by exists np]].
    apply always_extend, always_lift. eapply always_impl; [|by apply zone_op_outcome].
    intros tr o (rest & seen & err & _ & _ & -> & _). cbn. eexists ig', _. split; [done|]. by exists np.
Qed.
