(* ===== verification/GceSetup.v ===== *)
(** The making of the GCE provider ([newGCECloud] and [CreateGCECloud] of
    [gce.go]), its search paths, and the alternate source of tokens
    ([token_source.go]).

    The reading of the configuration, the clients and the HTTP requests are
    calls. *)

From S2P Require Import Prelude GoStrings Types Api Wait VolumePlugins Gce GceInstances.
From Stdlib Require Import Lia.

#[local] Open Scope string_scope.

(** * Data and calls *)

(** The section [Global] of [Config]. *)
Record GlobalConfig := {
  gc_TokenURL : string;
  gc_TokenBody : string;
  gc_ProjectID : string;
  gc_NetworkName : string;
  gc_NodeTags : list string;
  gc_NodeInstancePrefix : string;
  gc_Multizone : bool;
}.

Inductive TokenSource :=
| ComputeTokenSource
| AltTokenSource (tokenURL tokenBody : string)
| DefaultTokenSource.

Inductive SetupE : Type -> Type :=
| ReadInto : SetupE (res GlobalConfig)
| FindDefaultTokenSource : SetupE (option error)
| FetchToken (source : TokenSource) : SetupE (option error)
| ComputeNew (source : TokenSource) : SetupE (option error)
| ContainerNew (source : TokenSource) : SetupE (option error)
| NetworksList (project : string) : SetupE (res (list string))
| ZonesList (project : string) : SetupE (res (list (string * string))).

Inductive GceSetupE (X : Type) : Type :=
| CallSetup (e : SetupE X)
| SetupNode (e : GceNodeE X).
Arguments CallSetup {X} e.
Arguments SetupNode {X} e.
#[export] Instance SubE_setup : SubE SetupE GceSetupE := fun _ e => CallSetup e.
#[export] Instance SubE_setup_node : SubE GceNodeE GceSetupE := fun _ e => SetupNode e.
#[export] Instance SubE_setup_tick : SubE TickE GceSetupE := fun _ e => SetupNode (NodeSys (GceTick e)).

#[local] Abbreviation M A := (prog GceSetupE A).

(** * The network and the zones *)

Definition getNetworkNameViaAPICall (projectID : string) : M (res string) :=
  let? networkList := trigger (NetworksList projectID) in
  match networkList with
  | [] => fail (errorf "GCE Network List call returned no networks for project %q." [projectID])
  | name :: _ => ok name
  end.

(** A zone is listed with its name and its region. *)
Definition getZonesForRegion (projectID region : string) : M (res (list string)) :=
  let? zones := trigger (ZonesList projectID)
    else (fun err => Errorf "unexpected response listing zones: %v" [FErr (Some err)]) in
  ok (List.filter (fun zone => bool_decide (lastComponent zone.2 = region)) zones).*1.

(** * The provider *)

(** The first token is waited for; its errors are logged. *)
Definition token_fetched (tokenSource : TokenSource) : M (bool * option error) :=
  let! err := trigger (FetchToken tokenSource) in
  Done (bool_decide (err = None), None).

Definition CreateGCECloud (projectID region zone : string) (managedZones : list string)
    (networkURL : string) (nodeTags : list string) (nodeInstancePrefix : string)
    (tokenSource : option TokenSource) (useMetadataServer : bool) : M (res GCECloud) :=
  let? tokenSource :=
    match tokenSource with
    | None =>
        let! err := trigger FindDefaultTokenSource in
        match err with Some err => fail err | None => ok DefaultTokenSource end
    | Some tokenSource => ok tokenSource
    end in
  let! err := PollImmediate (token_fetched tokenSource) (5 * Second) (30 * Second) in
  match err with
  | Some err => fail err
  | None =>
  let! err := trigger (ComputeNew tokenSource) in
  match err with
  | Some err => fail err
  | None =>
  let! err := trigger (ContainerNew tokenSource) in
  match err with
  | Some err => fail err
  | None =>
      let? networkURL :=
        (if bool_decide (networkURL = "") then
           let? networkName := getNetworkNameViaAPICall projectID in
           ok (gceNetworkURL projectID networkName)
         else ok networkURL) in
      let? managedZones :=
        match managedZones with
        | [] => getZonesForRegion projectID region
        | _ => ok managedZones
        end in
      ok {| Gce.projectID := projectID; gce_region := region; localZone := zone;
            Gce.managedZones := managedZones; Gce.networkURL := networkURL; Gce.nodeTags := nodeTags;
            Gce.nodeInstancePrefix := nodeInstancePrefix; Gce.useMetadataServer := useMetadataServer |}
  end end end.

(** [strings.Contains(name, "/")]; the URL of a network that is named in the
    configuration is made with the configuration's project, which may be
    empty. *)
Definition config_network (cfg : GlobalConfig) (networkURL : string) : string :=
  if negb (bool_decide (gc_NetworkName cfg = "")) then
    if ContainsByte (gc_NetworkName cfg) "/" then gc_NetworkName cfg
    else gceNetworkURL (gc_ProjectID cfg) (gc_NetworkName cfg)
  else networkURL.

Definition newGCECloud (config : bool) : M (res GCECloud) :=
  let? got := lift getProjectAndZone in
  let '(projectID, zone) := got in
  match GetGCERegion zone with
  | Err err => fail err
  | Ok region =>
      let? networkName := lift getNetworkNameViaMetadata in
      let networkURL := gceNetworkURL projectID networkName in
      if config then
        let? cfg := trigger ReadInto in
        CreateGCECloud
          (if negb (bool_decide (gc_ProjectID cfg = "")) then gc_ProjectID cfg else projectID)
          region zone
          (if gc_Multizone cfg then [] else [zone])
          (config_network cfg networkURL) (gc_NodeTags cfg) (gc_NodeInstancePrefix cfg)
          (Some (if negb (bool_decide (gc_TokenURL cfg = ""))
                 then AltTokenSource (gc_TokenURL cfg) (gc_TokenBody cfg) else ComputeTokenSource)) true
      else
        CreateGCECloud projectID region zone [zone] networkURL [] "" (Some ComputeTokenSource) true
  end.

(** * Search paths *)

(** The first rune of a string, as the regular expressions read it: the
    string after it, and whether it is a newline. *)
Definition continuation (a : ascii) (lo hi : nat) : bool := bool_decide (lo <= nat_of_ascii a <= hi).

Definition after_rune (s : string) : option string :=
  match s with
  | EmptyString => None
  | String a s1 =>
      let n := nat_of_ascii a in
      let lo := if bool_decide (n = 224) then 160 else if bool_decide (n = 240) then 144 else 128 in
      let hi := if bool_decide (n = 237) then 159 else if bool_decide (n = 244) then 143 else 191 in
      match s1 with
      | String b s2 =>
          if bool_decide (194 <= n <= 223) && continuation b 128 191 then Some s2
          else
            match s2 with
            | String c s3 =>
                if bool_decide (224 <= n <= 239) && continuation b lo hi && continuation c 128 191 then Some s3
                else
                  match s3 with
                  | String d s4 =>
                      if bool_decide (240 <= n <= 244) && continuation b lo hi && continuation c 128 191
                         && continuation d 128 191 then Some s4
                      else Some s1
                  | EmptyString => Some s1
                  end
            | EmptyString => Some s1
            end
      | EmptyString => Some s1
      end
  end.

(** [.] of a regular expression: any rune but a newline. *)
Definition any_rune (s : string) : option string :=
  match s with
  | String "010" _ => None
  | _ => after_rune s
  end.

Definition literal (p s : string) : option string :=
  if HasPrefix s p then Some (drop_bytes (String.length p) s) else None.

(** [^[0-9]+.google.internal.$], from a point after the digits. *)
Definition useless_rest (s : string) : bool :=
  match any_rune s with
  | None => false
  | Some s =>
      match literal "google" s with
      | None => false
      | Some s =>
          match any_rune s with
          | None => false
          | Some s =>
              match literal "internal" s with
              | None => false
              | Some s => bool_decide (any_rune s = Some "")
              end
          end
      end
  end.

Fixpoint useless_after_digits (s : string) : bool :=
  match s with
  | EmptyString => false
  | String a rest =>
      match digit_of a with
      | None => false
      | Some _ => useless_rest rest || useless_after_digits rest
      end
  end.

Definition uselessDNSSearch (s : string) : bool := useless_after_digits s.

Definition ScrubDNS (nameservers searches : list string) : list string * list string :=
  (nameservers, List.filter (fun s => negb (uselessDNSSearch s)) searches).

(** * The alternate source of tokens *)

Record token := { tok_AccessToken : string; tok_Expiry : Z }.

(** The POST request, the test of its response, the decoding and the closing
    of its body. *)
Inductive TokenE : Type -> Type :=
| NewRequest (method url body : string) : TokenE (option error)
| DoRequest : TokenE (option error)
| CheckResponse : TokenE (option error)
| DecodeToken : TokenE (res token)
| CloseBody : TokenE unit.

(** The counters of the requests and of the failures. *)
Record token_counters := { getTokenCounter : Z; getTokenFailCounter : Z }.

(** [token], with the deferred closing of the body. *)
Definition alt_token (tokenURL tokenBody : string) : prog TokenE (res token) :=
  let! err := trigger (NewRequest "POST" tokenURL tokenBody) in
  match err with
  | Some err => fail err
  | None =>
      let! err := trigger DoRequest in
      match err with
      | Some err => fail err
      | None =>
          let! err := trigger CheckResponse in
          match err with
          | Some err => let! _ := trigger CloseBody in fail err
          | None =>
              let! tok := trigger DecodeToken in
              let! _ := trigger CloseBody in
              Done tok
          end
      end
  end.

Definition Token (tokenURL tokenBody : string) (c : token_counters) : prog TokenE (token_counters * res token) :=
  let! t := alt_token tokenURL tokenBody in
  Done ({| getTokenCounter := getTokenCounter c + 1;
           getTokenFailCounter := if is_ok t then getTokenFailCounter c else getTokenFailCounter c + 1 |}%Z, t).

(** * Theorems *)

Example useless_1 : uselessDNSSearch "123.google.internal." = true.
Proof. reflexivity. Qed.
Example useless_2 : uselessDNSSearch "12xgoogle-internalz" = true.
Proof. reflexivity. Qed.
Example useless_3 : uselessDNSSearch "c.my-project.internal." = false.
Proof. reflexivity. Qed.

(** What is known of a provider that was made. *)
Definition made_well (config : bool) (tr : list (event GceSetupE)) (o : outcome (res GCECloud)) : Prop :=
  exists r, o = Returned r /\
    forall cloud, r = Ok cloud ->
      useMetadataServer cloud = true /\ GetGCERegion (localZone cloud) = Ok (gce_region cloud) /\
      (managedZones cloud = [localZone cloud] \/
       config = true /\ exists zones,
         Event (CallSetup (ZonesList (projectID cloud))) (Ok zones) ∈ tr /\
         forall zone, zone ∈ managedZones cloud -> exists link,
           (zone, link) ∈ zones /\ lastComponent link = gce_region cloud).

Lemma made_failed config tr e : made_well config tr (Returned (Err e)).
Proof. by exists (Err e). Qed.

Lemma CreateGCECloud_well config project region zone zones network tags prefix source tr0 :
  GetGCERegion zone = Ok region -> zones = [zone] \/ (config = true /\ zones = []) ->
  always (CreateGCECloud project region zone zones network tags prefix (Some source) true)
    (made_well config) tr0.
Proof.
  intros Hregion Hzones. unfold CreateGCECloud. cbn [bind_ok bind ok]. apply always_bind.
  eapply always_impl; [|apply returns_always, PollImmediate_returns; by intros x].
  intros tr o (err & rest & -> & ->). destruct err as [err|]; [apply made_failed|].
  cbn [bind trigger always]. intros [err|]; [apply made_failed|]. cbn [bind trigger always].
  intros [err|]; [apply made_failed|].
  apply always_bind. eapply always_impl.
  2: { apply returns_always. case_bool_decide; [|done]. unfold getNetworkNameViaAPICall.
       intros [[|name names]|e]; done. }
  intros tr o ([url|e] & rest' & -> & ->); [|apply made_failed]. cbn [always].
  destruct Hzones as [->|[-> ->]]; cbn [bind_ok bind ok always].
  - eexists. split; [done|]. intros cloud [= <-]. cbn. split_and!; [done..|]. by left.
  - unfold getZonesForRegion. intros [zones|e]; cbn [bind always]; [|apply made_failed].
    eexists. split; [done|]. intros cloud [= <-]. cbn [localZone gce_region useMetadataServer managedZones projectID].
    split_and!; [done..|]. right. split; [done|]. exists zones. split; [set_solver|].
    intros z ([z' link] & -> & Hz)%list_elem_of_fmap. apply list_elem_of_In, filter_In in Hz as [Hz Hl].
    exists link. split; [by apply list_elem_of_In|]. by apply bool_decide_eq_true in Hl.
Qed.

(** The zones the provider manages, when it could be made: the zone it runs
    in, unless the configuration asks for all the zones of its region; then
    those that the service listed with that region, none, it may be.  Making
    it never panics, whatever the services answer. *)
Theorem newGCECloud_zones config : always (newGCECloud config) (made_well config) [].
Proof.
  unfold newGCECloud. apply always_bind. eapply always_impl.
  2: { apply returns_always, returns_lift. unfold getProjectAndZone. intros [result|e]; cbn -[Split]; [|done].
       destruct (Split result _) as [|? [|? [|? [|? [|]]]]]; try done. by intros [p|e]. }
  intros tr o ([[project zone]|e] & rest & -> & ->); [|apply made_failed]. cbn [always].
  destruct (GetGCERegion zone) as [region|e] eqn:Hregion; [|apply made_failed].
  apply always_bind. eapply always_impl.
  2: { apply returns_always, returns_lift. unfold getNetworkNameViaMetadata. intros [result|e]; cbn -[Split]; [|done].
       destruct (Split result _) as [|? [|? [|? [|? [|]]]]]; done. }
  intros tr o ([network|e] & rest' & -> & ->); [|apply made_failed]. cbn [always].
  destruct config; [|apply CreateGCECloud_well; auto].
  cbn [bind_ok trigger bind always]. intros [cfg|e]; cbn [bind]; [|apply made_failed].
  apply CreateGCECloud_well; [done|]. destruct (gc_Multizone cfg); auto.
Qed.
