(* ===== verification/AwsRoutes.v ===== *)
(** The routes of the AWS provider ([aws_routes.go]) and its instance groups
    ([aws_instancegroups.go]). *)

From S2P Require Import Prelude GoStrings Types Api Ec2 AwsDevices AwsVolumes OpenStackRoutes.
From Stdlib Require Import Lia.

#[local] Open Scope string_scope.

(** * Data and calls *)

(** [ec2.Route] and [ec2.RouteTable], as far as they are read. *)
Record ec2_Route := {
  er_InstanceId : option string;
  er_DestinationCidrBlock : option string;
  er_State : option string;
}.
Record ec2_RouteTable := {
  ert_RouteTableId : option string;
  ert_Tags : list ec2_Tag;
  ert_Routes : list ec2_Route;
}.

(** [autoscaling.Group]: its instances. *)
Record Group := { grp_Instances : list string }.

Inductive RouteE : Type -> Type :=
| DescribeRouteTables (filters : option (list Ec2Filter)) : RouteE (res (list ec2_RouteTable))
| Ec2CreateRoute (table : option string) (cidr : string) (instance : option string) : RouteE (option error)
| Ec2DeleteRoute (table cidr : option string) : RouteE (option error)
| ModifyInstanceAttribute (instance : string) (sourceDestCheck : bool) : RouteE (option error)
| UpdateAutoScalingGroup (name : string) (minSize maxSize : Z) : RouteE (option error)
| DescribeAutoScalingGroups (names : list string) : RouteE (res (list Group)).

Inductive AwsRouteE (X : Type) : Type :=
| CallRoute (e : RouteE X)
| CallAwsRest (e : AwsE X).
Arguments CallRoute {X} e.
Arguments CallAwsRest {X} e.
#[export] Instance SubE_route : SubE RouteE AwsRouteE := fun _ e => CallRoute e.
#[export] Instance SubE_route_aws : SubE AwsE AwsRouteE := fun _ e => CallAwsRest e.

Definition RouteStateBlackhole : string := "blackhole".

(** * Operations *)

Section routes.
Context (c : Cloud) (routeTableID : string).
#[local] Abbreviation M A := (prog AwsRouteE A).

Definition findRouteTable (clusterName : string) : M (res ec2_RouteTable) :=
  let? tables :=
    (if bool_decide (routeTableID <> "") then
       trigger (DescribeRouteTables (Some [newEc2Filter "route-table-id" [routeTableID]]))
     else
       let? response := trigger (DescribeRouteTables (addFilters [] (tagging c))) in
       ok (List.filter (fun table => hasClusterTag (ert_Tags table) (tagging c)) response)) in
  match tables with
  | [] => fail (errorf "unable to find route table for AWS cluster: %s" [clusterName])
  | [table] => ok table
  | _ => fail (errorf "found multiple matching AWS route tables for AWS cluster: %s" [clusterName])
  end.

(** The route of the cluster that an EC2 route stands for. *)
Definition listed_route (clusterName : string) (instances : gmap string Instance) (r : ec2_Route)
    : option Route :=
  let instanceID := orEmpty (er_InstanceId r) in
  let destinationCIDR := orEmpty (er_DestinationCidrBlock r) in
  if bool_decide (instanceID = "") || bool_decide (destinationCIDR = "") then None
  else
    match instances !! instanceID with
    | None => None
    | Some instance =>
        Some {| RouteName := clusterName +:+ "-" +:+ destinationCIDR;
                TargetNode := mapInstanceToNodeName instance; DestinationCIDR := destinationCIDR |}
    end.

Definition ListRoutes (clusterName : string) : M (res (list Route)) :=
  let? table := findRouteTable clusterName in
  let instanceIDs := List.filter (fun id => bool_decide (id <> ""))
                       ((fun r => orEmpty (er_InstanceId r)) <$> ert_Routes table) in
  let? instances := lift (getInstancesByIDs instanceIDs) in
  ok (omap (listed_route clusterName instances) (ert_Routes table)).

Definition configureInstanceSourceDestCheck (instanceID : string) (sourceDestCheck : bool)
    : M (res unit) :=
  let! err := trigger (ModifyInstanceAttribute instanceID sourceDestCheck) in
  match err with
  | Some err => fail (Errorf "error configuring source-dest-check on instance %s: %v"
                             [FStr instanceID; FErr (Some err)])
  | None => ok tt
  end.

(** The last route of the destination that is a black hole. *)
Definition is_blackhole (cidr : string) (r : ec2_Route) : bool :=
  bool_decide (StringValue (er_DestinationCidrBlock r) = cidr) &&
  bool_decide (StringValue (er_State r) = RouteStateBlackhole).

Definition blackholed (cidr : string) (routes : list ec2_Route) : option ec2_Route :=
  last (List.filter (is_blackhole cidr) routes).

Definition CreateRoute (clusterName : string) (route : Route) : M (res unit) :=
  let? instance := lift (getInstanceByNodeName c (TargetNode route)) in
  let? _ := configureInstanceSourceDestCheck (orEmpty (i_InstanceId instance)) false in
  let? table := findRouteTable clusterName in
  let? _ := (match blackholed (DestinationCIDR route) (ert_Routes table) with
             | Some r =>
                 let! err := trigger (Ec2DeleteRoute (ert_RouteTableId table) (er_DestinationCidrBlock r)) in
                 match err with
                 | Some err => fail (Errorf "error deleting blackholed AWS route (%s): %v"
                                            [FStr (StringValue (er_DestinationCidrBlock r)); FErr (Some err)])
                 | None => ok tt
                 end
             | None => ok tt
             end) in
  let! err := trigger (Ec2CreateRoute (ert_RouteTableId table) (DestinationCIDR route)
                                      (i_InstanceId instance)) in
  match err with
  | Some err => fail (Errorf "error creating AWS route (%s): %v"
                             [FStr (DestinationCIDR route); FErr (Some err)])
  | None => ok tt
  end.

Definition DeleteRoute (clusterName : string) (route : Route) : M (res unit) :=
  let? table := findRouteTable clusterName in
  let! err := trigger (Ec2DeleteRoute (ert_RouteTableId table) (Some (DestinationCIDR route))) in
  match err with
  | Some err => fail (Errorf "error deleting AWS route (%s): %v"
                             [FStr (DestinationCIDR route); FErr (Some err)])
  | None => ok tt
  end.

(** ** Instance groups *)

Definition ResizeInstanceGroup (instanceGroupName : string) (size : Z) : M (option error) :=
  let! err := trigger (UpdateAutoScalingGroup instanceGroupName size size) in
  match err with
  | Some err => Done (Some (Errorf "error resizing AWS autoscaling group: %v" [FErr (Some err)]))
  | None => Done None
  end.

(** The first group of the answer, or nil. *)
Definition DescribeInstanceGroup (instanceGroupName : string) : M (res (option Group)) :=
  let! response := trigger (DescribeAutoScalingGroups [instanceGroupName]) in
  match response with
  | Err err => fail (Errorf "error listing AWS autoscaling group (%s): %v"
                            [FStr instanceGroupName; FErr (Some err)])
  | Ok [] => ok None
  | Ok (group :: _) => ok (Some group)
  end.

Definition CurrentSize (g : Group) : nat := length (grp_Instances g).
End routes.

(** * Theorems *)

Section theorems.
Context (c : Cloud).

(** The requests that change a route table, as changes of its routes: those
    of a destination are deleted, and a route is added. *)
Definition apply_route (routes : list ec2_Route) (ev : event AwsRouteE) : list ec2_Route :=
  match ev with
  | Event (CallRoute e) _ =>
      match e with
      | Ec2DeleteRoute _ cidr =>
          List.filter (fun r => bool_decide (StringValue (er_DestinationCidrBlock r) <> StringValue cidr)) routes
      | Ec2CreateRoute _ cidr instance =>
          (routes ++ [{| er_InstanceId := instance; er_DestinationCidrBlock := Some cidr;
                         er_State := Some "active" |}])%list
      | _ => routes
      end
  | _ => routes
  end.

Definition tables_read (ev : event AwsRouteE) : option (list ec2_RouteTable) :=
  match ev with
  | Event (CallRoute e) x =>
      match e in RouteE X return X -> _ with
      | DescribeRouteTables _ => fun answer => match answer with Ok tables => Some tables | Err _ => None end
      | _ => fun _ => None
      end x
  | _ => None
  end.

(** Events that leave the route tables as they are. *)
Definition no_change (new : list (event AwsRouteE)) : Prop :=
  forall routes, fold_left apply_route new routes = routes.

Lemma no_change_app new new' : no_change new -> no_change new' -> no_change (new ++ new').
Proof. intros Hn Hn' routes. by rewrite fold_left_app, Hn, Hn'. Qed.

Lemma lift_no_change {A} (p : prog AwsE A) tr :
  always (lift (E:=AwsRouteE) p) (fun tr' _ => exists new, tr' = (tr ++ new)%list /\ no_change new) tr.
Proof.
  revert tr; induction p as [a|why|X e k IH]; intros tr; cbn.
  - exists []. by rewrite app_nil_r.
  - exists []. by rewrite app_nil_r.
  - intros x. eapply always_impl; [|apply IH]. intros tr' o (new & -> & Hnew).
    eexists. rewrite <- app_assoc. split; [reflexivity|]. by apply (no_change_app [_]).
Qed.

Lemma findRouteTable_spec tableID clusterName tr :
  always (findRouteTable c tableID clusterName) (fun tr' o => exists new r,
    tr' = (tr ++ new)%list /\ o = Returned r /\ no_change new /\
    forall table, r = Ok table ->
      exists ev tables, ev ∈ new /\ tables_read ev = Some tables /\ table ∈ tables) tr.
Proof.
  unfold findRouteTable. case_bool_decide; go_unfold; cbn; intros answer.
  - destruct answer as [tables|e]; cbn; [|by eexists _, (Err e)].
    destruct tables as [|table [|]]; cbn; [by eexists _, (Err _)| |by eexists _, (Err _)].
    eexists _, (Ok table). split_and!; [done..|]. intros ? [= <-].
    eexists _, [table]. split_and!; [by apply list_elem_of_singleton|done|by apply list_elem_of_singleton].
  - destruct answer as [tables|e]; cbn; [|by eexists _, (Err e)].
    destruct (List.filter _ tables) as [|table [|]] eqn:Hf; cbn;
      [by eexists _, (Err _)| |by eexists _, (Err _)].
    eexists _, (Ok table). split_and!; [done..|]. intros ? [= <-].
    eexists _, tables. split_and!; [by apply list_elem_of_singleton|done|].
    assert (In table (List.filter (fun table => hasClusterTag (ert_Tags table) (tagging c)) tables)) as Hin
      by (rewrite Hf; by left).
    apply List.filter_In in Hin as [Hin _]. by apply list_elem_of_In.
Qed.

Lemma blackholed_spec cidr routes :
  match blackholed cidr routes with
  | Some r => StringValue (er_DestinationCidrBlock r) = cidr /\ existsb (is_blackhole cidr) routes = true
  | None => existsb (is_blackhole cidr) routes = false
  end.
Proof.
  unfold blackholed. destruct (last _) as [r|] eqn:Hlast.
  - apply last_Some_elem_of, list_elem_of_In, List.filter_In in Hlast as [Hin Hb].
    split; [|by apply List.existsb_exists; eauto].
    apply andb_true_iff in Hb as [Hb _]. by apply bool_decide_eq_true in Hb.
  - apply last_None in Hlast. apply not_true_iff_false. intros (r & Hin & Hb)%List.existsb_exists.
    assert (In r (List.filter (is_blackhole cidr) routes)) as Hf by by apply List.filter_In.
    by rewrite Hlast in Hf.
Qed.

(** Creating a route, when it succeeds, has turned the check of the instance
    off and read the one table [table] before the first change of it, deletes
    a route of the same destination only when one is a black hole, and leaves
    one more route, of the destination and to the instance. *)
Theorem CreateRoute_routes tableID clusterName route :
  always (CreateRoute c tableID clusterName route) (fun tr o =>
    o = Returned (Ok tt) ->
    exists before after table id,
      tr = (before ++ after)%list /\
      Event (CallRoute (ModifyInstanceAttribute (orEmpty id) false)) None ∈ before /\
      (forall routes, fold_left apply_route before routes = routes) /\
      (exists ev tables, ev ∈ before /\ tables_read ev = Some tables /\ table ∈ tables) /\
      fold_left apply_route after (ert_Routes table) =
        (List.filter (fun r => negb (existsb (is_blackhole (DestinationCIDR route)) (ert_Routes table)) ||
                               bool_decide (StringValue (er_DestinationCidrBlock r) <> DestinationCIDR route))
                     (ert_Routes table) ++
         [{| er_InstanceId := id; er_DestinationCidrBlock := Some (DestinationCIDR route);
             er_State := Some "active" |}])%list) [].
Proof.
  unfold CreateRoute, bind_ok at 1. rewrite always_bind.
  eapply always_impl; [|apply lift_no_change]. intros tr o (new & -> & Hnew).
  destruct o as [[instance|e]|why]; [|done..]. unfold configureInstanceSourceDestCheck.
  unfold bind_ok at 1. cbn -[blackholed]. intros [e|]; cbn -[blackholed]; [done|].
  unfold bind_ok at 1. rewrite always_bind. eapply always_impl; [|apply findRouteTable_spec].
  intros tr o (new' & r & -> & -> & Hnew' & Hread). destruct r as [table|e]; cbn -[blackholed]; [|done].
  destruct (Hread table eq_refl) as (ev & tables & Hev & Htables & Hin). clear Hread.
  set (modified := Event (CallRoute (ModifyInstanceAttribute (orEmpty (i_InstanceId instance)) false)) None).
  assert (forall after,
    fold_left apply_route after (ert_Routes table) =
      (List.filter (fun r => negb (existsb (is_blackhole (DestinationCIDR route)) (ert_Routes table)) ||
                             bool_decide (StringValue (er_DestinationCidrBlock r) <> DestinationCIDR route))
                   (ert_Routes table) ++
       [{| er_InstanceId := i_InstanceId instance; er_DestinationCidrBlock := Some (DestinationCIDR route);
           er_State := Some "active" |}])%list ->
    exists before after' table id,
      (((new ++ [modified]) ++ new') ++ after = before ++ after')%list /\
      Event (CallRoute (ModifyInstanceAttribute (orEmpty id) false)) None ∈ before /\
      (forall routes, fold_left apply_route before routes = routes) /\
      (exists ev tables, ev ∈ before /\ tables_read ev = Some tables /\ table ∈ tables) /\
      fold_left apply_route after' (ert_Routes table) =
      (List.filter (fun r => negb (existsb (is_blackhole (DestinationCIDR route)) (ert_Routes table)) ||
                             bool_decide (StringValue (er_DestinationCidrBlock r) <> DestinationCIDR route))
                   (ert_Routes table) ++
       [{| er_InstanceId := id; er_DestinationCidrBlock := Some (DestinationCIDR route);
           er_State := Some "active" |}])%list) as Hdone.
  { intros after Hafter. exists ((new ++ [modified]) ++ new')%list, after, table, (i_InstanceId instance).
    split_and!; [done| | | |done].
    - rewrite !elem_of_app, list_elem_of_singleton. auto.
    - apply no_change_app; [apply no_change_app; [done|by intros routes]|done].
    - exists ev, tables. rewrite elem_of_app. auto. }
  pose proof (blackholed_spec (DestinationCIDR route) (ert_Routes table)) as Hblack.
  destruct (blackholed _ _) as [r|]; cbn.
  - destruct Hblack as [Hcidr Hexists]. intros [e|]; cbn; [done|]. intros [e|]; cbn; [done|]. intros _.
    rewrite <- (app_assoc (_ ++ _)). apply Hdone. cbn. rewrite Hexists, Hcidr. done.
  - intros [e|]; cbn; [done|]. intros _. apply Hdone. cbn. rewrite Hblack. cbn. f_equal.
    clear. induction (ert_Routes table) as [|x l IH]; cbn; [done|]. f_equal. exact IH.
Qed.
End theorems.
