(* ===== verification/AwsCloud.v ===== *)
(** The AWS provider as a whole: its making and its configuration, the
    Instances and Zones interfaces ([aws.go]), and the regions it knows
    ([regions.go]).

    The clients of the services, the configuration file and the instance
    metadata service are calls; the regions are a global variable of the
    program and passed along. *)

From S2P Require Import Prelude GoStrings Types Api Plugin CloudProvider Ec2 AwsDevices AwsVolumes OpenStackInstances.
From Stdlib Require Import Lia.

#[local] Open Scope string_scope.

(** * Data and calls *)

Record CloudConfig := {
  cfg_Zone : string;
  cfg_VPC : string;
  cfg_SubnetID : string;
  cfg_RouteTableID : string;
  cfg_KubernetesClusterTag : string;
  cfg_KubernetesClusterID : string;
  cfg_DisableSecurityGroupIngress : bool;
  cfg_DisableStrictZoneCheck : bool;
}.

Definition empty_config : CloudConfig :=
  {| cfg_Zone := ""; cfg_VPC := ""; cfg_SubnetID := ""; cfg_RouteTableID := "";
     cfg_KubernetesClusterTag := ""; cfg_KubernetesClusterID := "";
     cfg_DisableSecurityGroupIngress := false; cfg_DisableStrictZoneCheck := false |}.

(** The [Services]: the client of the metadata may be nil. *)
Inductive ServicesE : Type -> Type :=
| NewMetadata : ServicesE (res bool)
| NewCompute (region : string) : ServicesE (option error)
| NewLoadBalancing (region : string) : ServicesE (option error)
| NewAutoscaling (region : string) : ServicesE (option error)
| ReadConfig : ServicesE (res CloudConfig)
| GetMetadata (path : string) : ServicesE (res string)
| RegisterCredentialsProvider (region : string) : ServicesE unit.

Inductive AwsCloudE (X : Type) : Type :=
| CallServices (e : ServicesE X)
| CloudAws (e : AwsE X).
Arguments CallServices {X} e.
Arguments CloudAws {X} e.
#[export] Instance SubE_services : SubE ServicesE AwsCloudE := fun _ e => CallServices e.
#[export] Instance SubE_cloud_aws : SubE AwsE AwsCloudE := fun _ e => CloudAws e.
#[export] Instance SubE_cloud_ec2 : SubE Ec2E AwsCloudE := fun _ e => CloudAws (CallEc2 e).

#[local] Abbreviation M A := (prog AwsCloudE A).

(** * Regions *)

Definition WellKnownRegions : list string :=
  ["ap-northeast-1"; "ap-northeast-2"; "ap-south-1"; "ap-southeast-1"; "ap-southeast-2";
   "ca-central-1"; "eu-central-1"; "eu-west-1"; "eu-west-2"; "sa-east-1"; "us-east-1"; "us-east-2";
   "us-west-1"; "us-west-2"; "cn-north-1"; "us-gov-west-1"].

(** The global variables: the regions, and whether the well-known ones have
    been registered ([once]). *)
Record globals := { awsRegions : gset string; once : bool }.

(** A region is registered once. *)
Definition RecognizeRegion (region : string) (g : gset string) : M (gset string) :=
  if bool_decide (region ∈ g) then Done g
  else
    let! _ := trigger (RegisterCredentialsProvider region) in
    Done ({[region]} ∪ g).

Fixpoint recognize_all (regions : list string) (g : gset string) : M (gset string) :=
  match regions with
  | [] => Done g
  | region :: rest => let! g := RecognizeRegion region g in recognize_all rest g
  end.

Definition RecognizeWellKnownRegions (g : gset string) : M (gset string) := recognize_all WellKnownRegions g.

Definition isRegionValid (region : string) (g : gset string) : bool := bool_decide (region ∈ g).

(** * The metadata *)

(** A call of the client of the metadata, which may be nil. *)
Definition get_metadata (client : bool) (path : string) : M (res string) :=
  if client then trigger (GetMetadata path) else Crash "invalid memory address or nil pointer dereference".

Definition getInstanceType (client : bool) : M (res string) := get_metadata client "instance-type".
Definition getAvailabilityZone (client : bool) : M (res string) :=
  get_metadata client "placement/availability-zone".

(** The identifier of the first interface that has one. *)
Fixpoint first_vpc (client : bool) (macs : list string) : M (res string) :=
  match macs with
  | [] => fail (errorf "Could not find VPC ID in instance metadata" [])
  | macPath :: rest =>
      if bool_decide (macPath = "") then first_vpc client rest
      else
        let! got := get_metadata client ("network/interfaces/macs/" +:+ macPath +:+ "vpc-id") in
        match got with
        | Err _ => first_vpc client rest
        | Ok vpcID => ok vpcID
        end
  end.

Definition findVPCID (client : bool) : M (res string) :=
  let? macs := get_metadata client "network/interfaces/macs/"
    else (fun err => Errorf "Could not list interfaces of the instance: %v" [FErr (Some err)]) in
  first_vpc client (Split macs "010").

(** * The provider *)

(** [Cloud], with the fields that other components take as parameters. *)
Record AwsProvider := {
  ap_cloud : Cloud;
  ap_cfg : CloudConfig;
  ap_metadata : bool;
  ap_region : string;
  ap_vpcID : string;
}.

Definition set_zone (cfg : CloudConfig) (zone : string) : CloudConfig :=
  {| cfg_Zone := zone; cfg_VPC := cfg_VPC cfg; cfg_SubnetID := cfg_SubnetID cfg;
     cfg_RouteTableID := cfg_RouteTableID cfg; cfg_KubernetesClusterTag := cfg_KubernetesClusterTag cfg;
     cfg_KubernetesClusterID := cfg_KubernetesClusterID cfg;
     cfg_DisableSecurityGroupIngress := cfg_DisableSecurityGroupIngress cfg;
     cfg_DisableStrictZoneCheck := cfg_DisableStrictZoneCheck cfg |}.

Definition readAWSCloudConfig (config client : bool) : M (res CloudConfig) :=
  let? cfg := (if config then trigger ReadConfig else ok empty_config) in
  if bool_decide (cfg_Zone cfg = "") then
    let? cfg := (if client then
                   let? zone := getAvailabilityZone client in
                   ok (set_zone cfg zone)
                 else ok cfg) in
    if bool_decide (cfg_Zone cfg = "") then fail (errorf "no zone specified in configuration file" [])
    else ok cfg
  else ok cfg.

(** [describeInstance] of an instance: its full information. *)
Definition describeInstance (i : awsInstance) : M (res Instance) :=
  let? instances := trigger (DescribeInstances [awsID i] None) in
  match instances with
  | [] => fail (errorf "no instances found for instance: %s" [awsID i])
  | [instance] => ok instance
  | _ => fail (errorf "multiple instances found for instance: %s" [awsID i])
  end.

(** The instance that is found by its identifier may be nil. *)
Definition buildSelfAWSInstance (client : bool) : M (res awsInstance) :=
  let? instanceID := get_metadata client "instance-id"
    else (fun err => Errorf "error fetching instance-id from ec2 metadata service: %v" [FErr (Some err)]) in
  let? instance := lift (getInstanceByID instanceID)
    else (fun err => Errorf "error finding instance %s: %v" [FStr instanceID; FErr (Some err)]) in
  match instance with
  | None => Crash "invalid memory address or nil pointer dereference"
  | Some instance => ok (newAWSInstance instance)
  end.

(** The clients of the services. *)
Definition new_clients (regionName : string) : M (res unit) :=
  let! err := trigger (NewCompute regionName) in
  match err with
  | Some err => fail (Errorf "error creating AWS EC2 client: %v" [FErr (Some err)])
  | None =>
  let! err := trigger (NewLoadBalancing regionName) in
  match err with
  | Some err => fail (Errorf "error creating AWS ELB client: %v" [FErr (Some err)])
  | None =>
  let! err := trigger (NewAutoscaling regionName) in
  match err with
  | Some err => fail (Errorf "error creating AWS autoscaling client: %v" [FErr (Some err)])
  | None => ok tt
  end end end.

(** The instance the provider runs on: a dummy when it runs elsewhere. *)
Definition self_instance (cfg : CloudConfig) (client : bool) : M (res awsInstance) :=
  if bool_decide (cfg_VPC cfg <> "") && bool_decide (cfg_SubnetID cfg <> "") &&
     (bool_decide (cfg_KubernetesClusterTag cfg <> "") || bool_decide (cfg_KubernetesClusterID cfg <> "")) then
    ok {| awsID := ""; nodeName := "master-dummy"; availabilityZone := ""; vpcID := cfg_VPC cfg;
          subnetID := cfg_SubnetID cfg; instanceType := "" |}
  else buildSelfAWSInstance client.

Definition no_tagging : awsTagging := {| ClusterID := ""; usesLegacyTags := false |}.

Definition cluster_tagging (cfg : CloudConfig) (self : awsInstance) : M (res awsTagging) :=
  let? inited :=
    (if bool_decide (cfg_KubernetesClusterTag cfg <> "") || bool_decide (cfg_KubernetesClusterID cfg <> "") then
       ok (Ec2.init (cfg_KubernetesClusterTag cfg) (cfg_KubernetesClusterID cfg) no_tagging)
     else
       let? info := describeInstance self in
       ok (initFromTags (i_Tags info) no_tagging)) in
  match inited with
  | (Some err, _) => fail err
  | (None, t) => ok t
  end.

(** After the region is known; the regions are those after the call. *)
Definition new_cloud_in (cfg : CloudConfig) (client : bool) (regionName : string) (g : globals)
    : M (globals * res AwsProvider) :=
  let! regions := RecognizeRegion regionName (awsRegions g) in
  let g := {| awsRegions := regions; once := once g |} in
  if negb (cfg_DisableStrictZoneCheck cfg) && negb (isRegionValid regionName regions) then
    Done (g, Err (errorf "not a valid AWS zone (unknown region): %s" [cfg_Zone cfg]))
  else
    let! made := (let? _ := new_clients regionName in
                  let? self := self_instance cfg client in
                  let? t := cluster_tagging cfg self in
                  ok {| ap_cloud := {| tagging := t; selfAWSInstance := self |}; ap_cfg := cfg;
                        ap_metadata := client; ap_region := regionName; ap_vpcID := vpcID self |}) in
    match made with
    | Err err => Done (g, Err err)
    | Ok awsCloud =>
        if once g then Done (g, Ok awsCloud)
        else
          let! regions := RecognizeWellKnownRegions (awsRegions g) in
          Done ({| awsRegions := regions; once := true |}, Ok awsCloud)
    end.

Definition newAWSCloud (config : bool) (g : globals) : M (globals * res AwsProvider) :=
  let! read := (let? client := trigger NewMetadata
                  else (fun err => Errorf "error creating AWS metadata client: %v" [FErr (Some err)]) in
                let? cfg := readAWSCloudConfig config client
                  else (fun err => Errorf "unable to read AWS cloud provider config file: %v" [FErr (Some err)]) in
                ok (client, cfg)) in
  match read with
  | Err err => Done (g, Err err)
  | Ok (client, cfg) =>
      if bool_decide (String.length (cfg_Zone cfg) <= 1)%nat
      then Done (g, Err (errorf "invalid AWS zone in config file: %s" [cfg_Zone cfg]))
      else
        match azToRegion (cfg_Zone cfg) with
        | Err err => Done (g, Err err)
        | Ok regionName => new_cloud_in cfg client regionName g
        end
  end.

(** * Instances and zones *)

(** [net.ParseIP]: the address, as it is printed; [regexp.Compile] and
    [MatchString]. *)
Class IpParser := ParseIP : string -> option string.
Class RegexpCompiler := CompileRegexp : string -> res (string -> bool).

Section instances.
Context `{!IpParser, !RegexpCompiler} (c : AwsProvider).
#[local] Abbreviation self := (selfAWSInstance (ap_cloud c)).

Definition address (type : string) (a : string) : NodeAddress := {| na_Type := type; na_Address := a |}.

(** An address that could not be read, or is empty, is left out. *)
Definition optional_address (type : string) (got : res string) (allowEmpty : bool) : list NodeAddress :=
  match got with
  | Err _ => []
  | Ok a => if negb allowEmpty && bool_decide (a = "") then [] else [address type a]
  end.

Definition self_addresses : M (res (list NodeAddress)) :=
  let? internalIP := get_metadata (ap_metadata c) "local-ipv4" in
  let! externalIP := get_metadata (ap_metadata c) "public-ipv4" in
  let! internalDNS := get_metadata (ap_metadata c) "local-hostname" in
  let! externalDNS := get_metadata (ap_metadata c) "public-hostname" in
  ok ([address "InternalIP" internalIP; address "LegacyHostIP" internalIP] ++
      optional_address "ExternalIP" externalIP true ++
      optional_address "InternalDNS" internalDNS false ++
      optional_address "ExternalDNS" externalDNS false)%list.

(** The addresses that an IP address stands for. *)
Definition ip_addresses (kind : string) (instance : Instance) (ip : option string) (types : list string)
    : res (list NodeAddress) :=
  if isNilOrEmpty ip then Ok []
  else
    match ParseIP (StringValue ip) with
    | None => Err (Errorf ("EC2 instance had invalid " +:+ kind +:+ " address: %s (%s)")
                          [FStr (orEmpty (i_InstanceId instance)); FStr (StringValue ip)])
    | Some ip => Ok ((fun type => address type ip) <$> types)
    end.

Definition dns_addresses (type : string) (name : option string) : list NodeAddress :=
  if isNilOrEmpty name then [] else [address type (StringValue name)].

Definition instance_addresses (instance : Instance) : res (list NodeAddress) :=
  match ip_addresses "private" instance (i_PrivateIpAddress instance) ["InternalIP"; "LegacyHostIP"] with
  | Err err => Err err
  | Ok internal =>
      match ip_addresses "public" instance (i_PublicIpAddress instance) ["ExternalIP"] with
      | Err err => Err err
      | Ok external =>
          Ok (internal ++ external ++ dns_addresses "InternalDNS" (i_PrivateDnsName instance) ++
              dns_addresses "ExternalDNS" (i_PublicDnsName instance))%list
      end
  end.

Definition get_instance (name : string) : M (res Instance) :=
  let? instance := lift (getInstanceByNodeName (ap_cloud c) name)
    else (fun err => Errorf "getInstanceByNodeName failed for %q with %v" [FStr name; FErr (Some err)]) in
  ok instance.

Definition NodeAddresses (name : string) : M (res (list NodeAddress)) :=
  if bool_decide (nodeName self = name) || bool_decide (name = "") then self_addresses
  else
    let? instance := get_instance name in
    Done (instance_addresses instance).

Definition ExternalID (name : string) : M (res string) :=
  if bool_decide (nodeName self = name) then ok (awsID self)
  else
    let? instance := lift (findInstanceByNodeName (ap_cloud c) name) in
    match instance with
    | None => fail InstanceNotFound
    | Some instance => ok (orEmpty (i_InstanceId instance))
    end.

Definition InstanceID (name : string) : M (res string) :=
  if bool_decide (nodeName self = name) then ok ("/" +:+ availabilityZone self +:+ "/" +:+ awsID self)
  else
    let? inst := get_instance name in
    match i_Placement inst with
    | None => Crash "invalid memory address or nil pointer dereference"
    | Some zone => ok ("/" +:+ orEmpty zone +:+ "/" +:+ orEmpty (i_InstanceId inst))
    end.

Definition InstanceType (name : string) : M (res string) :=
  if bool_decide (nodeName self = name) then ok (instanceType self)
  else
    let? inst := get_instance name in
    ok (orEmpty (i_InstanceType inst)).

(** [strings.HasSuffix] *)
Definition HasSuffix (s suffix : string) : bool :=
  bool_decide (String.length suffix <= String.length s)%nat &&
  bool_decide (drop_bytes (String.length s - String.length suffix) s = suffix).

(** The quotes around a regular expression are stripped; of a single quote
    the slice is out of range. *)
Definition strip_quotes (regex : string) : option string :=
  if HasPrefix regex "'" && HasSuffix regex "'" then
    if bool_decide (String.length regex < 2)%nat then None
    else Some (take_bytes (String.length regex - 2) (drop_bytes 1 regex))
  else Some regex.

(** The name of a node whose instance matches; the message about a pending
    one dereferences its identifier. *)
Definition matching_name (re : string -> bool) (instance : Instance) : option (list string) :=
  match i_State instance with
  | None => None
  | Some state =>
      if bool_decide (orEmpty state = "pending") then
        match i_InstanceId instance with None => None | Some _ => Some [] end
      else
        let name := mapInstanceToNodeName instance in
        Some (if bool_decide (name = "") then []
              else if existsb (fun tag => bool_decide (orEmpty (tag_Key tag) = "Name") && re (orEmpty (tag_Value tag)))
                        (i_Tags instance)
              then [name] else [])
  end.

Fixpoint matching_names (re : string -> bool) (instances : list Instance) (found : list string)
    : M (res (list string)) :=
  match instances with
  | [] => ok found
  | instance :: rest =>
      match matching_name re instance with
      | None => Crash "invalid memory address or nil pointer dereference"
      | Some names => matching_names re rest (found ++ names)
      end
  end.

Definition getInstancesByRegex (regex : string) : M (res (list string)) :=
  let? instances := lift (describeInstances (ap_cloud c) [newEc2Filter "instance-state-name" ["running"]]) in
  match instances with
  | [] => fail (errorf "no instances returned" [])
  | _ =>
      match strip_quotes regex with
      | None => Crash "slice bounds out of range"
      | Some regex =>
          match CompileRegexp regex with
          | Err err => fail err
          | Ok re => matching_names re instances []
          end
      end
  end.

(** The failure domain and the region. *)
Definition GetZone : string * string := (availabilityZone self, ap_region c).
End instances.

(** * Theorems *)

(** The regions whose providers of credentials were registered, in order. *)
Definition note_registered (registered : list string) (ev : event AwsCloudE) : list string :=
  match ev with
  | Event (CallServices e) x =>
      match e in ServicesE X return X -> list string with
      | RegisterCredentialsProvider region => fun _ => (registered ++ [region])%list
      | _ => fun _ => registered
      end x
  | _ => registered
  end.

Definition plain_service (X : Type) (e : AwsCloudE X) : Prop :=
  match e with CallServices (RegisterCredentialsProvider _) => False | _ => True end.

Lemma plain_service_step X (e : AwsCloudE X) x l : plain_service X e -> note_registered l (Event e x) = l.
Proof. destruct e as [e|e]; [|done]. by destruct e. Qed.

Lemma registered_plain {A} (p : M A) Q l :
  only plain_service p -> (forall o, Q l o) -> wp note_registered p Q l.
Proof. apply wp_quiet, plain_service_step. Qed.

(** The regions are those known before and those registered, each once. *)
Definition regions_of (known : gset string) (registered : list string) (regions : gset string) : Prop :=
  regions = known ∪ list_to_set registered /\ NoDup registered /\ Forall (fun r => r ∉ known) registered.

Lemma RecognizeRegion_registers known region regions l :
  regions_of known l regions ->
  wp note_registered (RecognizeRegion region regions)
    (fun l' o => exists regions', o = Returned regions' /\ regions_of known l' regions' /\
                                  {[region]} ∪ regions = regions') l.
Proof.
  intros (Hr & Hnd & Hk). unfold RecognizeRegion. case_bool_decide as Hin; cbn.
  - exists regions. split_and!; [done|done|set_solver].
  - intros []. eexists. split_and!; [done| |done]. subst regions. rewrite elem_of_union, elem_of_list_to_set in Hin.
    split_and!.
    + rewrite list_to_set_app_L. cbn. set_solver.
    + apply NoDup_app. split_and!; [done| |apply NoDup_singleton]. intros x Hx ->%list_elem_of_singleton. tauto.
    + apply Forall_app. split; [done|]. apply Forall_singleton. tauto.
Qed.

Lemma recognize_all_registers known names regions l :
  regions_of known l regions ->
  wp note_registered (recognize_all names regions)
    (fun l' o => exists regions', o = Returned regions' /\ regions_of known l' regions' /\
                                  list_to_set names ∪ regions = regions') l.
Proof.
  revert regions l; induction names as [|name names IH]; intros regions l Hr; cbn.
  - exists regions. split_and!; [done..|set_solver].
  - eapply wp_seq; [by apply RecognizeRegion_registers|]. intros l' o (regions' & -> & Hr' & <-).
    eapply wp_impl; [by apply IH|]. intros l'' o (regions'' & -> & Hr'' & <-).
    eexists. split_and!; [done..|]. set_solver.
Qed.

Lemma get_metadata_plain client path : only plain_service (get_metadata client path).
Proof. unfold get_metadata. only_exec. Qed.

#[local] Ltac setup_step :=
  lazymatch goal with
  | |- only _ (get_metadata _ _) => apply get_metadata_plain
  | |- _ => only_step
  end.
#[local] Ltac setup_plain := repeat setup_step.

Lemma config_plain config client : only plain_service (readAWSCloudConfig config client).
Proof. unfold readAWSCloudConfig, getAvailabilityZone. setup_plain. Qed.

Lemma parts_plain cfg client region :
  only plain_service (let? _ := new_clients region in
                      let? self := self_instance cfg client in
                      let? t := cluster_tagging cfg self in
                      ok {| ap_cloud := {| tagging := t; selfAWSInstance := self |}; ap_cfg := cfg;
                            ap_metadata := client; ap_region := region; ap_vpcID := vpcID self |}).
Proof.
  unfold new_clients, self_instance, cluster_tagging, buildSelfAWSInstance, describeInstance. setup_plain.
Qed.

(** The provider that is made has the configuration and the region given. *)
Lemma parts_made cfg client region :
  always (let? _ := new_clients region in
          let? self := self_instance cfg client in
          let? t := cluster_tagging cfg self in
          ok {| ap_cloud := {| tagging := t; selfAWSInstance := self |}; ap_cfg := cfg;
                ap_metadata := client; ap_region := region; ap_vpcID := vpcID self |})
    (fun _ o => forall c, o = Returned (Ok c) -> ap_cfg c = cfg /\ ap_region c = region) [].
Proof.
  unfold bind_ok. rewrite always_bind. eapply always_impl; [|apply always_true].
  intros tr [[[]|e]|why] _; [|done..].
  rewrite always_bind. eapply always_impl; [|apply always_true]. intros tr' [[self|e]|why] _; [|done..].
  rewrite always_bind. eapply always_impl; [|apply always_true]. intros tr'' [[t|e]|why] _; [|done..].
  by intros c [= <-].
Qed.

(** What is known of the provider and of the regions after its making. *)
Definition provider_made (g : globals) (registered : list string)
    (o : outcome (globals * res AwsProvider)) : Prop :=
  match o with
  | Panicked _ => True
  | Returned (g', r) =>
      regions_of (awsRegions g) registered (awsRegions g') /\
      forall c, r = Ok c ->
        (2 <= String.length (cfg_Zone (ap_cfg c)))%nat /\
        azToRegion (cfg_Zone (ap_cfg c)) = Ok (ap_region c) /\ ap_region c ∈ awsRegions g' /\
        once g' = true /\ (once g = false -> list_to_set WellKnownRegions ⊆ awsRegions g')
  end.

(** C29: Making the provider: every region is registered at most once, none that
    was known before, and the regions known afterwards are these; a provider
    that could be made has a zone of two bytes at least, its region is the
    zone without the last, and it is known; and the first one made registers
    the well-known regions. *)
Theorem newAWSCloud_regions config g :
  wp note_registered (newAWSCloud config g) (provider_made g) [].
Proof.
  assert (forall r, (forall c, r <> Ok c) -> provider_made g [] (Returned (g, r))) as Hnone.
  { intros r Hr. split; [|intros c Hc; by destruct (Hr c)]. split_and!; [cbn; set_solver|constructor|constructor]. }
  unfold newAWSCloud. apply wp_bind, registered_plain.
  { only_exec. apply config_plain. }
  intros [[[client cfg]|e]|why]; [|by apply Hnone|done].
  case_bool_decide as Hlen; [by apply Hnone|].
  destruct (azToRegion (cfg_Zone cfg)) as [region|e] eqn:Hregion; [|by apply Hnone].
  unfold new_cloud_in. eapply wp_seq.
  { apply (RecognizeRegion_registers (awsRegions g)). split_and!; [set_solver|constructor|constructor]. }
  intros l o (regions & -> & Hr & Hin). cbn beta zeta. unfold isRegionValid.
  rewrite bool_decide_eq_true_2, andb_false_r by set_solver.
  apply wp_bind. eapply wp_quiet_always; [apply plain_service_step|apply parts_plain|].
  eapply always_impl; [|apply parts_made]. intros _ [[c|e]|why] Hc; [|done..].
  destruct (Hc c eq_refl) as (<- & <-). cbn [wp once awsRegions].
  destruct (once g) eqn:Honce; cbn [wp].
  - split; [done|]. intros c' [= <-]. cbn. split_and!; [lia|done|set_solver|done|by rewrite Honce].
  - eapply wp_seq; [by apply recognize_all_registers|]. intros l' o (regions' & -> & Hr' & <-). cbn.
    split; [done|]. intros c' [= <-]. cbn. split_and!; [lia|done|set_solver|done|set_solver].
Qed.
