(* ===== verification/AwsRetry.v ===== *)
(** The delays between AWS requests ([retry_handler.go]), and the delays of
    each region with the handlers that use them ([aws.go]).

    The counters are numbers of single precision ([GoNumbers]); [math.Pow]
    is a parameter. *)

From Stdlib Require Import SpecFloat.
From S2P Require Import Prelude GoStrings GoNumbers Types Api.
From Stdlib Require Import Lia.

#[local] Open Scope string_scope.

(** * The backoff *)

(** [math.Pow] *)
Class MathPow := Pow : spec_float -> spec_float -> spec_float.

Definition decayIntervalSeconds_ : Z := 20.
(** 0.8, as a [float64]. *)
Definition decayFraction_ : spec_float := S754_finite false 7205759403792794 (-53).
Definition maxDelay_ : Z := 60 * Second.

Record Backoff := {
  decayIntervalSeconds : Z;
  decayFraction : spec_float;
  maxDelay : Z;
  countErrorsRequestLimit : spec_float;
  countRequests : spec_float;
  lastDecay : Z;
}.

(** The seconds of a [time.Time]. *)
Definition Unix (t : Z) : Z := (t / Second)%Z.

Definition backoff_init (now interval : Z) (fraction : spec_float) (delay : Z) : Backoff :=
  {| decayIntervalSeconds := interval; decayFraction := fraction; maxDelay := delay;
     countErrorsRequestLimit := S754_zero false; countRequests := float32_of 4 0;
     lastDecay := Unix now |}.

(** 0.1, as a [float32]. *)
Definition tenth : spec_float := S754_finite false 13421773 (-27).
Definition half : spec_float := float32_of 1 (-1).

Section backoff.
Context `{MathPow}.

(** The exponential decay of the counters. *)
Definition decayed (now : Z) (b : Backoff) : Backoff :=
  let timeDeltaSeconds := (Unix now - lastDecay b)%Z in
  if bool_decide (decayIntervalSeconds b < timeDeltaSeconds)%Z then
    let intervals := div64 (float64_of timeDeltaSeconds 0) (float64_of (decayIntervalSeconds b) 0) in
    let decay := float32_of_float64 (Pow (decayFraction b) intervals) in
    {| decayIntervalSeconds := decayIntervalSeconds b; decayFraction := decayFraction b;
       maxDelay := maxDelay b;
       countErrorsRequestLimit := mul32 (countErrorsRequestLimit b) decay;
       countRequests := mul32 (countRequests b) decay; lastDecay := Unix now |}
  else b.

Definition count_request (b : Backoff) : Backoff :=
  {| decayIntervalSeconds := decayIntervalSeconds b; decayFraction := decayFraction b;
     maxDelay := maxDelay b; countErrorsRequestLimit := countErrorsRequestLimit b;
     countRequests := add32 (countRequests b) (float32_of 1 0); lastDecay := lastDecay b |}.

Definition error_fraction (b : Backoff) : spec_float :=
  if less half (countRequests b) then div32 (countErrorsRequestLimit b) (countRequests b)
  else S754_zero false.

(** [delay.Seconds()], whose fraction is divided by a billion. *)
Definition Seconds (delay : Z) : spec_float :=
  add64 (float64_of (Z.quot delay Second) 0)
        (div64 (float64_of (Z.rem delay Second) 0) (float64_of Second 0)).

Definition ComputeDelayForRequest (now : Z) (b : Backoff) : Backoff * Z :=
  let b := count_request (decayed now b) in
  let errorFraction := error_fraction b in
  if less errorFraction tenth then (b, 0%Z)
  else
    let delay := int64_of (mul32 (float32_of (maxDelay b) 0) errorFraction) in
    (b, wrap64 (Second * int64_of (Seconds delay))).

Definition ReportError (b : Backoff) : Backoff :=
  {| decayIntervalSeconds := decayIntervalSeconds b; decayFraction := decayFraction b;
     maxDelay := maxDelay b;
     countErrorsRequestLimit := add32 (countErrorsRequestLimit b) (float32_of 1 0);
     countRequests := countRequests b; lastDecay := lastDecay b |}.

(** * The handlers *)

Definition NewCrossRequestRetryDelay (now : Z) : Backoff :=
  backoff_init now decayIntervalSeconds_ decayFraction_ maxDelay_.

(** The delay is slept through; the answer is the new time of the request, if
    it gets one. *)
Definition BeforeSign (b : Backoff) : prog SysE (Backoff * option Z) :=
  let! now := trigger Now in
  let '(b, delay) := ComputeDelayForRequest now b in
  if bool_decide (0 < delay)%Z then
    let! _ := trigger (Sleep delay) in
    Done (b, Some now)
  else Done (b, None).

Definition is_limit_exceeded (err : option error) : bool :=
  match err with
  | Some (AwsError code _) => bool_decide (code = "RequestLimitExceeded")
  | _ => false
  end.

Definition AfterRetry (err : option error) (b : Backoff) : Backoff :=
  if is_limit_exceeded err then ReportError b else b.

Definition describeRequest (service : string) (operation : option string) : string :=
  service +:+ "::" +:+ default "?" operation.

(** The delays of the regions: one for all the requests of a region. *)
Definition getCrossRequestRetryDelay (now : Z) (regionName : string) (delayers : gmap string Backoff)
    : gmap string Backoff * Backoff :=
  match delayers !! regionName with
  | Some delayer => (delayers, delayer)
  | None =>
      let delayer := NewCrossRequestRetryDelay now in
      (<[regionName := delayer]> delayers, delayer)
  end.
End backoff.

(** * Theorems *)

Section theorems.
Context `{MathPow}.

(** A number that is finite and not negative, as the powers of a fraction
    are. *)
Definition finite_nonneg (x : spec_float) : bool :=
  match x with S754_zero false | S754_finite false _ _ => true | _ => false end.

Context (Pow_decays : forall x, finite_nonneg (float32_of_float64 (Pow decayFraction_ x)) = true).

(** The requests of a region at these times. *)
Fixpoint delays (times : list Z) (b : Backoff) : list Z :=
  match times with
  | [] => []
  | now :: rest => let '(b, delay) := ComputeDelayForRequest now b in delay :: delays rest b
  end.

Lemma decayed_no_errors now b :
  decayFraction b = decayFraction_ -> countErrorsRequestLimit b = S754_zero false ->
  decayFraction (decayed now b) = decayFraction_ /\ countErrorsRequestLimit (decayed now b) = S754_zero false.
Proof.
  intros Hf He. unfold decayed. case_bool_decide; [cbn|done]. split; [done|]. rewrite He, Hf.
  pose proof (Pow_decays (div64 (float64_of (Unix now - lastDecay b) 0)
                                (float64_of (decayIntervalSeconds b) 0))) as Hp.
  destruct (float32_of_float64 _) as [[]|[]| |[] m e]; done.
Qed.

(** Without errors the fraction is zero, whatever the requests are. *)
Lemma fraction_no_errors b :
  countErrorsRequestLimit b = S754_zero false -> less (error_fraction b) tenth = true.
Proof.
  intros He. unfold error_fraction. destruct (less half (countRequests b)) eqn:Hr; [|done].
  rewrite He. destruct (countRequests b) as [s|s| |s m e]; try done; by destruct s.
Qed.

(** As long as no request exceeded the limit, none is delayed, however many
    requests are made and whenever. *)
Theorem no_error_no_delay start times :
  Forall (fun delay => delay = 0%Z) (delays times (NewCrossRequestRetryDelay start)).
Proof.
  enough (forall b, decayFraction b = decayFraction_ -> countErrorsRequestLimit b = S754_zero false ->
    Forall (fun delay => delay = 0%Z) (delays times b)) as Hall by by apply Hall.
  induction times as [|now times IH]; intros b Hf He; [constructor|]. cbn [delays].
  unfold ComputeDelayForRequest. destruct (decayed_no_errors now b Hf He) as [Hf' He'].
  rewrite fraction_no_errors by done. constructor; [done|]. by apply IH.
Qed.
End theorems.

(** Four requests are counted before the first: when it is refused the next
    waits for ten seconds, and when all have been refused for a while the
    delay nears its maximum. *)
Section example.
#[local] Instance no_pow : MathPow := fun _ _ => float64_of 0 0.

(** Requests at one time, each refused. *)
Fixpoint refused (n : nat) (b : Backoff) : list Z :=
  match n with
  | O => []
  | S n => let '(b, delay) := ComputeDelayForRequest 0 b in delay :: refused n (ReportError b)
  end.

Example refused_delays :
  refused 6 (NewCrossRequestRetryDelay 0) =
  [0; 10 * Second; 17 * Second; 22 * Second; 26 * Second; 30 * Second]%Z.
Proof. vm_compute. reflexivity. Qed.
End example.
