(* ===== verification/AwsSdk.v ===== *)
(** The clients of the AWS services ([awsSDKProvider] and [awsSdkEC2] of
    [aws.go], [log_handler.go]) and the metrics ([aws_metrics.go]).

    The requests are sent by a library, which runs the handlers of a client in
    order: those of the chain Sign before each attempt, those of the chain
    AfterRetry after an attempt that failed.  Its own handlers and the sending
    are calls.  The clients of a region share its delays: they hold a pointer,
    here the region, to an entry of the provider's map.

    The theorem compares the clients, from their making on, with a reference
    that keeps a tally of refusals and requests for each region. *)

From Stdlib Require Import SpecFloat.
From S2P Require Import Prelude GoStrings GoNumbers Types Api SecurityGroups AwsRetry.
From Stdlib Require Import Lia.

#[local] Open Scope string_scope.

(** * Requests and handlers *)

(** What the handlers see of a [request.Request]. *)
Record Request := {
  rq_ServiceName : string;
  rq_Operation : option string;
  rq_Error : option error;
  rq_Time : Z;
}.

(** A function of a handler: one of this provider, or the library's own. *)
Inductive handler_fn :=
| AwsHandlerLogger
| DelayBeforeSign (regionName : string)
| DelayAfterRetry (regionName : string)
| LibraryFn.

Record NamedHandler := { nh_Name : string; nh_Fn : handler_fn }.

Record Handlers := { h_Sign : list NamedHandler; h_AfterRetry : list NamedHandler }.

Inductive SdkE : Type -> Type :=
| NewService (service regionName : string) : SdkE Handlers
| RunLibraryFn (name : string) (r : Request) : SdkE Request
| SendRequest (r : Request) : SdkE (option error)
| LogLine (line : string) : SdkE unit
| MustRegister (metric : string) : SdkE bool.

Inductive SdkSysE (X : Type) : Type :=
| CallSdk (e : SdkE X)
| SdkSys (e : SysE X).
Arguments CallSdk {X} e.
Arguments SdkSys {X} e.
#[export] Instance SubE_sdk : SubE SdkE SdkSysE := fun _ e => CallSdk e.
#[export] Instance SubE_sdk_sys : SubE SysE SdkSysE := fun _ e => SdkSys e.

#[local] Abbreviation M A := (prog SdkSysE A).

(** * The provider *)

(** [awsSDKProvider], without its credentials. *)
Abbreviation awsSDKProvider := (gmap string Backoff).
Definition newAWSSDKProvider : awsSDKProvider := ∅.

Definition PushFrontNamed (h : NamedHandler) (l : list NamedHandler) : list NamedHandler := h :: l.

(** The delays of the region are made, from the time, when there are none. *)
Definition delayer_of (regionName : string) (p : awsSDKProvider) : M awsSDKProvider :=
  match p !! regionName with
  | Some _ => Done p
  | None =>
      let! now := trigger Now in
      Done (getCrossRequestRetryDelay now regionName p).1
  end.

Definition addHandlers (regionName : string) (h : Handlers) (p : awsSDKProvider)
    : M (Handlers * awsSDKProvider) :=
  let Sign := PushFrontNamed {| nh_Name := "k8s/logger"; nh_Fn := AwsHandlerLogger |} (h_Sign h) in
  let! p := delayer_of regionName p in
  Done ({| h_Sign := PushFrontNamed {| nh_Name := "k8s/delay-presign";
                                       nh_Fn := DelayBeforeSign regionName |} Sign;
           h_AfterRetry := PushFrontNamed {| nh_Name := "k8s/delay-afterretry";
                                             nh_Fn := DelayAfterRetry regionName |} (h_AfterRetry h) |}, p).

Record client := { cl_Service : string; cl_Handlers : Handlers }.

Definition new_service (service regionName : string) (p : awsSDKProvider) : M (client * awsSDKProvider) :=
  let! handlers := trigger (NewService service regionName) in
  let! '(handlers, p) := addHandlers regionName handlers p in
  Done ({| cl_Service := service; cl_Handlers := handlers |}, p).

Definition Compute : string -> awsSDKProvider -> M (client * awsSDKProvider) := new_service "ec2".
Definition LoadBalancing : string -> awsSDKProvider -> M (client * awsSDKProvider) :=
  new_service "elasticloadbalancing".
Definition Autoscaling : string -> awsSDKProvider -> M (client * awsSDKProvider) := new_service "autoscaling".

(** * The handlers *)

Section handlers.
Context `{MathPow}.

Definition awsHandlerLogger (r : Request) : M unit :=
  trigger (LogLine ("AWS request: " +:+ rq_ServiceName r +:+ " " +:+ default "?" (rq_Operation r))).

(** A pointer to delays that are not in the map is nil. *)
Definition run_handler (h : NamedHandler) (r : Request) (p : awsSDKProvider) : M (Request * awsSDKProvider) :=
  match nh_Fn h with
  | AwsHandlerLogger => let! _ := awsHandlerLogger r in Done (r, p)
  | DelayBeforeSign regionName =>
      match p !! regionName with
      | None => Crash "invalid memory address or nil pointer dereference"
      | Some delayer =>
          let! '(delayer, time) := lift (BeforeSign delayer) in
          Done ({| rq_ServiceName := rq_ServiceName r; rq_Operation := rq_Operation r;
                   rq_Error := rq_Error r; rq_Time := default (rq_Time r) time |},
                <[regionName := delayer]> p)
      end
  | DelayAfterRetry regionName =>
      match p !! regionName with
      | None => Crash "invalid memory address or nil pointer dereference"
      | Some delayer => Done (r, <[regionName := AfterRetry (rq_Error r) delayer]> p)
      end
  | LibraryFn =>
      let! r := trigger (RunLibraryFn (nh_Name h) r) in
      Done (r, p)
  end.

Fixpoint run_chain (chain : list NamedHandler) (r : Request) (p : awsSDKProvider)
    : M (Request * awsSDKProvider) :=
  match chain with
  | [] => Done (r, p)
  | h :: rest => let! '(r, p) := run_handler h r p in run_chain rest r p
  end.

(** A request that was signed is sent. *)
Definition send (c : client) (r : Request) (p : awsSDKProvider) : M (Request * awsSDKProvider) :=
  match rq_Error r with
  | Some _ => Done (r, p)
  | None =>
      let! err := trigger (SendRequest r) in
      let r := {| rq_ServiceName := rq_ServiceName r; rq_Operation := rq_Operation r;
                  rq_Error := err; rq_Time := rq_Time r |} in
      match err with
      | None => Done (r, p)
      | Some _ => run_chain (h_AfterRetry (cl_Handlers c)) r p
      end
  end.

(** One attempt of the library to send a request. *)
Definition attempt (c : client) (r : Request) (p : awsSDKProvider) : M (Request * awsSDKProvider) :=
  let! '(r, p) := run_chain (h_Sign (cl_Handlers c)) r p in
  send c r p.
End handlers.

(** * The EC2 interface *)

(** The descriptions that are not paged; [request] is the library's. *)
Section ec2.
Context {E : Type -> Type}.

Definition sdk_DescribeSecurityGroups (request : prog E (res (list SecurityGroup)))
    : prog E (res (list SecurityGroup)) :=
  let? response := request
    else (fun err => Errorf "error listing AWS security groups: %v" [FErr (Some err)]) in
  ok response.

Definition sdk_DescribeSubnets (request : prog E (res (list Subnet))) : prog E (res (list Subnet)) :=
  let? response := request else (fun err => Errorf "error listing AWS subnets: %v" [FErr (Some err)]) in
  ok response.

Definition sdk_DescribeRouteTables (request : prog E (res (list RouteTable)))
    : prog E (res (list RouteTable)) :=
  let? response := request else (fun err => Errorf "error listing AWS route tables: %v" [FErr (Some err)]) in
  ok response.
End ec2.

(** * Metrics *)

Definition awsApiMetric : string := "cloudprovider_aws_api_request_duration_seconds".
Definition awsApiErrorMetric : string := "cloudprovider_aws_api_request_errors".

(** [MustRegister] panics on a metric that is registered already. *)
Definition must_register (metric : string) : M unit :=
  let! registered := trigger (MustRegister metric) in
  if registered : bool then Done tt else Crash "duplicate metrics collector registration attempted".

Definition registerMetrics : M unit :=
  let! _ := must_register awsApiMetric in
  must_register awsApiErrorMetric.

(** * Theorems *)

#[local] Abbreviation sdk_event := (event SdkSysE).

Definition is_library (h : NamedHandler) : Prop := nh_Fn h = LibraryFn.

(** The chains of a client made for a region, with the library's own. *)
Definition made_for (regionName : string) (c : client) : Prop :=
  exists sign after,
    h_Sign (cl_Handlers c) =
      {| nh_Name := "k8s/delay-presign"; nh_Fn := DelayBeforeSign regionName |}
      :: {| nh_Name := "k8s/logger"; nh_Fn := AwsHandlerLogger |} :: sign /\
    h_AfterRetry (cl_Handlers c) =
      {| nh_Name := "k8s/delay-afterretry"; nh_Fn := DelayAfterRetry regionName |} :: after /\
    Forall is_library sign /\ Forall is_library after.

(** What the library's handlers do: no delay, nothing to the delays. *)
Definition library_event (ev : sdk_event) : Prop :=
  match ev with
  | Event (CallSdk (RunLibraryFn _ _)) _ => True
  | _ => False
  end.

Section attempts.
Context `{MathPow}.

Lemma library_chain chain r p :
  Forall is_library chain ->
  always (run_chain chain r p)
    (fun tr o => Forall library_event tr /\ exists r', o = Returned (r', p)) [].
Proof.
  enough (forall tr, Forall library_event tr -> Forall is_library chain ->
    always (run_chain chain r p) (fun tr o => Forall library_event tr /\ exists r', o = Returned (r', p)) tr)
    as Hall by (intros; by apply Hall).
  revert r; induction chain as [|h chain IH]; intros r tr Htr Hlib; cbn [run_chain]; [by split; eauto|].
  apply Forall_cons in Hlib as [Hh Hlib]. unfold run_handler. rewrite Hh. cbn. intros r'.
  apply IH; [|done]. apply Forall_app. split; [done|]. by repeat constructor.
Qed.

(** ** The reference *)

(** 0.8 as a [float64], 0.1 and 0.5 as a [float32]. *)
Definition eight_tenths : spec_float := S754_finite false 7205759403792794 (-53).
Definition one_tenth : spec_float := S754_finite false 13421773 (-27).
Definition one_half : spec_float := float32_of 1 (-1).

(** The refusals of a region that exceeded the limit, its requests, both
    decayed, and the second they were decayed at last. *)
Record tally := { limit_errors : spec_float; requests_made : spec_float; decayed_at : Z }.

Definition fresh_tally (now : Z) : tally :=
  {| limit_errors := S754_zero false; requests_made := float32_of 4 0; decayed_at := Unix now |}.

(** A request is counted, after a decay by 0.8 to the number of intervals of
    20 seconds, if more than one has passed. *)
Definition count_one (now : Z) (t : tally) : tally :=
  let age := (Unix now - decayed_at t)%Z in
  let one := float32_of 1 0 in
  if bool_decide (20 < age)%Z then
    let kept := float32_of_float64 (Pow eight_tenths (div64 (float64_of age 0) (float64_of 20 0))) in
    {| limit_errors := mul32 (limit_errors t) kept;
       requests_made := add32 (mul32 (requests_made t) kept) one; decayed_at := Unix now |}
  else {| limit_errors := limit_errors t; requests_made := add32 (requests_made t) one;
          decayed_at := decayed_at t |}.

(** The delay, in whole seconds: the fraction of refused requests of a minute,
    none below a tenth. *)
Definition delay_for (t : tally) : Z :=
  let fraction := if less one_half (requests_made t) then div32 (limit_errors t) (requests_made t)
                  else S754_zero false in
  if less fraction one_tenth then 0%Z
  else wrap64 (Second * int64_of (Seconds (int64_of (mul32 (float32_of (60 * Second) 0) fraction)))).

Definition exceeded (answer : option error) : bool :=
  match answer with
  | Some (AwsError code _) => bool_decide (code = "RequestLimitExceeded")
  | _ => false
  end.

Definition count_answers (answers : list (option error)) (t : tally) : tally :=
  {| limit_errors := Nat.iter (length (List.filter exceeded answers))
                       (fun n => add32 n (float32_of 1 0)) (limit_errors t);
     requests_made := requests_made t; decayed_at := decayed_at t |}.

(** The answers of the service in a trace. *)
Definition sent_answers (tr : list sdk_event) : list (option error) :=
  ev ← tr;
  match ev with
  | Event (CallSdk e) x =>
      match e in SdkE X return X -> list (option error) with
      | SendRequest _ => fun err => [err]
      | _ => fun _ => []
      end x
  | _ => []
  end.

(** After the signing: the library's handlers and the sending. *)
Definition attempt_event (ev : sdk_event) : Prop :=
  library_event ev \/ exists r err, ev = Event (CallSdk (SendRequest r)) err.

(** What is done with the provider: clients are made, and attempts are made
    through the client at a position. *)
Inductive sdk_command :=
| MakeClient (service regionName : string)
| SendThrough (i : nat) (r : Request).

(** The calls the commands may make, by the reference: [regions] are those of
    the clients, [tallies] the tallies of the regions. *)
Inductive reference_session : list string -> gmap string tally -> list sdk_command -> list sdk_event -> Prop :=
| reference_end regions tallies : reference_session regions tallies [] []
| reference_make regions tallies service regionName handlers cmds tr :
    is_Some (tallies !! regionName) ->
    reference_session (regions ++ [regionName])%list tallies cmds tr ->
    reference_session regions tallies (MakeClient service regionName :: cmds)
      (Event (CallSdk (NewService service regionName)) handlers :: tr)
| reference_make_first regions tallies service regionName handlers now cmds tr :
    tallies !! regionName = None ->
    reference_session (regions ++ [regionName])%list (<[regionName := fresh_tally now]> tallies) cmds tr ->
    reference_session regions tallies (MakeClient service regionName :: cmds)
      (Event (CallSdk (NewService service regionName)) handlers :: Event (SdkSys Now) now :: tr)
| reference_no_client regions tallies i r cmds tr :
    regions !! i = None -> reference_session regions tallies cmds tr ->
    reference_session regions tallies (SendThrough i r :: cmds) tr
| reference_attempt regions tallies i r regionName t now sent cmds tr :
    regions !! i = Some regionName -> tallies !! regionName = Some t ->
    let counted := count_one now t in
    Forall attempt_event sent -> length (sent_answers sent) <= 1 ->
    reference_session regions (<[regionName := count_answers (sent_answers sent) counted]> tallies) cmds tr ->
    reference_session regions tallies (SendThrough i r :: cmds)
      ([Event (SdkSys Now) now]
       ++ (if bool_decide (0 < delay_for counted)%Z
           then [Event (SdkSys (Sleep (delay_for counted))) tt] else [])
       ++ [Event (CallSdk (LogLine ("AWS request: " +:+ rq_ServiceName r +:+ " "
                                    +:+ default "?" (rq_Operation r)))) tt]
       ++ sent ++ tr)%list.

(** ** The code *)

Fixpoint session (cmds : list sdk_command) (clients : list client) (p : awsSDKProvider)
    : M awsSDKProvider :=
  match cmds with
  | [] => Done p
  | MakeClient service regionName :: cmds =>
      let! '(c, p) := new_service service regionName p in
      session cmds (clients ++ [c])%list p
  | SendThrough i r :: cmds =>
      match clients !! i with
      | None => session cmds clients p
      | Some c => let! '(_, p) := attempt c r p in session cmds clients p
      end
  end.

(** The delays of a tally. *)
Definition backoff_of (t : tally) : Backoff :=
  {| decayIntervalSeconds := 20; decayFraction := eight_tenths; maxDelay := 60 * Second;
     countErrorsRequestLimit := limit_errors t; countRequests := requests_made t;
     lastDecay := decayed_at t |}.

Lemma ComputeDelay_counts now t :
  ComputeDelayForRequest now (backoff_of t) = (backoff_of (count_one now t), delay_for (count_one now t)).
Proof.
  unfold ComputeDelayForRequest, decayed, count_one, delay_for, error_fraction, count_request.
  change one_tenth with tenth. change one_half with half.
  cbn -[Z.mul]. case_bool_decide; cbn -[Z.mul]; by destruct (less _ tenth).
Qed.

Lemma AfterRetry_counts err t : AfterRetry err (backoff_of t) = backoff_of (count_answers [err] t).
Proof.
  unfold AfterRetry, is_limit_exceeded, ReportError, count_answers. cbn [List.filter]. fold (exceeded err).
  by destruct (exceeded err), t.
Qed.

Lemma sent_answers_app tr tr' : sent_answers (tr ++ tr') = (sent_answers tr ++ sent_answers tr')%list.
Proof. apply bind_app. Qed.

Lemma library_answers tr : Forall library_event tr -> sent_answers tr = [].
Proof.
  induction 1 as [|[X e x] tr Hev _ IH]; [done|]. cbn. fold (sent_answers tr). rewrite IH.
  destruct e as [e|e]; [|done]. by destruct e.
Qed.

Lemma library_attempt tr : Forall library_event tr -> Forall attempt_event tr.
Proof. intros Htr. eapply Forall_impl; [exact Htr|]. by left. Qed.

(** The calls of the sending, and the tally they leave. *)
Definition sending (regionName : string) (t : tally) (p : awsSDKProvider) (sent : list sdk_event)
    (o : outcome (Request * awsSDKProvider)) : Prop :=
  exists r', Forall attempt_event sent /\ length (sent_answers sent) <= 1 /\
    o = Returned (r', <[regionName := backoff_of (count_answers (sent_answers sent) t)]> p).

Lemma send_counts c regionName r p t :
  made_for regionName c -> p !! regionName = Some (backoff_of t) ->
  always (send c r p) (sending regionName t p) [].
Proof.
  intros (sign & after & _ & Ha & _ & Hafter) Hb. unfold send. rewrite Ha.
  assert (backoff_of (count_answers [] t) = backoff_of t) as Hnone by by destruct t.
  destruct (rq_Error r) as [e|].
  { exists r. split_and!; [constructor|cbn; lia|]. change (sent_answers []) with (@nil (option error)).
    by rewrite Hnone, insert_id. }
  intros [err|]; cbn.
  - rewrite Hb. cbn. apply always_extend.
    eapply always_impl; [|by apply library_chain]. intros tr o (Htr & r' & ->).
    exists r'. rewrite sent_answers_app, (library_answers tr), app_nil_r, AfterRetry_counts by done.
    split_and!; [|cbn; lia|done]. apply Forall_app. split; [|by apply library_attempt].
    constructor; [|constructor]. right. by do 2 eexists.
  - eexists. split_and!; [|cbn; lia|cbn].
    + constructor; [|constructor]. right. by do 2 eexists.
    + replace (count_answers [None] t) with t by by destruct t. by rewrite insert_id.
Qed.

Lemma signed_counts c regionName sign r p t :
  Forall is_library sign -> made_for regionName c -> p !! regionName = Some (backoff_of t) ->
  always (let! '(r, p) := run_chain sign r p in send c r p) (sending regionName t p) [].
Proof.
  intros Hsign Hc Hb. apply always_bind. eapply always_impl; [|by apply library_chain].
  intros tr o (Htr & r' & ->). apply always_extend.
  eapply always_impl; [|by apply (send_counts c regionName r' p t)].
  intros rest o (r'' & Hrest & Hlen & ->). exists r''.
  rewrite sent_answers_app, (library_answers tr) by done. split_and!; [|done|done].
  apply Forall_app. split; [by apply library_attempt|done].
Qed.

(** One attempt, whatever the library's handlers do: an error is counted even
    when a handler of the library clears it. *)
Lemma attempt_counts c regionName r p t :
  made_for regionName c -> p !! regionName = Some (backoff_of t) ->
  always (attempt c r p)
    (fun tr o => exists now sent,
       tr = ([Event (SdkSys Now) now]
             ++ (if bool_decide (0 < delay_for (count_one now t))%Z
                 then [Event (SdkSys (Sleep (delay_for (count_one now t)))) tt] else [])
             ++ [Event (CallSdk (LogLine ("AWS request: " +:+ rq_ServiceName r +:+ " "
                                          +:+ default "?" (rq_Operation r)))) tt]
             ++ sent)%list /\
       sending regionName (count_one now t) p sent o) [].
Proof.
  intros Hc Hb. pose proof Hc as (sign & after & Hs & _ & Hsign & _).
  unfold attempt. rewrite Hs. cbn [run_chain run_handler nh_Fn]. rewrite Hb.
  unfold BeforeSign. cbn. intros now. rewrite ComputeDelay_counts. cbn.
  set (t' := count_one now t).
  assert (forall sent o, sending regionName t' (<[regionName := backoff_of t']> p) sent o ->
                         sending regionName t' p sent o) as Hagain.
  { intros sent o (r' & Hall & Hlen & ->). exists r'. by rewrite insert_insert_eq. }
  case_bool_decide as Hdelay; cbn; intros []; [intros []|];
    apply always_extend; (eapply always_impl;
      [|apply (signed_counts c regionName sign _ (<[regionName := backoff_of t']> p) t');
        [done..|by rewrite lookup_insert_eq]]);
    intros sent o Hsent%Hagain; exists now, sent; fold t';
    [rewrite bool_decide_eq_true_2 by done|rewrite bool_decide_eq_false_2 by done]; by split.
Qed.

(** The library adds handlers of its own only. *)
Definition library_made (ev : sdk_event) : Prop :=
  match ev with
  | Event (CallSdk e) x =>
      match e in SdkE X return X -> Prop with
      | NewService _ _ => fun handlers =>
          Forall is_library (h_Sign handlers) /\ Forall is_library (h_AfterRetry handlers)
      | _ => fun _ => True
      end x
  | _ => True
  end.

(** The provider and its clients keep the tallies. *)
Definition keeps_tallies (regions : list string) (tallies : gmap string tally)
    (clients : list client) (p : awsSDKProvider) : Prop :=
  Forall2 made_for regions clients /\ Forall (fun r => is_Some (tallies !! r)) regions /\
  p = backoff_of <$> tallies.

Lemma keeps_tallies_made regions tallies clients p regionName c :
  keeps_tallies regions tallies clients p -> made_for regionName c -> is_Some (tallies !! regionName) ->
  keeps_tallies (regions ++ [regionName]) tallies (clients ++ [c]) p.
Proof.
  intros (Hc & Ht & ->) Hmade Hr. split_and!; [|by apply Forall_app_2; [|constructor]|done].
  by apply Forall2_app; [|constructor].
Qed.

Lemma keeps_tallies_insert regions tallies clients p regionName t :
  keeps_tallies regions tallies clients p ->
  keeps_tallies regions (<[regionName := t]> tallies) clients (<[regionName := backoff_of t]> p).
Proof.
  intros (Hc & Ht & ->). split_and!; [done| |by rewrite fmap_insert].
  eapply Forall_impl; [exact Ht|]. intros r Hr. cbn in Hr. destruct (decide (regionName = r)) as [->|].
  - rewrite lookup_insert_eq. by eexists.
  - by rewrite lookup_insert_ne.
Qed.

(** The client that [addHandlers] completes is made for its region. *)
Lemma handlers_made service regionName handlers :
  Forall is_library (h_Sign handlers) -> Forall is_library (h_AfterRetry handlers) ->
  made_for regionName
    {| cl_Service := service;
       cl_Handlers :=
         {| h_Sign := {| nh_Name := "k8s/delay-presign"; nh_Fn := DelayBeforeSign regionName |}
                      :: {| nh_Name := "k8s/logger"; nh_Fn := AwsHandlerLogger |} :: h_Sign handlers;
            h_AfterRetry := {| nh_Name := "k8s/delay-afterretry"; nh_Fn := DelayAfterRetry regionName |}
                            :: h_AfterRetry handlers |} |}.
Proof. intros Hs Ha. by exists (h_Sign handlers), (h_AfterRetry handlers). Qed.

Lemma session_simulates cmds regions tallies clients p tr o :
  keeps_tallies regions tallies clients p ->
  exec (session cmds clients p) tr o -> Forall library_made tr ->
  (exists p', o = Returned p') /\ reference_session regions tallies cmds tr.
Proof.
  revert regions tallies clients p tr.
  induction cmds as [|[service regionName|i r] cmds IH]; intros regions tallies clients p tr Hk; cbn [session].
  - intros [-> ->] _. split; [eauto|constructor].
  - unfold new_service, addHandlers, delayer_of. cbn [bind trigger exec].
    intros (handlers & rest & -> & He) [[Hs Ha] Hlib]%Forall_cons.
    destruct Hk as (Hc & Ht & Hp). subst p. rewrite lookup_fmap in He.
    destruct (tallies !! regionName) as [t|] eqn:Hr; cbn in He.
    + eapply IH in He as [Ho Hrest]; [|apply keeps_tallies_made; [by split_and!|by apply handlers_made|by eexists]|done].
      split; [done|]. by apply reference_make; [eexists|].
    + destruct He as (now & rest' & -> & He). apply Forall_cons in Hlib as [_ Hlib].
      unfold getCrossRequestRetryDelay in He. rewrite lookup_fmap, Hr in He. cbn in He.
      eapply (IH _ (<[regionName := fresh_tally now]> tallies)) in He as [Ho Hrest]; [| |done].
      * split; [done|]. by apply reference_make_first.
      * apply keeps_tallies_made; [|by apply handlers_made|rewrite lookup_insert_eq; by eexists].
        by apply (keeps_tallies_insert regions tallies clients (backoff_of <$> tallies) regionName (fresh_tally now)).
  - intros He Hlib. pose proof Hk as (Hc & Ht & ->).
    destruct (clients !! i) as [c|] eqn:Hi.
    2: { apply (IH regions tallies) in He as [Ho Hrest]; [|done..]. split; [done|]. apply reference_no_client; [|done].
         apply lookup_ge_None_2. rewrite (Forall2_length _ _ _ Hc). by apply lookup_ge_None_1. }
    destruct (Forall2_lookup_r _ _ _ _ _ Hc Hi) as (regionName & Hreg & Hmade).
    destruct (Forall_lookup_1 _ _ _ _ Ht Hreg) as [t Hr].
    assert ((backoff_of <$> tallies) !! regionName = Some (backoff_of t)) as Hb by by rewrite lookup_fmap, Hr.
    pose proof (attempt_counts c regionName r _ t Hmade Hb) as Hattempt.
    apply exec_bind in He as [(why & He & _)|([r' p'] & first & rest & -> & He & Hrest)].
    + apply (always_exec _ _ _ _ Hattempt) in He as (? & ? & _ & ? & _ & _ & [=]).
    + apply (always_exec _ _ _ _ Hattempt) in He as (now & sent & -> & r'' & Hsent & Hlen & [= _ ->]).
      apply Forall_app in Hlib as [_ Hlib].
      eapply IH in Hrest as [Ho Hrest]; [|by apply keeps_tallies_insert|done]. split; [done|].
      rewrite <- !app_assoc. by eapply reference_attempt.
Qed.

(** C32: The delays between requests.  Whatever clients are made, for whatever
    services and regions, and whatever requests are attempted through them,
    the code does nothing that the reference does not: the first client of a
    region starts the region's tally and the later ones share it; each attempt
    is counted, is delayed, before it is logged and signed, by what the tally
    of its client's region gives for the attempts and refusals before it, in
    that region alone, and adds its answer to the tally, even when a handler
    of the library clears the error to try again.  The library is only taken
    to add handlers of its own to those it makes a client with. *)
Theorem attempts_share_delays cmds :
  always (session cmds [] newAWSSDKProvider)
    (fun tr o => Forall library_made tr -> (exists p, o = Returned p) /\ reference_session [] ∅ cmds tr) [].
Proof.
  apply exec_always. intros tr o He Hlib. eapply session_simulates; [|exact He|exact Hlib].
  split_and!; [constructor..|]. symmetry. apply fmap_empty.
Qed.
End attempts.

(** Two clients of one region: a request of the second waits for ten seconds
    after the first was refused. *)
Section example.
#[local] Instance no_pow : MathPow := fun _ _ => float64_of 0 0.

Definition example_request (service : string) : Request :=
  {| rq_ServiceName := service; rq_Operation := None; rq_Error := None; rq_Time := 0 |}.

(** The library has no handlers of its own, the clock stands still, every
    request is refused; the state counts the time slept. *)
Definition refusing : handler SdkSysE Z := fun X e slept =>
  match e with
  | CallSdk e =>
      match e in SdkE X return X * Z with
      | NewService _ _ => ({| h_Sign := []; h_AfterRetry := [] |}, slept)
      | RunLibraryFn _ r => (r, slept)
      | SendRequest _ => (Some (AwsError "RequestLimitExceeded" ""), slept)
      | LogLine _ => (tt, slept)
      | MustRegister _ => (true, slept)
      end
  | SdkSys e =>
      match e in SysE X return X * Z with
      | Now => (0, slept)%Z
      | Sleep d => (tt, slept + d)%Z
      | NewUUID => ("", slept)
      | DeepCopy o => (Ok o, slept)
      end
  end.

Definition two_clients : list sdk_command :=
  [MakeClient "ec2" "us-east-1"; MakeClient "elasticloadbalancing" "us-east-1";
   SendThrough 0 (example_request "ec2"); SendThrough 1 (example_request "elasticloadbalancing")].

Example two_clients_share : (run refusing (session two_clients [] newAWSSDKProvider) 0%Z).2 = (10 * Second)%Z.
Proof. vm_compute. reflexivity. Qed.

Definition two_regions : list sdk_command :=
  [MakeClient "ec2" "us-east-1"; MakeClient "elasticloadbalancing" "us-west-1";
   SendThrough 0 (example_request "ec2"); SendThrough 1 (example_request "elasticloadbalancing")].

Example two_regions_do_not : (run refusing (session two_regions [] newAWSSDKProvider) 0%Z).2 = 0%Z.
Proof. vm_compute. reflexivity. Qed.
End example.
