(* ===== verification/OpenStackLB.v ===== *)
(** The load balancers of the OpenStack provider, version 2
    ([openstack_loadbalancer.go], the type [LbaasV2], with the look-ups of
    that file).

    The calls are the requests of gophercloud; a listing answers with its
    pages and the error that ended it ([OpenStackInstances]).  The waiting
    for the ACTIVE status is modelled with its polls; its result is ignored
    by the code. *)

From stdpp Require Import pretty.
From S2P Require Import Prelude GoStrings Types Api Wait CloudProvider OpenStackInstances OpenStackRoutes.
From Stdlib Require Import Lia.

#[local] Open Scope string_scope.

(** * Data *)

(** The fields used of a service: [GetLoadBalancerSourceRanges] gives its
    source ranges, each with what [net.ParseCIDR] makes of it ([true] for
    an IPv4 address). *)
Record ServicePort := { svp_Protocol : string; svp_Port : Z; svp_NodePort : Z }.
Record source_range := { sr_text : string; sr_To4 : res bool }.
Record Service := {
  svc_Name : string;
  svc_UID : string;
  svc_Ports : list ServicePort;
  svc_LoadBalancerIP : string;
  svc_SessionAffinity : string;
  svc_SourceRanges : res (list source_range);
}.
Record Node := { node_Name : string; node_Addresses : list NodeAddress }.

(** [LoadBalancerOpts] *)
Record LoadBalancerOpts := {
  lbo_LBVersion : string;
  lbo_SubnetId : string;
  lbo_FloatingNetworkId : string;
  lbo_LBMethod : string;
  lbo_CreateMonitor : bool;
  lbo_MonitorDelay : Z;
  lbo_MonitorTimeout : Z;
  lbo_MonitorMaxRetries : Z;
  lbo_ManageSecurityGroups : bool;
  lbo_NodeSecurityGroupID : string;
}.

Record loadbalancer := { lb_ID : string; lb_VipAddress : string; lb_VipPortID : string }.
Record listener := {
  ls_ID : string;
  ls_Protocol : string;
  ls_ProtocolPort : Z;
  ls_Loadbalancers : list string;
}.
Record pool := { po_ID : string; po_MonitorID : string; po_Listeners : list string }.
Record member := { mb_ID : string; mb_Address : string; mb_ProtocolPort : Z }.
Record floatingip := { fip_ID : string; fip_FloatingIP : string }.

(** [rules.CreateOpts] *)
Record rule_opts := {
  ro_Direction : string;
  ro_PortRangeMax : Z;
  ro_PortRangeMin : Z;
  ro_Protocol : string;
  ro_RemoteGroupID : string;
  ro_RemoteIPPrefix : string;
  ro_SecGroupID : string;
  ro_EtherType : string;
}.

(** * Calls *)

Inductive LbE : Type -> Type :=
| ListExtensions : LbE (list (list string) * option error)
| ListFloatingIPs (portID : string) : LbE (list (list floatingip) * option error)
| ListLoadBalancers (name : string) : LbE (list (list loadbalancer) * option error)
| ListListeners (loadbalancerID : string) : LbE (list (list listener) * option error)
| ListPools (loadbalancerID : string) : LbE (list (list pool) * option error)
| ListMembers (poolID : string) : LbE (list (list member) * option error)
| ListRules (secGroupID remoteGroupID : string) : LbE (list (list string) * option error)
| CreateLB (name description subnetID vipAddress : string) : LbE (res loadbalancer)
| GetLBStatus (id : string) : LbE (res string)
| DeleteLB (id : string) : LbE (option error)
| CreateListener (name protocol : string) (port : Z) (loadbalancerID : string) : LbE (res listener)
| DeleteListener (id : string) : LbE (option error)
| CreatePool (name protocol lbmethod listenerID : string) (persistence : option string)
    : LbE (res pool)
| DeletePool (id : string) : LbE (option error)
| CreateMember (poolID address : string) (port : Z) (subnetID : string) : LbE (option error)
| DeleteMember (poolID memberID : string) : LbE (option error)
| CreateMonitor (poolID type : string) (delay timeout maxRetries : Z) : LbE (res string)
| DeleteMonitor (id : string) : LbE (option error)
| CreateFloatingIP (networkID portID : string) : LbE (res floatingip)
| DeleteFloatingIP (id : string) : LbE (option error)
| CreateGroup (name description : string) : LbE (res string)
| GroupIDFromName (name : string) : LbE (res string)
| DeleteGroup (id : string) : LbE (option error)
| CreateRule (opts : rule_opts) : LbE (option error)
| DeleteRule (id : string) : LbE (option error)
| UpdatePortGroups (portID : string) (groups : list string) : LbE (option error).

(** With the clock, for the waiting. *)
Inductive LbaasE (X : Type) : Type :=
| CallLb (e : LbE X)
| CallLbSys (e : SysE X).
Arguments CallLb {X} e.
Arguments CallLbSys {X} e.

#[export] Instance SubE_lb : SubE LbE LbaasE := fun _ e => CallLb e.
#[export] Instance SubE_lb_sys : SubE SysE LbaasE := fun _ e => CallLbSys e.

Definition isNotFound (err : error) : bool :=
  match err with UnexpectedResponseCode actual _ => bool_decide (actual = 404%Z) | _ => false end.

(** [err != nil && !isNotFound(err)] *)
Definition serious (err : option error) : option error :=
  match err with
  | Some err => if isNotFound err then None else Some err
  | None => None
  end.

Definition ProtocolTCP : string := "TCP".
Definition activeStatus : string := "ACTIVE".
Definition errorStatus : string := "ERROR".
Definition loadbalancerActiveInitDealy : Z := Second.
Definition loadbalancerActiveSteps : nat := 19.
Definition loadbalancerDeleteInitDealy : Z := Second.
Definition loadbalancerDeleteSteps : nat := 13.

(** * Pure helpers *)

Definition toListenersProtocol (protocol : string) : string :=
  if bool_decide (protocol = "TCP") then "TCP" else protocol.

Definition toRuleProtocol (protocol : string) : string :=
  if bool_decide (protocol = "TCP") then "tcp"
  else if bool_decide (protocol = "UDP") then "udp"
  else ToLower protocol.

Definition getListenerForPort (existingListeners : list listener) (p : ServicePort)
    : option listener :=
  List.find (fun l => bool_decide (ls_Protocol l = toListenersProtocol (svp_Protocol p)) &&
                      bool_decide (ls_ProtocolPort l = svp_Port p)) existingListeners.

Definition is_member (addr : string) (p : Z) (m : member) : bool :=
  bool_decide (mb_Address m = addr) && bool_decide (mb_ProtocolPort m = p).

Definition memberExists (members : list member) (addr : string) (p : Z) : bool :=
  existsb (is_member addr p) members.

Definition popListener (existingListeners : list listener) (id : string) : list listener :=
  match find_index (fun l => bool_decide (ls_ID l = id)) existingListeners with
  | Some i => take (length existingListeners - 1) (overwritten i existingListeners)
  | None => existingListeners
  end.

(** The loop of [popMember]: [todo] elements from the index [i] of the array
    are still to be visited, and the slice has [len] elements; an index past
    them panics. *)
Fixpoint pop_member_from (addr : string) (p : Z) (todo i len : nat) (array : list member)
    : option (list member) :=
  match todo with
  | O => Some (take len array)
  | S todo' =>
      match array !! i with
      | None => None
      | Some m =>
          if is_member addr p m then
            if bool_decide (i < len)%nat then
              match array !! (len - 1) with
              | None => None
              | Some last => pop_member_from addr p todo' (S i) (len - 1) (<[i := last]> array)
              end
            else None
          else pop_member_from addr p todo' (S i) len array
      end
  end.

Definition popMember (members : list member) (addr : string) (p : Z) : option (list member) :=
  pop_member_from addr p (length members) 0 (length members) members.

Definition getSecurityGroupName (clusterName : string) (service : Service) : string :=
  "lb-sg-" +:+ clusterName +:+ "-" +:+ svc_Name service.

Definition nodeAddressForLB (node : Node) : res string :=
  match node_Addresses node with
  | [] => Err ErrNoAddressFound
  | first :: _ =>
      match List.find (fun addr => bool_decide (na_Type addr = NodeInternalIP)) (node_Addresses node) with
      | Some addr => Ok (na_Address addr)
      | None => Ok (na_Address first)
      end
  end.

(** * Operations *)

Section lbaas.
Context `{MapRange} {E : Type -> Type} `{!SubE LbE E, !SubE SysE E}.
(** The multiplication of a duration by 1.2, and the options. *)
Context (scale : Z -> Z) (opts : LoadBalancerOpts).
#[local] Abbreviation M A := (prog E A).

(** ** Look-ups *)

(** The handler that collects the items. *)
Definition collect_all {T} (found page : list T) : list T * bool * option error :=
  ((found ++ page)%list, true, None).

Definition see_extensions (seen : gmap string bool) (exts : list string)
    : gmap string bool * bool * option error :=
  (fold_left (fun seen ext => <[ext := true]> seen) exts seen, true, None).

(** The map of what was seen, and the error. *)
Definition networkExtensions : M (gmap string bool * option error) :=
  let! listed := trigger ListExtensions in
  Done (EachPage see_extensions listed.1 listed.2 ∅).

(** What the look-ups of one object do with the listing. *)
Definition found_one {T} (collected : list T * option error) : res T :=
  match collected with
  | (_, Some err) => if isNotFound err then Err ErrNotFound else Err err
  | ([], None) => Err ErrNotFound
  | ([x], None) => Ok x
  | (_, None) => Err ErrMultipleResults
  end.

Definition getFloatingIPByPortID (portID : string) : M (res floatingip) :=
  let! listed := trigger (ListFloatingIPs portID) in
  Done (found_one (EachPage collect_one listed.1 listed.2 [])).

Definition getLoadbalancerByName (name : string) : M (res loadbalancer) :=
  let! listed := trigger (ListLoadBalancers name) in
  Done (found_one (EachPage collect_one listed.1 listed.2 [])).

Definition collect_listeners (id : string) (found page : list listener)
    : list listener * bool * option error :=
  ((found ++ List.filter (fun l => bool_decide (id ∈ ls_Loadbalancers l)) page)%list, true, None).

Definition getListenersByLoadBalancerID (id : string) : M (res (list listener)) :=
  let! listed := trigger (ListListeners id) in
  match EachPage (collect_listeners id) listed.1 listed.2 [] with
  | (_, Some err) => fail err
  | (found, None) => ok found
  end.

(** A pool is collected once for every mention of the listener in it. *)
Definition collect_pools (listenerID : string) (found page : list pool)
    : list pool * bool * option error :=
  let found' := (found ++ (p ← page; _ ← List.filter (fun l => bool_decide (l = listenerID))
                                           (po_Listeners p); [p]))%list in
  if bool_decide (1 < length found')%nat then (found', false, Some ErrMultipleResults)
  else (found', true, None).

Definition getPoolByListenerID (loadbalancerID listenerID : string) : M (res pool) :=
  let! listed := trigger (ListPools loadbalancerID) in
  Done (found_one (EachPage (collect_pools listenerID) listed.1 listed.2 [])).

Definition getMembersByPoolID (id : string) : M (res (list member)) :=
  let! listed := trigger (ListMembers id) in
  match EachPage collect_all listed.1 listed.2 [] with
  | (_, Some err) => fail err
  | (members, None) => ok members
  end.

Definition getSecurityGroupRules (secGroupID remoteGroupID : string) : M (res (list string)) :=
  let! listed := trigger (ListRules secGroupID remoteGroupID) in
  match EachPage collect_all listed.1 listed.2 [] with
  | (_, Some err) => fail err
  | (rules, None) => ok rules
  end.

(** ** Waiting *)

(** One poll; the closure's variable is the status. *)
Definition poll_active (loadbalancerID : string) (provisioningStatus : string)
    : M (string * (bool * option error)) :=
  let! got := trigger (GetLBStatus loadbalancerID) in
  match got with
  | Err err => Done (provisioningStatus, (false, Some err))
  | Ok status =>
      if bool_decide (status = activeStatus) then Done (status, (true, None))
      else if bool_decide (status = errorStatus) then
        Done (status, (true, Some (errorf "Loadbalancer has gone into ERROR state" [])))
      else Done (status, (false, None))
  end.

Definition waitLoadbalancerActiveProvisioningStatus (loadbalancerID : string)
    : M (string * option error) :=
  let! waited := ExponentialBackoff (poll_active loadbalancerID) loadbalancerActiveInitDealy scale
                   loadbalancerActiveSteps "" in
  match waited with
  | (status, Some ErrWaitTimeout) =>
      Done (status, Some (errorf "Loadbalancer failed to go into ACTIVE provisioning status within alloted time" []))
  | (status, err) => Done (status, err)
  end.

Definition poll_deleted (loadbalancerID : string) (s : unit) : M (unit * (bool * option error)) :=
  let! got := trigger (GetLBStatus loadbalancerID) in
  match got with
  | Err err => if is_ErrNotFound err then Done (s, (true, None)) else Done (s, (false, Some err))
  | Ok _ => Done (s, (false, None))
  end.

Definition waitLoadbalancerDeleted (loadbalancerID : string) : M (option error) :=
  let! waited := ExponentialBackoff (poll_deleted loadbalancerID) loadbalancerDeleteInitDealy scale
                   loadbalancerDeleteSteps tt in
  match waited.2 with
  | Some ErrWaitTimeout =>
      Done (Some (errorf "Loadbalancer failed to delete within the alloted time" []))
  | err => Done err
  end.

(** A request, its error if it is serious, and then the waiting. *)
Definition wait_active (lb : loadbalancer) : M unit :=
  let! _ := waitLoadbalancerActiveProvisioningStatus (lb_ID lb) in Done tt.

(** ** Creating *)

Definition createNodeSecurityGroup (nodeSecurityGroupID : string) (p : Z) (protocol lbSecGroup : string)
    : M (option error) :=
  let rule ethertype :=
    {| ro_Direction := "ingress"; ro_PortRangeMax := p; ro_PortRangeMin := p;
       ro_Protocol := toRuleProtocol protocol; ro_RemoteGroupID := lbSecGroup;
       ro_RemoteIPPrefix := ""; ro_SecGroupID := nodeSecurityGroupID; ro_EtherType := ethertype |} in
  let! err := trigger (CreateRule (rule "IPv4")) in
  match err with
  | Some err => Done (Some err)
  | None => trigger (CreateRule (rule "IPv6"))
  end.

Definition createLoadBalancer (service : Service) (name : string) : M (res loadbalancer) :=
  let? lb := trigger (CreateLB name ("Kubernetes external service " +:+ name) (lbo_SubnetId opts)
                               (svc_LoadBalancerIP service))
    else (fun err => Errorf "Error creating loadbalancer %v: %v" [FDump; FErr (Some err)]) in
  ok lb.

(** The address, whether it exists, and the error. *)
Definition GetLoadBalancer (service : Service) : M (option string * bool * option error) :=
  let! got := getLoadbalancerByName (GetLoadBalancerName (svc_UID service)) in
  match got with
  | Err err => if is_ErrNotFound err then Done (None, false, None) else Done (None, false, Some err)
  | Ok lb => Done (Some (lb_VipAddress lb), true, None)
  end.

(** ** Deleting *)

(** A deletion whose serious error is returned, and the waiting. *)
Definition delete_and_wait (lb : loadbalancer) (e : LbE (option error)) (wrap : error -> error)
    : M (res unit) :=
  let! err := trigger e in
  match serious err with
  | Some err => fail (wrap err)
  | None => let! _ := wait_active lb in ok tt
  end.

(** The pool of a listener; its absence is a nil pointer the code reads. *)
Definition pools_of_listeners (lb : loadbalancer) (pools : list pool) (l : listener)
    : M (res (list pool)) :=
  let! got := getPoolByListenerID (lb_ID lb) (ls_ID l) in
  match got with
  | Ok p => ok (pools ++ [p])%list
  | Err err =>
      if is_ErrNotFound err then Crash "invalid memory address or nil pointer dereference"
      else fail (Errorf "Error getting pool for listener %s: %v" [FStr (ls_ID l); FErr (Some err)])
  end.

Definition member_ids_of_pools (memberIDs : list string) (p : pool) : M (res (list string)) :=
  let! got := getMembersByPoolID (po_ID p) in
  match got with
  | Ok members => ok (memberIDs ++ (mb_ID <$> members))%list
  | Err err =>
      if isNotFound err then ok memberIDs
      else fail (Errorf "Error getting pool members %s: %v" [FStr (po_ID p); FErr (Some err)])
  end.

(** Every member is deleted from every pool. *)
Definition delete_pool (lb : loadbalancer) (memberIDs : list string) (_ : unit) (p : pool)
    : M (res unit) :=
  let? _ := fold_ok (fun _ memberID => delete_and_wait lb (DeleteMember (po_ID p) memberID) id)
              memberIDs tt in
  delete_and_wait lb (DeletePool (po_ID p)) id.

(** The errors of the rules are logged only. *)
Definition delete_rule (ruleID : string) : M unit :=
  let! _ := trigger (DeleteRule ruleID) in Done tt.

Definition delete_groups (clusterName : string) (service : Service) : M (option error) :=
  let! got := trigger (GroupIDFromName (getSecurityGroupName clusterName service)) in
  match got with
  | Err _ => Done None
  | Ok lbSecGroupID =>
      let! err := trigger (DeleteGroup lbSecGroupID) in
      match serious err with
      | Some err => Done (Some err)
      | None =>
          let! rules := getSecurityGroupRules (lbo_NodeSecurityGroupID opts) lbSecGroupID in
          match rules with
          | Err err =>
              if isNotFound err then Done None else Done (Some err)
          | Ok rules => let! _ := for_each rules delete_rule in Done None
          end
      end
  end.

Definition delete_floating_ip (portID : string) : M (res unit) :=
  if bool_decide (lbo_FloatingNetworkId opts <> "") then
    let! got := getFloatingIPByPortID portID in
    match got with
    | Err err => if is_ErrNotFound err then ok tt else fail err
    | Ok fip =>
        let! err := trigger (DeleteFloatingIP (fip_ID fip)) in
        match serious err with
        | Some err => fail err
        | None => ok tt
        end
    end
  else ok tt.

(** The parts of a load balancer, and then the load balancer. *)
Definition delete_parts (lb : loadbalancer) : M (res unit) :=
  let? listenerList := getListenersByLoadBalancerID (lb_ID lb)
    else (fun err => Errorf "Error getting LB %s listeners: %v" [FStr (lb_ID lb); FErr (Some err)]) in
  let? pools := fold_ok (pools_of_listeners lb) listenerList [] in
  let? memberIDs := fold_ok member_ids_of_pools pools [] in
  let? _ := fold_ok (fun _ p => delete_and_wait lb (DeleteMonitor (po_MonitorID p)) id) pools tt in
  let? _ := fold_ok (delete_pool lb memberIDs) pools tt in
  let? _ := fold_ok (fun _ l => delete_and_wait lb (DeleteListener (ls_ID l)) id) listenerList tt in
  let! err := trigger (DeleteLB (lb_ID lb)) in
  match serious err with
  | Some err => fail err
  | None => let! _ := waitLoadbalancerDeleted (lb_ID lb) in ok tt
  end.

Definition EnsureLoadBalancerDeleted (clusterName : string) (service : Service) : M (option error) :=
  let! got := getLoadbalancerByName (GetLoadBalancerName (svc_UID service)) in
  match got with
  | Err err => if is_ErrNotFound err then Done None else Done (Some err)
  | Ok lb =>
      let! deleted := (let? _ := delete_floating_ip (lb_VipPortID lb) in delete_parts lb) in
      match deleted with
      | Err err => Done (Some err)
      | Ok _ =>
          if lbo_ManageSecurityGroups opts then delete_groups clusterName service else Done None
      end
  end.

(** ** Ensuring *)

Definition IsAllowAll (ranges : list source_range) : bool :=
  existsb (fun r => bool_decide (sr_text r = "0.0.0.0/0")) ranges.

(** The checks before anything is asked: the source ranges and the type of
    the session persistence. *)
Definition check_service (service : Service) : res (list source_range * option string) :=
  if bool_decide (svc_Ports service = []) then
    Err (errorf "no ports provided to openstack load balancer" [])
  else if existsb (fun p => bool_decide (svp_Protocol p <> ProtocolTCP)) (svc_Ports service) then
    Err (errorf "Only TCP LoadBalancer is supported for openstack load balancers" [])
  else
    match svc_SourceRanges service with
    | Err err => Err err
    | Ok sourceRanges =>
        if negb (IsAllowAll sourceRanges) && negb (lbo_ManageSecurityGroups opts) then
          Err (errorf "Source range restrictions are not supported for openstack load balancers without managing security groups" [])
        else if bool_decide (svc_SessionAffinity service = "None") then Ok (sourceRanges, None)
        else if bool_decide (svc_SessionAffinity service = "ClientIP") then
          Ok (sourceRanges, Some "SOURCE_IP")
        else Err (errorf "unsupported load balancer affinity: %v" [svc_SessionAffinity service])
    end.

(** One node of one port: a member is made for it, or the one it has is
    taken off the list of those to delete. *)
Definition ensure_member (lb : loadbalancer) (poolID : string) (nodePort : Z)
    (members : list member) (node : Node) : M (res (list member)) :=
  match nodeAddressForLB node with
  | Err err =>
      if is_ErrNotFound err then ok members
      else fail (Errorf "Error getting address for node %s: %v" [FStr (node_Name node); FErr (Some err)])
  | Ok addr =>
      if negb (memberExists members addr nodePort) then
        let! err := trigger (CreateMember poolID addr nodePort (lbo_SubnetId opts)) in
        match err with
        | Some err => fail (Errorf "Error creating LB pool member for node: %s, %v"
                                   [FStr (node_Name node); FErr (Some err)])
        | None => let! _ := wait_active lb in ok members
        end
      else
        match popMember members addr nodePort with
        | None => Crash "index out of range"
        | Some members => ok members
        end
  end.

Definition delete_obsolete_member (lb : loadbalancer) (poolID : string) (_ : unit) (m : member)
    : M (res unit) :=
  delete_and_wait lb (DeleteMember poolID (mb_ID m))
    (fun err => Errorf "Error deleting obsolete member %s for pool %s address %s: %v"
                       [FStr (mb_ID m); FStr poolID; FStr (mb_Address m); FErr (Some err)]).

Definition ensure_monitor (lb : loadbalancer) (p : pool) (protocol : string) : M (res unit) :=
  if bool_decide (po_MonitorID p = "") && lbo_CreateMonitor opts then
    let? _ := trigger (CreateMonitor (po_ID p) protocol (Z.quot (lbo_MonitorDelay opts) Second)
                         (Z.quot (lbo_MonitorTimeout opts) Second) (lbo_MonitorMaxRetries opts))
      else (fun err => Errorf "Error creating LB pool healthmonitor: %v" [FErr (Some err)]) in
    let! _ := wait_active lb in
    ok tt
  else ok tt.

Definition ensure_listener (lb : loadbalancer) (name : string) (oldListeners : list listener)
    (portIndex : nat) (port : ServicePort) : M (res listener) :=
  match getListenerForPort oldListeners port with
  | Some l => ok l
  | None =>
      let? l := trigger (CreateListener ("listener_" +:+ name +:+ "_" +:+ pretty portIndex)
                           (svp_Protocol port) (svp_Port port) (lb_ID lb))
        else (fun err => Errorf "Error creating LB listener: %v" [FErr (Some err)]) in
      let! _ := wait_active lb in
      ok l
  end.

Definition ensure_pool (lb : loadbalancer) (name lbmethod : string) (persistence : option string)
    (l : listener) (portIndex : nat) (port : ServicePort) : M (res pool) :=
  let! got := getPoolByListenerID (lb_ID lb) (ls_ID l) in
  match got with
  | Ok p => ok p
  | Err err =>
      if is_ErrNotFound err then
        let? p := trigger (CreatePool ("pool_" +:+ name +:+ "_" +:+ pretty portIndex)
                             (svp_Protocol port) lbmethod (ls_ID l) persistence)
          else (fun err => Errorf "Error creating pool for listener %s: %v"
                                  [FStr (ls_ID l); FErr (Some err)]) in
        let! _ := wait_active lb in
        ok p
      else fail (Errorf "Error getting pool for listener %s: %v" [FStr (ls_ID l); FErr (Some err)])
  end.

(** One port; the listeners that no port has used so far are passed on. *)
Definition ensure_port (lb : loadbalancer) (name lbmethod : string) (persistence : option string)
    (nodes : list Node) (oldListeners : list listener) (indexed : nat * ServicePort)
    : M (res (list listener)) :=
  let '(portIndex, port) := indexed in
  let? l := ensure_listener lb name oldListeners portIndex port in
  let oldListeners := popListener oldListeners (ls_ID l) in
  let? p := ensure_pool lb name lbmethod persistence l portIndex port in
  let! got := getMembersByPoolID (po_ID p) in
  let? members := (match got with
                   | Ok members => ok members
                   | Err err =>
                       if isNotFound err then ok []
                       else fail (Errorf "Error getting pool members %s: %v"
                                         [FStr (po_ID p); FErr (Some err)])
                   end) in
  let? members := fold_ok (ensure_member lb (po_ID p) (svp_NodePort port)) nodes members in
  let? _ := fold_ok (delete_obsolete_member lb (po_ID p)) members tt in
  let? _ := ensure_monitor lb p (svp_Protocol port) in
  ok oldListeners.

(** The pool of a listener that no port uses. *)
Definition delete_obsolete_pool (lb : loadbalancer) (l : listener) (p : pool) : M (res unit) :=
  let? _ := (if bool_decide (po_MonitorID p <> "") then
               delete_and_wait lb (DeleteMonitor (po_MonitorID p))
                 (fun err => Errorf "Error deleting obsolete monitor %s for pool %s: %v"
                                    [FStr (po_MonitorID p); FStr (po_ID p); FErr (Some err)])
             else ok tt) in
  let! got := getMembersByPoolID (po_ID p) in
  let? members := (match got with
                   | Ok members => ok members
                   | Err err =>
                       if isNotFound err then ok []
                       else fail (Errorf "Error getting members for pool %s: %v"
                                         [FStr (po_ID p); FErr (Some err)])
                   end) in
  let? _ := fold_ok (delete_obsolete_member lb (po_ID p)) members tt in
  delete_and_wait lb (DeletePool (po_ID p))
    (fun err => Errorf "Error deleting obsolete pool %s for listener %s: %v"
                       [FStr (po_ID p); FStr (ls_ID l); FErr (Some err)]).

Definition delete_obsolete_listener (lb : loadbalancer) (_ : unit) (l : listener) : M (res unit) :=
  let! got := getPoolByListenerID (lb_ID lb) (ls_ID l) in
  let? _ := (match got with
             | Ok p => delete_obsolete_pool lb l p
             | Err err =>
                 if is_ErrNotFound err then ok tt
                 else fail (Errorf "Error getting pool for obsolete listener %s: %v"
                                   [FStr (ls_ID l); FErr (Some err)])
             end) in
  delete_and_wait lb (DeleteListener (ls_ID l))
    (fun err => Errorf "Error deleteting obsolete listener: %v" [FErr (Some err)]).

(** The floating address of the port, made if there is none and a network is
    configured. *)
Definition ensure_floating_ip (portID : string) : M (res (list string)) :=
  let! got := getFloatingIPByPortID portID in
  match got with
  | Ok fip => ok [fip_FloatingIP fip]
  | Err err =>
      if is_ErrNotFound err then
        if bool_decide (lbo_FloatingNetworkId opts <> "") then
          let? fip := trigger (CreateFloatingIP (lbo_FloatingNetworkId opts) portID)
            else (fun err => Errorf "Error creating LB floatingip %+v: %v" [FDump; FErr (Some err)]) in
          ok [fip_FloatingIP fip]
        else ok []
      else fail (Errorf "Error getting floating ip for port %s: %v" [FStr portID; FErr (Some err)])
  end.

Definition create_rule (rule : rule_opts) : M (res unit) :=
  let! err := trigger (CreateRule rule) in
  match err with Some err => fail err | None => ok tt end.

(** The rule that lets a source range reach a port, in the group [sg]. *)
Definition allow_range (sg : string) (port : ServicePort) (_ : unit) (r : source_range)
    : M (res unit) :=
  match sr_To4 r with
  | Err err => fail err
  | Ok v4 =>
      create_rule {| ro_Direction := "ingress"; ro_PortRangeMax := svp_Port port;
                     ro_PortRangeMin := svp_Port port;
                     ro_Protocol := toRuleProtocol (svp_Protocol port); ro_RemoteGroupID := "";
                     ro_RemoteIPPrefix := sr_text r; ro_SecGroupID := sg;
                     ro_EtherType := if v4 : bool then "IPv4" else "IPv6" |}
  end.

Definition allow_port (sourceRanges : list source_range) (sg : string) (_ : unit) (port : ServicePort)
    : M (res unit) :=
  let? _ := fold_ok (allow_range sg port) sourceRanges tt in
  let! err := createNodeSecurityGroup (lbo_NodeSecurityGroupID opts) (svp_NodePort port)
                (svp_Protocol port) sg in
  match err with Some err => fail err | None => ok tt end.

(** The rule for the fragmentation packets, of a type and a code. *)
Definition icmp_rule (sg prefix ethertype : string) (type code : Z) : rule_opts :=
  {| ro_Direction := "ingress"; ro_PortRangeMax := code; ro_PortRangeMin := type;
     ro_Protocol := "icmp"; ro_RemoteGroupID := ""; ro_RemoteIPPrefix := prefix;
     ro_SecGroupID := sg; ro_EtherType := ethertype |}.

(** The security group of the load balancer. *)
Definition secure (clusterName : string) (service : Service) (sourceRanges : list source_range)
    (lb : loadbalancer) : M (res unit) :=
  let? sg := trigger (CreateGroup (getSecurityGroupName clusterName service)
                        ("Securty Group for " +:+ svc_Name service +:+ " Service LoadBalancer")) in
  let? _ := fold_ok (allow_port sourceRanges sg) (svc_Ports service) tt in
  let? _ := create_rule (icmp_rule sg "0.0.0.0/0" "IPv4" 3 4) in
  let? _ := create_rule (icmp_rule sg "::/0" "IPv6" 2 0) in
  let! err := trigger (UpdatePortGroups (lb_VipPortID lb) [sg]) in
  match err with Some err => fail err | None => ok tt end.

(** The load balancer of the name, made if there is none. *)
Definition find_or_create (service : Service) (name : string) : M (res loadbalancer) :=
  let! got := getLoadbalancerByName name in
  match got with
  | Ok lb => ok lb
  | Err err =>
      if is_ErrNotFound err then
        let? lb := createLoadBalancer service name
          else (fun err => Errorf "Error creating loadbalancer %s: %v" [FStr name; FErr (Some err)]) in
        ok lb
      else fail (Errorf "Error getting loadbalancer %s: %v" [FStr name; FErr (Some err)])
  end.

(** The addresses of the load balancer, or the error. *)
Definition EnsureLoadBalancer (clusterName : string) (service : Service) (nodes : list Node)
    : M (res (list string)) :=
  match check_service service with
  | Err err => fail err
  | Ok (sourceRanges, persistence) =>
      let name := GetLoadBalancerName (svc_UID service) in
      let? lb := find_or_create service name in
      let! _ := wait_active lb in
      let lbmethod := if bool_decide (lbo_LBMethod opts = "") then "ROUND_ROBIN" else lbo_LBMethod opts in
      let? oldListeners := getListenersByLoadBalancerID (lb_ID lb)
        else (fun err => Errorf "Error getting LB %s listeners: %v" [FStr name; FErr (Some err)]) in
      let? oldListeners := fold_ok (ensure_port lb name lbmethod persistence nodes)
                             (imap pair (svc_Ports service)) oldListeners in
      let? _ := fold_ok (delete_obsolete_listener lb) oldListeners tt in
      let? floating := ensure_floating_ip (lb_VipPortID lb) in
      let status := lb_VipAddress lb :: floating in
      if lbo_ManageSecurityGroups opts then
        let! secured := secure clusterName service sourceRanges lb in
        match secured with
        | Err err =>
            (* cleanup what was created so far *)
            let! _ := EnsureLoadBalancerDeleted clusterName service in
            fail err
        | Ok _ => ok status
        end
      else ok status
  end.

(** ** Updating *)

(** The addresses the members should have. *)
Definition wanted_address (addrs : gmap string unit) (node : Node) : M (res (gmap string unit)) :=
  match nodeAddressForLB node with
  | Err err => fail err
  | Ok addr => ok (<[addr := tt]> addrs)
  end.

Definition pool_of_listener (lb : loadbalancer) (lbPools : gmap string pool) (listenerID : string)
    : M (res (gmap string pool)) :=
  let? p := getPoolByListenerID (lb_ID lb) listenerID
    else (fun err => Errorf "Error getting pool for listener %s: %v"
                            [FStr listenerID; FErr (Some err)]) in
  ok (<[listenerID := p]> lbPools).

(** The members by address, the last of an address. *)
Definition members_by_address (members : list member) : gmap string member :=
  fold_left (fun m mb => <[mb_Address mb := mb]> m) members ∅.

Definition add_member (lb : loadbalancer) (p : pool) (nodePort : Z) (members : gmap string member)
    (_ : unit) (addr : string * unit) : M (res unit) :=
  if bool_decide (mb_ProtocolPort <$> members !! addr.1 = Some nodePort) then ok tt
  else
    let! err := trigger (CreateMember (po_ID p) addr.1 nodePort (lbo_SubnetId opts)) in
    match err with
    | Some err => fail err
    | None => let! _ := wait_active lb in ok tt
    end.

Definition remove_member (lb : loadbalancer) (p : pool) (nodePort : Z) (addrs : gmap string unit)
    (_ : unit) (entry : string * member) : M (res unit) :=
  let m := entry.2 in
  if bool_decide (is_Some (addrs !! mb_Address m)) && bool_decide (mb_ProtocolPort m = nodePort)
  then ok tt
  else delete_and_wait lb (DeleteMember (po_ID p) (mb_ID m)) id.

(** The members of the pool of one port. *)
Definition update_members (lb : loadbalancer) (p : pool) (nodePort : Z) (addrs : gmap string unit)
    : M (res unit) :=
  let? getMembers := getMembersByPoolID (po_ID p)
    else (fun err => Errorf "Error getting pool members %s: %v" [FStr (po_ID p); FErr (Some err)]) in
  let members := members_by_address getMembers in
  let? _ := fold_ok (add_member lb p nodePort members) (range addrs) tt in
  fold_ok (remove_member lb p nodePort addrs) (range members) tt.

(** The key [portKey] of the listeners is the pair of protocol and port. *)
Definition update_port (loadBalancerName : string) (lb : loadbalancer)
    (lbListeners : gmap (string * Z) listener) (lbPools : gmap string pool)
    (addrs : gmap string unit) (_ : unit) (port : ServicePort) : M (res unit) :=
  match lbListeners !! (toListenersProtocol (svp_Protocol port), svp_Port port) with
  | None =>
      fail (Errorf "Loadbalancer %s does not contain required listener for port %d and protocol %s"
                   [FStr loadBalancerName; FInt (svp_Port port); FStr (svp_Protocol port)])
  | Some l =>
      match lbPools !! ls_ID l with
      | None =>
          fail (Errorf "Loadbalancer %s does not contain required pool for listener %s"
                       [FStr loadBalancerName; FStr (ls_ID l)])
      | Some p => update_members lb p (svp_NodePort port) addrs
      end
  end.

Definition UpdateLoadBalancer (service : Service) (nodes : list Node) : M (res unit) :=
  let loadBalancerName := GetLoadBalancerName (svc_UID service) in
  if bool_decide (svc_Ports service = []) then
    fail (errorf "no ports provided to openstack load balancer" [])
  else
    let? lb := getLoadbalancerByName loadBalancerName in
    let? allListeners := getListenersByLoadBalancerID (lb_ID lb)
      else (fun err => Errorf "Error getting listeners for LB %s: %v"
                              [FStr loadBalancerName; FErr (Some err)]) in
    let lbListeners := fold_left (fun m l => <[(ls_Protocol l, ls_ProtocolPort l) := l]> m)
                         allListeners (∅ : gmap (string * Z) listener) in
    let? lbPools := fold_ok (pool_of_listener lb) (ls_ID <$> allListeners) ∅ in
    let? addrs := fold_ok wanted_address nodes ∅ in
    fold_ok (update_port loadBalancerName lb lbListeners lbPools addrs) (svc_Ports service) tt.
End lbaas.

(** * Theorems *)

(** ** Popping *)

Lemma popListener_pops ls id :
  (forall l, l ∈ ls -> ls_ID l <> id) /\ popListener ls id = ls \/
  exists l, ls_ID l = id /\ ls ≡ₚ l :: popListener ls id.
Proof.
  unfold popListener. destruct (find_index _ ls) as [i|] eqn:Hi.
  - right. apply find_index_Some in Hi as (l & Hl & Hid%bool_decide_eq_true).
    exists l. split; [done|]. by apply swap_remove_rest.
  - left. split; [|done]. revert Hi. induction ls as [|l ls IH]; intros Hi l' Hl'.
    + by apply elem_of_nil in Hl'.
    + cbn in Hi. case_bool_decide; [done|].
      apply elem_of_cons in Hl' as [->|Hl']; [done|]. apply IH; [|done].
      by destruct (find_index _ ls).
Qed.

(** Past the end of the matches the loop of [popMember] changes nothing. *)
Lemma pop_member_none addr p todo i len array :
  i + todo <= length array ->
  (forall j m, i <= j -> array !! j = Some m -> is_member addr p m = false) ->
  pop_member_from addr p todo i len array = Some (take len array).
Proof.
  revert i; induction todo as [|todo IH]; intros i Hlen Hno; cbn; [done|].
  destruct (lookup_lt_is_Some_2 array i) as [m Hm]; [lia|]. rewrite Hm, (Hno i m) by (done || lia).
  apply IH; [lia|]. intros j m' Hj. apply Hno. lia.
Qed.

(** A member that is in the pool once is taken off the list. *)
Lemma popMember_pops members m :
  m ∈ members ->
  (forall m', m' ∈ members -> is_member (mb_Address m) (mb_ProtocolPort m) m' = true -> m' = m) ->
  NoDup members ->
  exists rest, popMember members (mb_Address m) (mb_ProtocolPort m) = Some rest /\
               members ≡ₚ m :: rest.
Proof.
  intros [i Hi]%list_elem_of_lookup Huniq Hnd.
  assert (forall j m', members !! j = Some m' -> j <> i ->
            is_member (mb_Address m) (mb_ProtocolPort m) m' = false) as Hother.
  { intros j m' Hj Hne. apply not_true_iff_false. intros Hm.
    assert (m' = m) as -> by (apply Huniq; [by eapply list_elem_of_lookup_2|done]).
    by apply Hne, (NoDup_lookup members j i m). }
  pose proof (lookup_lt_Some _ _ _ Hi) as Hlt.
  exists (take (length members - 1) (overwritten i members)).
  split; [|by apply swap_remove_rest]. unfold popMember.
  assert (forall d j, j + d = i ->
    pop_member_from (mb_Address m) (mb_ProtocolPort m) (length members - j) j (length members) members =
    pop_member_from (mb_Address m) (mb_ProtocolPort m) (length members - i) i (length members) members)
    as Hskip.
  { induction d as [|d IH]; intros j Hj; [by replace j with i by lia|].
    rewrite <- (IH (S j)) by lia. replace (length members - j) with (S (length members - S j)) by lia.
    cbn. destruct (lookup_lt_is_Some_2 members j) as [m' Hm']; [lia|].
    rewrite Hm', (Hother j m') by (done || lia). done. }
  specialize (Hskip i 0 eq_refl). rewrite Nat.sub_0_r in Hskip. rewrite Hskip.
  replace (length members - i) with (S (length members - S i)) by lia. cbn. rewrite Hi.
  unfold is_member at 1. rewrite !bool_decide_eq_true_2 by done. cbn.
  unfold overwritten. rewrite last_lookup. replace (Nat.pred (length members)) with (length members - 1) by lia.
  destruct (lookup_lt_is_Some_2 members (length members - 1)) as [y Hy]; [lia|]. rewrite Hy.
  apply pop_member_none; [rewrite length_insert; lia|].
  intros j m' Hj Hm'. rewrite list_lookup_insert_ne in Hm' by lia. by apply (Hother j); [|lia].
Qed.

(** A member that is in the pool twice makes the loop panic. *)
Example popMember_panics :
  let m := {| mb_ID := "1"; mb_Address := "10.0.0.1"; mb_ProtocolPort := 80%Z |} in
  popMember [m; m] "10.0.0.1" 80 = None.
Proof. reflexivity. Qed.

(** ** The members of a pool *)

Inductive change :=
| Added (poolID address : string) (port : Z)
| Removed (poolID memberID : string).

#[local] Abbreviation lb_event := (event LbaasE).

(** The changes asked for, in order, with their answers: none, or the error
    for which the change counts as refused. *)
Definition changes (tr : list lb_event) : list (change * option error) :=
  ev ← tr;
  match ev with
  | Event (CallLb e) x =>
      match e in LbE X return X -> list (change * option error) with
      | CreateMember poolID address port _ => fun err => [(Added poolID address port, err)]
      | DeleteMember poolID memberID => fun err => [(Removed poolID memberID, serious err)]
      | _ => fun _ => []
      end x
  | Event (CallLbSys _) _ => []
  end.

Lemma changes_app tr tr' : changes (tr ++ tr') = (changes tr ++ changes tr')%list.
Proof. apply bind_app. Qed.

Section members.
Context `{MapRange} (scale : Z -> Z) (opts : LoadBalancerOpts).
#[local] Abbreviation M A := (prog LbaasE A).

(** Waiting changes nothing and always returns. *)
Lemma wait_active_quiet lb (tr : list lb_event) :
  always (wait_active scale lb)
    (fun tr' o => exists new, tr' = (tr ++ new)%list /\ changes new = [] /\ o = Returned tt) tr.
Proof.
  apply always_extend. unfold wait_active, waitLoadbalancerActiveProvisioningStatus, ExponentialBackoff.
  assert (forall steps first d s (tr0 : list lb_event), changes tr0 = [] ->
    always (backoff_tries (E:=LbaasE) (poll_active (lb_ID lb)) steps first d scale s)
      (fun tr' o => changes tr' = [] /\ exists r, o = Returned r) tr0) as Hpoll.
  { induction steps as [|steps IH]; intros first d s tr0 Htr0; cbn; [by eauto|].
    assert (forall tr1, changes tr1 = [] ->
      always (bind (poll_active (E:=LbaasE) (lb_ID lb) s) (fun '(s', (done_, err)) =>
        match err with
        | Some err => Done (s', Some err)
        | None => if done_ : bool then Done (s', None)
                  else backoff_tries (poll_active (lb_ID lb)) steps false
                         (if first then d else scale d) scale s'
        end)) (fun tr' o => changes tr' = [] /\ exists r, o = Returned r) tr1) as Hbody.
    { intros tr1 Htr1. unfold poll_active. go_unfold. cbn. intros [status|e]; cbn.
      2: by rewrite changes_app, Htr1; eauto.
      repeat case_bool_decide; cbn; try (by rewrite changes_app, Htr1; eauto).
      apply IH. by rewrite changes_app, Htr1. }
    destruct first; [by apply Hbody|]. cbn. intros u. apply Hbody. by rewrite changes_app, Htr0. }
  rewrite !always_bind. eapply always_impl; [|by apply Hpoll].
  intros tr' o (Hnone & [status err] & ->). destruct err as [[]|]; cbn; by exists tr'.
Qed.

(** The changes [plan] were asked for one after the other until one was
    refused, and that is the result. *)
Definition carried_out (plan : list change) (new : list lb_event) (r : res unit) : Prop :=
  exists answers, changes new = zip plan answers /\ until_refused (length plan) answers (res_error r).

Lemma carried_out_app plan plan' new new' r :
  carried_out plan new (Ok tt) -> carried_out plan' new' r -> carried_out (plan ++ plan') (new ++ new') r.
Proof.
  intros (answers & Hnew & Ha) (answers' & Hnew' & Ha'). exists (answers ++ answers')%list.
  rewrite changes_app, Hnew, Hnew', length_app. split; [|by apply until_refused_app].
  symmetry. apply zip_with_app. cbn in Ha. by rewrite Ha, length_replicate.
Qed.

Lemma carried_out_refused plan plan' new e :
  carried_out plan new (Err e) -> carried_out (plan ++ plan') new (Err e).
Proof.
  intros (answers & Hnew & Ha). exists answers. rewrite Hnew, length_app.
  split; [|by apply until_refused_weaken]. apply until_refused_length in Ha.
  by rewrite zip_with_app_l, take_ge, drop_ge, zip_with_nil_r, app_nil_r by done.
Qed.

(** A step of a loop that asks for the changes [plan] and then waits. *)
Definition step_plan {A} (plan : A -> list change) (f : unit -> A -> M (res unit)) : Prop :=
  forall x tr, always (f tt x)
    (fun tr' o => exists new r, tr' = (tr ++ new)%list /\ o = Returned r /\ carried_out (plan x) new r) tr.

Lemma fold_plan {A} plan (f : unit -> A -> M (res unit)) xs tr :
  step_plan plan f ->
  always (fold_ok f xs tt)
    (fun tr' o => exists new r, tr' = (tr ++ new)%list /\ o = Returned r /\
                                carried_out (xs ≫= plan) new r) tr.
Proof.
  intros Hf. revert tr; induction xs as [|x xs IH]; intros tr; cbn.
  - exists [], (Ok tt). rewrite app_nil_r. split_and!; [done..|by exists []].
  - apply always_bind. eapply always_impl; [|apply Hf].
    intros tr' o (new & [[]|e] & -> & -> & Hnew).
    + eapply always_impl; [|apply IH]. intros tr'' o (new' & r & -> & -> & Hr).
      exists (new ++ new')%list, r. rewrite app_assoc. split_and!; [done..|by apply carried_out_app].
    + exists new, (Err e). split_and!; [done..|by apply carried_out_refused].
Qed.

(** What one address and one member call for. *)
Definition add_plan (p : pool) (nodePort : Z) (members : gmap string member)
    (addr : string * unit) : list change :=
  if bool_decide (mb_ProtocolPort <$> members !! addr.1 = Some nodePort) then []
  else [Added (po_ID p) addr.1 nodePort].
Definition remove_plan (p : pool) (nodePort : Z) (addrs : gmap string unit)
    (entry : string * member) : list change :=
  if bool_decide (is_Some (addrs !! mb_Address entry.2)) &&
     bool_decide (mb_ProtocolPort entry.2 = nodePort) then []
  else [Removed (po_ID p) (mb_ID entry.2)].

(** One change, asked for and accepted, before a wait, or refused. *)
Lemma one_carried_out c new new' :
  changes new = [(c, None)] -> changes new' = [] -> carried_out [c] (new ++ new') (Ok tt).
Proof. intros Hnew Hnew'. exists [None]. by rewrite changes_app, Hnew, Hnew'. Qed.

Lemma one_refused c e new : changes new = [(c, Some e)] -> carried_out [c] new (Err e).
Proof. intros Hnew. exists [Some e]. rewrite Hnew. split; [done|]. exists 0. by split; [cbn; lia|]. Qed.

Lemma add_member_plan lb p nodePort members :
  step_plan (add_plan p nodePort members) (add_member (E:=LbaasE) scale opts lb p nodePort members).
Proof.
  intros addr tr. unfold add_member, add_plan. case_bool_decide; cbn -[wait_active].
  { exists [], (Ok tt). rewrite app_nil_r. split_and!; [done..|by exists []]. }
  intros [e|]; cbn -[wait_active].
  { eexists _, _. split_and!; [done..|by apply one_refused]. }
  rewrite always_bind. eapply always_impl; [|apply wait_active_quiet].
  intros tr' o (new & -> & Hnew & ->). cbn. eexists _, _. rewrite <- app_assoc.
  split_and!; [reflexivity|done|by apply one_carried_out].
Qed.

Lemma remove_member_plan lb p nodePort addrs :
  step_plan (remove_plan p nodePort addrs) (remove_member (E:=LbaasE) scale lb p nodePort addrs).
Proof.
  intros entry tr. unfold remove_member, remove_plan. destruct (_ && _); cbn -[wait_active].
  { exists [], (Ok tt). rewrite app_nil_r. split_and!; [done..|by exists []]. }
  intros err. destruct (serious err) as [e|] eqn:He; cbn -[wait_active].
  { eexists _, _. split_and!; [done..|]. apply one_refused. cbn. by rewrite He. }
  rewrite always_bind. eapply always_impl; [|apply wait_active_quiet].
  intros tr' o (new & -> & Hnew & ->). cbn. eexists _, _. rewrite <- app_assoc.
  split_and!; [reflexivity|done|]. apply one_carried_out; [|done]. cbn. by rewrite He.
Qed.

Lemma EachPage_collect_all {T} (pages : list (list T)) last found :
  EachPage collect_all pages last found = ((found ++ concat pages)%list, last).
Proof.
  revert found; induction pages as [|p pages IH]; intros found; cbn; [by rewrite app_nil_r|].
  by rewrite IH, <- app_assoc.
Qed.

(** The pool as the set of the addresses and ports of its members, after a
    change; [members] tells whose identifier is removed. *)
Definition endpoint (m : member) : string * Z := (mb_Address m, mb_ProtocolPort m).

Definition apply_change (members : list member) (s : gset (string * Z)) (c : change)
    : gset (string * Z) :=
  match c with
  | Added _ address port => {[(address, port)]} ∪ s
  | Removed _ id =>
      match List.find (fun m => bool_decide (mb_ID m = id)) members with
      | Some m => s ∖ {[endpoint m]}
      | None => s
      end
  end.

Lemma find_by_id (ms : list member) m :
  NoDup (mb_ID <$> ms) -> m ∈ ms ->
  List.find (fun m' => bool_decide (mb_ID m' = mb_ID m)) ms = Some m.
Proof.
  induction ms as [|m' ms IH]; [by intros _ ?%elem_of_nil|].
  cbn. intros [Hm' Hnd]%NoDup_cons [->|Hm]%elem_of_cons; [by rewrite bool_decide_eq_true_2|].
  rewrite bool_decide_eq_false_2; [by apply IH|].
  intros Heq. apply Hm'. rewrite Heq. by apply list_elem_of_fmap_2.
Qed.

Lemma members_by_address_lookup (ms : list member) a m :
  NoDup (mb_Address <$> ms) ->
  members_by_address ms !! a = Some m <-> m ∈ ms /\ mb_Address m = a.
Proof.
  unfold members_by_address.
  enough (forall acc : gmap string member, NoDup (mb_Address <$> ms) ->
    fold_left (fun acc mb => <[mb_Address mb := mb]> acc) ms acc !! a = Some m <->
    m ∈ ms /\ mb_Address m = a \/
    acc !! a = Some m /\ (forall m', m' ∈ ms -> mb_Address m' <> a)) as Hacc.
  { intros Hnd. rewrite Hacc, lookup_empty by done. naive_solver. }
  induction ms as [|m' ms IH]; intros acc Hnd; cbn; [set_solver|].
  cbn in Hnd. apply NoDup_cons in Hnd as [Hm' Hnd]. rewrite IH by done.
  assert (forall m1, m1 ∈ ms -> mb_Address m1 <> mb_Address m') as Hne.
  { intros m1 Hm1 Heq. apply Hm'. rewrite <- Heq. by apply list_elem_of_fmap_2. }
  setoid_rewrite elem_of_cons. rewrite lookup_insert_Some. naive_solver.
Qed.

Lemma fold_added ms p nodePort members addrs s x :
  x ∈ fold_left (apply_change ms) (addrs ≫= add_plan p nodePort members) s <->
  x ∈ s \/ exists addr, addr ∈ addrs /\ x = (addr.1, nodePort) /\
                        mb_ProtocolPort <$> members !! addr.1 <> Some nodePort.
Proof.
  revert s; induction addrs as [|addr addrs IH]; intros s; cbn.
  { split; [by left|]. by intros [?|(? & ?%elem_of_nil & _)]. }
  rewrite fold_left_app, IH. setoid_rewrite elem_of_cons.
  unfold add_plan. case_bool_decide; cbn; set_solver.
Qed.

Lemma fold_removed ms p nodePort (wanted : gmap string unit) entries s x :
  NoDup (mb_ID <$> ms) -> (forall e, e ∈ entries -> e.2 ∈ ms) ->
  x ∈ fold_left (apply_change ms) (entries ≫= remove_plan p nodePort wanted) s <->
  x ∈ s /\ forall e, e ∈ entries -> x = endpoint e.2 ->
                     is_Some (wanted !! mb_Address e.2) /\ mb_ProtocolPort e.2 = nodePort.
Proof.
  intros Hnd. revert s; induction entries as [|e entries IH]; intros s Hin; cbn.
  { split; [|by intros [? _]]. intros ?. split; [done|]. by intros ? ?%elem_of_nil. }
  rewrite fold_left_app, IH by (intros; apply Hin; by apply elem_of_cons; right).
  setoid_rewrite elem_of_cons. unfold remove_plan.
  destruct (_ && _) eqn:Hkept; cbn.
  - apply andb_true_iff in Hkept as [?%bool_decide_eq_true ?%bool_decide_eq_true]. naive_solver.
  - rewrite find_by_id by (done || apply Hin; by apply elem_of_cons; left).
    assert (~ (is_Some (wanted !! mb_Address e.2) /\ mb_ProtocolPort e.2 = nodePort)) as Hnot.
    { intros [??]. by rewrite !bool_decide_eq_true_2 in Hkept. }
    rewrite elem_of_difference, elem_of_singleton. naive_solver.
Qed.

(** The plan of the changes of a pool, in the order they are asked for. *)
Definition pool_plan (p : pool) (nodePort : Z) (addrs : gmap string unit) (ms : list member)
    : list change :=
  let members := members_by_address ms in
  ((range addrs ≫= add_plan p nodePort members) ++
   (range members ≫= remove_plan p nodePort addrs))%list.

Lemma pool_plan_converges p nodePort addrs ms :
  NoDup (mb_ID <$> ms) -> NoDup (mb_Address <$> ms) ->
  fold_left (apply_change ms) (pool_plan p nodePort addrs ms) (list_to_set (endpoint <$> ms)) =
  set_map (fun addr => (addr, nodePort)) (dom addrs).
Proof.
  intros Hids Haddrs. apply set_eq. intros [a port].
  unfold pool_plan. rewrite fold_left_app.
  assert (forall e, e ∈ range (members_by_address ms) <-> e.2 ∈ ms /\ mb_Address e.2 = e.1) as Hrange.
  { intros [a' m]. rewrite elem_of_range. by rewrite members_by_address_lookup. }
  rewrite fold_removed; [|done|by intros e [? _]%Hrange].
  rewrite fold_added, elem_of_list_to_set, list_elem_of_fmap, elem_of_map.
  setoid_rewrite elem_of_dom. split.
  - intros [[(m & Hx & Hm)|([a' []] & Ha%elem_of_range & [= -> ->] & _)] Hkept].
    + destruct (Hkept (mb_Address m, m)) as [Ha ?]; [by apply Hrange|done|].
      injection Hx as -> ->. exists (mb_Address m). by subst.
    + exists a'. cbn in *. by rewrite Ha.
  - intros (a' & [= -> ->] & [[] Ha]). split.
    + destruct (decide (mb_ProtocolPort <$> members_by_address ms !! a' = Some nodePort)) as [Hm|Hm].
      * left. apply fmap_Some in Hm as (m & Hm & ->).
        apply members_by_address_lookup in Hm as [Hm <-]; [|done]. by exists m.
      * right. exists (a', tt). by rewrite elem_of_range.
    + intros e [He Hea]%Hrange [= -> ->]. by rewrite Ha.
Qed.

(** The pool after a change that was asked for: a refused one changes
    nothing. *)
Definition apply_answered (members : list member) (s : gset (string * Z)) (c : change * option error)
    : gset (string * Z) :=
  match c.2 with None => apply_change members s c.1 | Some _ => s end.

Lemma apply_accepted ms plan s :
  fold_left (apply_answered ms) (zip plan (replicate (length plan) None)) s = fold_left (apply_change ms) plan s.
Proof. revert s; induction plan as [|c plan IH]; intros s; [done|]. apply IH. Qed.

End members.
