(* ===== verification/OpenStackLBv1.v ===== *)
(** The load balancers of the OpenStack provider, version 1 (the type
    [LbaasV1] of [openstack_loadbalancer.go], with [getPoolByName] and
    [getVipByName]).

    A listing answers with its pages; the handler of the members' listing
    deletes members while it goes through them, so its pages are folded in
    the monad ([EachPageM]). *)

From S2P Require Import Prelude GoStrings Types Api CloudProvider OpenStackInstances OpenStackRoutes OpenStackLB.
From Stdlib Require Import Lia.

#[local] Open Scope string_scope.

(** * Data *)

Record pool_v1 := { p1_ID : string; p1_MonitorIDs : list string; p1_MemberIDs : list string }.
Record vip := {
  vip_ID : string;
  vip_Address : string;
  vip_PortID : string;
  vip_PoolID : string;
  vip_ProtocolPort : Z;
}.

(** [vips.CreateOpts] *)
Record vip_opts := {
  vo_Name : string;
  vo_Description : string;
  vo_Protocol : string;
  vo_ProtocolPort : Z;
  vo_PoolID : string;
  vo_SubnetID : string;
  vo_Persistence : option string;
  vo_Address : string;
}.

(** * Calls *)

Inductive V1E : Type -> Type :=
| ListVips (name : string) : V1E (list (list vip) * option error)
| CreateVip (opts : vip_opts) : V1E (res vip)
| DeleteVip (id : string) : V1E (option error)
| ListPoolsV1 (name : string) : V1E (list (list pool_v1) * option error)
| GetPoolV1 (id : string) : V1E (res pool_v1)
| CreatePoolV1 (name protocol subnetID lbmethod : string) : V1E (res pool_v1)
| DeletePoolV1 (id : string) : V1E (option error)
| AssociateMonitor (poolID monitorID : string) : V1E (option error)
| DisassociateMonitor (poolID monitorID : string) : V1E (option error)
| CreateMonitorV1 (type : string) (delay timeout maxRetries : Z) : V1E (res string)
| DeleteMonitorV1 (id : string) : V1E (option error)
| ListMembersV1 (poolID : string) : V1E (list (list member) * option error)
| CreateMemberV1 (poolID address : string) (port : Z) : V1E (option error)
| DeleteMemberV1 (id : string) : V1E (option error).

(** With the floating addresses. *)
Inductive LbaasV1E (X : Type) : Type :=
| CallV1 (e : V1E X)
| CallFloating (e : LbE X).
Arguments CallV1 {X} e.
Arguments CallFloating {X} e.

#[export] Instance SubE_v1 : SubE V1E LbaasV1E := fun _ e => CallV1 e.
#[export] Instance SubE_v1_floating : SubE LbE LbaasV1E := fun _ e => CallFloating e.

(** * Operations *)

Section lbaas_v1.
Context `{MapRange} {E : Type -> Type} `{!SubE V1E E, !SubE LbE E}.
Context (opts : LoadBalancerOpts).
#[local] Abbreviation M A := (prog E A).

(** [EachPage] with a handler that makes requests. *)
Fixpoint EachPageM {S P} (handler : S -> P -> M (S * option error)) (pages : list P)
    (last : option error) (s : S) : M (S * option error) :=
  match pages with
  | [] => Done (s, last)
  | p :: pages' =>
      let! handled := handler s p in
      match handled.2 with
      | Some err => Done (handled.1, Some err)
      | None => EachPageM handler pages' last handled.1
      end
  end.

Definition getPoolByName (name : string) : M (res pool_v1) :=
  let! listed := trigger (ListPoolsV1 name) in
  Done (found_one (EachPage collect_one listed.1 listed.2 [])).

Definition getVipByName (name : string) : M (res vip) :=
  let! listed := trigger (ListVips name) in
  Done (found_one (EachPage collect_one listed.1 listed.2 [])).

(** The address, whether it exists, and the error. *)
Definition GetLoadBalancer (service : Service) : M (option string * bool * option error) :=
  let! got := getVipByName (GetLoadBalancerName (svc_UID service)) in
  match got with
  | Err err => if is_ErrNotFound err then Done (None, false, None) else Done (None, false, Some err)
  | Ok v => Done (Some (vip_Address v), true, None)
  end.

(** A deletion whose serious error is returned. *)
Definition deletion (p : M (option error)) : M (res unit) :=
  let! err := p in
  match serious err with Some err => fail err | None => ok tt end.

(** ** Deleting *)

Definition delete_monitor (poolID : string) (_ : unit) (monId : string) : M (res unit) :=
  let! err := trigger (DisassociateMonitor poolID monId) in
  match err with
  | Some err => fail err
  | None => deletion (trigger (DeleteMonitorV1 monId))
  end.

Definition delete_member (_ : unit) (memberId : string) : M (res unit) :=
  deletion (trigger (DeleteMemberV1 memberId)).

Definition delete_pool_v1 (p : pool_v1) : M (res unit) :=
  let? _ := fold_ok (delete_monitor (p1_ID p)) (p1_MonitorIDs p) tt in
  let? _ := fold_ok delete_member (p1_MemberIDs p) tt in
  deletion (trigger (DeletePoolV1 (p1_ID p))).

(** The test of the error is [isNotFound], which [ErrNotFound] fails. *)
Definition delete_floating_v1 (v : vip) : M (res unit) :=
  let! got := getFloatingIPByPortID (vip_PortID v) in
  match got with
  | Err err => if isNotFound err then ok tt else fail err
  | Ok fip => deletion (trigger (DeleteFloatingIP (fip_ID fip)))
  end.

(** The pool of the address, or one that was left behind. *)
Definition pool_to_delete (service : Service) (v : option vip) : M (res (option pool_v1)) :=
  match v with
  | Some v =>
      let! got := trigger (GetPoolV1 (vip_PoolID v)) in
      match got with
      | Ok p => ok (Some p)
      | Err err => if isNotFound err then ok None else fail err
      end
  | None =>
      let! got := getPoolByName (svc_Name service) in
      match got with
      | Ok p => ok (Some p)
      | Err err => if is_ErrNotFound err then ok None else fail err
      end
  end.

Definition EnsureLoadBalancerDeleted (service : Service) : M (res unit) :=
  let! got := getVipByName (GetLoadBalancerName (svc_UID service)) in
  let? v := (match got with
             | Ok v => ok (Some v)
             | Err err => if is_ErrNotFound err then ok None else fail err
             end) in
  let? _ := (match v with
             | Some v =>
                 if bool_decide (lbo_FloatingNetworkId opts <> "") then delete_floating_v1 v else ok tt
             | None => ok tt
             end) in
  let? _ := (match v with
             | Some v => deletion (trigger (DeleteVip (vip_ID v)))
             | None => ok tt
             end) in
  let? p := pool_to_delete service v in
  match p with
  | Some p => delete_pool_v1 p
  | None => ok tt
  end.

(** ** Creating *)

(** What is checked before anything is asked: the one port and the
    persistence of the session. *)
Definition check_service_v1 (service : Service) : res (ServicePort * option string) :=
  match svc_Ports service with
  | _ :: _ :: _ => Err (errorf "multiple ports are not supported in openstack v1 load balancers" [])
  | [] => Err (errorf "no ports provided to openstack load balancer" [])
  | [port] =>
      if bool_decide (svp_Protocol port <> ProtocolTCP) then
        Err (errorf "Only TCP LoadBalancer is supported for openstack load balancers" [])
      else
        let persistence :=
          if bool_decide (svc_SessionAffinity service = "None") then Ok None
          else if bool_decide (svc_SessionAffinity service = "ClientIP") then Ok (Some "SOURCE_IP")
          else Err (errorf "unsupported load balancer affinity: %v" [svc_SessionAffinity service]) in
        match persistence, svc_SourceRanges service with
        | Err err, _ => Err err
        | Ok _, Err err => Err err
        | Ok persistence, Ok sourceRanges =>
            if IsAllowAll sourceRanges then Ok (port, persistence)
            else Err (errorf "Source range restrictions are not supported for openstack load balancers" [])
        end
  end.

(** A member for a node; when it cannot be made the pool is deleted. *)
Definition create_member_v1 (p : pool_v1) (nodePort : Z) (_ : unit) (node : Node) : M (res unit) :=
  match nodeAddressForLB node with
  | Err err => fail err
  | Ok addr =>
      let! err := trigger (CreateMemberV1 (p1_ID p) addr nodePort) in
      match err with
      | Some err =>
          let! _ := trigger (DeletePoolV1 (p1_ID p)) in
          fail err
      | None => ok tt
      end
  end.

(** The monitor of the pool, if one is configured. *)
Definition create_monitor_v1 (p : pool_v1) : M (res (option string)) :=
  if lbo_CreateMonitor opts then
    let! got := trigger (CreateMonitorV1 "TCP" (Z.quot (lbo_MonitorDelay opts) Second)
                           (Z.quot (lbo_MonitorTimeout opts) Second) (lbo_MonitorMaxRetries opts)) in
    match got with
    | Err err =>
        let! _ := trigger (DeletePoolV1 (p1_ID p)) in
        fail err
    | Ok mon =>
        let! err := trigger (AssociateMonitor (p1_ID p) mon) in
        match err with
        | Some err =>
            let! _ := trigger (DeleteMonitorV1 mon) in
            let! _ := trigger (DeletePoolV1 (p1_ID p)) in
            fail err
        | None => ok (Some mon)
        end
    end
  else ok None.

Definition create_vip (service : Service) (name : string) (port : ServicePort)
    (persistence : option string) (p : pool_v1) (mon : option string) : M (res vip) :=
  let! got := trigger (CreateVip
    {| vo_Name := name; vo_Description := "Kubernetes external service " +:+ name;
       vo_Protocol := "TCP"; vo_ProtocolPort := svp_Port port; vo_PoolID := p1_ID p;
       vo_SubnetID := lbo_SubnetId opts; vo_Persistence := persistence;
       vo_Address := svc_LoadBalancerIP service |}) in
  match got with
  | Ok v => ok v
  | Err err =>
      let! _ := (match mon with
                 | Some mon => let! _ := trigger (DeleteMonitorV1 mon) in Done tt
                 | None => Done tt
                 end) in
      let! _ := trigger (DeletePoolV1 (p1_ID p)) in
      fail err
  end.

(** What is made once nothing is left of the previous load balancer. *)
Definition create_all (service : Service) (nodes : list Node) (port : ServicePort)
    (persistence : option string) : M (res (list string)) :=
  let lbmethod := if bool_decide (lbo_LBMethod opts = "") then "ROUND_ROBIN" else lbo_LBMethod opts in
  let name := GetLoadBalancerName (svc_UID service) in
  let? p := trigger (CreatePoolV1 name "TCP" (lbo_SubnetId opts) lbmethod) in
  let? _ := fold_ok (create_member_v1 p (svp_NodePort port)) nodes tt in
  let? mon := create_monitor_v1 p in
  let? v := create_vip service name port persistence p mon in
  if bool_decide (lbo_FloatingNetworkId opts <> "") then
    let? fip := trigger (CreateFloatingIP (lbo_FloatingNetworkId opts) (vip_PortID v)) in
    ok [vip_Address v; fip_FloatingIP fip]
  else ok [vip_Address v].

(** The addresses of the load balancer, or the error. *)
Definition EnsureLoadBalancer (service : Service) (nodes : list Node) : M (res (list string)) :=
  match check_service_v1 service with
  | Err err => fail err
  | Ok (port, persistence) =>
      let! '(_, exists_, err) := GetLoadBalancer service in
      match err with
      | Some err =>
          fail (Errorf "error checking if openstack load balancer already exists: %v" [FErr (Some err)])
      | None =>
          let? _ := (if exists_ : bool then
                       let? _ := EnsureLoadBalancerDeleted service
                         else (fun err => Errorf "error deleting existing openstack load balancer: %v"
                                                 [FErr (Some err)]) in
                       ok tt
                     else ok tt) in
          create_all service nodes port persistence
      end
  end.

(** ** Updating *)

(** The members of a page: those of a wanted address stay, and the address is
    no longer wanted. *)
Fixpoint update_page (addrs : gmap string unit) (page : list member)
    : M (gmap string unit * option error) :=
  match page with
  | [] => Done (addrs, None)
  | m :: page' =>
      match addrs !! mb_Address m with
      | Some _ => update_page (delete (mb_Address m) addrs) page'
      | None =>
          let! err := trigger (DeleteMemberV1 (mb_ID m)) in
          match err with
          | Some err => Done (addrs, Some err)
          | None => update_page addrs page'
          end
      end
  end.

Definition add_member_v1 (v : vip) (_ : unit) (addr : string * unit) : M (res unit) :=
  let! err := trigger (CreateMemberV1 (vip_PoolID v) addr.1 (vip_ProtocolPort v)) in
  match err with Some err => fail err | None => ok tt end.

Definition UpdateLoadBalancer (service : Service) (nodes : list Node) : M (res unit) :=
  let? v := getVipByName (GetLoadBalancerName (svc_UID service)) in
  let? addrs := fold_ok wanted_address nodes ∅ in
  let! listed := trigger (ListMembersV1 (vip_PoolID v)) in
  let! paged := EachPageM update_page listed.1 listed.2 addrs in
  match paged.2 with
  | Some err => fail err
  | None => fold_ok (add_member_v1 v) (range paged.1) tt
  end.
End lbaas_v1.

(** * Theorems *)

#[local] Abbreviation v1_event := (event LbaasV1E).

Section lbaas_v1_theorems.
Context `{MapRange} (opts : LoadBalancerOpts).
#[local] Abbreviation M A := (prog LbaasV1E A).

(** ** Updating *)

(** The changes of members asked for, in order. *)
Definition v1_changes (tr : list v1_event) : list change :=
  ev ← tr;
  match ev with
  | Event (CallV1 e) _ =>
      match e with
      | CreateMemberV1 poolID address port => [Added poolID address port]
      | DeleteMemberV1 id => [Removed "" id]
      | _ => []
      end
  | Event (CallFloating _) _ => []
  end.

Lemma v1_changes_app tr tr' : v1_changes (tr ++ tr') = (v1_changes tr ++ v1_changes tr')%list.
Proof. apply bind_app. Qed.

(** What the passage over the members decides: the members to remove, and the
    addresses that are still wanted. *)
Fixpoint sort_members (addrs : gmap string unit) (ms : list member)
    : list member * gmap string unit :=
  match ms with
  | [] => ([], addrs)
  | m :: ms' =>
      match addrs !! mb_Address m with
      | Some _ => sort_members (delete (mb_Address m) addrs) ms'
      | None => let sorted := sort_members addrs ms' in (m :: sorted.1, sorted.2)
      end
  end.

Lemma sort_members_app addrs ms ms' :
  sort_members addrs (ms ++ ms') =
  let first := sort_members addrs ms in
  let second := sort_members first.2 ms' in
  ((first.1 ++ second.1)%list, second.2).
Proof.
  revert addrs; induction ms as [|m ms IH]; intros addrs; cbn.
  - by destruct (sort_members addrs ms').
  - destruct (addrs !! _); [apply IH|]. by rewrite IH.
Qed.

(** The members that are not removed, with the addresses still wanted, are
    the addresses wanted at first. *)
Lemma sort_members_kept addrs ms :
  exists kept, ms ≡ₚ (kept ++ (sort_members addrs ms).1)%list /\
    ((mb_Address <$> kept) ++ (range (sort_members addrs ms).2).*1)%list ≡ₚ (range addrs).*1.
Proof.
  revert addrs; induction ms as [|m ms IH]; intros addrs; cbn; [by exists []|].
  destruct (addrs !! mb_Address m) as [u|] eqn:Hm.
  - destruct (IH (delete (mb_Address m) addrs)) as (kept & Hkept & Haddrs).
    exists (m :: kept). split; [by rewrite Hkept at 1|]. cbn. rewrite Haddrs, !range_perm.
    by rewrite <- (map_to_list_delete addrs _ _ Hm).
  - destruct (IH addrs) as (kept & Hkept & Haddrs). exists kept. split; [|done].
    rewrite Hkept at 1. apply Permutation_middle.
Qed.

Definition removals (ms : list member) : list change := (fun m => Removed "" (mb_ID m)) <$> ms.

Lemma update_page_spec addrs page (tr : list v1_event) :
  always (update_page addrs page)
    (fun tr' o => exists new left err, tr' = (tr ++ new)%list /\ o = Returned (left, err) /\
       (err = None -> left = (sort_members addrs page).2 /\
                      v1_changes new = removals (sort_members addrs page).1)) tr.
Proof.
  revert addrs tr; induction page as [|m page IH]; intros addrs tr; cbn.
  { exists [], addrs, None. by rewrite app_nil_r. }
  destruct (addrs !! mb_Address m); [apply IH|]. cbn. intros [e|]; cbn.
  { eexists _, addrs, (Some e). by split_and!. }
  eapply always_impl; [|apply IH]. intros tr' o (new & left & err & -> & -> & Herr).
  eexists _, left, err. rewrite <- app_assoc. split_and!; [done..|].
  intros [-> Hnew]%Herr. by rewrite v1_changes_app, Hnew.
Qed.

Lemma pages_spec addrs pages last (tr : list v1_event) :
  always (EachPageM update_page pages last addrs)
    (fun tr' o => exists new left err, tr' = (tr ++ new)%list /\ o = Returned (left, err) /\
       (err = None -> left = (sort_members addrs (concat pages)).2 /\
                      v1_changes new = removals (sort_members addrs (concat pages)).1)) tr.
Proof.
  revert addrs tr; induction pages as [|page pages IH]; intros addrs tr; cbn.
  { exists [], addrs, last. by rewrite app_nil_r. }
  rewrite always_bind. eapply always_impl; [|apply update_page_spec].
  intros tr' o (new & left & err & -> & -> & Herr). destruct err as [e|]; cbn.
  { by exists new, left, (Some e). }
  destruct (Herr eq_refl) as [-> Hnew]. eapply always_impl; [|apply IH].
  intros tr' o (new' & left & err & -> & -> & Herr'). exists (new ++ new')%list, left, err.
  rewrite app_assoc, sort_members_app. split_and!; [done..|]. intros [-> Hnew']%Herr'.
  split; [done|]. unfold removals in *. cbn. by rewrite v1_changes_app, Hnew, Hnew', fmap_app.
Qed.

Lemma add_members_spec v xs (tr : list v1_event) :
  always (fold_ok (add_member_v1 v) xs tt)
    (fun tr' o => exists new r, tr' = (tr ++ new)%list /\ o = Returned r /\
       (is_ok r = true ->
        v1_changes new = (fun a => Added (vip_PoolID v) a (vip_ProtocolPort v)) <$> xs.*1)) tr.
Proof.
  revert tr; induction xs as [|x xs IH]; intros tr; cbn.
  { exists [], (Ok tt). by rewrite app_nil_r. }
  intros [e|]; cbn; [by eexists _, (Err e)|].
  eapply always_impl; [|apply IH]. intros tr' o (new & r & -> & -> & Hr).
  eexists _, r. rewrite <- app_assoc. split_and!; [done..|]. intros Hnew%Hr.
  by rewrite v1_changes_app, Hnew.
Qed.

(** The wanted addresses are read from the nodes without a request. *)
Lemma wanted_addresses nodes acc :
  exists r, fold_ok (E:=LbaasV1E) wanted_address nodes acc = Done r /\
    match r with
    | Ok addrs => forall a, is_Some (addrs !! a) <->
                    is_Some (acc !! a) \/ exists n, n ∈ nodes /\ nodeAddressForLB n = Ok a
    | Err e => exists n, n ∈ nodes /\ nodeAddressForLB n = Err e
    end.
Proof.
  revert acc; induction nodes as [|n nodes IH]; intros acc; cbn.
  { exists (Ok acc). split; [done|]. intros a. split; [by left|].
    by intros [?|(? & ?%elem_of_nil & _)]. }
  unfold wanted_address at 1. destruct (nodeAddressForLB n) as [a|e] eqn:Hn; cbn.
  - destruct (IH (<[a:=tt]> acc)) as ([addrs|e] & -> & Hr).
    + exists (Ok addrs). split; [done|]. intros a'. rewrite Hr. setoid_rewrite elem_of_cons.
      rewrite lookup_insert_is_Some. split.
      * intros [[<-|[_ ?]]|(n' & ? & ?)]; [right; exists n|left|right; exists n']; auto.
      * intros [?|(n' & [->|?] & Hn')]; [|left; left; congruence|right; by exists n'].
        destruct (decide (a = a')); auto.
    + destruct Hr as (n' & Hn' & He). exists (Err e). split; [done|]. exists n'. set_solver.
  - exists (Err e). split; [done|]. exists n. set_solver.
Qed.

Definition getting_members (ev : v1_event) : option (string * list (list member)) :=
  match ev with
  | Event (CallV1 e) x =>
      match e in V1E X return X -> _ with
      | ListMembersV1 poolID => fun listed => Some (poolID, listed.1)
      | _ => fun _ => None
      end x
  | Event (CallFloating _) _ => None
  end.

(** When the update succeeds, the members the pool had are those it keeps and
    those whose removal was asked for, the additions asked for come after the
    removals, with the port of the address, and the addresses of the members
    kept and added are those of the nodes, each once. *)
Theorem UpdateLoadBalancer_v1_converges service nodes :
  always (UpdateLoadBalancer (E:=LbaasV1E) service nodes) (fun tr o =>
    exists r, o = Returned r /\
    (is_ok r = true -> exists v pages kept removed added,
       (exists ev, ev ∈ tr /\ getting_members ev = Some (vip_PoolID v, pages)) /\
       concat pages ≡ₚ (kept ++ removed)%list /\
       v1_changes tr = (removals removed ++
                        ((fun a => Added (vip_PoolID v) a (vip_ProtocolPort v)) <$> added))%list /\
       NoDup ((mb_Address <$> kept) ++ added)%list /\
       forall a, a ∈ ((mb_Address <$> kept) ++ added)%list <->
                 exists n, n ∈ nodes /\ nodeAddressForLB n = Ok a)) [].
Proof.
  unfold UpdateLoadBalancer, getVipByName. cbn -[wanted_address update_page].
  intros listed. cbn -[wanted_address update_page].
  destruct (found_one _) as [v|e]; cbn -[wanted_address update_page]; [|by exists (Err e)].
  destruct (wanted_addresses nodes ∅) as ([addrs|e] & -> & Hwanted);
    cbn -[update_page]; [|by exists (Err e)].
  intros [pages last]. cbn -[update_page]. rewrite always_bind.
  eapply always_impl; [|apply pages_spec]. intros tr o (new & left & err & -> & -> & Herr).
  destruct err as [e|]; cbn -[add_member_v1]; [by exists (Err e)|].
  destruct (Herr eq_refl) as [-> Hnew]. eapply always_impl; [|apply add_members_spec].
  intros tr o (new' & r & -> & -> & Hr). exists r. split; [done|]. intros Hadded%Hr.
  destruct (sort_members_kept addrs (concat pages)) as (kept & Hkept & Haddrs).
  exists v, pages, kept, (sort_members addrs (concat pages)).1,
    (range (sort_members addrs (concat pages)).2).*1. split_and!.
  - exists (Event (CallV1 (ListMembersV1 (vip_PoolID v))) (pages, last)). split; [|done].
    cbn. rewrite ?elem_of_cons, ?elem_of_app, ?elem_of_cons. tauto.
  - done.
  - rewrite !v1_changes_app, Hadded. cbn. fold (v1_changes new). by rewrite Hnew.
  - rewrite Haddrs. apply range_NoDup.
  - intros a. rewrite Haddrs. transitivity (is_Some (addrs !! a)).
    + rewrite list_elem_of_fmap. split; [intros ([a' u] & -> & Ha%elem_of_range); by eexists|].
      intros [u Hu%elem_of_range]. by exists (a, u).
    + rewrite Hwanted, lookup_empty. split; [|by right]. by intros [[? ?]|?].
Qed.

(** ** Deleting *)

(** An address without a floating address cannot be deleted when a floating
    network is configured: the look-up's error comes back, and nothing but the
    two look-ups is asked for. *)
Lemma deleted_without_floating_address {W} (h : handler LbaasV1E W) service v w w1 w2 :
  lbo_FloatingNetworkId opts <> "" ->
  h _ (CallV1 (ListVips (GetLoadBalancerName (svc_UID service)))) w = (([[v]], None), w1) ->
  h _ (CallFloating (ListFloatingIPs (vip_PortID v))) w1 = (([], None), w2) ->
  run h (EnsureLoadBalancerDeleted (E:=LbaasV1E) opts service) w = (Returned (Err ErrNotFound), w2) /\
  length (calls h (EnsureLoadBalancerDeleted (E:=LbaasV1E) opts service) w) = 2%nat.
Proof.
  intros Hnet Hvips Hfips. unfold EnsureLoadBalancerDeleted, getVipByName, delete_floating_v1,
    getFloatingIPByPortID, trigger, inject, SubE_v1, SubE_v1_floating.
  cbn. rewrite Hvips. cbn. change (collect_one [] [v]) with ([v], true, @None error). cbn.
  rewrite bool_decide_eq_true_2 by done. cbn. by rewrite Hfips.
Qed.

(** ** Creating *)

(** The pools made and not yet asked to be deleted, and the errors of the
    floating addresses refused. *)
Record ledger := { lg_pools : list string; lg_refused : list error }.

Definition ledger_event (lg : ledger) (ev : v1_event) : ledger :=
  match ev with
  | Event (CallV1 e) x =>
      match e in V1E X return X -> ledger with
      | CreatePoolV1 _ _ _ _ => fun made =>
          match made with
          | Ok p => {| lg_pools := p1_ID p :: lg_pools lg; lg_refused := lg_refused lg |}
          | Err _ => lg
          end
      | DeletePoolV1 id => fun _ =>
          {| lg_pools := filter (fun id' => id' <> id) (lg_pools lg); lg_refused := lg_refused lg |}
      | _ => fun _ => lg
      end x
  | Event (CallFloating e) x =>
      match e in LbE X return X -> ledger with
      | CreateFloatingIP _ _ => fun made =>
          match made with
          | Ok _ => lg
          | Err err => {| lg_pools := lg_pools lg; lg_refused := err :: lg_refused lg |}
          end
      | _ => fun _ => lg
      end x
  end.

Definition ledger_of (tr : list v1_event) : ledger :=
  fold_left ledger_event tr {| lg_pools := []; lg_refused := [] |}.

(** [ensures pre Q p]: started with the ledger [pre], the program returns an
    answer that [Q] accepts with the ledger it leaves. *)
Definition ensures {A} (pre : ledger) (Q : ledger -> A -> Prop) (p : M A) : Prop :=
  wp ledger_event p (fun left o => exists a, o = Returned a /\ Q left a) pre.
Arguments ensures : simpl never.

Lemma ensures_done {A} pre (Q : ledger -> A -> Prop) a : Q pre a -> ensures pre Q (Done a).
Proof. intros HQ. by exists a. Qed.

Lemma ensures_bind {A B} pre (Q : ledger -> B -> Prop) (P : ledger -> A -> Prop)
    (p : M A) (f : A -> M B) :
  ensures pre P p -> (forall a left, P left a -> ensures left Q (f a)) -> ensures pre Q (bind p f).
Proof. intros Hp Hf. eapply wp_seq; [exact Hp|]. intros left o (a & -> & Ha). by apply Hf. Qed.

Lemma ensures_vis {A X} pre (Q : ledger -> A -> Prop) (e : LbaasV1E X) (k : X -> M A) :
  (forall x, ensures (ledger_event pre (Event e x)) Q (k x)) -> ensures pre Q (Vis e k).
Proof. done. Qed.

(** A loop whose body keeps the pools when it goes on. *)
Lemma ensures_fold {A S} pre (Q : ledger -> res S -> Prop) (f : S -> A -> M (res S)) xs s :
  (forall x s, x ∈ xs -> ensures pre (fun left r => match r with Ok _ => left = pre
                                                   | Err _ => Q left r end) (f s x)) ->
  ensures pre (fun left r => match r with Ok _ => left = pre | Err _ => Q left r end)
    (fold_ok f xs s).
Proof.
  revert s; induction xs as [|x xs IH]; intros s Hf; cbn; [by apply ensures_done|].
  eapply ensures_bind; [apply Hf; set_solver|]. intros [s'|e] left; cbn.
  - intros ->. apply IH. intros. apply Hf. set_solver.
  - intros. by apply ensures_done.
Qed.

Ltac v1_step :=
  match goal with
  | |- forall _, _ => intros ?
  | |- ensures _ _ (Done _) => apply ensures_done
  | |- ensures _ _ (Vis _ _) => apply ensures_vis
  | |- ensures _ _ (match ?x with _ => _ end) => go_split x
  | |- ensures _ _ (bind (match ?x with _ => _ end) _) => go_split x
  | |- ensures _ _ (bind (bind (match ?x with _ => _ end) _) _) => go_split x
  end.
Ltac v1_exec := go_unfold; cbn -[fold_ok found_one filter]; repeat (v1_step; cbn -[fold_ok found_one filter]).

(** The deletion makes no pool. *)
Lemma delete_pool_ledger p :
  ensures {| lg_pools := []; lg_refused := [] |}
    (fun lg _ => lg = {| lg_pools := []; lg_refused := [] |}) (delete_pool_v1 (E:=LbaasV1E) p).
Proof.
  unfold delete_pool_v1, bind_ok.
  eapply ensures_bind; [apply (ensures_fold _ (fun lg _ => lg = {| lg_pools := []; lg_refused := [] |}))|].
  { unfold delete_monitor, deletion. v1_exec; done. }
  intros [[]|e] lg ->; [|by apply ensures_done].
  eapply ensures_bind; [apply (ensures_fold _ (fun lg _ => lg = {| lg_pools := []; lg_refused := [] |}))|].
  { unfold delete_member, deletion. v1_exec; done. }
  intros [[]|e] lg ->; [|by apply ensures_done]. unfold deletion. v1_exec; done.
Qed.

Lemma deleted_ledger service :
  ensures {| lg_pools := []; lg_refused := [] |}
    (fun lg _ => lg = {| lg_pools := []; lg_refused := [] |})
    (EnsureLoadBalancerDeleted (E:=LbaasV1E) opts service).
Proof.
  unfold EnsureLoadBalancerDeleted, getVipByName, delete_floating_v1, getFloatingIPByPortID,
    pool_to_delete, getPoolByName, deletion.
  v1_exec; try done; apply delete_pool_ledger.
Qed.

(** The pool is made, and its deletion asked for, at most once. *)
Lemma filter_pool (id : string) : filter (fun id' => id' <> id) [id] = [].
Proof. by rewrite filter_cons_False by naive_solver. Qed.

(** How the making of a load balancer ends: with the one pool, or with an
    error that leaves no pool; the error of a node without address and that
    of a refused floating address leave it. *)
Definition made_or_undone (nodes : list Node) (lg : ledger) (r : res (list string)) : Prop :=
  match r with
  | Ok _ => exists id, lg_pools lg = [id]
  | Err e => lg_pools lg = [] \/ (exists n, n ∈ nodes /\ nodeAddressForLB n = Err e) \/
             e ∈ lg_refused lg
  end.

Lemma create_all_ledger service nodes port persistence :
  ensures {| lg_pools := []; lg_refused := [] |} (made_or_undone nodes)
    (create_all (E:=LbaasV1E) opts service nodes port persistence).
Proof.
  unfold create_all. go_unfold. cbn -[fold_ok]. apply ensures_vis. intros [p|e]; cbn -[fold_ok];
    [|by apply ensures_done; left].
  eapply ensures_bind.
  { apply (ensures_fold _ (fun lg r => match r with Ok _ => True | Err e => lg_pools lg = [] \/
             (exists n, n ∈ nodes /\ nodeAddressForLB n = Err e) end)).
    intros n [] Hn. unfold create_member_v1. v1_exec; rewrite ?filter_pool; eauto. }
  intros [[]|e] lg; cbn -[fold_ok filter]; [intros ->|intros He; apply ensures_done; cbn; tauto].
  unfold create_monitor_v1, create_vip, made_or_undone.
  v1_exec; rewrite ?filter_pool; eauto; right; right; by apply list_elem_of_singleton.
Qed.


(** A node without address leaves the pool. *)
Example node_without_address_leaves_pool :
  let service := {| svc_Name := "web"; svc_UID := "u";
                    svc_Ports := [{| svp_Protocol := "TCP"; svp_Port := 80; svp_NodePort := 30080 |}];
                    svc_LoadBalancerIP := ""; svc_SessionAffinity := "None";
                    svc_SourceRanges := Ok [{| sr_text := "0.0.0.0/0"; sr_To4 := Ok true |}] |} in
  let h : handler LbaasV1E unit := fun X e w =>
    (match e with
     | CallV1 e =>
         match e in V1E X return X with
         | CreatePoolV1 _ _ _ _ => Ok {| p1_ID := "p"; p1_MonitorIDs := []; p1_MemberIDs := [] |}
         | ListVips _ => ([], None)
         | ListPoolsV1 _ => ([], None)
         | ListMembersV1 _ => ([], None)
         | CreateVip _ => Err ErrNotFound
         | GetPoolV1 _ => Err ErrNotFound
         | CreateMonitorV1 _ _ _ _ => Err ErrNotFound
         | _ => None
         end
     | CallFloating e =>
         match e in LbE X return X with
         | ListExtensions => ([], None)
         | ListFloatingIPs _ => ([], None)
         | ListLoadBalancers _ => ([], None)
         | ListListeners _ => ([], None)
         | ListPools _ => ([], None)
         | ListMembers _ => ([], None)
         | ListRules _ _ => ([], None)
         | CreateLB _ _ _ _ => Err ErrNotFound
         | GetLBStatus _ => Err ErrNotFound
         | CreateListener _ _ _ _ => Err ErrNotFound
         | CreatePool _ _ _ _ _ => Err ErrNotFound
         | CreateMonitor _ _ _ _ _ => Err ErrNotFound
         | CreateFloatingIP _ _ => Err ErrNotFound
         | CreateGroup _ _ => Err ErrNotFound
         | GroupIDFromName _ => Err ErrNotFound
         | _ => None
         end
     end, w) in
  let p := EnsureLoadBalancer opts service [{| node_Name := "n"; node_Addresses := [] |}] in
  (run h p tt).1 = Returned (Err ErrNoAddressFound) /\ lg_pools (ledger_of (calls h p tt)) = ["p"].
Proof. split; reflexivity. Qed.
End lbaas_v1_theorems.
