(* ===== verification/OpenStackCloud.v ===== *)
(** The OpenStack provider as a whole ([openstack.go],
    [openstack_client.go], with [Instances] of [openstack_instances.go]): its
    configuration, its authentication and the interfaces it claims to
    support.

    The configuration file, the provider of gophercloud and the clients of
    its services are calls. *)

From S2P Require Import Prelude GoStrings GoNumbers Types OpenStackInstances OpenStackRoutes OpenStackLB.
From Stdlib Require Import Lia.

#[local] Open Scope string_scope.

(** * Configuration *)

(** [MyDuration.UnmarshalText]: the duration is kept when the text is none. *)
Definition UnmarshalText (text : string) (d : Z) : Z * option error :=
  match ParseDuration text with
  | Err err => (d, Some err)
  | Ok res => (res, None)
  end.

Record BlockStorageOpts := { BSVersion : string; TrustDevicePath : bool }.
Record RouterOpts := { RouterId : string }.

(** The section [Global]. *)
Record GlobalOpts := {
  go_AuthUrl : string;
  go_Username : string;
  go_UserId : string;
  go_Password : string;
  go_TenantId : string;
  go_TenantName : string;
  go_TrustId : string;
  go_DomainId : string;
  go_DomainName : string;
  go_Region : string;
  go_CAFile : string;
}.

Record Config := {
  Global : GlobalOpts;
  cfg_LoadBalancer : LoadBalancerOpts;
  cfg_BlockStorage : BlockStorageOpts;
  cfg_Route : RouterOpts;
}.

Definition zero_config : Config :=
  {| Global := {| go_AuthUrl := ""; go_Username := ""; go_UserId := ""; go_Password := ""; go_TenantId := "";
                  go_TenantName := ""; go_TrustId := ""; go_DomainId := ""; go_DomainName := "";
                  go_Region := ""; go_CAFile := "" |};
     cfg_LoadBalancer := {| lbo_LBVersion := ""; lbo_SubnetId := ""; lbo_FloatingNetworkId := "";
                            lbo_LBMethod := ""; lbo_CreateMonitor := false; lbo_MonitorDelay := 0;
                            lbo_MonitorTimeout := 0; lbo_MonitorMaxRetries := 0;
                            lbo_ManageSecurityGroups := false; lbo_NodeSecurityGroupID := "" |};
     cfg_BlockStorage := {| BSVersion := ""; TrustDevicePath := false |};
     cfg_Route := {| RouterId := "" |} |}.

(** [gophercloud.AuthOptions] and [tokens3.AuthOptions] *)
Record AuthOptions := {
  ao_IdentityEndpoint : string;
  ao_Username : string;
  ao_UserID : string;
  ao_Password : string;
  ao_TenantID : string;
  ao_TenantName : string;
  ao_DomainID : string;
  ao_DomainName : string;
  ao_AllowReauth : bool;
}.
Record Auth3Options := {
  a3_IdentityEndpoint : string;
  a3_Username : string;
  a3_UserID : string;
  a3_Password : string;
  a3_DomainID : string;
  a3_DomainName : string;
  a3_AllowReauth : bool;
}.

Definition toAuthOptions (cfg : Config) : AuthOptions :=
  {| ao_IdentityEndpoint := go_AuthUrl (Global cfg);
     ao_Username := go_Username (Global cfg);
     ao_UserID := go_UserId (Global cfg);
     ao_Password := go_Password (Global cfg);
     ao_TenantID := go_TenantId (Global cfg);
     ao_TenantName := go_TenantName (Global cfg);
     ao_DomainID := go_DomainId (Global cfg);
     ao_DomainName := go_DomainName (Global cfg);
     ao_AllowReauth := true |}.

Definition toAuth3Options (cfg : Config) : Auth3Options :=
  {| a3_IdentityEndpoint := go_AuthUrl (Global cfg);
     a3_Username := go_Username (Global cfg);
     a3_UserID := go_UserId (Global cfg);
     a3_Password := go_Password (Global cfg);
     a3_DomainID := go_DomainId (Global cfg);
     a3_DomainName := go_DomainName (Global cfg);
     a3_AllowReauth := true |}.

(** * Calls *)

Inductive endpoint := NetworkV2 | ComputeV2 | BlockStorageV1 | BlockStorageV2.

Inductive IdentityE : Type -> Type :=
| ReadInto (defaults : Config) : IdentityE (Config * option error)
| NewProvider (authUrl : string) : IdentityE (option error)
| NewPool (caFile : string) : IdentityE (option error)
| AuthenticateV3 (trustId : string) (opts : Auth3Options) : IdentityE (option error)
| Authenticate (opts : AuthOptions) : IdentityE (option error)
| NewEndpoint (s : endpoint) (region : string) : IdentityE (option error).

Inductive OsE (X : Type) : Type :=
| CallIdentity (e : IdentityE X)
| CallExt (e : LbE X).
Arguments CallIdentity {X} e.
Arguments CallExt {X} e.
#[export] Instance SubE_identity : SubE IdentityE OsE := fun _ e => CallIdentity e.
#[export] Instance SubE_os_lb : SubE LbE OsE := fun _ e => CallExt e.

#[local] Abbreviation M A := (prog OsE A).

(** * The provider *)

Record OpenStack := {
  os_region : string;
  os_lbOpts : LoadBalancerOpts;
  os_bsOpts : BlockStorageOpts;
  os_routeOpts : RouterOpts;
  os_localInstanceID : string;
}.

Definition readConfig (config : bool) : M (Config * option error) :=
  if negb config
  then Done (zero_config, Some (errorf "no OpenStack cloud provider config file given" []))
  else
    trigger (ReadInto {| Global := Global zero_config; cfg_LoadBalancer := cfg_LoadBalancer zero_config;
                         cfg_BlockStorage := {| BSVersion := "auto"; TrustDevicePath := false |};
                         cfg_Route := cfg_Route zero_config |}).

Definition newOpenStack (cfg : Config) : M (res OpenStack) :=
  let! err := trigger (NewProvider (go_AuthUrl (Global cfg))) in
  match err with
  | Some err => fail err
  | None =>
  let! err := (if bool_decide (go_CAFile (Global cfg) <> "") then trigger (NewPool (go_CAFile (Global cfg)))
               else Done None) in
  match err with
  | Some err => fail err
  | None =>
  let! err := (if bool_decide (go_TrustId (Global cfg) <> "")
               then trigger (AuthenticateV3 (go_TrustId (Global cfg)) (toAuth3Options cfg))
               else trigger (Authenticate (toAuthOptions cfg))) in
  match err with
  | Some err => fail err
  | None => ok {| os_region := go_Region (Global cfg); os_lbOpts := cfg_LoadBalancer cfg;
                  os_bsOpts := cfg_BlockStorage cfg; os_routeOpts := cfg_Route cfg;
                  os_localInstanceID := "" |}
  end end end.

(** The factory registered for the provider. *)
Definition openstack_factory (config : bool) : M (res OpenStack) :=
  let! read := readConfig config in
  match read with
  | (_, Some err) => fail err
  | (cfg, None) => newOpenStack cfg
  end.

Section provider.
Context (os : OpenStack).

Definition NewNetworkV2 : M (option error) := trigger (NewEndpoint NetworkV2 (os_region os)).
Definition NewComputeV2 : M (option error) := trigger (NewEndpoint ComputeV2 (os_region os)).
Definition NewBlockStorageV1 : M (option error) := trigger (NewEndpoint BlockStorageV1 (os_region os)).
Definition NewBlockStorageV2 : M (option error) := trigger (NewEndpoint BlockStorageV2 (os_region os)).

(** Is the extension in the map that was read? *)
Definition has_extension (netExts : gmap string bool) (name : string) : bool := default false (netExts !! name).

Inductive lbaas :=
| LbaasV1 (opts : LoadBalancerOpts)
| LbaasV2 (opts : LoadBalancerOpts).

(** The version configured, or the newest one the server has. *)
Definition lb_version : M (option string) :=
  if bool_decide (lbo_LBVersion (os_lbOpts os) = "") then
    let! listed := networkExtensions in
    match listed with
    | (_, Some _) => Done None
    | (netExts, None) =>
        if has_extension netExts "lbaasv2" then Done (Some "v2")
        else if has_extension netExts "lbaas" then Done (Some "v1")
        else Done None
    end
  else Done (Some (lbo_LBVersion (os_lbOpts os))).

Definition LoadBalancer : M (option lbaas) :=
  let! err := NewNetworkV2 in
  if bool_decide (is_Some err) then Done None else
  let! err := NewComputeV2 in
  if bool_decide (is_Some err) then Done None else
  let! version := lb_version in
  match version with
  | None => Done None
  | Some lbVersion =>
      if bool_decide (lbVersion = "v2") then Done (Some (LbaasV2 (os_lbOpts os)))
      else if bool_decide (lbVersion = "v1") then Done (Some (LbaasV1 (os_lbOpts os)))
      else Done None
  end.

(** The router of the routes. *)
Definition Routes : M (option string) :=
  let! err := NewNetworkV2 in
  if bool_decide (is_Some err) then Done None else
  let! listed := networkExtensions in
  match listed with
  | (_, Some _) => Done None
  | (netExts, None) =>
      if negb (has_extension netExts "extraroute") then Done None
      else
        let! err := NewComputeV2 in
        if bool_decide (is_Some err) then Done None else
        match NewRoutes (RouterId (os_routeOpts os)) with
        | Err _ => Done None
        | Ok r => Done (Some r)
        end
  end.

(** Are instances supported? *)
Definition Instances : M bool :=
  let! err := NewComputeV2 in
  Done (negb (bool_decide (is_Some err))).
End provider.

(** * Theorems *)

(** ** Extensions *)

Lemma fold_extensions exts (seen : gmap string bool) e :
  fold_left (fun seen ext => <[ext := true]> seen) exts seen !! e =
  if bool_decide (e ∈ exts) then Some true else seen !! e.
Proof.
  revert seen; induction exts as [|x exts IH]; intros seen; cbn [fold_left].
  - by rewrite bool_decide_eq_false_2 by apply not_elem_of_nil.
  - rewrite IH. destruct (decide (e = x)) as [->|Hne].
    + rewrite lookup_insert_eq, (bool_decide_eq_true_2 (x ∈ x :: exts)) by (by left). by destruct (bool_decide _).
    + rewrite lookup_insert_ne by done. repeat case_bool_decide; set_solver.
Qed.

Lemma see_extensions_spec pages last (seen : gmap string bool) :
  exists m, EachPage see_extensions pages last seen = (m, last) /\
    forall e, m !! e = if bool_decide (e ∈ concat pages) then Some true else seen !! e.
Proof.
  revert seen; induction pages as [|page pages IH]; intros seen; cbn.
  - exists seen. split; [done|]. intros e. by rewrite bool_decide_eq_false_2 by apply not_elem_of_nil.
  - destruct (IH (fold_left (fun seen ext => <[ext := true]> seen) page seen)) as (m & -> & Hm).
    exists m. split; [done|]. intros e. rewrite Hm, fold_extensions.
    repeat case_bool_decide; set_solver.
Qed.

(** The listing of the extensions that a run made ended without error and had
    this one. *)
Definition listed_extension (tr : list (event OsE)) (name : string) : Prop :=
  exists pages, Event (CallExt ListExtensions) (pages, None) ∈ tr /\ name ∈ concat pages.
Definition listed_none (tr : list (event OsE)) (name : string) : Prop :=
  exists pages, Event (CallExt ListExtensions) (pages, None) ∈ tr /\ name ∉ concat pages.
Definition listing_failed (tr : list (event OsE)) : Prop :=
  exists pages err, Event (CallExt ListExtensions) (pages, Some err) ∈ tr.

(** What the listing answered, and the map made of it. *)
Lemma networkExtensions_listed :
  always (E:=OsE) networkExtensions
    (fun tr o => exists pages last m, tr = [Event (CallExt ListExtensions) (pages, last)] /\
       o = Returned (m, last) /\ forall e, has_extension m e = bool_decide (e ∈ concat pages)) [].
Proof.
  intros [pages last]. cbn. destruct (see_extensions_spec pages last ∅) as (m & -> & Hm).
  exists pages, last, m. split_and!; [done..|]. intros e. unfold has_extension. rewrite Hm.
  by destruct (bool_decide _).
Qed.

Lemma has_listed pages last tr m e :
  (forall e, has_extension m e = bool_decide (e ∈ concat pages)) -> last = None ->
  Event (CallExt ListExtensions) (pages, last) ∈ tr ->
  if has_extension m e then listed_extension tr e else listed_none tr e.
Proof. intros Hm -> Htr. rewrite Hm. case_bool_decide; by exists pages. Qed.

(** A client of the service was made for the region of the provider. *)
Definition made_client (tr : list (event OsE)) (s : endpoint) (region : string) : Prop :=
  Event (CallIdentity (NewEndpoint s region)) None ∈ tr.
Definition client_failed (tr : list (event OsE)) : Prop :=
  exists s region err, Event (CallIdentity (NewEndpoint s region)) (Some err) ∈ tr.

(** Load balancers are supported exactly when both clients can be made and the
    version is known: the one configured, or the newest the server lists. *)
Definition claimed (os : OpenStack) (tr : list (event OsE)) (r : option lbaas) : Prop :=
  let configured := lbo_LBVersion (os_lbOpts os) in
  match r with
  | None =>
      client_failed tr \/ (configured ∉ ["v1"; "v2"; ""]) \/
      configured = "" /\ (listing_failed tr \/ listed_none tr "lbaasv2" /\ listed_none tr "lbaas")
  | Some lb =>
      made_client tr NetworkV2 (os_region os) /\ made_client tr ComputeV2 (os_region os) /\
      match lb with
      | LbaasV2 opts => opts = os_lbOpts os /\
          (configured = "v2" \/ configured = "" /\ listed_extension tr "lbaasv2")
      | LbaasV1 opts => opts = os_lbOpts os /\
          (configured = "v1" \/
           configured = "" /\ listed_none tr "lbaasv2" /\ listed_extension tr "lbaas")
      end
  end.

Theorem LoadBalancer_claimed os :
  always (LoadBalancer os) (fun tr o => exists r, o = Returned r /\ claimed os tr r) [].
Proof.
  unfold LoadBalancer, NewNetworkV2, NewComputeV2.
  intros [err|]; cbn; [eexists; split; [done|]; left; do 3 eexists; by left|].
  intros [err|]; cbn; [eexists; split; [done|]; left; do 3 eexists; right; by left|].
  rewrite always_bind. unfold lb_version. case_bool_decide as Hv.
  - rewrite always_bind. apply always_extend. eapply always_impl; [|apply networkExtensions_listed].
    intros tr' o (pages & last & m & -> & -> & Hm). cbn [app].
    match goal with |- context [always _ _ ?tr] => set (tr' := tr) end.
    assert (Event (CallExt ListExtensions) (pages, last) ∈ tr') as Hin by (unfold tr'; set_solver).
    assert (made_client tr' NetworkV2 (os_region os) /\ made_client tr' ComputeV2 (os_region os)) as Hc
      by (unfold made_client, tr'; set_solver).
    destruct last as [err|]; cbn.
    { eexists; split; [done|]. right; right. split; [done|]. left. by exists pages, err. }
    pose proof (has_listed pages None tr' m "lbaasv2" Hm eq_refl Hin) as H2.
    pose proof (has_listed pages None tr' m "lbaas" Hm eq_refl Hin) as H1.
    destruct (has_extension m "lbaasv2"); [|destruct (has_extension m "lbaas")]; cbn;
      eexists; (split; [done|]); unfold claimed; naive_solver.
  - cbn. case_bool_decide as H2; [|case_bool_decide as H1]; cbn; eexists; (split; [done|]); unfold claimed, made_client.
    + split_and!; [set_solver..|done|by left].
    + split_and!; [set_solver..|done|by left].
    + right; left. set_solver.
Qed.

(** ** Authentication *)

(** The calls that make a provider, in order. *)
Definition making (cfg : Config) : list (event OsE) :=
  (Event (CallIdentity (NewProvider (go_AuthUrl (Global cfg)))) None ::
   (if bool_decide (go_CAFile (Global cfg) = "") then []
    else [Event (CallIdentity (NewPool (go_CAFile (Global cfg)))) None]) ++
   [if bool_decide (go_TrustId (Global cfg) = "")
    then Event (CallIdentity (Authenticate (toAuthOptions cfg))) None
    else Event (CallIdentity (AuthenticateV3 (go_TrustId (Global cfg)) (toAuth3Options cfg))) None])%list.

(** The first failure ends the run. *)
Definition stopped (all tr : list (event OsE)) (err : error) : Prop :=
  exists done_ (e : IdentityE (option error)), tr = (done_ ++ [Event (CallIdentity e) (Some err)])%list /\
    length done_ < length all /\ done_ `prefix_of` all.

Lemma stopped_after tr all rest done_ err (e : IdentityE (option error)) :
  tr = (done_ ++ [Event (CallIdentity e) (Some err)])%list ->
  all = (done_ ++ Event (CallIdentity e) None :: rest)%list -> stopped all tr err.
Proof.
  intros -> ->. exists done_, e. split_and!; [done| |by apply prefix_app_r].
  rewrite length_app. cbn. lia.
Qed.

(** A provider is made only after every call has succeeded: the certificates
    of the configured file, if there is one, and then the authentication, with
    the trust if there is one; otherwise the first failure ends the making, and
    is the error. *)
Theorem newOpenStack_made cfg :
  always (newOpenStack cfg)
    (fun tr o => exists r, o = Returned r /\
       match r with
       | Ok os => tr = making cfg /\ os_region os = go_Region (Global cfg) /\
                  os_lbOpts os = cfg_LoadBalancer cfg /\ os_bsOpts os = cfg_BlockStorage cfg /\
                  os_routeOpts os = cfg_Route cfg
       | Err err => stopped (making cfg) tr err
       end) [].
Proof.
  unfold newOpenStack, making.
  intros [err|]; cbn; [eexists; split; [done|]; eapply (stopped_after _ _ _ []); reflexivity|].
  destruct (decide (go_CAFile (Global cfg) = "")) as [Hca|Hca];
    [rewrite (bool_decide_eq_false_2 (_ <> _)), (bool_decide_eq_true_2 (_ = _)) by tauto
    |rewrite (bool_decide_eq_true_2 (_ <> _)), (bool_decide_eq_false_2 (_ = _)) by tauto; intros [err|]; cbn;
     [eexists; split; [done|]; eapply (stopped_after _ _ _ [_]); reflexivity|]];
    destruct (decide (go_TrustId (Global cfg) = "")) as [Ht|Ht];
    [rewrite (bool_decide_eq_false_2 (_ <> _)), (bool_decide_eq_true_2 (_ = _)) by tauto
    |rewrite (bool_decide_eq_true_2 (_ <> _)), (bool_decide_eq_false_2 (_ = _)) by tauto
    |rewrite (bool_decide_eq_false_2 (_ <> _)), (bool_decide_eq_true_2 (_ = _)) by tauto
    |rewrite (bool_decide_eq_true_2 (_ <> _)), (bool_decide_eq_false_2 (_ = _)) by tauto];
    cbn; (intros [err|]; eexists; (split; [done|]); [|done]).
  - eapply (stopped_after _ _ _ [_]); reflexivity.
  - eapply (stopped_after _ _ _ [_]); reflexivity.
  - eapply (stopped_after _ _ _ [_; _]); reflexivity.
  - eapply (stopped_after _ _ _ [_; _]); reflexivity.
Qed.
