(* ===== verification/Examples.v ===== *)
(** Concrete objects and environments: the inputs at which the hypotheses of
    the theorems are shown to hold. *)

From S2P Require Import Prelude Types Cache Api Plugin Snapshotter.

#[local] Open Scope string_scope.

(** * Objects *)

Definition named (name : string) : ObjectMeta :=
  {| Name := name; Namespace := ""; SelfLink := ""; Labels := ∅; Annotations := ∅ |}.

Definition example_claim : PersistentVolumeClaim :=
  {| pvc_ObjectMeta := named "claim"; pvc_AccessModes := []; pvc_Selector := None;
     pvc_Requests := ∅; pvc_VolumeName := "pv"; pvc_Phase := ClaimBound |}.

Definition example_pv : PersistentVolume :=
  {| pv_ObjectMeta := named "pv";
     pv_Spec := {| Capacity := ∅;
                   pv_Source := {| HostPath := Some {| hp_Path := "/data" |};
                                   AWSElasticBlockStore := None; GCEPersistentDisk := None;
                                   Cinder := None |};
                   AccessModes := []; PersistentVolumeReclaimPolicy := "Delete" |} |}.

Definition example_source : VolumeSnapshotDataSource :=
  {| ds_HostPath := Some {| hps_Path := "/tmp/1.tgz" |}; ds_AWSElasticBlockStore := None;
     ds_GCEPersistentDiskSnapshot := None; ds_CinderSnapshot := None |}.

(** The data object of the snapshot [ns/a], as the first creation makes it,
    and as the second leaves it. *)
Definition example_data (name : string) : VolumeSnapshotData :=
  new_snapshot_data name "ns/a" "pv" example_source.
Definition example_ready_data (name : string) : VolumeSnapshotData :=
  set_vsd_conditions [data_condition VolumeSnapshotDataConditionReady
                        "Snapshot data created succsessfully" Second] (example_data name).

(** * An environment that refuses *)

(** Every call to the API server or a plugin fails, the clock stands at one
    second; for the concrete examples. *)
Definition refuse_api {X} (e : ApiE X) : X :=
  match e in ApiE X return X with
  | GetPersistentVolumeClaim _ _ => Err ErrWaitTimeout
  | GetPersistentVolume _ => Err ErrWaitTimeout
  | GetVolumeSnapshot _ _ => Err ErrWaitTimeout
  | PutVolumeSnapshot _ _ _ => Err ErrWaitTimeout
  | ListVolumeSnapshotData _ => Err ErrWaitTimeout
  | GetVolumeSnapshotData _ _ => Err ErrWaitTimeout
  | PostVolumeSnapshotData _ _ => Err ErrWaitTimeout
  | PutVolumeSnapshotData _ _ _ => Err ErrWaitTimeout
  | DeleteVolumeSnapshotData _ _ => Err ErrWaitTimeout
  end.

Definition refuse_sys {X} (e : SysE X) : X :=
  match e in SysE X return X with
  | Now => Second
  | Sleep _ => tt
  | NewUUID => ""
  | DeepCopy o => Ok o
  end.

Definition refuse_plugin {X} (e : PluginE X) : X :=
  match e in PluginE X return X with
  | PSnapshotCreate _ _ => (None, Some ErrWaitTimeout)
  | PSnapshotDelete _ _ _ => Some ErrWaitTimeout
  | PSnapshotRestore _ _ _ _ _ => (None, ∅, Some ErrWaitTimeout)
  | PDescribeSnapshot _ _ => (false, Some ErrWaitTimeout)
  | PVolumeDelete _ _ => Some ErrWaitTimeout
  end.

Definition refuse `{MapRange} X (e : CtlE PluginE X) : X :=
  match e with
  | CallApi e => refuse_api e
  | CallSys e => refuse_sys e
  | CallWorld e => (handle_world _ e {| dsw := ∅; asw := ∅ |}).1
  | CallPlugin e => refuse_plugin e
  end.

(** * An environment that accepts *)

(** Every call succeeds, for the snapshot [ns/a] with a data object [data]. *)
Definition accept_api {X} (e : ApiE X) : X :=
  match e in ApiE X return X with
  | GetPersistentVolumeClaim _ _ => Ok example_claim
  | GetPersistentVolume _ => Ok example_pv
  | GetVolumeSnapshot _ _ => Ok (example_snapshot "a" "")
  | PutVolumeSnapshot _ _ b => Ok b
  | ListVolumeSnapshotData _ => Ok [example_ready_data "data"]
  | GetVolumeSnapshotData _ _ => Ok (example_ready_data "data")
  | PostVolumeSnapshotData _ b => Ok b
  | PutVolumeSnapshotData _ _ b => Ok b
  | DeleteVolumeSnapshotData _ _ => Ok tt
  end.

Definition accept_plugin {X} (e : PluginE X) : X :=
  match e in PluginE X return X with
  | PSnapshotCreate _ _ => (Some example_source, None)
  | PSnapshotDelete _ _ _ => None
  | PSnapshotRestore _ _ _ _ _ => (Some (pv_Source (pv_Spec example_pv)), ∅, None)
  | PDescribeSnapshot _ _ => (true, None)
  | PVolumeDelete _ _ => None
  end.

Definition accept `{MapRange} X (e : CtlE PluginE X) : X :=
  match e with
  | CallApi e => accept_api e
  | CallSys e => refuse_sys e
  | CallWorld e => (handle_world _ e {| dsw := ∅; asw := ∅ |}).1
  | CallPlugin e => accept_plugin e
  end.
