(* ===== verification/Reconciler.v ===== *)
(** [pkg/controller/reconciler/reconciler.go]: the loop that starts the
    operations the two states of the world call for. *)

From S2P Require Import Prelude GoStrings Types Cache Api Plugin Snapshotter Examples.

#[local] Open Scope string_scope.

(** The fields of the reconciler that are not other components. *)
Record reconciler := {
  syncDuration : Z;
  timeOfLastSync : Z;
  disableReconciliationSync : bool;
}.

Section reconciler.
Context `{MapRange} {PE : Type -> Type}.
#[local] Abbreviation M A := (prog (LoopE PE) A).

Definition NewReconciler (syncDuration_ : Z) (disable : bool) : M reconciler :=
  let! now := trigger Now in
  Done {| syncDuration := syncDuration_; timeOfLastSync := now;
          disableReconciliationSync := disable |}.

(** The body of the first loop of [reconcile]. *)
Definition reconcile_delete (entry : string * VolumeSnapshot) : M unit :=
  let '(name, snapshot) := entry in
  let! exists_ := trigger (DswSnapshotExists name) in
  if negb exists_ then DeleteVolumeSnapshot snapshot else Done tt.

(** The body of the second loop: between the test and the read of the
    actual state its lock is free, so the read can find nothing. *)
Definition reconcile_create (entry : string * VolumeSnapshot) : M unit :=
  let '(name, snapshot) := entry in
  let! exists_ := trigger (AswSnapshotExists name) in
  if negb exists_ then CreateVolumeSnapshot snapshot
  else
    let! aswSnapshot := trigger (AswGetSnapshot name) in
    match aswSnapshot with
    | None => Crash "invalid memory address or nil pointer dereference"
    | Some aswSnapshot =>
        if bool_decide (SnapshotDataName (vs_Spec aswSnapshot) = "") then
          let! _ := lift (UpdateVolumeSnapshot name) in Done tt
        else Done tt
    end.

Definition reconcile : M unit :=
  let! known := trigger AswGetSnapshots in
  let! _ := for_each (range known) reconcile_delete in
  let! desired := trigger DswGetSnapshots in
  for_each (range desired) reconcile_create.

Definition syncStates : M unit := Done tt.

Definition sync (rc : reconciler) : M reconciler :=
  let! _ := syncStates in
  let! now := trigger Now in
  Done {| syncDuration := syncDuration rc; timeOfLastSync := now;
          disableReconciliationSync := disableReconciliationSync rc |}.

Definition reconciliationLoop (rc : reconciler) : M reconciler :=
  let! _ := reconcile in
  if disableReconciliationSync rc then Done rc
  else if bool_decide (syncDuration rc < Second)%Z then Done rc
  else
    let! now := trigger Now in
    if bool_decide (Since now (timeOfLastSync rc) > syncDuration rc)%Z then sync rc
    else Done rc.
End reconciler.

(** The reconciler panics in one situation only, whatever its calls
    answer: the snapshot was in the actual state when it tested for it, and was
    gone when it read it, right after. *)
Theorem reconcile_panics_on_race `{MapRange} :
  always (reconcile (PE:=PluginE))
    (fun tr o => match o with
                 | Returned _ => True
                 | Panicked _ =>
                     exists before n,
                       tr = (before ++ [Event (CallCtl (CallWorld (AswSnapshotExists n))) true;
                                        Event (CallCtl (CallWorld (AswGetSnapshot n))) None])%list
                 end) [].
Proof.
  unfold reconcile. cbn. intros known. apply always_bind, always_for_each; cbn.
  - intros [n s] tr. unfold reconcile_delete. cbn. intros [|]; cbn; [done|].
    unfold DeleteVolumeSnapshot. go_exec; done.
  - intros tr desired. apply always_for_each; [|done]. clear. intros [n s] tr.
    unfold reconcile_create, CreateVolumeSnapshot. cbn. intros [|]; cbn; [|go_exec; done].
    intros [s'|]; cbn; [|exists tr, n; by rewrite <- app_assoc].
    case_bool_decide; cbn; [|done]. apply always_lift_safe; [|done].
    unfold UpdateVolumeSnapshot, getSnapshotDataFromSnapshotName. go_exec; done.
Qed.

(** * The loop alone *)

(** The loop run by itself: the states of the world answer as they are, a
    started operation is recorded (and answered by [started]), and [ext]
    answers the calls that leave the program. *)
Section alone.
Context `{MapRange} {PE : Type -> Type}.
Context (started : string -> opfunc -> option error).
Context (ext : forall X, CtlE PE X -> X).

Definition loop_state : Type := worlds * list (string * opfunc).

Definition handle_loop : handler (LoopE PE) loop_state := fun X e st =>
  match e with
  | CallCtl (CallWorld e) => let '(x, w') := handle_world _ e st.1 in (x, (w', st.2))
  | CallCtl e => (ext _ e, st)
  | CallOp e =>
      match e in OpE X return X * loop_state with
      | RunOperation name f => (started name f, (st.1, (st.2 ++ [(name, f)])%list))
      end
  end.

(** The operations the two states call for. *)
Definition delete_op (s : VolumeSnapshot) : string * opfunc :=
  (operation_name snapshotOpDeletePrefix (snapshot_key s) s, SnapshotDeleteFunc (snapshot_key s) s).
Definition create_op (s : VolumeSnapshot) : string * opfunc :=
  (operation_name snapshotOpCreatePrefix (snapshot_key s) s, SnapshotCreateFunc (snapshot_key s) s).

Definition wanted_deletes (w : worlds) : list (string * opfunc) :=
  '(n, s) ← range (asw w); if dsw w !! n is Some _ then [] else [delete_op s].
Definition wanted_creates (w : worlds) : list (string * opfunc) :=
  '(n, s) ← range (dsw w); if asw w !! n is Some _ then [] else [create_op s].

(** The snapshots of the actual state are bound. *)
Definition asw_bound (w : worlds) : Prop :=
  map_Forall (fun _ s => SnapshotDataName (vs_Spec s) <> "") (asw w).

Lemma run_delete_loop w ops entries :
  run handle_loop (for_each entries reconcile_delete) (w, ops) =
  (Returned tt, (w, (ops ++ ('(n, s) ← entries; if dsw w !! n is Some _ then [] else [delete_op s]))%list)).
Proof.
  revert ops; induction entries as [|[n s] entries IH]; intros ops; [by rewrite app_nil_r|].
  cbn. unfold DesiredStateOfWorld.SnapshotExists.
  destruct (dsw w !! n) as [s'|]; cbn; rewrite IH; [done|].
  by rewrite <- app_assoc.
Qed.

Lemma run_create_loop w ops entries :
  asw_bound w ->
  run handle_loop (for_each entries reconcile_create) (w, ops) =
  (Returned tt, (w, (ops ++ ('(n, s) ← entries; if asw w !! n is Some _ then [] else [create_op s]))%list)).
Proof.
  intros Hbound. revert ops; induction entries as [|[n s] entries IH]; intros ops;
    [by rewrite app_nil_r|].
  cbn. unfold ActualStateOfWorld.SnapshotExists, ActualStateOfWorld.GetSnapshot.
  destruct (asw w !! n) as [s'|] eqn:Hs'; cbn.
  - unfold ActualStateOfWorld.GetSnapshot. rewrite Hs'.
    rewrite bool_decide_eq_false_2 by (by apply (Hbound n)). cbn. by rewrite IH.
  - rewrite IH. by rewrite <- app_assoc.
Qed.

Lemma reconcile_run w ops :
  asw_bound w ->
  run handle_loop reconcile (w, ops) =
  (Returned tt, (w, (ops ++ wanted_deletes w ++ wanted_creates w)%list)).
Proof.
  intros Hbound. unfold reconcile. cbn. rewrite ASW_GetSnapshots_copy, run_bind.
  rewrite run_delete_loop. cbn. rewrite DSW_GetSnapshots_copy, run_create_loop by done.
  by rewrite <- app_assoc.
Qed.

Lemma elem_of_wanted_deletes w name f :
  keyed (asw w) ->
  (name, f) ∈ wanted_deletes w <->
  exists n s, asw w !! n = Some s /\ dsw w !! n = None /\
              name = operation_name snapshotOpDeletePrefix n s /\ f = SnapshotDeleteFunc n s.
Proof.
  intros Hk. unfold wanted_deletes. rewrite list_elem_of_bind. split.
  - intros ([n s] & Hin & Hns%elem_of_range). destruct (dsw w !! n) eqn:Hd; [by apply not_elem_of_nil in Hin|].
    apply list_elem_of_singleton in Hin as [= -> ->]. rewrite <- (Hk n s Hns) in *. by exists n, s.
  - intros (n & s & Hns & Hd & -> & ->). exists (n, s). rewrite Hd, elem_of_range.
    split; [|done]. rewrite (Hk n s Hns) at 1 2. by apply list_elem_of_singleton.
Qed.

Lemma elem_of_wanted_creates w name f :
  keyed (dsw w) ->
  (name, f) ∈ wanted_creates w <->
  exists n s, dsw w !! n = Some s /\ asw w !! n = None /\
              name = operation_name snapshotOpCreatePrefix n s /\ f = SnapshotCreateFunc n s.
Proof.
  intros Hk. unfold wanted_creates. rewrite list_elem_of_bind. split.
  - intros ([n s] & Hin & Hns%elem_of_range). destruct (asw w !! n) eqn:Hd; [by apply not_elem_of_nil in Hin|].
    apply list_elem_of_singleton in Hin as [= -> ->]. rewrite <- (Hk n s Hns) in *. by exists n, s.
  - intros (n & s & Hns & Hd & -> & ->). exists (n, s). rewrite Hd, elem_of_range.
    split; [|done]. rewrite (Hk n s Hns) at 1 2. by apply list_elem_of_singleton.
Qed.
(** The operation of this name is called for. *)
Definition wanted (w : worlds) (name : string) (f : opfunc) : Prop :=
  exists n s,
    (asw w !! n = Some s /\ dsw w !! n = None /\
     name = operation_name snapshotOpDeletePrefix n s /\ f = SnapshotDeleteFunc n s) \/
    (dsw w !! n = Some s /\ asw w !! n = None /\
     name = operation_name snapshotOpCreatePrefix n s /\ f = SnapshotCreateFunc n s).

Lemma wanted_nil w :
  (forall name f, ~ wanted w name f) <-> dom (dsw w) = dom (asw w).
Proof.
  rewrite set_eq. setoid_rewrite elem_of_dom. split.
  - intros Hno n. destruct (dsw w !! n) as [s|] eqn:Hd, (asw w !! n) as [s'|] eqn:Ha;
      split; try done; intros _; exfalso; eapply Hno; exists n; eexists; naive_solver.
  - intros Hdom name f (n & s & [(Ha & Hd & _)|(Hd & Ha & _)]);
      specialize (Hdom n); rewrite Ha, Hd in Hdom; destruct Hdom as [Hl Hr];
      [destruct (Hr (mk_is_Some _ _ eq_refl)) | destruct (Hl (mk_is_Some _ _ eq_refl))]; done.
Qed.

(** C9: One round of the reconciler, with nothing running beside it, in
    states of the world whose snapshots are stored under their names and
    whose actual snapshots are bound: it ends without a panic, calls neither
    the API server nor a plugin, leaves both states as they are, and starts
    first the deletions and then the creations: a deletion for exactly each
    snapshot of the actual state that is not desired, a creation for exactly
    each desired snapshot that is not in the actual state.  It starts nothing
    exactly when the two states hold the same names. *)
Theorem reconcile_starts w ops :
  worlds_keyed w -> asw_bound w ->
  exists deletes creates,
    run handle_loop reconcile (w, ops) = (Returned tt, (w, (ops ++ deletes ++ creates)%list)) /\
    (forall name f, (name, f) ∈ deletes <->
       exists n s, asw w !! n = Some s /\ dsw w !! n = None /\
                   name = operation_name snapshotOpDeletePrefix n s /\ f = SnapshotDeleteFunc n s) /\
    (forall name f, (name, f) ∈ creates <->
       exists n s, dsw w !! n = Some s /\ asw w !! n = None /\
                   name = operation_name snapshotOpCreatePrefix n s /\ f = SnapshotCreateFunc n s) /\
    (deletes ++ creates = [] <-> dom (dsw w) = dom (asw w))%list.
Proof.
  intros [Hkd Hka] Hbound. exists (wanted_deletes w), (wanted_creates w).
  split; [by apply reconcile_run|]. split; [intros; by apply elem_of_wanted_deletes|].
  split; [intros; by apply elem_of_wanted_creates|].
  rewrite <- wanted_nil. split.
  - intros [Hnd Hnc]%app_nil name f (n & s & [Hw|Hw]).
    + apply (not_elem_of_nil (name, f)). rewrite <- Hnd. apply elem_of_wanted_deletes; eauto.
    + apply (not_elem_of_nil (name, f)). rewrite <- Hnc. apply elem_of_wanted_creates; eauto.
  - intros Hno. apply elem_of_nil_inv. intros [name f] [Hin|Hin]%elem_of_app.
    + apply elem_of_wanted_deletes in Hin as (n & s & Hw); [|done]. apply (Hno name f).
      exists n, s. by left.
    + apply elem_of_wanted_creates in Hin as (n & s & Hw); [|done]. apply (Hno name f).
      exists n, s. by right.
Qed.
End alone.


#[local] Instance sorted : MapRange := map_range_sorted.

Lemma reconcile_starts_witness :
  exists deletes creates,
    run (handle_loop (fun _ _ => None) refuse) reconcile
      ({| dsw := {["ns/a" := example_snapshot "a" ""]};
          asw := {["ns/b" := example_snapshot "b" "data"]} |}, []) =
      (Returned tt, ({| dsw := {["ns/a" := example_snapshot "a" ""]};
                        asw := {["ns/b" := example_snapshot "b" "data"]} |},
                     ([] ++ deletes ++ creates)%list)) /\
    ("deletens/bclaim", SnapshotDeleteFunc "ns/b" (example_snapshot "b" "data")) ∈ deletes /\
    ("createns/aclaim", SnapshotCreateFunc "ns/a" (example_snapshot "a" "")) ∈ creates.
Proof.
  edestruct (reconcile_starts (fun _ _ => None) refuse
              {| dsw := {["ns/a" := example_snapshot "a" ""]};
                 asw := {["ns/b" := example_snapshot "b" "data"]} |} [])
    as (deletes & creates & Hrun & Hd & Hc & _).
  - split; by apply map_Forall_singleton.
  - by apply map_Forall_singleton.
  - exists deletes, creates. split; [exact Hrun|]. split.
    + apply Hd. exists "ns/b", (example_snapshot "b" "data").
      repeat split; vm_compute; reflexivity.
    + apply Hc. exists "ns/a", (example_snapshot "a" "").
      repeat split; vm_compute; reflexivity.
Defined.
