(* ===== verification/Populator.v ===== *)
(** [pkg/controller/populator/desired_state_of_world_populator.go]: the loop
    that brings the desired state in line with the informer's store. *)

From S2P Require Import Prelude GoStrings Types Cache Api Plugin Snapshotter Examples.

#[local] Open Scope string_scope.

(** The informer's store ([k8scache.Store]). *)
Inductive StoreE : Type -> Type :=
| StoreGet (s : VolumeSnapshot) : StoreE (bool * option error)
| StoreList : StoreE (list object).

Inductive PopE (X : Type) : Type :=
| PopStore (e : StoreE X)
| PopWorld (e : WorldE X)
| PopSys (e : SysE X).
Arguments PopStore {X} e.
Arguments PopWorld {X} e.
Arguments PopSys {X} e.

#[export] Instance SubE_pop_store : SubE StoreE PopE := fun _ e => PopStore e.
#[export] Instance SubE_pop_world : SubE WorldE PopE := fun _ e => PopWorld e.
#[export] Instance SubE_pop_sys : SubE SysE PopE := fun _ e => PopSys e.

Record desiredStateOfWorldPopulator := {
  listSnapshotsRetryDuration : Z;
  timeOfLastListSnapshots : Z;
}.

(** The constructor leaves the time of the last listing at its zero value. *)
Definition NewDesiredStateOfWorldPopulator (listSnapshotsRetryDuration_ : Z)
    : desiredStateOfWorldPopulator :=
  {| listSnapshotsRetryDuration := listSnapshotsRetryDuration_;
     timeOfLastListSnapshots := zero_Time |}.

Section populator.
Context `{MapRange}.

Definition removeIfDeleted (entry : string * VolumeSnapshot) : prog PopE unit :=
  let '(snapshotUID, snapshot) := entry in
  let! got := trigger (StoreGet snapshot) in
  let '(exists_, err) := got in
  match err with
  | Some _ => Done tt
  | None =>
      if negb exists_ then
        let! _ := trigger (DswDeleteSnapshot
                    (MakeSnapshotName (Namespace (vs_Metadata snapshot)) (Name (vs_Metadata snapshot)))) in
        Done tt
      else Done tt
  end.

Definition findAndRemoveDeletedSnapshots : prog PopE unit :=
  let! snapshots := trigger DswGetSnapshots in
  for_each (range snapshots) removeIfDeleted.

Definition addIfActive (obj : object) : prog PopE unit :=
  match obj with
  | OSnapshot snapshot =>
      let snapshotName :=
        MakeSnapshotName (Namespace (vs_Metadata snapshot)) (Name (vs_Metadata snapshot)) in
      let! exists_ := trigger (DswSnapshotExists snapshotName) in
      if negb exists_ then
        let! _ := trigger (DswAddSnapshot (Some snapshot)) in Done tt
      else Done tt
  | _ => Crash "interface conversion: interface {} is not *v1.VolumeSnapshot"
  end.

Definition findAndAddActiveSnapshots : prog PopE unit :=
  let! objs := trigger StoreList in
  for_each objs addIfActive.

(** One round.  The time of the last listing is read, never written. *)
Definition populatorLoop (dswp : desiredStateOfWorldPopulator) : prog PopE unit :=
  let! _ := findAndRemoveDeletedSnapshots in
  let! now := trigger Now in
  if bool_decide (Since now (timeOfLastListSnapshots dswp) < listSnapshotsRetryDuration dswp)%Z
  then Done tt
  else findAndAddActiveSnapshots.
End populator.

(** * One round against a store *)

(** The informer's store as its documentation has it: the objects by key,
    listed in some order; a read is a lookup and never fails. *)
Section round.
Context `{MapRange} (store : gmap string VolumeSnapshot) (now : Z).

Definition handle_store : handler PopE worlds := fun X e w =>
  match e with
  | PopWorld e => handle_world _ e w
  | PopStore e =>
      match e in StoreE X return X * worlds with
      | StoreGet s => ((bool_decide (is_Some (store !! snapshot_key s)), None), w)
      | StoreList => (OSnapshot <$> (range store).*2, w)
      end
  | PopSys e =>
      match e in SysE X return X * worlds with
      | Now => (now, w)
      | Sleep _ => (tt, w)
      | NewUUID => ("", w)
      | DeepCopy o => (Ok o, w)
      end
  end.

(** The entries whose snapshot the store still has. *)
Definition still_stored (d : gmap string VolumeSnapshot) : gmap string VolumeSnapshot :=
  filter (fun '(k, _) => is_Some (store !! k)) d.

Lemma run_remove_loop w entries :
  Forall (fun '(k, s) => k = snapshot_key s) entries ->
  run handle_store (for_each entries removeIfDeleted) w =
  (Returned tt,
   {| dsw := filter (fun '(k, _) => k ∈ entries.*1 -> is_Some (store !! k)) (dsw w);
      asw := asw w |}).
Proof.
  revert w; induction entries as [|[k s] entries IH]; intros w Hk; cbn.
  - rewrite map_filter_id; [by destruct w|]. by intros ? ? _ ?%elem_of_nil.
  - apply Forall_cons in Hk as [-> Hk].
    case_bool_decide as Hs; cbn; rewrite IH by done; cbn; do 2 f_equal.
    + apply map_filter_strong_ext_1. intros k' v'. rewrite elem_of_cons. naive_solver.
    + unfold DesiredStateOfWorld.DeleteSnapshot; cbn. f_equal.
      change (MakeSnapshotName _ _) with (snapshot_key s).
      apply map_eq. intros k'. apply option_eq. intros v.
      rewrite !map_lookup_filter_Some, lookup_delete_Some, elem_of_cons.
      destruct (decide (snapshot_key s = k')) as [<-|]; naive_solver.
Qed.

Lemma run_add_loop w snapshots :
  run handle_store (for_each (OSnapshot <$> snapshots) addIfActive) w =
  (Returned tt,
   {| dsw := fold_left (fun d s => if d !! snapshot_key s is Some _ then d
                                   else <[snapshot_key s := s]> d) snapshots (dsw w);
      asw := asw w |}).
Proof.
  revert w; induction snapshots as [|s snapshots IH]; intros w; cbn; [by destruct w|].
  unfold DesiredStateOfWorld.SnapshotExists.
  change (MakeSnapshotName _ _) with (snapshot_key s).
  destruct (dsw w !! snapshot_key s) eqn:Hs; cbn; by rewrite IH.
Qed.

Lemma fold_add_absent (l : list (string * VolumeSnapshot)) (d : gmap string VolumeSnapshot) :
  Forall (fun '(k, s) => k = snapshot_key s) l -> NoDup l.*1 ->
  fold_left (fun d s => if d !! snapshot_key s is Some _ then d
                        else <[snapshot_key s := s]> d) l.*2 d = d ∪ list_to_map l.
Proof.
  revert d; induction l as [|[k s] l IH]; intros d Hk Hnd; cbn.
  - by rewrite (right_id_L ∅ (∪)).
  - apply Forall_cons in Hk as [-> Hk]. apply NoDup_cons in Hnd as [Hns Hnd].
    rewrite IH by done. destruct (d !! snapshot_key s) eqn:Hd.
    + apply map_eq. intros k'. rewrite !lookup_union, lookup_insert.
      case_decide; subst; [|done]. rewrite Hd. by destruct (list_to_map l !! _).
    + rewrite <- insert_union_l. by rewrite insert_union_r by done.
Qed.

Lemma keyed_range (m : gmap string VolumeSnapshot) :
  keyed m -> Forall (fun '(k, s) => k = snapshot_key s) (range m).
Proof. intros Hm. apply Forall_forall. intros [k s] Hin%elem_of_range. by apply Hm. Qed.

(** C11: One round of the populator brings the desired state in line with
    the informer's store, whatever the order in which the maps are visited: it
    removes the snapshots the store no longer has, keeps the others as they
    are, and adds every snapshot of the store that was missing; it ends
    without a panic and leaves the actual state alone.  The listing is never
    skipped, whatever retry duration the populator was built with, since the
    time of the last listing keeps its zero value. *)
Theorem populatorLoop_follows_store retry w :
  keyed (dsw w) -> keyed store -> (0 <= now)%Z -> int64_range retry ->
  run handle_store (populatorLoop (NewDesiredStateOfWorldPopulator retry)) w =
  (Returned tt, {| dsw := still_stored (dsw w) ∪ store; asw := asw w |}).
Proof.
  intros Hd Hs Hnow Hretry. unfold populatorLoop, findAndRemoveDeletedSnapshots. cbn.
  rewrite DSW_GetSnapshots_copy, run_bind, run_remove_loop by by apply keyed_range. cbn.
  rewrite bool_decide_eq_false_2
    by (unfold Since, zero_Time, int64_range, min_int64, max_int64 in *; lia).
  unfold findAndAddActiveSnapshots. cbn. rewrite run_add_loop, fold_add_absent
    by first [by apply keyed_range | apply range_NoDup].
  cbn. rewrite list_to_map_range. do 3 f_equal.
  apply map_filter_strong_ext_1. intros k s. split; [|naive_solver].
  intros [Himp Hk]. split; [|done]. apply Himp. apply list_elem_of_fmap.
  exists (k, s). split; [done|]. by apply elem_of_range.
Qed.

(** The domains agree after the round, and what was already desired keeps the
    object it had. *)
Lemma still_stored_dom d :
  dom (still_stored d ∪ store) = dom store.
Proof.
  apply set_eq. intros k. rewrite dom_union, elem_of_union, !elem_of_dom.
  split; [|by right]. intros [[s Hs]|]; [|done].
  by apply map_lookup_filter_Some in Hs as [_ ?].
Qed.
End round.

#[local] Instance sorted : MapRange := map_range_sorted.

(** The hypotheses at a concrete input: the store has one snapshot, the
    desired state another. *)
Lemma populatorLoop_follows_store_witness :
  run (handle_store {["ns/a" := example_snapshot "a" ""]} 1)
      (populatorLoop (NewDesiredStateOfWorldPopulator (3 * Minute)))
      {| dsw := {["ns/b" := example_snapshot "b" ""]}; asw := ∅ |} =
  (Returned tt, {| dsw := {["ns/a" := example_snapshot "a" ""]}; asw := ∅ |}).
Proof.
  refine (eq_trans (populatorLoop_follows_store {["ns/a" := example_snapshot "a" ""]} 1 (3 * Minute)
                      {| dsw := {["ns/b" := example_snapshot "b" ""]}; asw := ∅ |} _ _ _ _) _).
  - by apply map_Forall_singleton.
  - by apply map_Forall_singleton.
  - lia.
  - unfold int64_range, min_int64, max_int64, Minute. lia.
  - vm_compute. reflexivity.
Defined.
