(* ===== verification/Controller.v ===== *)
(** [pkg/controller/snapshot-controller/snapshot-controller.go]: the event
    handlers the informer calls, and the start of the control loops. *)

From S2P Require Import Prelude GoStrings Types Cache GoRoutineMap Api Plugin Snapshotter Reconciler Populator Examples.

#[local] Open Scope string_scope.

Definition reconcilerLoopPeriod : Z := 100 * Millisecond.
Definition desiredStateOfWorldPopulatorLoopSleepPeriod : Z := 1 * Minute.
Definition desiredStateOfWorldPopulatorListSnapshotsRetryDuration : Z := 3 * Minute.

(** * The controller and its parts *)

(** The states of the components [NewSnapshotController] makes.  The informer
    and its store are the library's. *)
Record snapshotController := {
  desiredStateOfWorld : gmap string VolumeSnapshot;
  actualStateOfWorld : gmap string VolumeSnapshot;
  runningOperation : goRoutineMap;
  sc_reconciler : reconciler;
  sc_populator : desiredStateOfWorldPopulator;
}.

Definition NewSnapshotController {PE} (syncDuration_ : Z) : prog (LoopE PE) snapshotController :=
  let! rc := NewReconciler syncDuration_ false in
  Done {| desiredStateOfWorld := DesiredStateOfWorld.NewDesiredStateOfWorld;
          actualStateOfWorld := ActualStateOfWorld.NewActualStateOfWorld;
          runningOperation := NewVolumeSnapshotter;
          sc_reconciler := rc;
          sc_populator := NewDesiredStateOfWorldPopulator
                            desiredStateOfWorldPopulatorListSnapshotsRetryDuration |}.

(** * The event handlers *)

(** The handlers call [api.Scheme.DeepCopy] and the desired state. *)
Inductive EventE (X : Type) : Type :=
| EvSys (e : SysE X)
| EvWorld (e : WorldE X).
Arguments EvSys {X} e.
Arguments EvWorld {X} e.

#[export] Instance SubE_ev_sys : SubE SysE EventE := fun _ e => EvSys e.
#[export] Instance SubE_ev_world : SubE WorldE EventE := fun _ e => EvWorld e.

Definition onSnapshotAdd (obj : object) : prog EventE unit :=
  let! objCopy := trigger (DeepCopy obj) in
  match objCopy with
  | Err _ => Done tt
  | Ok (OSnapshot snapshot) =>
      let! _ := trigger (DswAddSnapshot (Some snapshot)) in Done tt
  | Ok _ => Done tt
  end.

Definition onSnapshotUpdate (oldObj newObj : object) : prog EventE unit :=
  match oldObj, newObj with
  | OSnapshot oldSnapshot, OSnapshot newSnapshot =>
      if bool_decide (SnapshotDataName (vs_Spec oldSnapshot) <> SnapshotDataName (vs_Spec newSnapshot))
      then let! _ := trigger (DswAddSnapshot (Some newSnapshot)) in Done tt
      else Done tt
  | _, _ => Crash "interface conversion: interface {} is not *v1.VolumeSnapshot"
  end.

(** The snapshot inside what a delete event carries. *)
Definition deleted_snapshot (obj : object) : option VolumeSnapshot :=
  match obj with
  | OSnapshot s => Some s
  | ODeletedFinalStateUnknown _ (OSnapshot s) => Some s
  | _ => None
  end.

Definition onSnapshotDelete (obj : object) : prog EventE unit :=
  match deleted_snapshot obj with
  | None => Done tt
  | Some deletedSnapshot =>
      let! objCopy := trigger (DeepCopy (OSnapshot deletedSnapshot)) in
      match objCopy with
      | Err _ => Done tt
      | Ok (OSnapshot snapshot) =>
          let! _ := trigger (DswDeleteSnapshot
                      (MakeSnapshotName (Namespace (vs_Metadata snapshot)) (Name (vs_Metadata snapshot)))) in
          Done tt
      | Ok _ => Done tt
      end
  end.

(** * Start *)

(** [Run]: the goroutines it starts and the informer's [HasSynced]. *)
Inductive RunE : Type -> Type :=
| GoInformer : RunE unit
| GoReconciler : RunE unit
| GoPopulator : RunE unit
| HasSynced : RunE bool
| RunSleep (d : Z) : RunE unit.

Fixpoint wait_synced (n : nat) : prog RunE unit :=
  match n with
  | O => Done tt
  | S n' =>
      let! synced := trigger HasSynced in
      if synced : bool then Done tt
      else let! _ := trigger (RunSleep (100 * Millisecond)) in wait_synced n'
  end.

Definition controller_Run : prog RunE unit :=
  let! _ := trigger GoInformer in
  let! _ := wait_synced 10 in
  let! synced := trigger HasSynced in
  if negb synced then Done tt
  else
    let! _ := trigger GoReconciler in
    let! _ := trigger GoPopulator in
    Done tt.

(** * The handlers against the informer's store *)

(** What the informer reports, and what it has then done to its store.  A
    missed deletion comes with the last object the informer saw, which may be
    an old one. *)
Inductive informer_event :=
| Added (s : VolumeSnapshot)
| Updated (old new : VolumeSnapshot)
| Deleted (s : VolumeSnapshot)
| DeletedUnseen (s : VolumeSnapshot).

Definition handle_event (ev : informer_event) : prog EventE unit :=
  match ev with
  | Added s => onSnapshotAdd (OSnapshot s)
  | Updated old new => onSnapshotUpdate (OSnapshot old) (OSnapshot new)
  | Deleted s => onSnapshotDelete (OSnapshot s)
  | DeletedUnseen s => onSnapshotDelete (ODeletedFinalStateUnknown (snapshot_key s) (OSnapshot s))
  end.

Definition store_after (ev : informer_event) (store : gmap string VolumeSnapshot)
    : gmap string VolumeSnapshot :=
  match ev with
  | Added s => <[snapshot_key s := s]> store
  | Updated _ new => <[snapshot_key new := new]> store
  | Deleted s | DeletedUnseen s => delete (snapshot_key s) store
  end.

(** An update is of a stored object, and keeps its name. *)
Definition event_ok (store : gmap string VolumeSnapshot) (ev : informer_event) : Prop :=
  match ev with
  | Updated old new => store !! snapshot_key new = Some old
  | _ => True
  end.

Fixpoint events_ok (store : gmap string VolumeSnapshot) (evs : list informer_event) : Prop :=
  match evs with
  | [] => True
  | ev :: evs' => event_ok store ev /\ events_ok (store_after ev store) evs'
  end.

Section events.
Context `{MapRange}.

(** The handlers run one after the other; copies are faithful. *)
Definition handle_ev : handler EventE worlds := fun X e w =>
  match e with
  | EvWorld e => handle_world _ e w
  | EvSys e => (refuse_sys e, w)
  end.

Definition handle_events (evs : list informer_event) (w : worlds) : outcome unit * worlds :=
  run handle_ev (for_each evs handle_event) w.

(** The desired state shows the store: the same names, and for each the same
    data object. *)
Definition shows (store d : gmap string VolumeSnapshot) : Prop :=
  map_relation (fun _ s s' => SnapshotDataName (vs_Spec s) = SnapshotDataName (vs_Spec s'))
               (fun _ _ => False) (fun _ _ => False) store d.

Lemma shows_lookup store d :
  shows store d <->
  forall n, (fun s => SnapshotDataName (vs_Spec s)) <$> store !! n =
            (fun s => SnapshotDataName (vs_Spec s)) <$> d !! n.
Proof.
  unfold shows, map_relation. apply forall_proper; intros n.
  destruct (store !! n), (d !! n); cbn; split; try done; congruence.
Qed.

(** One event: no panic, the actual state untouched, and the relation kept. *)
Lemma handle_event_shows ev store w :
  shows store (dsw w) -> event_ok store ev ->
  exists d, run handle_ev (handle_event ev) w = (Returned tt, {| dsw := d; asw := asw w |}) /\
            shows (store_after ev store) d.
Proof.
  rewrite shows_lookup. setoid_rewrite shows_lookup. intros Hs Hok.
  destruct ev as [s|old new|s|s]; cbn in *.
  1: eexists; split; [done|]; intros n; change (MakeSnapshotName _ _) with (snapshot_key s);
     rewrite !lookup_insert; case_decide; [done|apply Hs].
  2,3: eexists; split; [done|]; intros n; change (MakeSnapshotName _ _) with (snapshot_key s);
     rewrite !lookup_delete; case_decide; [done|apply Hs].
  case_bool_decide as Hne; cbn.
  - eexists; split; [done|]; intros n. change (MakeSnapshotName _ _) with (snapshot_key new).
    rewrite !lookup_insert. case_decide; [done|apply Hs].
  - exists (dsw w); split; [by destruct w|]; intros n.
    rewrite lookup_insert. case_decide as Hk; [|apply Hs]. subst n. rewrite <- Hs, Hok. cbn.
    by rewrite Hne.
Qed.

End events.

#[local] Instance sorted : MapRange := map_range_sorted.


(** * The start of the control loops *)

Definition started_loop (ev : event RunE) : bool :=
  match ev with
  | Event GoReconciler _ | Event GoPopulator _ => true
  | _ => false
  end.

(** What [HasSynced] answered at its last call. *)
Definition last_synced (tr : list (event RunE)) : bool :=
  fold_left (fun last (ev : event RunE) =>
               match ev with
               | Event e x => match e in RunE X return X -> bool with
                              | HasSynced => fun b => b
                              | _ => fun _ => last
                              end x
               end) tr false.

Definition run_sleeps (ev : event RunE) : bool :=
  match ev with Event (RunSleep _) _ => true | _ => false end.

(** The start.  Whatever the informer answers, [Run] starts the informer
    first, waits for it at most ten pauses, does not panic, and starts the
    reconciler and the populator, in that order and as its last two actions,
    exactly when the last answer was that the informer has synced. *)
Theorem controller_Run_starts_synced :
  always controller_Run
    (fun tr o =>
       o = Returned tt /\ head tr = Some (Event GoInformer tt) /\ count run_sleeps tr <= 10 /\
       let starts := drop (length tr - 2) tr in
       let before := take (length tr - 2) tr in
       existsb started_loop before = false /\
       if last_synced tr then starts = [Event GoReconciler tt; Event GoPopulator tt]
       else existsb started_loop starts = false) [].
Proof.
  unfold controller_Run. cbn.
  repeat first [intros [|]; cbn | intros []; cbn].
  all: split_and!; first [reflexivity | lia].
Qed.
