(* ===== verification/Provisioner.v ===== *)
(** [cmd/snapshot-pv-provisioner]: the provisioner that makes a persistent
    volume from a snapshot.  Its API server and its plugins are the calls of
    [Api] and [Plugin]. *)

From S2P Require Import Prelude GoStrings Types Cache Api Plugin.

#[local] Open Scope string_scope.

Definition provisionerIDAnn : string := "snapshotProvisionerIdentity".
Definition SnapshotPVCAnnotation : string := "snapshot.alpha.kubernetes.io/snapshot".

(** [controller.VolumeOptions]. *)
Record ProvisionOptions := {
  opt_ReclaimPolicy : string;
  opt_PVName : string;
  opt_PVC : PersistentVolumeClaim;
  opt_Parameters : gmap string string;
}.

#[local] Abbreviation EvApi e x := (Event (E:=CtlE PluginE) (CallApi e) x).
#[local] Abbreviation EvPlugin e x := (Event (E:=CtlE PluginE) (CallPlugin e) x).

Section provisioner.
Context {PE : Type -> Type} (volumePlugins : gmap string (VolumePlugin PE)) (identity : string).
#[local] Abbreviation M A := (prog (CtlE PE) A).

Definition getPVFromVolumeSnapshotDataSpec (spec : VolumeSnapshotDataSpec) : M (res PersistentVolume) :=
  match PersistentVolumeRef spec with
  | None => fail (errorf "VolumeSnapshotDataSpec is not bound to any PV" [])
  | Some ref =>
      let pvName := ref_Name ref in
      if bool_decide (pvName = "") then
        fail (Errorf "The PV name is not specified in snapshotdata %#v" [FDump])
      else
        let? pv := trigger (GetPersistentVolume pvName)
          else (fun err => Errorf "Failed to retrieve PV %s from the API server: %q"
                                  [FStr pvName; FErr (Some err)]) in
        ok pv
  end.

(** The test after the restore is on [pv], which is not nil, instead of
    [pvSrc]: an error of the plugin leads to the log line that prints
    [*pvSrc]. *)
Definition snapshotRestore (snapshotName : string) (snapshotData : VolumeSnapshotData)
    (options : ProvisionOptions) : M (res (option PersistentVolumeSource * gmap string string)) :=
  let spec := vsd_Spec snapshotData in
  let? pv := getPVFromVolumeSnapshotDataSpec spec in
  let volumeType := GetSupportedVolumeFromPVSpec (pv_Spec pv) in
  if bool_decide (String.length volumeType = 0) then
    fail (Errorf "unsupported volume type found in PV %#v" [FDump])
  else
    match volumePlugins !! volumeType with
    | None => fail (Errorf "%s is not supported volume for %#v" [FStr volumeType; FDump])
    | Some plugin =>
        let! restored := lift (SnapshotRestore plugin (Some snapshotData) (Some (opt_PVC options))
                                 (opt_PVName options) (opt_Parameters options)) in
        let '(pvSrc, labels, err) := restored in
        let pv := Some pv in
        if bool_decide (err <> None) && bool_decide (pv = None) then ok (None, ∅)
        else
          match pvSrc with
          | None => Crash "invalid memory address or nil pointer dereference"
          | Some pvSrc => ok (Some pvSrc, labels)
          end
    end.

Definition Provision (options : ProvisionOptions) : M (res PersistentVolume) :=
  let pvc := opt_PVC options in
  if bool_decide (pvc_Selector pvc <> None) then fail (errorf "claim Selector is not supported" [])
  else
    match Annotations (pvc_ObjectMeta pvc) !! SnapshotPVCAnnotation with
    | None => fail (errorf "snapshot annotation not found on PV" [])
    | Some snapshotName =>
        let? snapshot := trigger (GetVolumeSnapshot (Namespace (pvc_ObjectMeta pvc)) snapshotName)
          else (fun err => Errorf "failed to retrieve VolumeSnapshot %s: %v"
                                  [FStr snapshotName; FErr (Some err)]) in
        let dataName := SnapshotDataName (vs_Spec snapshot) in
        if bool_decide (String.length dataName = 0) then
          fail (Errorf "VolumeSnapshot %s is not bound to any VolumeSnapshotData"
                       [FStr snapshotName; FErr None])
        else
          let? snapshotData := trigger (GetVolumeSnapshotData NamespaceDefault dataName)
            else (fun err => Errorf "failed to retrieve VolumeSnapshotData %s: %v"
                                    [FStr dataName; FErr (Some err)]) in
          let! restored := snapshotRestore dataName snapshotData options in
          match restored with
          | Err err => fail (Errorf "failed to create a PV from snapshot %s: %v"
                                    [FStr snapshotName; FErr (Some err)])
          | Ok (None, _) => fail (Errorf "failed to create a PV from snapshot %s: %v"
                                         [FStr snapshotName; FErr None])
          | Ok (Some pvSrc, labels) =>
              ok {| pv_ObjectMeta :=
                      {| Name := opt_PVName options; Namespace := ""; SelfLink := "";
                         Labels := labels; Annotations := {[provisionerIDAnn := identity]} |};
                    pv_Spec :=
                      {| PersistentVolumeReclaimPolicy := opt_ReclaimPolicy options;
                         AccessModes := pvc_AccessModes pvc;
                         Capacity := {[ResourceStorage :=
                                         default 0%Z (pvc_Requests pvc !! ResourceStorage)]};
                         pv_Source := pvSrc |} |}
          end
    end.

Definition Delete (volume : PersistentVolume) : M (option error) :=
  match Annotations (pv_ObjectMeta volume) !! provisionerIDAnn with
  | None => Done (Some (errorf "identity annotation not found on PV" []))
  | Some ann =>
      if bool_decide (ann <> identity) then
        Done (Some (IgnoredError "identity annotation on PV does not match ours"))
      else
        let volumeType := GetSupportedVolumeFromPVSpec (pv_Spec volume) in
        if bool_decide (String.length volumeType = 0) then
          Done (Some (Errorf "unsupported volume type found in PV %#v" [FDump]))
        else
          match volumePlugins !! volumeType with
          | None => Done (Some (Errorf "%s is not supported volume for %#v" [FStr volumeType; FDump]))
          | Some plugin => lift (VolumeDelete plugin (Some volume))
          end
  end.
End provisioner.

(** * Theorems *)

Definition is_plugin_call (ev : event (CtlE PluginE)) : bool :=
  match ev with Event (CallPlugin _) _ => true | _ => false end.

(** The volume [Provision] makes of a restored source. *)
Definition provisioned (identity : string) (options : ProvisionOptions)
    (src : PersistentVolumeSource) (labels : gmap string string) : PersistentVolume :=
  {| pv_ObjectMeta := {| Name := opt_PVName options; Namespace := ""; SelfLink := "";
                         Labels := labels; Annotations := {[provisionerIDAnn := identity]} |};
     pv_Spec := {| PersistentVolumeReclaimPolicy := opt_ReclaimPolicy options;
                   AccessModes := pvc_AccessModes (opt_PVC options);
                   Capacity := {[ResourceStorage :=
                                   default 0%Z (pvc_Requests (opt_PVC options) !! ResourceStorage)]};
                   pv_Source := src |} |}.

Lemma always_provisioned names identity options :
  always (Provision (clients names) identity options)
    (fun _ o => match o with
                | Returned (Ok pv) => exists src labels, pv = provisioned identity options src labels
                | _ => True
                end) [].
Proof.
  unfold Provision, snapshotRestore, getPVFromVolumeSnapshotDataSpec. go_exec; try done.
  by do 2 eexists.
Qed.

(** The calls of a provisioning that succeeded, and of one that did not. *)
Lemma Provision_success names identity options :
  always (Provision (clients names) identity options)
    (fun tr o =>
       match o with
       | Returned (Ok pv) =>
           exists snapshotName s d ref origin src labels err,
             pvc_Selector (opt_PVC options) = None /\
             Annotations (pvc_ObjectMeta (opt_PVC options)) !! SnapshotPVCAnnotation = Some snapshotName /\
             PersistentVolumeRef (vsd_Spec d) = Some ref /\
             GetSupportedVolumeFromPVSpec (pv_Spec origin) ∈ names /\
             tr = [EvApi (GetVolumeSnapshot (Namespace (pvc_ObjectMeta (opt_PVC options)))
                            snapshotName) (Ok s);
                   EvApi (GetVolumeSnapshotData NamespaceDefault (SnapshotDataName (vs_Spec s))) (Ok d);
                   EvApi (GetPersistentVolume (ref_Name ref)) (Ok origin);
                   EvPlugin (PSnapshotRestore (GetSupportedVolumeFromPVSpec (pv_Spec origin)) (Some d)
                               (Some (opt_PVC options)) (opt_PVName options) (opt_Parameters options))
                            (Some src, labels, err)] /\
             pv = provisioned identity options src labels
       | _ => True
       end) [].
Proof.
  unfold Provision, snapshotRestore, getPVFromVolumeSnapshotDataSpec. go_exec; try done.
  all: subst; do 8 eexists; by split_and!.
Qed.

Lemma Provision_failure names identity options :
  always (Provision (clients names) identity options)
    (fun tr o =>
       match o with
       | Returned (Ok _) => True
       | Returned (Err _) => existsb is_plugin_call tr = false
       | Panicked _ =>
           exists before plugin d labels err,
             tr = (before ++ [EvPlugin (PSnapshotRestore plugin (Some d) (Some (opt_PVC options))
                                          (opt_PVName options) (opt_Parameters options))
                                       (None, labels, err)])%list
       end) [].
Proof.
  unfold Provision, snapshotRestore, getPVFromVolumeSnapshotDataSpec. go_exec; try done.
  all: subst; try (rewrite andb_false_r in *; discriminate).
  eexists [_; _; _]. do 4 eexists. reflexivity.
Qed.

(** C19: Provisioning.  Whatever it is answered, [Provision] returns a volume
    only after it read the snapshot the claim's annotation names in the claim's
    namespace, the data object the snapshot is bound to and the volume the
    snapshot was taken of, and had the plugin of that volume's type restore
    the data object for the claim; the volume it returns is the restored
    source, under the requested name, with the claim's size and access modes
    and the provisioner's identity.  When it returns an error no plugin was
    asked; and when the plugin gives no source, as it does with an error, the
    provisioner does not return at all: it panics. *)
Theorem Provision_restores names identity options :
  always (Provision (clients names) identity options)
    (fun tr o =>
       match o with
       | Returned (Ok pv) =>
           exists snapshotName s d ref origin src labels err,
             pvc_Selector (opt_PVC options) = None /\
             Annotations (pvc_ObjectMeta (opt_PVC options)) !! SnapshotPVCAnnotation = Some snapshotName /\
             PersistentVolumeRef (vsd_Spec d) = Some ref /\
             GetSupportedVolumeFromPVSpec (pv_Spec origin) ∈ names /\
             tr = [EvApi (GetVolumeSnapshot (Namespace (pvc_ObjectMeta (opt_PVC options)))
                            snapshotName) (Ok s);
                   EvApi (GetVolumeSnapshotData NamespaceDefault (SnapshotDataName (vs_Spec s))) (Ok d);
                   EvApi (GetPersistentVolume (ref_Name ref)) (Ok origin);
                   EvPlugin (PSnapshotRestore (GetSupportedVolumeFromPVSpec (pv_Spec origin)) (Some d)
                               (Some (opt_PVC options)) (opt_PVName options) (opt_Parameters options))
                            (Some src, labels, err)] /\
             pv = provisioned identity options src labels
       | Returned (Err _) => existsb is_plugin_call tr = false
       | Panicked _ =>
           exists before plugin d labels err,
             tr = (before ++ [EvPlugin (PSnapshotRestore plugin (Some d) (Some (opt_PVC options))
                                          (opt_PVName options) (opt_Parameters options))
                                       (None, labels, err)])%list
       end) [].
Proof.
  eapply always_impl; [|apply (always_and _ _ _ _ (Provision_success _ _ _) (Provision_failure _ _ _))].
  intros tr [[]|why]; by intros [? ?].
Qed.

(** A provisioned volume can be deleted by the provisioner that made it,
    and by no other.  For every volume [Provision] returns, [Delete] of the
    same identity asks the plugin of the volume's own type to delete it and
    answers what the plugin answers, if such a plugin is registered; [Delete]
    of another identity ignores the volume and makes no call. *)
Theorem Provision_Delete names identity options :
  always (Provision (clients names) identity options)
    (fun _ o =>
       match o with
       | Returned (Ok pv) =>
           let kind := GetSupportedVolumeFromPVSpec (pv_Spec pv) in
           (kind ∈ names -> kind <> "" ->
            Delete (clients names) identity pv = Vis (CallPlugin (PVolumeDelete kind (Some pv))) Done) /\
           (forall identity', identity' <> identity ->
            Delete (clients names) identity' pv =
              Done (Some (IgnoredError "identity annotation on PV does not match ours")))
       | _ => True
       end) [].
Proof.
  eapply always_impl.
  2: apply (always_provisioned names identity options).
  intros tr [[pv|e]|why]; try done. intros (src & labels & ->). split.
  - intros Hkind Hne. unfold Delete. cbn [pv_ObjectMeta provisioned Annotations].
    rewrite lookup_singleton_eq, bool_decide_eq_false_2 by (intros Hn; by apply Hn).
    rewrite bool_decide_eq_false_2 by (by destruct (GetSupportedVolumeFromPVSpec _)).
    rewrite clients_lookup, decide_True by done. reflexivity.
  - intros identity' Hid. unfold Delete. cbn [pv_ObjectMeta provisioned Annotations].
    rewrite lookup_singleton_eq, bool_decide_eq_true_2; [done|congruence].
Qed.
