(* ===== verification/Commands.v ===== *)
(** The commands ([cmd/snapshot-controller], [cmd/snapshot-pv-provisioner]):
    what their [main] functions set up and run, with [NewClient] of
    [pkg/client/client.go] and the scheme of [pkg/apis/crd/v1/register.go].

    The flags are arguments.  The calls are those of the client libraries and
    of the operating system; the goroutine of the controller and the loop of
    the provision controller are calls too. *)

From S2P Require Import Prelude GoStrings Types Cache GoRoutineMap Api Plugin Snapshotter Wait VolumePlugins.
From S2P Require Import Reconciler Populator Controller Provisioner.

#[local] Open Scope string_scope.

(** * Calls *)

(** [schema.GroupVersion] *)
Record GroupVersion := { gv_Group : string; gv_Version : string }.

(** What [NewClient] sets of a [rest.Config]. *)
Record ClientConfig := {
  cc_GroupVersion : GroupVersion;
  cc_APIPath : string;
  cc_ContentType : string;
}.

(** The configuration and the clients made of it are not distinguished.  The
    initialisation of the cloud ([InitCloudProvider]) may end the process, and
    tells whether it gave a provider; the plugins are named. *)
Inductive CmdE : Type -> Type :=
| BuildConfigFromFlags (master kubeconfig : string) : CmdE (option error)
| InClusterConfig : CmdE (option error)
| NewClientset : CmdE (option error)
| NewExtensionsClientset : CmdE (option error)
| AddKnownTypes (gv : GroupVersion) (kinds : list string) : CmdE unit
| AddToGroupVersion (gv : GroupVersion) : CmdE unit
| RESTClientFor (config : ClientConfig) : CmdE (option error)
| ServerVersion : CmdE (res string)
| InitCloud (name configFile : string) : CmdE (outcome (res bool))
| StartController (c : snapshotController) (plugins : gset string) : CmdE unit
| RunProvisioner (name identity version : string) (plugins : gset string) : CmdE unit
| AwaitInterrupt : CmdE unit
| CloseStop : CmdE unit.

Inductive MainE (PE : Type -> Type) (X : Type) : Type :=
| CallCmd (e : CmdE X)
| CallCrd (e : CrdE X)
| CallLoop (e : LoopE PE X).
Arguments CallCmd {PE X} e.
Arguments CallCrd {PE X} e.
Arguments CallLoop {PE X} e.
#[export] Instance SubE_cmd PE : SubE CmdE (MainE PE) := fun _ e => CallCmd e.
#[export] Instance SubE_main_crd PE : SubE CrdE (MainE PE) := fun _ e => CallCrd e.
#[export] Instance SubE_main_loop PE : SubE (LoopE PE) (MainE PE) := fun _ e => CallLoop e.
#[export] Instance SubE_main_sys PE : SubE SysE (MainE PE) := fun _ e => CallLoop (CallCtl (CallSys e)).

(** * The scheme and the client *)

Definition SchemeGroupVersion : GroupVersion := {| gv_Group := GroupName; gv_Version := "v1" |}.

Section commands.
Context `{MapRange} {PE : Type -> Type} `{!SubE SysE PE, !SubE HostPathPlugin.HostE PE} (random : Z).
(** The provider that the initialisation gives, when it gives one. *)
Context (provider : cloud_provider PE).
#[local] Abbreviation M A := (prog (MainE PE) A).

Definition addKnownTypes : M (option error) :=
  let! _ := trigger (AddKnownTypes SchemeGroupVersion
    ["VolumeSnapshot"; "VolumeSnapshotList"; "VolumeSnapshotData"; "VolumeSnapshotDataList"]) in
  let! _ := trigger (AddToGroupVersion SchemeGroupVersion) in
  Done None.

(** The functions of the builder: the one it was made with, and the same one
    registered again. *)
Definition SchemeBuilder : list (M (option error)) := [addKnownTypes; addKnownTypes].

Fixpoint AddToScheme (builder : list (M (option error))) : M (option error) :=
  match builder with
  | [] => Done None
  | f :: rest =>
      let! err := f in
      match err with
      | Some err => Done (Some err)
      | None => AddToScheme rest
      end
  end.

Definition NewClient : M (option error) :=
  let! err := AddToScheme SchemeBuilder in
  match err with
  | Some err => Done (Some err)
  | None =>
      let! err := trigger (RESTClientFor {| cc_GroupVersion := SchemeGroupVersion; cc_APIPath := "/apis";
                                            cc_ContentType := "application/json" |}) in
      match err with
      | Some err => Done (Some err)
      | None => Done None
      end
  end.

(** * The volume plugins *)

(** [buildVolumePlugins] with its initialisation of the cloud. *)
Definition init_plugins (cloudProvider cloudConfigFile : string) : M (gmap string (VolumePlugin PE)) :=
  let! cloud := (if bool_decide (String.length cloudProvider <> 0)
                 then trigger (InitCloud cloudProvider cloudConfigFile) else Done (Returned (Ok false))) in
  match cloud with
  | Panicked why => Crash why
  | Returned cloud =>
      let cloud := match cloud with
                   | Err err => Err err
                   | Ok true => Ok (Some provider)
                   | Ok false => Ok None
                   end in
      match buildVolumePlugins random cloudProvider cloud with
      | Panicked why => Crash why
      | Returned plugins => Done plugins
      end
  end.

(** * The controller *)

Definition defaultSyncDuration : Z := 60 * Second.

Definition buildConfig (kubeconfig : string) : M (option error) :=
  if bool_decide (kubeconfig <> "") then trigger (BuildConfigFromFlags "" kubeconfig)
  else trigger InClusterConfig.

Definition panic_on (err : option error) : M unit :=
  match err with Some _ => Crash "panic" | None => Done tt end.

(** The error of the first client set is overwritten by that of the second. *)
Definition controller_main (kubeconfig cloudProvider cloudConfigFile : string) : M unit :=
  let! err := buildConfig kubeconfig in
  let! _ := panic_on err in
  let! _ := trigger NewClientset in
  let! err := trigger NewExtensionsClientset in
  let! _ := panic_on err in
  let! err := lift CreateCRD in
  let! _ := panic_on err in
  let! err := NewClient in
  let! _ := panic_on err in
  let! err := lift WaitForSnapshotResource in
  let! _ := panic_on err in
  let! plugins := init_plugins cloudProvider cloudConfigFile in
  let! ssController := lift (NewSnapshotController (PE:=PE) defaultSyncDuration) in
  let! _ := trigger (StartController ssController (dom plugins)) in
  let! _ := trigger AwaitInterrupt in
  trigger CloseStop.

(** * The provisioner *)

Definition provisionerName : string := "volumesnapshot.external-storage.k8s.io/snapshot-promoter".

(** [glog.Fatalf] ends the process. *)
Definition fatal_on (why : string) (err : option error) : M unit :=
  match err with Some _ => Crash why | None => Done tt end.

(** The identifier is made whether or not one is given. *)
Definition provisioner_main (master kubeconfig id cloudProvider cloudConfigFile : string) : M unit :=
  let! err := (if bool_decide (master <> "") || bool_decide (kubeconfig <> "")
               then trigger (BuildConfigFromFlags master kubeconfig) else trigger InClusterConfig) in
  let! prId := trigger NewUUID in
  let prId := if bool_decide (id <> "") then id else prId in
  let! _ := fatal_on "Failed to create config" err in
  let! err := trigger NewClientset in
  let! _ := fatal_on "Failed to create client" err in
  let! serverVersion := trigger ServerVersion in
  match serverVersion with
  | Err _ => Crash "Error getting server version"
  | Ok serverVersion =>
      let! plugins := init_plugins cloudProvider cloudConfigFile in
      let! err := NewClient in
      let! _ := fatal_on "Failed to make CRD client" err in
      trigger (RunProvisioner provisionerName prId serverVersion (dom plugins))
  end.
End commands.

(** * Theorems *)

(** What has been seen: the definitions that exist, in the order they were
    made, whether the list of objects has been answered, and what the
    controller was started with, and then. *)
Record stage := {
  g_definitions : list string;
  g_ready : bool;
  g_started : option (list string * bool * snapshotController * gset string);
}.

Definition not_started : stage := {| g_definitions := []; g_ready := false; g_started := None |}.

Section theorems.
Context `{MapRange} {PE : Type -> Type} `{!SubE SysE PE, !SubE HostPathPlugin.HostE PE} (random : Z).
Context (provider : cloud_provider PE).

Definition exists_now (err : option error) : bool :=
  match err with None => true | Some err => IsAlreadyExists err end.

Definition note_client (g : stage) {X} (e : ClientE X) : X -> stage :=
  match e in ClientE X return X -> stage with
  | CreateDefinition name _ _ _ => fun err =>
      if exists_now err
      then {| g_definitions := (g_definitions g ++ [name])%list; g_ready := g_ready g; g_started := g_started g |}
      else g
  | GetSnapshotDatas => fun err =>
      match err with
      | None => {| g_definitions := g_definitions g; g_ready := true; g_started := g_started g |}
      | Some _ => g
      end
  end.

Definition note_main (g : stage) (ev : event (MainE PE)) : stage :=
  match ev with
  | Event (CallCrd (CrdClient e)) x => note_client g e x
  | Event (CallCmd (StartController c plugins)) _ =>
      {| g_definitions := g_definitions g; g_ready := g_ready g;
         g_started := Some (g_definitions g, g_ready g, c, plugins) |}
  | _ => g
  end.

Definition plain_main (X : Type) (e : MainE PE X) : Prop :=
  match e with
  | CallCrd (CrdClient _) | CallCmd (StartController _ _) => False
  | _ => True
  end.

Lemma plain_main_step X (e : MainE PE X) x g : plain_main X e -> note_main g (Event e x) = g.
Proof. destruct e as [e|e|e]; [by destruct e|by destruct e|done]. Qed.

Lemma quiet_main {A} (p : prog (MainE PE) A) (Q : stage -> outcome A -> Prop) g :
  only plain_main p -> (forall o, Q g o) -> wp note_main p Q g.
Proof. apply wp_quiet, plain_main_step. Qed.

(** The plugin of host paths is always there. *)
Lemma plugins_hostPath flag cloud (plugins : gmap string (VolumePlugin PE)) :
  buildVolumePlugins random flag cloud = Returned plugins -> HostPathPlugin.GetPluginName ∈ dom plugins.
Proof.
  unfold buildVolumePlugins, init_panics. intros Hb. apply elem_of_dom.
  repeat case_bool_decide; destruct cloud as [[[]|]|]; try discriminate Hb; injection Hb as <-;
    rewrite lookup_insert_eq; by eexists.
Qed.

Lemma init_plugins_plain flag file : only plain_main (init_plugins random provider flag file).
Proof. unfold init_plugins. only_exec. Qed.

Lemma init_plugins_hostPath flag file tr :
  always (init_plugins random provider flag file)
    (fun _ o => forall plugins, o = Returned plugins -> HostPathPlugin.GetPluginName ∈ dom plugins) tr.
Proof.
  unfold init_plugins. apply always_bind. eapply always_impl; [|apply always_true].
  intros tr' [[cloud|why]|why] _; [|done..]. cbv zeta.
  destruct (buildVolumePlugins _ _ _) as [plugins|why] eqn:Hb; [|done].
  cbn. intros plugins' [= <-]. by eapply plugins_hostPath.
Qed.

Lemma NewClient_plain : only plain_main (NewClient (PE:=PE)).
Proof. cbn. split; [done|]. intros _. split; [done|]. intros _. repeat (split; [done|]; intros _). split; [done|]. by intros [err|]. Qed.

(** The waiting ends without error only when the list was answered. *)
Lemma wait_notes ticks g :
  wp note_main (lift (WaitFor resource_ready ticks))
    (fun g' o => exists err, o = Returned err /\ g_definitions g' = g_definitions g /\
       g_started g' = g_started g /\ (err = None -> g_ready g' = true)) g.
Proof.
  revert g; induction ticks as [|ticks IH]; intros g; cbn.
  - intros [err|]; cbn; [destruct (IsNotFound err); cbn|]; eexists; by split_and!.
  - intros open [err|]; cbn; [|eexists; by split_and!].
    destruct (IsNotFound err); cbn; [|eexists; by split_and!].
    destruct open; cbn; [apply IH|eexists; by split_and!].
Qed.

Lemma CreateCRD_notes g :
  wp note_main (lift CreateCRD)
    (fun g' o => (exists why, o = Panicked why /\ g_started g' = g_started g) \/
       o = Returned None /\ g_ready g' = g_ready g /\ g_started g' = g_started g /\
       g_definitions g' = (g_definitions g ++ [VolumeSnapshotDataResourcePlural +:+ "." +:+ GroupName;
                                               VolumeSnapshotResourcePlural +:+ "." +:+ GroupName])%list) g.
Proof.
  unfold CreateCRD, create_definition. cbn.
  intros [e1|]; [destruct (IsAlreadyExists e1) eqn:H1|]; cbn; rewrite ?H1; cbn; [|by left; eexists|];
    (intros [e2|]; [destruct (IsAlreadyExists e2) eqn:H2|]; cbn; rewrite ?H2; cbn; [|by left; eexists|]);
    right; cbn; by rewrite <- app_assoc.
Qed.

(** The resources of the definitions, and what the controller has at its
    start. *)
Definition started_properly (g : stage) (o : outcome unit) : Prop :=
  match g_started g with
  | None => exists why, o = Panicked why
  | Some (definitions, ready, c, plugins) =>
      o = Returned tt /\
      definitions = ["volumesnapshotdatas.volume-snapshot-data.external-storage.k8s.io";
                     "volumesnapshots.volume-snapshot-data.external-storage.k8s.io"] /\
      ready = true /\ desiredStateOfWorld c = ∅ /\ actualStateOfWorld c = ∅ /\
      HostPathPlugin.GetPluginName ∈ plugins
  end.

(** C15: The controller's command.  Whatever the services answer, the controller is
    started only when both definitions exist and the list of the data objects
    has been answered, with empty states of the world and at least the plugin
    of host paths; without a start the process panics, and after it the
    command ends when it is interrupted. *)
Theorem controller_main_starts kubeconfig flag file :
  wp note_main (controller_main random provider kubeconfig flag file) started_properly not_started.
Proof.
  assert (forall why g, g_started g = None -> started_properly g (Panicked why)) as Hpanic.
  { intros why g Hg. unfold started_properly. rewrite Hg. by eexists. }
  unfold controller_main. apply wp_bind, quiet_main; [unfold buildConfig; only_exec|].
  intros [[err|]|why]; [by apply Hpanic| |by apply Hpanic]. cbn [bind panic_on wp].
  apply wp_bind, quiet_main; [only_exec|]. intros [_|why]; [|by apply Hpanic].
  apply wp_bind, quiet_main; [only_exec|]. intros [[err|]|why]; [by apply Hpanic| |by apply Hpanic].
  cbn [bind panic_on wp]. eapply wp_seq; [apply CreateCRD_notes|].
  intros g o [(why & -> & Hs)|(-> & Hr & Hs & Hd)]; cbn in Hs; [by apply Hpanic|]. cbn [bind panic_on wp].
  apply wp_bind, quiet_main; [apply NewClient_plain|].
  intros [[err|]|why]; [by apply Hpanic| |by apply Hpanic]. cbn [bind panic_on wp].
  eapply wp_seq; [apply wait_notes|]. intros g' o (err & -> & Hd' & Hs' & Hr').
  destruct err as [err|]; cbn [bind panic_on wp]; [apply Hpanic; congruence|].
  apply wp_bind, (wp_quiet_always note_main plain_main _ _ []); [apply plain_main_step|apply init_plugins_plain|].
  eapply always_impl; [|apply init_plugins_hostPath]. intros tr [plugins|why] Hp; [|apply Hpanic; congruence].
  specialize (Hp plugins eq_refl). cbn. intros now [] [] []. unfold started_properly. cbn.
  split_and!; [done|by rewrite Hd', Hd|by apply Hr'|done|done|done].
Qed.

(** ** The provisioner's command *)

(** The identifier generated, the version of the server, and what the
    provisioner was run with. *)
Record setup := {
  p_uuid : option string;
  p_version : option string;
  p_runs : list (string * string * gset string);
}.

Definition note_setup (g : setup) (ev : event (MainE PE)) : setup :=
  match ev with
  | Event (CallLoop (CallCtl (CallSys e))) x =>
      match e in SysE X return X -> setup with
      | NewUUID => fun id => {| p_uuid := Some id; p_version := p_version g; p_runs := p_runs g |}
      | _ => fun _ => g
      end x
  | Event (CallCmd e) x =>
      match e in CmdE X return X -> setup with
      | ServerVersion => fun v =>
          {| p_uuid := p_uuid g; p_version := match v with Ok v => Some v | Err _ => p_version g end;
             p_runs := p_runs g |}
      | RunProvisioner _ identity version plugins => fun _ =>
          {| p_uuid := p_uuid g; p_version := p_version g;
             p_runs := (p_runs g ++ [(identity, version, plugins)])%list |}
      | _ => fun _ => g
      end x
  | _ => g
  end.

Definition plain_setup (X : Type) (e : MainE PE X) : Prop :=
  match e with
  | CallLoop _ | CallCmd ServerVersion | CallCmd (RunProvisioner _ _ _ _) => False
  | _ => True
  end.

Lemma plain_setup_step X (e : MainE PE X) x g : plain_setup X e -> note_setup g (Event e x) = g.
Proof. destruct e as [e|e|e]; [by destruct e|done|done]. Qed.

Definition nothing_run : setup := {| p_uuid := None; p_version := None; p_runs := [] |}.

(** The provisioner's command.  It runs the provisioner once, under the
    identifier it is given or else under the generated one, with the version
    the server answered and at least the plugin of host paths; otherwise the
    process ends and nothing is run. *)
Theorem provisioner_main_runs master kubeconfig id flag file :
  wp note_setup (provisioner_main random provider master kubeconfig id flag file)
    (fun g o => (p_runs g = [] /\ exists why, o = Panicked why) \/
       (o = Returned tt /\ exists uuid version plugins, p_uuid g = Some uuid /\ p_version g = Some version /\
          HostPathPlugin.GetPluginName ∈ plugins /\
          p_runs g = [(if bool_decide (id = "") then uuid else id, version, plugins)])) nothing_run.
Proof.
  assert (forall {A} (p : prog (MainE PE) A) Q g,
    only plain_setup p -> (forall o, Q g o) -> wp note_setup p Q g) as Hquiet
    by (intros A p Q g; apply wp_quiet, plain_setup_step).
  unfold provisioner_main.
  apply wp_bind, Hquiet; [only_exec|]. intros [err|why]; [|by left; eauto].
  rewrite wp_bind. intros uuid. destruct err as [err|]; [by left; eauto|]. cbn [bind fatal_on wp].
  apply wp_bind, Hquiet; [only_exec|]. intros [[err|]|why]; [by left; eauto| |by left; eauto].
  cbn [bind fatal_on wp]. rewrite wp_bind. intros [version|err]; [|by left; eauto].
  apply wp_bind, (wp_quiet_always note_setup plain_setup _ _ []); [apply plain_setup_step| |].
  { unfold init_plugins. only_exec. }
  eapply always_impl; [|apply init_plugins_hostPath]. intros tr [plugins|why] Hp; [|by left; eauto].
  specialize (Hp plugins eq_refl). apply wp_bind, Hquiet.
  { cbn. split; [done|]. intros _. split; [done|]. intros _. repeat (split; [done|]; intros _). split; [done|].
    by intros [err|]. }
  intros [[err|]|why]; [by left; eauto| |by left; eauto]. cbn. intros []. right. split; [done|].
  exists uuid, version, (dom plugins). split_and!; [done..|]. by repeat case_bool_decide.
Qed.
End theorems.
