(* ===== verification/Lifecycle.v ===== *)
(** The life of a snapshot against a working API server and a working
    plugin: the operations of [Snapshotter] run in an environment made of any
    server that keeps the laws of [Api], any plugin, a clock and a supply of
    identifiers. *)

From S2P Require Import Prelude GoStrings Types Cache Api Plugin Snapshotter Examples.
From Stdlib Require Import Lia.

#[local] Open Scope string_scope.

(** * The environment *)

Record env (W P : Type) := {
  e_api : W;
  e_plugin : P;
  e_clock : Z;
  e_uuids : nat;
  e_worlds : worlds;
}.
Arguments e_api {W P} e.
Arguments e_plugin {W P} e.
Arguments e_clock {W P} e.
Arguments e_uuids {W P} e.
Arguments e_worlds {W P} e.
Arguments Build_env {W P} e_api e_plugin e_clock e_uuids e_worlds.

Section environment.
Context `{MapRange} {W P : Type} `{!ApiServer W}.
Context (plugin : handler PluginE P) (uuid : nat -> string).

Definition handle_env : handler (CtlE PluginE) (env W P) := fun X e w =>
  match e with
  | CallApi a =>
      let '(x, w') := api _ a (e_api w) in
      (x, Build_env w' (e_plugin w) (e_clock w) (e_uuids w) (e_worlds w))
  | CallSys s =>
      match s in SysE X return X * env W P with
      | Now => (e_clock w, w)
      | Sleep d => (tt, Build_env (e_api w) (e_plugin w) (e_clock w + d) (e_uuids w) (e_worlds w))
      | NewUUID => (uuid (e_uuids w),
                    Build_env (e_api w) (e_plugin w) (e_clock w) (S (e_uuids w)) (e_worlds w))
      | DeepCopy o => (Ok o, w)
      end
  | CallWorld a =>
      let '(x, w') := handle_world _ a (e_worlds w) in
      (x, Build_env (e_api w) (e_plugin w) (e_clock w) (e_uuids w) w')
  | CallPlugin p =>
      let '(x, w') := plugin _ p (e_plugin w) in
      (x, Build_env (e_api w) w' (e_clock w) (e_uuids w) (e_worlds w))
  end.

(** The object the next creation will store. *)
Definition next_data_name (w : env W P) : string := "k8s-volume-snapshot-" +:+ uuid (e_uuids w).

(** What a snapshot needs to be taken: a bound claim and a volume of a type
    a plugin is registered for. *)
Record ready_to_snapshot (names : list string) (w : W) (ns nm : string) (s : VolumeSnapshot)
    (claim : PersistentVolumeClaim) (pv : PersistentVolume) : Prop := {
  rts_ns : ContainsByte ns "/" = false;
  rts_nm : ContainsByte nm "/" = false;
  rts_pvc : PersistentVolumeClaimName (vs_Spec s) <> "";
  rts_claim : pvcs w !! (ns, PersistentVolumeClaimName (vs_Spec s)) = Some claim;
  rts_bound : pvc_Phase claim = ClaimBound;
  rts_pv : pvs w !! pvc_VolumeName claim = Some pv;
  rts_type : GetSupportedVolumeFromPVSpec (pv_Spec pv) <> "";
  rts_plugin : GetSupportedVolumeFromPVSpec (pv_Spec pv) ∈ names;
}.
End environment.

(** An object the creation stores refers to the snapshot it was made for. *)
Lemma new_data_refers snapName ns nm pvName source :
  refers_to (MakeSnapshotName ns nm)
    (new_snapshot_data snapName (MakeSnapshotName ns nm) pvName source) = true.
Proof. unfold refers_to. cbn. rewrite (bool_decide_eq_true_2 (MakeSnapshotName ns nm = _)) by done. apply orb_true_r. Qed.

Lemma find_refers n items d :
  d ∈ items -> refers_to n d = true ->
  exists d', List.find (refers_to n) items = Some d' /\ d' ∈ items /\ refers_to n d' = true.
Proof.
  intros Hd Href. destruct (List.find (refers_to n) items) as [d'|] eqn:Hf.
  - apply List.find_some in Hf as [Hin ?]. exists d'. by rewrite list_elem_of_In.
  - eapply List.find_none in Hf; [|by apply list_elem_of_In]. congruence.
Qed.

(** * Runs *)

(** Use the laws of the server on the next call of a run. *)
Ltac api_read law :=
  let E := fresh "E" in
  edestruct law as [? E]; erewrite E; clear E; cbn.

Section lifecycle.
Context `{MapRange} {W P : Type} `{!ApiServer W, !ApiServerLaws W}.
Context (plugin : handler PluginE P) (uuid : nat -> string).
Context (names : list string).
Implicit Type w : env W P.

#[local] Abbreviation runs p w := (run (handle_env plugin uuid) p w).

#[local] Arguments List.find : simpl never.
#[local] Arguments MakeSnapshotName : simpl never.
#[local] Arguments new_snapshot_data : simpl never.
#[local] Arguments getSnapshotDataFromSnapshotName : simpl never.
#[local] Arguments getPVFromVolumeSnapshot : simpl never.
#[local] Arguments UpdateVolumeSnapshot : simpl never.
#[local] Arguments UpdateVolumeSnapshotData : simpl never.
#[local] Arguments postSnapshotData : simpl never.

Lemma getPV_run w ns nm s claim pv :
  ready_to_snapshot names (e_api w) ns nm s claim pv ->
  runs (getPVFromVolumeSnapshot (MakeSnapshotName ns nm) s) w = (Returned (Ok pv), w).
Proof.
  intros []. unfold getPVFromVolumeSnapshot. go_unfold.
  rewrite bool_decide_eq_false_2, parse_made_name by done. cbn.
  api_read api_get_pvc. rewrite rts_claim0; cbn.
  rewrite bool_decide_eq_false_2 by (rewrite rts_bound0; by intros []). cbn.
  api_read api_get_pv. rewrite rts_pv0; cbn. by destruct w.
Qed.

Lemma getSnapshotData_run w n d :
  d ∈ (map_to_list (datas (e_api w))).*2 -> refers_to n d = true ->
  exists d', runs (getSnapshotDataFromSnapshotName n) w = (Returned (Some d'), w) /\
             d' ∈ (map_to_list (datas (e_api w))).*2 /\ refers_to n d' = true.
Proof.
  intros Hd Href. unfold getSnapshotDataFromSnapshotName. go_unfold. cbn.
  edestruct api_list_data as (items & Hlist & Hperm). rewrite Hlist; cbn.
  rewrite <- Hperm in Hd. destruct (find_refers _ _ _ Hd Href) as (d' & Hf & Hd' & Href').
  exists d'. rewrite <- Hperm. destruct items; [by apply not_elem_of_nil in Hd|].
  rewrite Hf. by destruct w.
Qed.

(** [api_write law]: the same for a call that changes the server. *)
#[local] Ltac api_write law Hlookup :=
  let o := fresh "o" in let w' := fresh "srv" in let E := fresh "E" in
  edestruct law as (o & w' & E & Hwrite); [exact Hlookup|]; rewrite E; clear E; cbn.

Lemma UpdateVolumeSnapshot_run w ns nm stored d :
  ContainsByte ns "/" = false -> ContainsByte nm "/" = false ->
  snaps (e_api w) !! (ns, nm) = Some stored ->
  d ∈ (map_to_list (datas (e_api w))).*2 -> refers_to (MakeSnapshotName ns nm) d = true ->
  exists d' srv,
    runs (UpdateVolumeSnapshot (MakeSnapshotName ns nm)) w =
      (Returned (Ok tt), Build_env srv (e_plugin w) (e_clock w) (e_uuids w) (e_worlds w)) /\
    d' ∈ (map_to_list (datas (e_api w))).*2 /\ refers_to (MakeSnapshotName ns nm) d' = true /\
    snaps srv = <[(ns, nm) := set_vs_binding (Name (vsd_Metadata d'))
                                [ready_condition (e_clock w)] stored]> (snaps (e_api w)) /\
    datas srv = datas (e_api w) /\ pvcs srv = pvcs (e_api w) /\ pvs srv = pvs (e_api w).
Proof.
  intros Hns Hnm Hstored Hd Href. unfold UpdateVolumeSnapshot. go_unfold.
  rewrite parse_made_name by done. cbn. api_read api_get_snapshot. rewrite Hstored; cbn.
  destruct (getSnapshotData_run w _ d Hd Href) as (d' & Hrun & Hd' & Href').
  rewrite run_bind. destruct w as [srv plug clock uuids wld]; cbn in *. rewrite Hrun; cbn.
  api_write (api_put_snapshot srv ns nm) (mk_is_Some _ _ Hstored).
  by exists d', srv0.
Qed.

Lemma postSnapshotData_run w n data :
  datas (e_api w) !! Name (vsd_Metadata data) = None ->
  exists srv,
    runs (postSnapshotData (S n) data) w =
      (Returned None, Build_env srv (e_plugin w) (e_clock w) (e_uuids w) (e_worlds w)) /\
    datas srv = <[Name (vsd_Metadata data) := data]> (datas (e_api w)) /\
    snaps srv = snaps (e_api w) /\ pvcs srv = pvcs (e_api w) /\ pvs srv = pvs (e_api w).
Proof.
  intros Hfree. rewrite postSnapshotData_S. go_unfold. cbn.
  api_write (api_post_data (e_api w) NamespaceDefault) Hfree. by exists srv.
Qed.

(** One run of the creation: the objects it leaves behind. *)
Lemma create_run w ns nm s stored claim pv source plug :
  ready_to_snapshot names (e_api w) ns nm s claim pv ->
  snaps (e_api w) !! (ns, nm) = Some stored ->
  SnapshotDataName (vs_Spec s) = "" ->
  plugin _ (PSnapshotCreate (GetSupportedVolumeFromPVSpec (pv_Spec pv)) pv) (e_plugin w)
    = ((Some source, None), plug) ->
  datas (e_api w) !! next_data_name uuid w = None ->
  exists d w',
    let data := new_snapshot_data (next_data_name uuid w) (MakeSnapshotName ns nm)
                  (Name (pv_ObjectMeta pv)) source in
    runs (getSnapshotCreateFunc (clients names) (MakeSnapshotName ns nm) s) w
      = (Returned (Ok tt), w') /\
    datas (e_api w') = <[next_data_name uuid w := data]> (datas (e_api w)) /\
    d ∈ (map_to_list (datas (e_api w'))).*2 /\ refers_to (MakeSnapshotName ns nm) d = true /\
    snaps (e_api w') = <[(ns, nm) := set_vs_binding (Name (vsd_Metadata d))
                                       [ready_condition (e_clock w)] stored]> (snaps (e_api w)) /\
    pvcs (e_api w') = pvcs (e_api w) /\ pvs (e_api w') = pvs (e_api w) /\
    e_worlds w' = e_worlds w /\ e_plugin w' = plug /\ e_uuids w' = S (e_uuids w) /\
    e_clock w' = e_clock w.
Proof.
  intros Hready Hstored Hnew Hplugin Hfree. pose proof Hready as [].
  unfold getSnapshotCreateFunc, bind_ok.
  rewrite bool_decide_eq_false_2 by (rewrite Hnew; by intros Hne).
  rewrite run_bind, (getPV_run w ns nm s claim pv Hready).
  unfold takeSnapshot, plugin_of.
  rewrite bool_decide_eq_false_2 by (by destruct (GetSupportedVolumeFromPVSpec _)).
  rewrite clients_lookup, decide_True by done. go_unfold. cbn.
  unfold inject at 1, SubE_refl. rewrite Hplugin; cbn. rewrite run_bind.
  destruct w as [srv plug0 clock uuids wld]; cbn in *.
  set (data := new_snapshot_data _ _ _ _).
  edestruct (postSnapshotData_run (Build_env srv plug clock (S uuids) wld) 4 data)
    as (srv1 & Hpost & Hd1 & Hs1 & Hc1 & Hv1); [exact Hfree|].
  unfold createVolumeSnapshotDataRetryCount. rewrite Hpost; cbn in *.
  rewrite run_bind.
  edestruct (UpdateVolumeSnapshot_run (Build_env srv1 plug clock (S uuids) wld) ns nm stored data)
    as (d' & srv2 & Hupd & Hd' & Href' & Hs2 & Hd2 & Hc2 & Hv2); cbn; try done.
  - by rewrite Hs1.
  - rewrite Hd1. apply list_elem_of_fmap. exists (Name (vsd_Metadata data), data).
    split; [done|]. apply elem_of_map_to_list. apply lookup_insert_eq.
  - apply new_data_refers.
  - cbn in *. rewrite Hupd. exists d'. eexists. split; [done|]. cbn.
    rewrite Hd2, Hs2, Hc2, Hv2, Hs1, Hc1, Hv1. rewrite Hd1 in *. by split_and!.
Qed.

Lemma UpdateVolumeSnapshotData_run w n conds d :
  datas (e_api w) !! n = Some d ->
  exists srv,
    runs (UpdateVolumeSnapshotData n conds) w =
      (Returned (Ok tt), Build_env srv (e_plugin w) (e_clock w) (e_uuids w) (e_worlds w)) /\
    datas srv = <[n := set_vsd_conditions conds d]> (datas (e_api w)) /\
    snaps srv = snaps (e_api w) /\ pvcs srv = pvcs (e_api w) /\ pvs srv = pvs (e_api w).
Proof.
  intros Hd. unfold UpdateVolumeSnapshotData. go_unfold. cbn.
  api_read api_get_data. rewrite Hd; cbn.
  api_write (api_put_data (e_api w) NamespaceDefault) (mk_is_Some _ _ Hd). by exists srv.
Qed.

(** The second creation of a snapshot, once the plugin reports the backend
    snapshot as completed. *)
Lemma status_run w ns nm s claim pv d plug err :
  ready_to_snapshot names (e_api w) ns nm s claim pv ->
  SnapshotDataName (vs_Spec s) <> "" ->
  datas (e_api w) !! SnapshotDataName (vs_Spec s) = Some d ->
  data_ready d = false ->
  plugin _ (PDescribeSnapshot (GetSupportedVolumeFromPVSpec (pv_Spec pv)) (Some d)) (e_plugin w)
    = ((true, err), plug) ->
  exists srv,
    runs (getSnapshotCreateFunc (clients names) (MakeSnapshotName ns nm) s) w =
      (Returned (Ok tt),
       Build_env srv plug (e_clock w) (e_uuids w)
         {| dsw := dsw (e_worlds w); asw := <[snapshot_key s := s]> (asw (e_worlds w)) |}) /\
    datas srv = <[SnapshotDataName (vs_Spec s) :=
                    set_vsd_conditions
                      [data_condition VolumeSnapshotDataConditionReady
                         "Snapshot data created succsessfully" (e_clock w)] d]> (datas (e_api w)) /\
    snaps srv = snaps (e_api w) /\ pvcs srv = pvcs (e_api w) /\ pvs srv = pvs (e_api w).
Proof.
  intros Hready Hbound Hd Hnot Hplugin. pose proof Hready as [].
  unfold getSnapshotCreateFunc. rewrite bool_decide_eq_true_2 by done.
  unfold updateSnapshotDataStatus, plugin_of. go_unfold. cbn.
  api_read api_get_data. rewrite Hd; cbn. rewrite Hnot.
  destruct w as [srv plug0 clock uuids wld]; cbn in *.
  rewrite !run_bind.
  rewrite (getPV_run (Build_env srv plug0 clock uuids wld) ns nm s claim pv Hready).
  rewrite bool_decide_eq_false_2 by (by destruct (GetSupportedVolumeFromPVSpec _)).
  rewrite clients_lookup, decide_True by done. cbn.
  unfold inject at 1, SubE_refl. rewrite Hplugin; cbn. rewrite run_bind.
  edestruct (UpdateVolumeSnapshotData_run (Build_env srv plug clock uuids wld)) as
    (srv1 & Hupd & Hd1 & Hs1 & Hc1 & Hv1); [exact Hd|].
  rewrite Hupd; cbn in *. by exists srv1.
Qed.

Lemma delete_run w ns nm s claim pv d plug :
  ready_to_snapshot names (e_api w) ns nm s claim pv ->
  datas (e_api w) !! Name (vsd_Metadata d) = Some d ->
  refers_to (MakeSnapshotName ns nm) d = true ->
  (forall d', d' ∈ (map_to_list (datas (e_api w))).*2 ->
     refers_to (MakeSnapshotName ns nm) d' = true -> d' = d) ->
  plugin _ (PSnapshotDelete (GetSupportedVolumeFromPVSpec (pv_Spec pv))
              (Some (dspec_Source (vsd_Spec d))) None) (e_plugin w) = (None, plug) ->
  exists srv,
    runs (getSnapshotDeleteFunc (clients names) (MakeSnapshotName ns nm) s) w =
      (Returned (Ok tt),
       Build_env srv plug (e_clock w) (e_uuids w)
         {| dsw := dsw (e_worlds w);
            asw := delete (MakeSnapshotName ns nm) (asw (e_worlds w)) |}) /\
    datas srv = delete (Name (vsd_Metadata d)) (datas (e_api w)).
Proof.
  intros Hready Hd Href Huniq Hplugin. pose proof Hready as [].
  unfold getSnapshotDeleteFunc, deleteSnapshot, plugin_of. go_unfold.
  assert (d ∈ (map_to_list (datas (e_api w))).*2) as Hin.
  { apply list_elem_of_fmap. exists (Name (vsd_Metadata d), d).
    split; [done|]. by apply elem_of_map_to_list. }
  destruct (getSnapshotData_run w _ d Hin Href) as (d' & Hfind & Hd' & Href').
  rewrite (Huniq d' Hd' Href') in Hfind. rewrite !run_bind, Hfind; cbn.
  rewrite run_bind, (getPV_run w ns nm s claim pv Hready).
  rewrite bool_decide_eq_false_2 by (by destruct (GetSupportedVolumeFromPVSpec _)).
  rewrite clients_lookup, decide_True by done. cbn.
  unfold inject at 1, SubE_refl. rewrite Hplugin; cbn.
  destruct w as [srv plug0 clock uuids wld]; cbn in *.
  api_write (api_delete_data srv NamespaceDefault) (mk_is_Some _ _ Hd).
  destruct wld. exists srv0. by destruct Hwrite.
Qed.

Lemma elem_of_values (m : gmap string VolumeSnapshotData) d :
  d ∈ (map_to_list m).*2 <-> exists n, m !! n = Some d.
Proof.
  rewrite list_elem_of_fmap. split.
  - intros ([n d'] & -> & Hin). exists n. by apply elem_of_map_to_list.
  - intros [n Hn]. exists (n, d). split; [done|]. by apply elem_of_map_to_list.
Qed.

(** When no other object refers to the snapshot, the one just stored is the
    one that is found. *)
Lemma refers_unique (m : gmap string VolumeSnapshotData) name n d d' :
  map_Forall (fun _ d => refers_to name d = false) m ->
  d' ∈ (map_to_list (<[n := d]> m)).*2 -> refers_to name d' = true -> d' = d.
Proof.
  intros Hnone [n' Hn']%elem_of_values Href.
  apply lookup_insert_Some in Hn' as [[_ ->]|[_ Hn']]; [done|].
  apply Hnone in Hn'. congruence.
Qed.

Lemma ready_to_snapshot_mono srv srv' ns nm s s' claim pv :
  pvcs srv' = pvcs srv -> pvs srv' = pvs srv ->
  PersistentVolumeClaimName (vs_Spec s') = PersistentVolumeClaimName (vs_Spec s) ->
  ready_to_snapshot (W:=W) names srv ns nm s claim pv ->
  ready_to_snapshot names srv' ns nm s' claim pv.
Proof. intros Hc Hv Hs []. split; by rewrite ?Hc, ?Hv, ?Hs. Qed.

(** ** Theorems *)

(** C8: The whole life of a snapshot, against any API server that keeps the
    laws and any plugin whose calls succeed.  The first creation stores a new
    data object with the plugin's source, binds the snapshot to it and leaves
    the actual state as it was; the creation of the bound snapshot makes the
    object Ready and adds the snapshot to the actual state; the deletion
    restores the data objects and removes the snapshot from the actual
    state. *)
Theorem snapshot_lifecycle w s claim pv source :
  let ns := Namespace (vs_Metadata s) in
  let nm := Name (vs_Metadata s) in
  let dataName := next_data_name uuid w in
  ready_to_snapshot names (e_api w) ns nm s claim pv ->
  snaps (e_api w) !! (ns, nm) = Some s ->
  SnapshotDataName (vs_Spec s) = "" ->
  datas (e_api w) !! dataName = None ->
  map_Forall (fun _ d => refers_to (snapshot_key s) d = false) (datas (e_api w)) ->
  (forall pl, exists pl', plugin _ (PSnapshotCreate (GetSupportedVolumeFromPVSpec (pv_Spec pv)) pv) pl
                          = ((Some source, None), pl')) ->
  (forall pl d, exists pl', plugin _ (PDescribeSnapshot (GetSupportedVolumeFromPVSpec (pv_Spec pv)) d) pl
                            = ((true, None), pl')) ->
  (forall pl src, exists pl',
     plugin _ (PSnapshotDelete (GetSupportedVolumeFromPVSpec (pv_Spec pv)) src None) pl = (None, pl')) ->
  exists w1 w2 w3 s1 d2,
    runs (getSnapshotCreateFunc (clients names) (snapshot_key s) s) w = (Returned (Ok tt), w1) /\
    snaps (e_api w1) !! (ns, nm) = Some s1 /\ SnapshotDataName (vs_Spec s1) = dataName /\
    asw (e_worlds w1) = asw (e_worlds w) /\
    runs (getSnapshotCreateFunc (clients names) (snapshot_key s) s1) w1 = (Returned (Ok tt), w2) /\
    asw (e_worlds w2) = <[snapshot_key s := s1]> (asw (e_worlds w)) /\
    datas (e_api w2) = <[dataName := d2]> (datas (e_api w)) /\
    data_ready d2 = true /\ dspec_Source (vsd_Spec d2) = source /\
    runs (getSnapshotDeleteFunc (clients names) (snapshot_key s) s1) w2 = (Returned (Ok tt), w3) /\
    asw (e_worlds w3) = delete (snapshot_key s) (asw (e_worlds w)) /\
    datas (e_api w3) = datas (e_api w).
Proof.
  intros ns nm dataName Hready Hstored Hnew Hfree Hnone Hcreate Hdescribe Hdelete.
  change (snapshot_key s) with (MakeSnapshotName ns nm) in *.
  destruct (Hcreate (e_plugin w)) as [pl1 Hpl1].
  destruct (create_run w ns nm s s claim pv source pl1 Hready Hstored Hnew Hpl1 Hfree)
    as (d & w1 & Hrun1 & Hd1 & Hin & Href & Hs1 & Hc1 & Hv1 & Hwd1 & _).
  set (data := new_snapshot_data _ _ _ _) in *.
  assert (d = data) as -> by (rewrite Hd1 in Hin; by eapply refers_unique).
  set (s1 := set_vs_binding _ _ s) in *.
  assert (datas (e_api w1) !! dataName = Some data) as Hdata by (rewrite Hd1; apply lookup_insert_eq).
  assert (dataName <> "") as Hname by (unfold dataName, next_data_name; by destruct (uuid _)).
  destruct (Hdescribe (e_plugin w1) (Some data)) as [pl2 Hpl2].
  destruct (status_run w1 ns nm s1 claim pv data pl2 None) as (srv2 & Hrun2 & Hd2 & Hs2 & Hc2 & Hv2);
    [eapply ready_to_snapshot_mono; [| | |exact Hready]; done | done | done | done | done |].
  set (w2 := Build_env _ _ _ _ _) in Hrun2. set (d2 := set_vsd_conditions _ _) in *.
  destruct (Hdelete pl2 (Some (dspec_Source (vsd_Spec d2)))) as [pl3 Hpl3].
  rewrite Hd1 in Hd2. cbn in Hd2. rewrite insert_insert_eq in Hd2.
  destruct (delete_run w2 ns nm s1 claim pv d2 pl3) as (srv3 & Hrun3 & Hd3); cbn in *.
  - eapply ready_to_snapshot_mono; [| | |done]; cbn; congruence.
  - rewrite Hd2. apply lookup_insert_eq.
  - done.
  - intros d'. rewrite Hd2. by apply refers_unique.
  - done.
  - eexists w1, w2, _, s1, d2. split_and!; try done.
    + rewrite Hs1. apply lookup_insert_eq.
    + by rewrite Hwd1.
    + cbn. by rewrite Hwd1.
    + cbn. change (snapshot_key s1) with (MakeSnapshotName ns nm).
      by rewrite delete_insert_eq, Hwd1.
    + cbn. rewrite Hd3, Hd2. cbn. rewrite delete_insert_eq. by apply delete_id.
Qed.

(** Creations are not idempotent.  The informer may show the snapshot
    without the name of its data object after a first creation succeeded (the
    desired state is refreshed by a later event), and the reconciler then
    starts the creation again with the same object.  Both runs succeed, and
    they leave two backend snapshots and two data objects for one snapshot. *)
Theorem getSnapshotCreateFunc_twice w s claim pv :
  let ns := Namespace (vs_Metadata s) in
  let nm := Name (vs_Metadata s) in
  let first := "k8s-volume-snapshot-" +:+ uuid (e_uuids w) in
  let second := "k8s-volume-snapshot-" +:+ uuid (S (e_uuids w)) in
  ready_to_snapshot names (e_api w) ns nm s claim pv ->
  snaps (e_api w) !! (ns, nm) = Some s ->
  SnapshotDataName (vs_Spec s) = "" ->
  datas (e_api w) !! first = None -> datas (e_api w) !! second = None -> first <> second ->
  (forall pl, exists source pl',
     plugin _ (PSnapshotCreate (GetSupportedVolumeFromPVSpec (pv_Spec pv)) pv) pl
       = ((Some source, None), pl')) ->
  exists w1 w2 d1 d2,
    runs (getSnapshotCreateFunc (clients names) (snapshot_key s) s) w = (Returned (Ok tt), w1) /\
    runs (getSnapshotCreateFunc (clients names) (snapshot_key s) s) w1 = (Returned (Ok tt), w2) /\
    datas (e_api w2) = <[second := d2]> (<[first := d1]> (datas (e_api w))) /\
    refers_to (snapshot_key s) d1 = true /\ refers_to (snapshot_key s) d2 = true.
Proof.
  intros ns nm first second Hready Hstored Hnew Hfirst Hsecond Hne Hcreate.
  change (snapshot_key s) with (MakeSnapshotName ns nm) in *.
  destruct (Hcreate (e_plugin w)) as (source1 & pl1 & Hpl1).
  destruct (create_run w ns nm s s claim pv source1 pl1 Hready Hstored Hnew Hpl1 Hfirst)
    as (d & w1 & Hrun1 & Hd1 & _ & _ & Hs1 & Hc1 & Hv1 & _ & <- & Hu1 & _).
  destruct (Hcreate (e_plugin w1)) as (source2 & pl2 & Hpl2).
  edestruct (create_run w1 ns nm s (set_vs_binding (Name (vsd_Metadata d)) [ready_condition (e_clock w)] s) claim pv source2 pl2)
    as (d' & w2 & Hrun2 & Hd2 & _); try done.
  - by eapply ready_to_snapshot_mono.
  - rewrite Hs1. apply lookup_insert_eq.
  - unfold next_data_name. rewrite Hu1, Hd1. by rewrite lookup_insert_ne.
  - exists w1, w2. do 2 eexists. split; [exact Hrun1|]. split; [exact Hrun2|].
    rewrite Hd2, Hd1. unfold next_data_name. rewrite Hu1. split; [done|].
    split; apply new_data_refers.
Qed.
End lifecycle.

(** * The hypotheses at a concrete server and plugin *)

#[local] Instance sorted : MapRange := map_range_sorted.

#[local] Existing Instance MapServer.server.
#[local] Existing Instance MapServer.laws.

Definition example_server : MapServer.state :=
  {| MapServer.s_pvcs := {[("ns", "claim") := example_claim]};
     MapServer.s_pvs := {["pv" := example_pv]};
     MapServer.s_snaps := {[("ns", "a") := example_snapshot "a" ""]};
     MapServer.s_datas := ∅ |}.

Definition example_plugin : handler PluginE unit := fun X e w => (accept_plugin e, w).

Definition example_uuid (n : nat) : string := match n with O => "first" | _ => "second" end.

Definition example_env : env MapServer.state unit :=
  Build_env example_server tt Second 0 {| dsw := ∅; asw := ∅ |}.

Lemma example_ready :
  ready_to_snapshot ["hostPath"] example_server "ns" "a" (example_snapshot "a" "")
    example_claim example_pv.
Proof. split; try done; try (vm_compute; reflexivity). by left. Qed.

Lemma snapshot_lifecycle_witness :
  exists w1,
    run (handle_env example_plugin example_uuid)
        (getSnapshotCreateFunc (clients ["hostPath"]) "ns/a" (example_snapshot "a" ""))
        example_env = (Returned (Ok tt), w1) /\
    (SnapshotDataName ∘ vs_Spec) <$> snaps (e_api w1) !! ("ns", "a")
      = Some "k8s-volume-snapshot-first".
Proof.
  edestruct (snapshot_lifecycle example_plugin example_uuid ["hostPath"] example_env
               (example_snapshot "a" "") example_claim example_pv example_source)
    as (w1 & w2 & w3 & s1 & d2 & Hrun & Hs1 & Hname & _).
  - exact example_ready.
  - reflexivity.
  - reflexivity.
  - reflexivity.
  - apply map_Forall_empty.
  - intros []. by exists tt.
  - intros []. by exists tt.
  - intros []. by exists tt.
  - exists w1. split; [exact Hrun|].
    change (Namespace _) with "ns" in Hs1; change (Name _) with "a" in Hs1.
    rewrite Hs1. cbn. by rewrite Hname.
Defined.

Lemma getSnapshotCreateFunc_twice_witness :
  exists w1 w2,
    run (handle_env example_plugin example_uuid)
        (getSnapshotCreateFunc (clients ["hostPath"]) "ns/a" (example_snapshot "a" ""))
        example_env = (Returned (Ok tt), w1) /\
    run (handle_env example_plugin example_uuid)
        (getSnapshotCreateFunc (clients ["hostPath"]) "ns/a" (example_snapshot "a" ""))
        w1 = (Returned (Ok tt), w2) /\
    is_Some (datas (e_api w2) !! "k8s-volume-snapshot-second").
Proof.
  edestruct (getSnapshotCreateFunc_twice example_plugin example_uuid ["hostPath"] example_env
               (example_snapshot "a" "") example_claim example_pv)
    as (w1 & w2 & d1 & d2 & Hrun1 & Hrun2 & Hd & _).
  - exact example_ready.
  - reflexivity.
  - reflexivity.
  - reflexivity.
  - reflexivity.
  - discriminate.
  - intros []. by exists example_source, tt.
  - exists w1, w2. split; [exact Hrun1|]. split; [exact Hrun2|].
    rewrite Hd. eexists. apply lookup_insert_eq.
Defined.
