(* ===== verification/StoredData.v ===== *)
(** What the API server holds between the operations: every operation of the
    snapshotter, whatever its outcome, leaves well-typed data objects behind,
    at any server that keeps the laws of [Api] and whose refused writes change
    nothing. *)

From S2P Require Import Prelude GoStrings Types Cache Api Plugin Snapshotter PluginContract Examples Lifecycle.

#[local] Open Scope string_scope.

(** Refused writes change no data object. *)
Class ApiServerRefuses (W : Type) `{!ApiServer W} : Prop := {
  refuse_put_snapshot w ns n b : snaps w !! (ns, n) = None -> exists e w',
    api _ (PutVolumeSnapshot ns n b) w = (Err e, w') /\ datas w' = datas w;
  refuse_put_data w ns n b : datas w !! n = None -> exists e w',
    api _ (PutVolumeSnapshotData ns n b) w = (Err e, w') /\ datas w' = datas w;
  refuse_post_data w ns b : is_Some (datas w !! Name (vsd_Metadata b)) -> exists e w',
    api _ (PostVolumeSnapshotData ns b) w = (Err e, w') /\ datas w' = datas w;
  refuse_delete_data w ns n : datas w !! n = None -> exists e w',
    api _ (DeleteVolumeSnapshotData ns n) w = (Err e, w') /\ datas w' = datas w;
}.

#[export] Instance MapServer_refuses :
  @ApiServerRefuses MapServer.state MapServer.server.
Proof.
  split; intros; cbn in *;
    repeat match goal with H : is_Some _ |- _ => destruct H as [? H] end;
    repeat match goal with H : _ = _ |- _ => rewrite H end;
    (do 2 eexists; split; reflexivity).
Qed.

(** A data object as [pkg/apis/crd/v1/types.go] means it: it refers to a
    snapshot and to a volume, has the source of exactly one kind of volume,
    and one condition, which says [Pending] or [Ready]. *)
Record well_formed (d : VolumeSnapshotData) : Prop := {
  wf_snapshot : exists n, VolumeSnapshotRef (vsd_Spec d) =
    Some {| ref_Kind := "VolumeSnapshot"; ref_Namespace := ""; ref_Name := n |};
  wf_volume : exists n, PersistentVolumeRef (vsd_Spec d) =
    Some {| ref_Kind := "PersistentVolume"; ref_Namespace := ""; ref_Name := n |};
  wf_source : source_kind (dspec_Source (vsd_Spec d)) <> "";
  wf_condition : exists c, vsds_Conditions (vsd_Status d) = [c] /\
    vsdc_Status c = ConditionTrue /\
    (vsdc_Type c = VolumeSnapshotDataConditionPending \/
     vsdc_Type c = VolumeSnapshotDataConditionReady);
}.

(** Every stored object is well formed and has the name it is stored under. *)
Definition stored_ok (m : gmap string VolumeSnapshotData) : Prop :=
  map_Forall (fun n d => Name (vsd_Metadata d) = n /\ well_formed d) m.

Lemma new_data_well_formed snapName snapshotName pvName source :
  source_kind source <> "" ->
  well_formed (new_snapshot_data snapName snapshotName pvName source).
Proof.
  intros Hs. split; cbn; [by eexists|by eexists|done|].
  eexists; split; [reflexivity|]. split; [done|by left].
Qed.

Lemma ready_well_formed d message time :
  well_formed d ->
  well_formed (set_vsd_conditions
                 [data_condition VolumeSnapshotDataConditionReady message time] d).
Proof.
  intros [Hn Hv Hs _]. split; cbn; [done|done|done|].
  eexists; split; [reflexivity|]. split; [done|by right].
Qed.

Section stored.
Context `{MapRange} {W P : Type} `{!ApiServer W, !ApiServerLaws W, !ApiServerRefuses W}.
Context (plugin : handler PluginE P) (uuid : nat -> string) (names : list string).
(** What [PluginContract] promises of a creation. *)
Context (plugin_typed : forall kind pv pl src err pl',
  GetSupportedVolumeFromPVSpec (pv_Spec pv) = kind ->
  plugin _ (PSnapshotCreate kind pv) pl = ((Some src, err), pl') -> source_kind src = kind).

#[local] Abbreviation ok_env w := (stored_ok (datas (e_api (W:=W) (P:=P) w))).

(** [keeps p Q]: from well-typed objects, [p] leaves well-typed objects,
    whether it returns, with a result [Q] accepts, or panics. *)
Definition keeps {A} (p : prog (CtlE PluginE) A) (Q : A -> Prop) : Prop :=
  forall w, ok_env w ->
    ok_env (run (handle_env plugin uuid) p w).2 /\
    match (run (handle_env plugin uuid) p w).1 with Returned a => Q a | Panicked _ => True end.

Lemma keeps_Done {A} (a : A) (Q : A -> Prop) : Q a -> keeps (Done a) Q.
Proof. by intros HQ w Hw. Qed.

Lemma keeps_Crash {A} why (Q : A -> Prop) : keeps (Crash why) Q.
Proof. by intros w Hw. Qed.

Lemma keeps_bind {A B} (p : prog _ A) (f : A -> prog _ B) (Q : A -> Prop) R :
  keeps p Q -> (forall a, Q a -> keeps (f a) R) -> keeps (bind p f) R.
Proof.
  intros Hp Hf w Hw. rewrite run_bind. destruct (Hp w Hw) as [Hw' HQ].
  destruct (run _ p w) as [[a|why] w']; cbn in *; [by apply Hf|done].
Qed.

Lemma keeps_any {A} (p : prog _ A) (Q : A -> Prop) :
  keeps p (fun _ => True) -> (forall a, Q a) -> keeps p Q.
Proof. intros Hp HQ w Hw. destruct (Hp w Hw) as [? _]. split; [done|]. by case_match. Qed.

Lemma keeps_bind_ok {A B} (p : prog _ (res A)) (f : A -> prog _ (res B)) (Q : A -> Prop)
    (R : res B -> Prop) :
  keeps p (fun r => match r with Ok a => Q a | Err _ => True end) ->
  (forall e, R (Err e)) -> (forall a, Q a -> keeps (f a) R) -> keeps (bind_ok p f) R.
Proof.
  intros Hp He Hf. eapply keeps_bind; [exact Hp|]. intros [a|e] Ha; [by apply Hf|].
  by apply keeps_Done.
Qed.

Lemma keeps_bind_or {A B} (p : prog _ (res A)) g (f : A -> prog _ (res B)) (Q : A -> Prop)
    (R : res B -> Prop) :
  keeps p (fun r => match r with Ok a => Q a | Err _ => True end) ->
  (forall e, R (Err e)) -> (forall a, Q a -> keeps (f a) R) -> keeps (bind_or p g f) R.
Proof.
  intros Hp He Hf. eapply keeps_bind; [exact Hp|]. intros [a|e] Ha; [by apply Hf|].
  by apply keeps_Done.
Qed.

(** A call that changes no data object. *)
Lemma keeps_call {X} (e : CtlE PluginE X) (Q : X -> Prop) :
  (forall w, datas (e_api (handle_env plugin uuid X e w).2) = datas (e_api w) /\
             Q (handle_env plugin uuid X e w).1) ->
  keeps (Vis e Done) Q.
Proof.
  intros He w Hw. cbn. destruct (He w) as [Hd HQ].
  destruct (handle_env plugin uuid X e w) as [x w']; cbn in *. by rewrite Hd.
Qed.

Lemma keeps_api {X} (a : ApiE X) (Q : X -> Prop) :
  (forall s, datas (api _ a s).2 = datas s /\ Q (api _ a s).1) ->
  keeps (Vis (CallApi a) Done) Q.
Proof.
  intros Ha. apply keeps_call. intros w. cbn. specialize (Ha (e_api w)).
  by destruct (api X a (e_api w)).
Qed.

Lemma keeps_world {X} (e : WorldE X) : keeps (Vis (CallWorld e) Done) (fun _ => True).
Proof. apply keeps_call. intros w. cbn. by destruct (handle_world X e (e_worlds w)). Qed.

Lemma keeps_plugin {X} (e : PluginE X) (Q : X -> Prop) :
  (forall pl, Q (plugin _ e pl).1) -> keeps (Vis (CallPlugin e) Done) Q.
Proof.
  intros He. apply keeps_call. intros w. cbn. specialize (He (e_plugin w)).
  by destruct (plugin X e (e_plugin w)).
Qed.

Lemma keeps_sys {X} (e : SysE X) (Q : X -> Prop) :
  (forall x, Q x) -> keeps (Vis (CallSys e) Done) Q.
Proof. intros HQ. apply keeps_call. intros w. split; [by destruct e|done]. Qed.

(** ** The operations *)

Lemma getPV_keeps n s : keeps (getPVFromVolumeSnapshot n s) (fun _ => True).
Proof.
  unfold getPVFromVolumeSnapshot, trigger, ok, fail.
  case_bool_decide; [by apply keeps_Done|].
  destruct (GetNameAndNameSpaceFromSnapshotName n) as [[ns nm]|]; [|by apply keeps_Done].
  apply keeps_bind_or with (fun _ => True); [|done|].
  { apply keeps_api. intros srv. edestruct api_get_pvc as [? ->]. by case_match. }
  intros pvc _. case_bool_decide; [by apply keeps_Done|].
  apply keeps_bind_or with (fun _ => True); [|done|].
  { apply keeps_api. intros srv. edestruct api_get_pv as [? ->]. by case_match. }
  intros pv _. by apply keeps_Done.
Qed.

Lemma getSnapshotData_keeps n : keeps (getSnapshotDataFromSnapshotName n) (fun _ => True).
Proof.
  unfold getSnapshotDataFromSnapshotName, trigger.
  apply keeps_bind with (fun _ => True); [|by intros [[|]|] _; apply keeps_Done].
  apply keeps_api. intros srv. by edestruct api_list_data as (? & -> & _).
Qed.

Lemma UpdateVolumeSnapshot_keeps n : keeps (UpdateVolumeSnapshot n) (fun _ => True).
Proof.
  unfold UpdateVolumeSnapshot, trigger, ok, fail.
  destruct (GetNameAndNameSpaceFromSnapshotName n) as [[ns nm]|]; [|by apply keeps_Done].
  apply keeps_bind with (fun _ => True).
  { apply keeps_api. intros srv. by edestruct api_get_snapshot as [? ->]. }
  intros got _. apply keeps_bind_or with (fun _ => True); [|done|].
  { apply keeps_sys. by intros []. }
  intros copy _. destruct copy; try by apply keeps_Done.
  eapply keeps_bind; [apply getSnapshotData_keeps|]. intros [d|] _; [|by apply keeps_Done].
  apply keeps_bind with (fun _ => True); [by apply keeps_sys|]. intros now _.
  apply keeps_bind_or with (fun _ => True); [|done|by intros; apply keeps_Done].
  apply keeps_api. intros srv. destruct (snaps srv !! (ns, nm)) eqn:Hs.
  - edestruct api_put_snapshot as (? & ? & -> & _ & Hds & _); [by eexists|]. by cbn; rewrite Hds.
  - edestruct refuse_put_snapshot as (? & ? & -> & Hds); [done|]. by cbn; rewrite Hds.
Qed.

(** The second read of the object finds what the first found, or the write
    is refused. *)
Lemma UpdateVolumeSnapshotData_keeps n message time :
  keeps (UpdateVolumeSnapshotData n
           [data_condition VolumeSnapshotDataConditionReady message time]) (fun _ => True).
Proof.
  intros w Hw. destruct (datas (e_api w) !! n) as [d|] eqn:Hd.
  - edestruct (UpdateVolumeSnapshotData_run plugin uuid w n) as (srv & Hrun & Hds & _);
      [exact Hd|]. rewrite Hrun. cbn. split; [|done]. rewrite Hds.
    destruct (Hw _ _ Hd) as [Hn Hwf].
    apply map_Forall_insert_2; [|done]. split; [done|]. by apply ready_well_formed.
  - unfold UpdateVolumeSnapshotData. go_unfold. cbn.
    edestruct api_get_data as [what ->]. cbn. rewrite Hd. cbn.
    edestruct refuse_put_data as (e & srv & -> & Hds); [exact Hd|]. cbn. by rewrite Hds.
Qed.

Lemma takeSnapshot_keeps pv :
  keeps (takeSnapshot (clients names) pv)
    (fun r => match r with Ok (Some src) => source_kind src <> "" | _ => True end).
Proof.
  unfold takeSnapshot, plugin_of, ok, fail. case_bool_decide as Ht; [by apply keeps_Done|].
  destruct (clients names !! _) as [p|] eqn:Hp; [|by apply keeps_Done].
  apply clients_Some in Hp as [_ ->].
  eapply keeps_bind.
  - apply (keeps_plugin (PSnapshotCreate (GetSupportedVolumeFromPVSpec (pv_Spec pv)) pv)
             (fun r => match r.1 with Some src => source_kind src <> "" | None => True end)).
    intros pl. destruct (plugin _ _ pl) as [[[src|] err] pl'] eqn:Hpl; cbn; [|done].
    rewrite (plugin_typed _ _ _ _ _ _ eq_refl Hpl). by destruct (GetSupportedVolumeFromPVSpec _).
  - intros [[src|] [err|]] Hsrc; by apply keeps_Done.
Qed.

Lemma postSnapshotData_keeps tries d :
  well_formed d -> keeps (postSnapshotData tries d) (fun _ => True).
Proof.
  intros Hd. induction tries as [|tries IH]; [by apply keeps_Done|].
  rewrite postSnapshotData_S. unfold trigger.
  apply keeps_bind with (fun _ => True).
  - intros w Hw. cbn. destruct (datas (e_api w) !! Name (vsd_Metadata d)) eqn:Hs.
    + edestruct refuse_post_data as (? & ? & -> & Hds); [by eexists|]. cbn. by rewrite Hds.
    + edestruct api_post_data as (? & ? & -> & Hds & _); [exact Hs|]. cbn. rewrite Hds.
      split; [|done]. by apply map_Forall_insert_2.
  - intros [o|e] _; [by apply keeps_Done|].
    apply keeps_bind with (fun _ => True); [by apply keeps_sys|]. intros _ _.
    destruct tries; [by apply keeps_Done|done].
Qed.

Lemma plugin_call_keeps {X} (e : PluginE X) : keeps (Vis (CallPlugin e) Done) (fun _ => True).
Proof. by apply keeps_plugin. Qed.

(** The result of a [plugin_of] is the client of a registered plugin. *)
Lemma updateSnapshotDataStatus_keeps n s :
  keeps (updateSnapshotDataStatus (clients names) n s) (fun _ => True).
Proof.
  unfold updateSnapshotDataStatus, plugin_of, trigger, ok, fail.
  apply keeps_bind_ok with (fun _ => True); [|done|].
  { apply keeps_api. intros srv. edestruct api_get_data as [? ->]. by case_match. }
  intros d _. apply keeps_bind_ok with (fun _ => True); [|done|].
  - destruct (data_ready d); [by apply keeps_Done|].
    apply keeps_bind_ok with (fun _ => True); [|done|].
    { apply keeps_any; [apply getPV_keeps|by intros []]. }
    intros pv _. case_bool_decide; [by apply keeps_Done|].
    destruct (clients names !! _) as [p|] eqn:Hp; [|by apply keeps_Done].
    apply clients_Some in Hp as [_ ->].
    eapply keeps_bind; [apply plugin_call_keeps|]. intros [[] err] _; [|by apply keeps_Done].
    apply keeps_bind with (fun _ => True); [by apply keeps_sys|]. intros now _.
    apply keeps_bind_or with (fun _ => True); [|done|by intros; apply keeps_Done].
    apply keeps_any; [apply UpdateVolumeSnapshotData_keeps|by intros []].
  - intros _ _. eapply keeps_bind; [apply keeps_world|]. intros. by apply keeps_Done.
Qed.

Lemma getSnapshotCreateFunc_keeps n s :
  keeps (getSnapshotCreateFunc (clients names) n s) (fun _ => True).
Proof.
  unfold getSnapshotCreateFunc. case_bool_decide; [apply updateSnapshotDataStatus_keeps|].
  unfold trigger, ok, fail.
  apply keeps_bind_ok with (fun _ => True); [|done|].
  { apply keeps_any; [apply getPV_keeps|by intros []]. }
  intros pv _. eapply keeps_bind; [apply takeSnapshot_keeps|].
  intros [[src|]|e] Hsrc; [|by apply keeps_Done..].
  apply keeps_bind with (fun _ => True); [by apply keeps_sys|]. intros id _.
  apply keeps_bind with (fun _ => True).
  { by apply postSnapshotData_keeps, new_data_well_formed. }
  intros [err|] _; [by apply keeps_Done|].
  apply keeps_bind_or with (fun _ => True); [|done|by intros; apply keeps_Done].
  apply keeps_any; [apply UpdateVolumeSnapshot_keeps|by intros []].
Qed.

Lemma delete_data_keeps n :
  keeps (Vis (CallApi (DeleteVolumeSnapshotData NamespaceDefault n)) Done) (fun _ => True).
Proof.
  intros w Hw. cbn. destruct (datas (e_api w) !! n) eqn:Hn.
  - edestruct api_delete_data as (? & ? & -> & Hds & _); [by eexists|]. cbn. rewrite Hds.
    split; [|done]. by apply map_Forall_delete.
  - edestruct refuse_delete_data as (? & ? & -> & Hds); [exact Hn|]. cbn. by rewrite Hds.
Qed.

Lemma getSnapshotDeleteFunc_keeps n s :
  keeps (getSnapshotDeleteFunc (clients names) n s) (fun _ => True).
Proof.
  unfold getSnapshotDeleteFunc, deleteSnapshot, plugin_of, trigger, ok, fail.
  eapply keeps_bind; [apply getSnapshotData_keeps|]. intros [d|] _; [|by apply keeps_Done].
  apply keeps_bind_ok with (fun _ => True); [|done|].
  { apply keeps_any; [apply getPV_keeps|by intros []]. }
  intros pv _. apply keeps_bind_or with (fun _ => True); [|done|].
  - case_bool_decide; [by apply keeps_Done|].
    destruct (clients names !! _) as [p|] eqn:Hp; [|by apply keeps_Done].
    apply clients_Some in Hp as [_ ->].
    eapply keeps_bind; [apply plugin_call_keeps|]. by intros [err|] _; apply keeps_Done.
  - intros _ _. apply keeps_bind_or with (fun _ => True); [|done|].
    { apply keeps_any; [apply delete_data_keeps|by intros []]. }
    intros _ _. eapply keeps_bind; [apply keeps_world|]. intros. by apply keeps_Done.
Qed.

(** The operations [fs], one after the other; their errors and panics are
    logged by the goroutine map. *)
Definition run_operations (fs : list opfunc) (w : env W P) : env W P :=
  fold_left (fun w f => (run (handle_env plugin uuid) (opfunc_body (clients names) f) w).2) fs w.

(** C26: The stored objects stay well typed, at a server that keeps its laws:
    a read answers what is stored, and a write that is refused changes no data
    object; and with plugins whose snapshots have sources of their kind.  From
    such a server where every data object is under its own name, refers to a
    snapshot and a volume, has the source of exactly one kind of volume and
    one condition, [Pending] or [Ready], any sequence of creations, checks,
    deletions and promotions leaves a server of this kind behind, also when
    operations fail on the way, because an object is not there, a write is
    refused or a plugin fails, or panic.  A server whose reads fail for other
    reasons is not covered: after such a failure [UpdateVolumeSnapshotData]
    writes a blank object. *)
Theorem stored_data_typed fs w :
  stored_ok (datas (e_api w)) -> stored_ok (datas (e_api (run_operations fs w))).
Proof.
  revert w; induction fs as [|f fs IH]; intros w Hw; [done|]. apply IH.
  assert (keeps (opfunc_body (clients names) f) (fun _ => True)) as Hf.
  { destruct f; [apply getSnapshotCreateFunc_keeps|apply getSnapshotDeleteFunc_keeps|].
    by apply keeps_Done. }
  by apply Hf.
Qed.
End stored.

#[local] Instance sorted : MapRange := map_range_sorted.
#[local] Existing Instance MapServer.server.
#[local] Existing Instance MapServer.laws.

(** A plugin that takes snapshots of host paths only. *)
Definition host_plugin : handler PluginE unit := fun X e w =>
  (match e in PluginE X return X with
   | PSnapshotCreate kind _ =>
       if bool_decide (kind = "hostPath") then (Some example_source, None)
       else (None, Some ErrWaitTimeout)
   | e => accept_plugin e
   end, w).

(** A creation on a server without objects, and the check of what it made. *)
Lemma stored_data_typed_witness :
  let w := run_operations host_plugin example_uuid ["hostPath"]
             [SnapshotCreateFunc "ns/a" (example_snapshot "a" "");
              SnapshotCreateFunc "ns/a" (example_snapshot "a" "k8s-volume-snapshot-first")]
             example_env in
  stored_ok (datas (e_api w)) /\
  data_ready <$> datas (e_api w) !! "k8s-volume-snapshot-first" = Some true.
Proof.
  intros w. split; [|vm_compute; reflexivity].
  apply (stored_data_typed host_plugin example_uuid ["hostPath"]).
  - intros kind pv pl src err pl' Hk Heq. unfold host_plugin in Heq.
    case_bool_decide; [|discriminate]. subst kind. by injection Heq as <- _ _.
  - apply map_Forall_empty.
Defined.
