(* ===== verification/Refinement.v ===== *)
(** The operations of the snapshotter and the provisioner on the plugins and
    clouds they are built with: every execution with the registered plugins is
    one with the plugin calls of [Plugin], each answered by an execution of
    the plugin's method.  What the theorems on the plugin calls show so holds
    of the whole stack, from the API server to the requests of the cloud. *)

From S2P Require Import Prelude GoStrings Types Cache GoRoutineMap Api Plugin Snapshotter Provisioner.

#[local] Open Scope string_scope.

(** * Plugin calls and what answers them *)

Section refinement.
Context {PE : Type -> Type} (plugins : gmap string (VolumePlugin PE)).
#[local] Abbreviation concrete := (event (CtlE PE)).

(** The method a plugin call names, when its plugin is registered. *)
Definition method {X} (e : PluginE X) : option (prog PE X) :=
  match e with
  | PSnapshotCreate n pv => (fun p => SnapshotCreate p pv) <$> plugins !! n
  | PSnapshotDelete n src pv => (fun p => SnapshotDelete p src pv) <$> plugins !! n
  | PSnapshotRestore n d pvc pvName ps => (fun p => SnapshotRestore p d pvc pvName ps) <$> plugins !! n
  | PDescribeSnapshot n d => (fun p => DescribeSnapshot p d) <$> plugins !! n
  | PVolumeDelete n pv => (fun p => VolumeDelete p pv) <$> plugins !! n
  end.

(** The calls an event stands for: a plugin call is an execution of the
    method, the others are themselves. *)
Definition expands_event (ev : ctl_event) (tr : list concrete) : Prop :=
  match ev with
  | Event e x =>
      match e with
      | CallApi a => tr = [Event (CallApi a) x]
      | CallSys s => tr = [Event (CallSys s) x]
      | CallWorld w => tr = [Event (CallWorld w) x]
      | CallPlugin p => exists m inner,
          method p = Some m /\ exec m inner (Returned x) /\ tr = lift_event <$> inner
      end
  end.

Fixpoint expands (abstract : list ctl_event) (tr : list concrete) : Prop :=
  match abstract with
  | [] => tr = []
  | ev :: rest => exists first last, tr = (first ++ last)%list /\ expands_event ev first /\ expands rest last
  end.

(** An event that is no plugin call, on the plugins. *)
Definition carry (ev : ctl_event) : list concrete :=
  match ev with
  | Event e x =>
      match e with
      | CallApi a => [Event (CallApi a) x]
      | CallSys s => [Event (CallSys s) x]
      | CallWorld w => [Event (CallWorld w) x]
      | CallPlugin _ => []
      end
  end.

(** The calls end in a plugin's method, which panics. *)
Definition plugin_panics {A} (tr : list concrete) (o : outcome A) : Prop :=
  exists why X (e : PluginE X) m before inner,
    o = Panicked why /\ method e = Some m /\ exec m inner (Panicked why) /\
    tr = (before ++ (lift_event <$> inner))%list.

(** [p], on the plugins, does what [q] does on plugin calls: its executions
    are those of [q] with the plugin calls expanded, unless a plugin panics. *)
Definition refines {A} (p : prog (CtlE PE) A) (q : prog (CtlE PluginE) A) : Prop :=
  (forall tr o, exec p tr o ->
     (exists abstract, exec q abstract o /\ expands abstract tr) \/ plugin_panics tr o) /\
  (forall abstract tr o, exec q abstract o -> expands abstract tr -> exec p tr o).

Lemma expands_app abs abs' tr tr' :
  expands abs tr -> expands abs' tr' -> expands (abs ++ abs') (tr ++ tr').
Proof.
  revert tr. induction abs as [|ev abs IH]; intros tr; cbn; [by intros ->|].
  intros (first & last & -> & Hev & Hlast) Htr'. exists first, (last ++ tr')%list.
  split_and!; [by rewrite app_assoc|done|by apply IH].
Qed.

Lemma expands_carry abs tr :
  existsb is_plugin_call abs = false -> expands abs tr -> tr = abs ≫= carry.
Proof.
  revert tr. induction abs as [|ev abs IH]; intros tr; cbn; [done|].
  intros [Hev Habs]%orb_false_iff (first & last & -> & Hx & Hlast).
  rewrite (IH last) by done. f_equal. by destruct ev as [X [a|s|w|p] x].
Qed.

Lemma expands_app_inv abs abs' tr :
  expands (abs ++ abs') tr ->
  exists first last, tr = (first ++ last)%list /\ expands abs first /\ expands abs' last.
Proof.
  revert tr. induction abs as [|ev abs IH]; intros tr; cbn; [intros Hx; by exists [], tr|].
  intros (first & last & -> & Hev & (l1 & l2 & -> & H1 & H2)%IH).
  exists (first ++ l1)%list, l2. split_and!; [by rewrite app_assoc| |done]. by exists first, l1.
Qed.

Lemma plugin_panics_app {A B} before tr why :
  plugin_panics (A:=A) tr (Panicked why) -> plugin_panics (A:=B) (before ++ tr) (Panicked why).
Proof.
  intros (why' & X & e & m & b & inner & [= ->] & Hm & He & ->).
  exists why', X, e, m, (before ++ b)%list, inner. by rewrite app_assoc.
Qed.

Lemma plugin_panics_Panicked {A} tr (o : outcome A) : plugin_panics tr o -> exists why, o = Panicked why.
Proof. intros (why & ? & ? & ? & ? & ? & -> & _). by exists why. Qed.

Lemma refines_done {A} (a : A) : refines (Done a) (Done a).
Proof. split; [intros tr o [-> ->]; left; by exists []|by intros abs tr o [-> ->] ->]. Qed.

Lemma refines_crash {A} why : refines (A:=A) (Crash why) (Crash why).
Proof. split; [intros tr o [-> ->]; left; by exists []|by intros abs tr o [-> ->] ->]. Qed.

Lemma refines_bind {A B} p q (f : A -> prog _ B) g :
  refines p q -> (forall a, refines (f a) (g a)) -> refines (bind p f) (bind q g).
Proof.
  intros [Hp Hp'] Hf. split.
  - intros tr o [(why & He & ->)|(a & first & rest & -> & He & Hr)]%exec_bind.
    + destruct (Hp _ _ He) as [(abs & Hq & Hx)|Hpanic].
      * left. exists abs. split; [|done]. apply exec_bind. eauto.
      * right. by apply (plugin_panics_app (A:=A) []).
    + destruct (Hp _ _ He) as [(abs & Hq & Hx)|[? [=]]%plugin_panics_Panicked].
      destruct (proj1 (Hf _) _ _ Hr) as [(abs' & Hq' & Hx')|Hpanic].
      * left. exists (abs ++ abs')%list. split; [|by apply expands_app].
        apply exec_bind. right. by exists a, abs, abs'.
      * right. destruct (plugin_panics_Panicked _ _ Hpanic) as [why ->].
        by apply (plugin_panics_app (A:=B)).
  - intros abs tr o [(why & Hq & ->)|(a & l & r & -> & Hq & Hr)]%exec_bind Hx; apply exec_bind.
    + left. exists why. split; [|done]. by eapply Hp'.
    + apply expands_app_inv in Hx as (first & last & -> & H1 & H2). right.
      exists a, first, last. split_and!; [done|by eapply Hp'|by eapply (Hf a)].
Qed.

(** A call that no plugin answers. *)
Lemma refines_vis {X A} (e : CtlE PE X) (e' : CtlE PluginE X) (k : X -> prog _ A) k' :
  (forall x tr, expands_event (Event e' x) tr <-> tr = [Event e x]) ->
  (forall x, refines (k x) (k' x)) -> refines (Vis e k) (Vis e' k').
Proof.
  intros He Hk. split.
  - intros tr o (x & rest & -> & Hr). destruct (proj1 (Hk x) _ _ Hr) as [(abs & Hq & Hx)|Hpanic].
    + left. exists (Event e' x :: abs). split; [by exists x, abs|].
      exists [Event e x], rest. split_and!; [done|by apply He|done].
    + right. destruct (plugin_panics_Panicked _ _ Hpanic) as [why ->].
      by apply (plugin_panics_app (A:=A) [Event e x]).
  - intros abs tr o (x & rest & -> & Hr) (first & last & -> & ->%He & Hx).
    exists x, last. split; [done|]. by eapply (Hk x).
Qed.

Lemma refines_plugin {X} (e : PluginE X) m : method e = Some m -> refines (lift m) (trigger e).
Proof.
  intros Hm. split.
  - intros tr o (inner & -> & He)%exec_lift. destruct o as [x|why].
    + left. exists [Event (CallPlugin e) x]. split; [by exists x, []|].
      exists (lift_event <$> inner), []. rewrite app_nil_r. split_and!; [done| |done]. by exists m, inner.
    + right. by exists why, X, e, m, [], inner.
  - intros abs tr o (x & rest & -> & -> & ->) (first & last & -> & (m' & inner & Hm' & He & ->) & ->).
    rewrite app_nil_r. apply exec_lift. exists inner. split; [done|]. congruence.
Qed.
End refinement.

(** * The operations *)

Section operations.
Context {PE : Type -> Type} (plugins : gmap string (VolumePlugin PE)).

(** The plugins as their clients see them. *)
Definition plugin_names : list string := elements (dom plugins).

Lemma clients_of n :
  clients plugin_names !! n = match plugins !! n with Some _ => Some (plugin_client n) | None => None end.
Proof.
  rewrite clients_lookup. unfold plugin_names.
  destruct (decide _) as [Hn|Hn]; rewrite elem_of_elements, elem_of_dom in Hn.
  - by destruct Hn as [p ->].
  - destruct (plugins !! n); [|done]. by destruct Hn.
Qed.

#[local] Abbreviation refined := (refines plugins).

(** The next call, test or piece of two programs of the same shape. *)
#[local] Ltac lockstep_step :=
  lazymatch goal with
  | |- refines _ (Done _) (Done _) => apply refines_done
  | |- refines _ (Crash _) (Crash _) => apply refines_crash
  | |- refines _ (ok _) (ok _) => apply refines_done
  | |- refines _ (fail _) (fail _) => apply refines_done
  | |- refines _ (trigger _) (trigger _) => apply refines_vis; [intros; reflexivity|intros ?]
  | |- refines _ (Vis _ _) (Vis _ _) => apply refines_vis; [intros; reflexivity|intros ?; cbn beta]
  | |- refines _ (bind _ _) (bind _ _) => apply refines_bind; [|intros ?; cbn beta]
  | |- refines _ (bind_ok _ _) (bind_ok _ _) => apply refines_bind; [|intros [?|?]; cbn beta iota]
  | |- refines _ (bind_or _ _ _) (bind_or _ _ _) => apply refines_bind; [|intros [?|?]; cbn beta iota]
  | |- refines _ (lift _) (lift (_ (plugin_client _) _)) => idtac
  | |- refines _ (match plugin_of _ _ with _ => _ end) _ => idtac
  | |- refines _ (match plugins !! _ with _ => _ end) _ => idtac
  | |- refines _ (match ?x with _ => _ end) _ => go_split x
  | |- refines _ (let _ := _ in _) _ => cbv zeta
  end.
#[local] Ltac lockstep := repeat lockstep_step.

Lemma getPVFromVolumeSnapshot_refines n s :
  refined (getPVFromVolumeSnapshot n s) (getPVFromVolumeSnapshot n s).
Proof. unfold getPVFromVolumeSnapshot. lockstep. Qed.

Lemma getSnapshotData_refines n :
  refined (getSnapshotDataFromSnapshotName n) (getSnapshotDataFromSnapshotName n).
Proof. unfold getSnapshotDataFromSnapshotName. lockstep. Qed.

Lemma UpdateVolumeSnapshotData_refines n status :
  refined (UpdateVolumeSnapshotData n status) (UpdateVolumeSnapshotData n status).
Proof. unfold UpdateVolumeSnapshotData. lockstep. Qed.

Lemma UpdateVolumeSnapshot_refines n : refined (UpdateVolumeSnapshot n) (UpdateVolumeSnapshot n).
Proof.
  unfold UpdateVolumeSnapshot. lockstep; try apply getSnapshotData_refines; lockstep.
Qed.

Lemma postSnapshotData_refines tries d : refined (postSnapshotData tries d) (postSnapshotData tries d).
Proof. induction tries as [|tries IH]; cbn [postSnapshotData]; lockstep. apply IH. Qed.

(** The choice of the plugin gives the same error, or the plugin and its
    calls. *)
Lemma plugin_of_clients spec :
  match plugin_of plugins spec with
  | Err e => plugin_of (clients plugin_names) spec = Err e
  | Ok p => let n := GetSupportedVolumeFromPVSpec spec in
            plugins !! n = Some p /\ plugin_of (clients plugin_names) spec = Ok (plugin_client n)
  end.
Proof.
  unfold plugin_of. case_bool_decide; [done|]. rewrite clients_of. by destruct (plugins !! _).
Qed.

#[local] Ltac choose_plugin spec :=
  let p := fresh "p" in let e := fresh "e" in let Hp := fresh "Hp" in let Hc := fresh "Hc" in
  pose proof (plugin_of_clients spec) as Hc;
  destruct (plugin_of plugins spec) as [p|e]; [destruct Hc as [Hp Hc]|]; rewrite Hc.

Lemma lift_client {X} (e : PluginE X) m :
  method plugins e = Some m -> refined (lift m) (lift (trigger e)).
Proof. apply refines_plugin. Qed.

Lemma takeSnapshot_refines pv :
  refined (takeSnapshot plugins pv) (takeSnapshot (clients plugin_names) pv).
Proof.
  unfold takeSnapshot. choose_plugin (pv_Spec pv); lockstep.
  apply (lift_client (PSnapshotCreate _ _)). cbn. by rewrite Hp.
Qed.

Lemma deleteSnapshot_refines spec source :
  refined (deleteSnapshot plugins spec source) (deleteSnapshot (clients plugin_names) spec source).
Proof.
  unfold deleteSnapshot. choose_plugin spec; lockstep.
  apply (lift_client (PSnapshotDelete _ _ _)). cbn. by rewrite Hp.
Qed.

Lemma updateSnapshotDataStatus_refines n s :
  refined (updateSnapshotDataStatus plugins n s) (updateSnapshotDataStatus (clients plugin_names) n s).
Proof.
  unfold updateSnapshotDataStatus. lockstep; try apply getPVFromVolumeSnapshot_refines.
  match goal with |- context [plugin_of plugins ?spec] => choose_plugin spec end; lockstep;
    try apply UpdateVolumeSnapshotData_refines.
  apply (lift_client (PDescribeSnapshot _ _)). cbn. by rewrite Hp.
Qed.

Lemma opfunc_refines f : refined (opfunc_body plugins f) (opfunc_body (clients plugin_names) f).
Proof.
  destruct f as [n s|n s|n s]; cbn [opfunc_body].
  - unfold getSnapshotCreateFunc. lockstep;
      eauto using updateSnapshotDataStatus_refines, getPVFromVolumeSnapshot_refines,
        takeSnapshot_refines, postSnapshotData_refines, UpdateVolumeSnapshot_refines.
  - unfold getSnapshotDeleteFunc. lockstep;
      eauto using getSnapshotData_refines, getPVFromVolumeSnapshot_refines, deleteSnapshot_refines.
  - apply refines_done.
Qed.

Lemma snapshotRestore_refines n d options :
  refined (snapshotRestore plugins n d options) (snapshotRestore (clients plugin_names) n d options).
Proof.
  unfold snapshotRestore, getPVFromVolumeSnapshotDataSpec. lockstep.
  rewrite clients_of. destruct (plugins !! _) as [p|] eqn:Hp; lockstep.
  apply (lift_client (PSnapshotRestore _ _ _ _ _)). cbn. by rewrite Hp.
Qed.

Lemma Provision_refines identity options :
  refined (Provision plugins identity options) (Provision (clients plugin_names) identity options).
Proof.
  unfold Provision. lockstep; try apply snapshotRestore_refines; lockstep.
Qed.

Lemma Delete_refines identity pv :
  refined (Delete plugins identity pv) (Delete (clients plugin_names) identity pv).
Proof.
  unfold Delete. lockstep. rewrite clients_of. destruct (plugins !! _) as [p|] eqn:Hp; lockstep.
  apply (lift_client (PVolumeDelete _ _)). cbn. by rewrite Hp.
Qed.
End operations.

(** The operations on the registered plugins do what they do on plugin
    calls.  Every execution of a creation, a check, a deletion, a promotion, a
    provisioning or the deletion of a volume is one on the plugin calls, with
    each of these replaced by an execution of the method of the plugin
    registered under its name that gives the call's answer; and every such
    replacement is an execution.  The only other executions end in a plugin's
    method, with the panic of that method. *)
Theorem operations_refine {PE} (plugins : gmap string (VolumePlugin PE)) :
  let calls := clients (plugin_names plugins) in
  (forall f, refines plugins (opfunc_body plugins f) (opfunc_body calls f)) /\
  (forall identity options,
     refines plugins (Provision plugins identity options) (Provision calls identity options)) /\
  (forall identity pv, refines plugins (Delete plugins identity pv) (Delete calls identity pv)).
Proof.
  split_and!; intros; [apply opfunc_refines|apply Provision_refines|apply Delete_refines].
Qed.
