(* ===== verification/EndToEnd.v ===== *)
(** The stack of one node: the operations of the snapshotter on the plugins
    that [buildVolumePlugins] registers for each cloud, over the modelled
    clouds.  The deletions, creations and provisionings that succeed are
    followed down to the requests of EC2, Compute Engine, Cinder and the
    operating system. *)

From S2P Require Import Prelude GoStrings Types Cache GoRoutineMap Api Wait Plugin Snapshotter Provisioner CloudProvider Examples.
From S2P Require Import VolumePlugins Ec2 AwsDevices AwsVolumes Cinder Gce Refinement.
From stdpp Require Import pretty.
From Stdlib Require Import Lia.

#[local] Open Scope string_scope.

(** * The calls of a node *)

Inductive NodeE (X : Type) : Type :=
| NodeHost (e : HostPathPlugin.HostE X)
| NodeSys (e : SysE X)
| NodeAws (e : AwsE X)
| NodeGce (e : GceSysE X)
| NodeCinder (e : CinderE X).
Arguments NodeHost {X} e.
Arguments NodeSys {X} e.
Arguments NodeAws {X} e.
Arguments NodeGce {X} e.
Arguments NodeCinder {X} e.
#[export] Instance SubE_node_host : SubE HostPathPlugin.HostE NodeE := fun _ e => NodeHost e.
#[export] Instance SubE_node_sys : SubE SysE NodeE := fun _ e => NodeSys e.
#[export] Instance SubE_node_aws : SubE AwsE NodeE := fun _ e => NodeAws e.
#[export] Instance SubE_node_gce : SubE GceSysE NodeE := fun _ e => NodeGce e.
#[export] Instance SubE_node_cinder : SubE CinderE NodeE := fun _ e => NodeCinder e.

(** A cloud over its own calls, as part of the node. *)
Section lifted.
Context {F E : Type -> Type} `{!SubE F E}.

Definition lift_aws (c : AwsCloud F) : AwsCloud E :=
  {| aws_CreateSnapshot v := lift (aws_CreateSnapshot c v);
     aws_DeleteSnapshot s := lift (aws_DeleteSnapshot c s);
     aws_DescribeSnapshot s := lift (aws_DescribeSnapshot c s);
     aws_CreateDisk o := lift (aws_CreateDisk c o);
     aws_GetVolumeLabels v := lift (aws_GetVolumeLabels c v);
     aws_DeleteDisk v := lift (aws_DeleteDisk c v) |}.

Definition lift_gce (c : GceCloud F) : GceCloud E :=
  {| gce_CreateSnapshot d z s t := lift (gce_CreateSnapshot c d z s t);
     gce_DeleteSnapshot s := lift (gce_DeleteSnapshot c s);
     gce_DescribeSnapshot s := lift (gce_DescribeSnapshot c s);
     gce_GetAllZones := lift (gce_GetAllZones c);
     gce_CreateDiskFromSnapshot s d t z n l := lift (gce_CreateDiskFromSnapshot c s d t z n l);
     gce_GetAutoLabelsForPD n z := lift (gce_GetAutoLabelsForPD c n z);
     gce_DeleteDisk d := lift (gce_DeleteDisk c d) |}.
End lifted.

Section node.
Context `{MapRange, UrlParse, JsonMarshal}.
Context (aws : Cloud) (random : Z) (gce : GCECloud).

(** The provider [InitCloudProvider] gives for the flag. *)
Definition node_provider (flag : string) : option (cloud_provider NodeE) :=
  if bool_decide (flag = "aws") then Some (AwsProvider (lift_aws (aws_cloud aws random)))
  else if bool_decide (flag = "gce") then Some (GceProvider (lift_gce (gce_cloud gce)))
  else if bool_decide (flag = "openstack") then Some (OpenStackProvider openstack_cloud)
  else None.

Definition node_plugins (flag : string) : outcome (gmap string (VolumePlugin NodeE)) :=
  buildVolumePlugins random flag (Ok (node_provider flag)).

(** ** The plugins by their names *)

Lemma node_plugins_lookup flag plugins k p :
  node_plugins flag = Returned plugins -> plugins !! k = Some p ->
  (k = "hostPath" /\ p = HostPathPlugin.RegisterPlugin) \/
  (k = "aws_ebs" /\ p = AwsEBSPlugin.RegisterPlugin (lift_aws (aws_cloud aws random))) \/
  (k = "gce-pd" /\ p = GcePDPlugin.RegisterPlugin random (lift_gce (gce_cloud gce))) \/
  (k = "cinder" /\ p = CinderPlugin.RegisterPlugin openstack_cloud).
Proof.
  unfold node_plugins, node_provider, buildVolumePlugins. intros Hp Hk.
  repeat case_bool_decide; simplify_eq; try done;
    apply lookup_insert_Some in Hk as [[<- <-]|[_ Hk]]; try (by left);
    try (by rewrite lookup_empty in Hk);
    apply lookup_singleton_Some in Hk as [<- <-]; tauto.
Qed.

(** * Deletions *)

#[local] Abbreviation node_event := (event NodeE).
#[local] Abbreviation EvGce e x := (Event (E:=NodeE) (NodeGce (CallGce e)) x).
#[local] Abbreviation EvCinder e x := (Event (E:=NodeE) (NodeCinder e) x).

(** The calls with which the plugin of each type reports the snapshot of a
    source as deleted. *)
Inductive backend_deleted (src : VolumeSnapshotDataSource) : string -> list node_event -> Prop :=
| host_deleted h : ds_HostPath src = Some h ->
    backend_deleted src "hostPath" [Event (NodeHost (HostPathPlugin.OsRemove (hps_Path h))) None]
| aws_deleted s : ds_AWSElasticBlockStore src = Some s ->
    backend_deleted src "aws_ebs"
      [Event (NodeAws (CallEc2 (Ec2.DeleteSnapshot (awss_SnapshotID s)))) None]
| gce_absent s err : ds_GCEPersistentDiskSnapshot src = Some s -> isHTTPErrorCode err 404 = true ->
    backend_deleted src "gce-pd" [EvGce (SnapshotsGet (gces_SnapshotName s)) (Err err)]
| gce_deleted s snapshot op waited : ds_GCEPersistentDiskSnapshot src = Some s ->
    wait_outcome (Some op) (polled waited) None ->
    backend_deleted src "gce-pd"
      ([EvGce (SnapshotsGet (gces_SnapshotName s)) (Ok snapshot);
        EvGce (SnapshotsDelete (gces_SnapshotName s)) (Ok op)] ++ (lift_event <$> waited))
| cinder_asked s answer : ds_CinderSnapshot src = Some s ->
    backend_deleted src "cinder"
      [EvCinder (NewClient BlockStorageV2) None;
       EvCinder (SnapDelete (cinders_SnapshotID s)) answer].

(** Executions of straight-line code. *)
#[local] Arguments exec : simpl never.
#[local] Arguments lift : simpl never.
#[local] Arguments Gce.DeleteSnapshot : simpl never.
#[local] Arguments waitForGlobalOp : simpl never.
#[local] Arguments waitForZoneOp : simpl never.
#[local] Arguments wait_outcome : simpl never.
#[local] Arguments AwsVolumes.DeleteSnapshot : simpl never.
#[local] Arguments Cinder.DeleteSnapshot : simpl never.

#[local] Ltac exec_inv :=
  repeat match goal with
  | H : exec (Done _) _ _ |- _ => destruct H as [-> [=]]; subst
  | H : exec (Crash _) _ _ |- _ => destruct H as [_ [=]]
  | H : exec (ok _) _ _ |- _ => destruct H as [-> [=]]; subst
  | H : exec (fail _) _ _ |- _ => destruct H as [-> [=]]; subst
  | H : exec (trigger _) _ _ |- _ => destruct H as (? & ? & -> & H)
  | H : exec (Vis _ _) _ _ |- _ => destruct H as (? & ? & -> & H)
  | H : exec (bind _ _) _ _ |- _ =>
      let Hf := fresh "Hf" in
      apply exec_bind in H as [(? & H & [=])|(? & ? & ? & -> & H & Hf)]
  | H : exec (bind_ok _ _) _ _ |- _ => unfold bind_ok in H
  | H : exec (lift _) _ _ |- _ => apply exec_lift in H as (? & -> & H)
  | H : exec (match ?x with _ => _ end) _ _ |- _ => go_split x
  | _ => progress simplify_eq/=
  end.

Lemma gce_delete_exec name inner :
  exec (Gce.DeleteSnapshot name) inner (Returned None) ->
  (exists err, isHTTPErrorCode err 404 = true /\
     inner = [Event (CallGce (SnapshotsGet name)) (Err err)]) \/
  (exists snapshot op waited, wait_outcome (Some op) (polled waited) None /\
     inner = [Event (CallGce (SnapshotsGet name)) (Ok snapshot);
              Event (CallGce (SnapshotsDelete name)) (Ok op)] ++ waited)%list.
Proof.
  unfold Gce.DeleteSnapshot, getSnapshotByName. intros He. exec_inv.
  - right. eexists _, _, _. split; [|reflexivity].
    match goal with H : exec (waitForGlobalOp _) _ _ |- _ => rename H into Hw end.
    unfold waitForGlobalOp in Hw.
    apply (always_exec _ _ _ _ (waitForOp_outcome (fun name => GlobalOperationsGet name) _ []
             ltac:(intros ?; by right; right))) in Hw as (seen & err & -> & [= <-] & Hout).
    exact Hout.
  - left. eexists. split; [|reflexivity]. by destruct (isHTTPErrorCode _ _).
Qed.

Lemma plugin_deletes flag plugins k m src inner :
  node_plugins flag = Returned plugins ->
  method plugins (PSnapshotDelete k (Some src) None) = Some m ->
  exec m inner (Returned None) -> backend_deleted src k inner.
Proof.
  intros Hplugins Hm He. cbn in Hm.
  destruct (plugins !! k) as [p|] eqn:Hp; [|done]. injection Hm as <-.
  destruct (node_plugins_lookup flag plugins k p Hplugins Hp) as [[-> ->]|[[-> ->]|[[-> ->]|[-> ->]]]];
    cbn in He.
  - unfold HostPathPlugin.SnapshotDelete in He. exec_inv. by eapply host_deleted.
  - unfold AwsEBSPlugin.SnapshotDelete, lift_aws, aws_cloud, AwsVolumes.DeleteSnapshot in He.
    exec_inv. by apply aws_deleted.
  - unfold GcePDPlugin.SnapshotDelete in He. exec_inv.
    apply gce_delete_exec in He as [(err & Herr & ->)|(snapshot & op & waited & Hw & ->)].
    + by eapply gce_absent.
    + by eapply gce_deleted.
  - unfold CinderPlugin.SnapshotDelete, openstack_cloud, Cinder.DeleteSnapshot, snapshotService,
      new_client, v2_deleteSnapshot in He.
    exec_inv. by eapply cinder_asked.
Qed.

(** * A deletion that succeeded *)

#[local] Abbreviation EvApi e x := (Event (E:=CtlE NodeE) (CallApi e) x).
#[local] Abbreviation EvSys e x := (Event (E:=CtlE NodeE) (CallSys e) x).
#[local] Abbreviation EvWorld e x := (Event (E:=CtlE NodeE) (CallWorld e) x).

(** The calls behind the events of an execution on plugin calls. *)
#[local] Ltac expand_step :=
  match goal with
  | H : expands _ (Event _ _ :: _) _ |- _ =>
      let m := fresh "m" in let inner := fresh "inner" in
      let Hm := fresh "Hm" in let Hinner := fresh "Hinner" in let Hev := fresh "Hev" in
      destruct H as (? & ? & -> & Hev & H); cbn in Hev;
      first [destruct Hev as (m & inner & Hm & Hinner & ->) | subst]
  end.
#[local] Ltac expand_inv :=
  repeat expand_step; match goal with H : expands _ [] _ |- _ => cbn in H; subst end.

(** The calls of the controller and of its plugin, given those of the
    plugin. *)
Definition deletion_trace (snapshotName : string) (snapshot : VolumeSnapshot) (ns : string)
    (items : list VolumeSnapshotData) (d : VolumeSnapshotData) (claim : PersistentVolumeClaim)
    (pv : PersistentVolume) (inner : list node_event) (err : option error) : list (event (CtlE NodeE)) :=
  [EvApi (ListVolumeSnapshotData NamespaceDefault) (Ok items);
   EvApi (GetPersistentVolumeClaim ns (PersistentVolumeClaimName (vs_Spec snapshot))) (Ok claim);
   EvApi (GetPersistentVolume (pvc_VolumeName claim)) (Ok pv)]
  ++ (lift_event <$> inner)
  ++ [EvApi (DeleteVolumeSnapshotData NamespaceDefault (Name (vsd_Metadata d))) (Ok tt);
      EvWorld (AswDeleteSnapshot snapshotName) err].

(** A deletion that succeeded made the calls of its backend. *)
Lemma deletion_only_after_backend snapshotName snapshot flag plugins tr :
  node_plugins flag = Returned plugins ->
  exec (getSnapshotDeleteFunc plugins snapshotName snapshot) tr (Returned (Ok tt)) ->
  exists ns nm items d claim pv inner err,
    GetNameAndNameSpaceFromSnapshotName snapshotName = Ok (ns, nm) /\
    List.find (refers_to snapshotName) items = Some d /\
    pvc_Phase claim = ClaimBound /\
    backend_deleted (dspec_Source (vsd_Spec d)) (GetSupportedVolumeFromPVSpec (pv_Spec pv)) inner /\
    tr = deletion_trace snapshotName snapshot ns items d claim pv inner err.
Proof.
  intros Hplugins He.
  destruct (proj1 (opfunc_refines plugins (SnapshotDeleteFunc snapshotName snapshot)) _ _ He)
    as [(abs & Habs & Hx)|[? [=]]%plugin_panics_Panicked].
  apply (always_exec _ _ _ _ (deletion_success _ _ _)) in Habs
    as (items & d & ns & nm & claim & pv & err & Hfind & Hname & Hbound & _ & ->).
  expand_inv. exists ns, nm, items, d, claim, pv, inner, err.
  split_and!; [done..|by eapply (plugin_deletes flag plugins _ m)|done].
Qed.

(** One step of an execution. *)
Lemma exec_call {E : Type -> Type} {X A} (e : E X) x (k : X -> prog E A) rest o :
  exec (k x) rest o -> exec (Vis e k) (Event e x :: rest) o.
Proof. intros He. by exists x, rest. Qed.

Lemma cinder_forgets_refused snapshotName snapshot plugins ns nm items d claim pv s refusal err :
  node_plugins "openstack" = Returned plugins ->
  GetNameAndNameSpaceFromSnapshotName snapshotName = Ok (ns, nm) ->
  PersistentVolumeClaimName (vs_Spec snapshot) <> "" ->
  List.find (refers_to snapshotName) items = Some d -> pvc_Phase claim = ClaimBound ->
  GetSupportedVolumeFromPVSpec (pv_Spec pv) = "cinder" ->
  ds_CinderSnapshot (dspec_Source (vsd_Spec d)) = Some s ->
  exec (getSnapshotDeleteFunc plugins snapshotName snapshot)
    (deletion_trace snapshotName snapshot ns items d claim pv
       [EvCinder (NewClient BlockStorageV2) None;
        EvCinder (SnapDelete (cinders_SnapshotID s)) (Some refusal)] err) (Returned (Ok tt)).
Proof.
  intros Hplugins Hname Hclaim Hfind Hbound Htype Hs.
  assert (plugins !! "cinder" = Some (CinderPlugin.RegisterPlugin openstack_cloud)) as Hp
    by (injection Hplugins as <-; reflexivity).
  unfold getSnapshotDeleteFunc, getSnapshotDataFromSnapshotName, getPVFromVolumeSnapshot, deletion_trace.
  go_unfold. apply exec_call. destruct items as [|i items]; [done|]. cbn [bind].
  rewrite Hfind, Hname, bool_decide_eq_false_2 by done. cbn [bind].
  apply exec_call. cbn [bind]. rewrite bool_decide_eq_false_2 by (rewrite Hbound; by intros []).
  apply exec_call. cbn [bind].
  unfold deleteSnapshot, plugin_of. rewrite Htype, bool_decide_eq_false_2, Hp by done.
  cbn -[exec]. unfold CinderPlugin.SnapshotDelete. cbn. rewrite Hs. cbn.
  do 4 (eexists _, _; split; [reflexivity|]). by split.
Qed.


(** * Creations *)

(** The calls with which the plugin of each type takes a snapshot of a
    volume, and the source it gives for it. *)
Inductive backend_created (pv : PersistentVolume) :
    string -> VolumeSnapshotDataSource -> list node_event -> Prop :=
| host_created src uuid : HostPath (pv_Source (pv_Spec pv)) = Some src ->
    let file := "/tmp/" +:+ uuid +:+ ".tgz" in
    backend_created pv "hostPath"
      {| ds_HostPath := Some {| hps_Path := file |}; ds_AWSElasticBlockStore := None;
         ds_GCEPersistentDiskSnapshot := None; ds_CinderSnapshot := None |}
      [Event (NodeSys NewUUID) uuid;
       Event (NodeHost (HostPathPlugin.ExecRun "tar" ["czf"; file; hp_Path src])) None]
| aws_created src volumeID snapshot id : AWSElasticBlockStore (pv_Source (pv_Spec pv)) = Some src ->
    volumeID = match LastIndexByte (aws_VolumeID src) "/" with
               | Some slash => drop_bytes (S slash) (aws_VolumeID src)
               | None => aws_VolumeID src
               end ->
    sn_SnapshotId snapshot = Some id ->
    backend_created pv "aws_ebs"
      {| ds_HostPath := None; ds_AWSElasticBlockStore := Some {| awss_SnapshotID := id |};
         ds_GCEPersistentDiskSnapshot := None; ds_CinderSnapshot := None |}
      [Event (NodeAws (CallEc2 (Ec2.CreateSnapshot volumeID
                                  ("Created by Kubernetes for volume " +:+ volumeID))))
         (Ok (Some snapshot))]
| gce_created src now op waited : GCEPersistentDisk (pv_Source (pv_Spec pv)) = Some src ->
    let zone := default "" (Labels (pv_ObjectMeta pv) !! LabelZoneFailureDomain) in
    let name := Name (pv_ObjectMeta pv) +:+ pretty now in
    zone ∈ managedZones gce -> wait_outcome (Some op) (polled waited) None ->
    backend_created pv "gce-pd"
      {| ds_HostPath := None; ds_AWSElasticBlockStore := None;
         ds_GCEPersistentDiskSnapshot := Some {| gces_SnapshotName := name |};
         ds_CinderSnapshot := None |}
      ([Event (NodeSys Now) now;
        EvGce (DisksCreateSnapshot zone (gce_PDName src) name (encodeDiskTags ∅)) (Ok op)]
       ++ (lift_event <$> waited))
| cinder_created src now id : Cinder (pv_Source (pv_Spec pv)) = Some src ->
    let options := {| sco_VolumeID := cinder_VolumeID src;
                      sco_Name := Name (pv_ObjectMeta pv) +:+ pretty now;
                      sco_Description := "kubernetes snapshot"; sco_Metadata := ∅ |} in
    backend_created pv "cinder"
      {| ds_HostPath := None; ds_AWSElasticBlockStore := None; ds_GCEPersistentDiskSnapshot := None;
         ds_CinderSnapshot := Some {| cinders_SnapshotID := id |} |}
      [Event (NodeSys Now) now; EvCinder (NewClient BlockStorageV2) None;
       EvCinder (SnapCreate false options) (Ok id)].

#[local] Arguments drop_bytes : simpl never.
#[local] Arguments Gce.CreateSnapshot : simpl never.
#[local] Arguments AwsVolumes.CreateSnapshot : simpl never.
#[local] Arguments Cinder.CreateSnapshot : simpl never.

Lemma gce_create_exec disk zone name tags inner :
  exec (Gce.CreateSnapshot gce disk zone name tags) inner (Returned None) ->
  exists op waited, zone ∈ managedZones gce /\ wait_outcome (Some op) (polled waited) None /\
    inner = Event (CallGce (DisksCreateSnapshot zone disk name (encodeDiskTags tags))) (Ok op) :: waited.
Proof.
  unfold Gce.CreateSnapshot. intros He. exec_inv.
  all: rewrite app_nil_r; match goal with H : exec (waitForZoneOp _ _) _ _ |- _ => rename H into Hw end.
  all: apply (always_exec _ _ _ _ (zone_op_outcome _ _ [])) in Hw
    as (rest & seen & err & -> & <- & [= ->] & Hout).
  - by rewrite (wait_outcome_no_reason _ _ _ _ Hout) in Heqb0.
  - eexists _, _. split_and!; [|exact Hout|reflexivity].
    apply negb_false_iff in Heqb. by apply bool_decide_eq_true in Heqb.
Qed.

Lemma plugin_creates flag plugins k m pv source inner :
  node_plugins flag = Returned plugins ->
  method plugins (PSnapshotCreate k pv) = Some m ->
  exec m inner (Returned (Some source, None)) -> backend_created pv k source inner.
Proof.
  intros Hplugins Hm He. cbn in Hm.
  destruct (plugins !! k) as [p|] eqn:Hp; [|done]. injection Hm as <-.
  destruct (node_plugins_lookup flag plugins k p Hplugins Hp) as [[-> ->]|[[-> ->]|[[-> ->]|[-> ->]]]];
    cbn in He.
  - unfold HostPathPlugin.SnapshotCreate in He. exec_inv. by eapply host_created.
  - unfold AwsEBSPlugin.SnapshotCreate, lift_aws, aws_cloud, AwsVolumes.CreateSnapshot in He.
    exec_inv; try (unfold nil_dereference in *; exec_inv). by eapply aws_created.
  - unfold GcePDPlugin.SnapshotCreate, GcePDPlugin.createSnapshotName in He. exec_inv.
    match goal with H : exec (Gce.CreateSnapshot _ _ _ _ _) _ _ |- _ =>
      apply gce_create_exec in H as (op & waited & Hzone & Hw & ->) end.
    rewrite app_nil_r. by apply (gce_created pv g).
  - unfold CinderPlugin.SnapshotCreate, openstack_cloud, Cinder.CreateSnapshot, snapshotService,
      new_client, createSnapshot in He.
    exec_inv. by eapply cinder_created.
Qed.

(** The events of a creation after the plugin's: the object is stored, and
    the snapshot bound to it. *)
Definition recorded (snapshotName ns nm uuid : string) (data : VolumeSnapshotData) (errs : list error)
    (obj : VolumeSnapshotData) (got : res VolumeSnapshot) (copy : VolumeSnapshot)
    (items : list VolumeSnapshotData) (d : VolumeSnapshotData) (now : Z) (stored : VolumeSnapshot)
    : list ctl_event :=
  [Event (CallSys NewUUID) uuid] ++ failed_posts data errs
  ++ [Event (CallApi (PostVolumeSnapshotData NamespaceDefault data)) (Ok obj)]
  ++ update_calls snapshotName ns nm got copy items d now stored.

Lemma recorded_own n ns nm uuid data errs obj got copy items d now stored :
  existsb is_plugin_call (recorded n ns nm uuid data errs obj got copy items d now stored) = false.
Proof.
  unfold recorded. rewrite !existsb_app. cbn. rewrite orb_false_r.
  by induction errs as [|e errs IH].
Qed.


(** * Restorations *)

(** The calls that neither make nor delete a volume. *)
Definition aws_keeps (X : Type) (e : AwsE X) : Prop :=
  match e with CallEc2 (Ec2.CreateVolume _) | CallEc2 (Ec2.DeleteVolume _) => False | _ => True end.
Definition gce_keeps (X : Type) (e : GceSysE X) : Prop :=
  match e with CallGce (DisksInsert _ _) | CallGce (DisksDelete _ _) => False | _ => True end.
Definition keeps {E : Type -> Type} (P : forall X, E X -> Prop) (tr : list (event E)) : Prop :=
  Forall (fun ev => match ev with Event e _ => P _ e end) tr.

Lemma exec_only {E : Type -> Type} {A} (P : forall X, E X -> Prop) (p : prog E A) tr o :
  only P p -> exec p tr o -> keeps P tr.
Proof.
  intros Hp He. by apply (always_exec _ _ _ _ (only_always P p [] Hp)) in He as (new & -> & Hnew).
Qed.

Lemma createTags_keeps resourceID lifecycle extra t :
  only aws_keeps (createTags (E:=AwsE) resourceID lifecycle extra t).
Proof.
  unfold createTags. case_bool_decide; [done|]. apply only_bind.
  - apply only_backoff; [|done]. intros lastErr. unfold create_tags_once. only_exec.
  - intros [lastErr [[]|]]; done.
Qed.

Lemma getCandidateZones_keeps : only aws_keeps (getCandidateZonesForDynamicVolume aws).
Proof. unfold getCandidateZonesForDynamicVolume, describeInstances. only_exec. Qed.

Lemma GetVolumeLabels_keeps name : only aws_keeps (GetVolumeLabels name).
Proof. unfold GetVolumeLabels, describeVolume. only_exec. Qed.

Lemma used_zones_keeps zones used : only gce_keeps (used_zones zones used).
Proof.
  revert used; induction zones as [|zone zones IH]; intros used; cbn [used_zones]; [done|].
  only_exec. apply IH.
Qed.

Lemma GetAllZones_keeps : only gce_keeps (GetAllZones gce).
Proof. unfold GetAllZones. repeat case_match; first [done | apply used_zones_keeps]. Qed.

Lemma find_in_zones_keeps name zones found : only gce_keeps (find_in_zones name zones found).
Proof.
  revert found; induction zones as [|zone zones IH]; intros found; cbn [find_in_zones]; [done|].
  unfold findDiskByName. only_exec; apply IH.
Qed.

Lemma GetAutoLabels_keeps name zone : only gce_keeps (GetAutoLabelsForPD gce name zone).
Proof.
  unfold GetAutoLabelsForPD, getDiskByNameUnknownZone, getDiskByName, findDiskByName.
  only_exec; apply find_in_zones_keeps.
Qed.

Lemma waitForZoneOp_keeps op zone : only gce_keeps (waitForZoneOp op zone).
Proof.
  unfold waitForZoneOp, waitForOp. only_exec. apply only_Poll; [|done].
  unfold poll_operation. only_exec.
Qed.

(** The calls with which the plugin of each type makes a volume of a
    recorded snapshot, and the source of that volume.  Compute Engine may
    answer that a disk of the name exists already. *)
Inductive backend_restored (src : VolumeSnapshotDataSource) (pvName : string) :
    string -> PersistentVolumeSource -> list node_event -> Prop :=
| host_restored h uuid made : ds_HostPath src = Some h ->
    let dir := "/restore/" +:+ uuid in
    backend_restored src pvName "hostPath"
      {| HostPath := Some {| hp_Path := dir |}; AWSElasticBlockStore := None;
         GCEPersistentDisk := None; Cinder := None |}
      [Event (NodeSys NewUUID) uuid;
       Event (NodeHost (HostPathPlugin.OsMkdirAll dir 488)) made;
       Event (NodeHost (HostPathPlugin.ExecRun "tar"
                ["xzf"; hps_Path h; "-C"; dir; "--strip-components=1"])) None]
| aws_restored s request v before after : ds_AWSElasticBlockStore src = Some s ->
    cv_SnapshotId request = (if bool_decide (awss_SnapshotID s <> "") then Some (awss_SnapshotID s) else None) ->
    keeps aws_keeps before -> keeps aws_keeps after ->
    backend_restored src pvName "aws_ebs"
      {| HostPath := None;
         AWSElasticBlockStore :=
           Some {| aws_VolumeID := "aws://" +:+ StringValue (vol_AvailabilityZone v) +:+ "/"
                                   +:+ StringValue (vol_VolumeId v);
                   aws_FSType := "ext4"; aws_Partition := 0; aws_ReadOnly := false |};
         GCEPersistentDisk := None; Cinder := None |}
      (lift_event <$> (before ++ [Event (CallEc2 (Ec2.CreateVolume request)) (Ok v)] ++ after)%list)
| gce_restored s zone disk answer before waited after : ds_GCEPersistentDiskSnapshot src = Some s ->
    dc_Name disk = pvName -> dc_SourceSnapshot disk = "global/snapshots/" +:+ gces_SnapshotName s ->
    match answer with
    | Ok op => wait_outcome (Some op) (polled waited) None
    | Err err => isGCEError (Some err) "alreadyExists" = true
    end ->
    keeps gce_keeps before -> keeps gce_keeps waited -> keeps gce_keeps after ->
    backend_restored src pvName "gce-pd"
      {| HostPath := None; AWSElasticBlockStore := None;
         GCEPersistentDisk := Some {| gce_PDName := pvName; gce_FSType := "ext4"; gce_Partition := 0;
                                      gce_ReadOnly := false |};
         Cinder := None |}
      (lift_event <$> (before ++ [Event (CallGce (DisksInsert zone disk)) answer] ++ waited ++ after)%list)
| cinder_restored s options volumeID zone : ds_CinderSnapshot src = Some s ->
    vco_Name options = pvName -> vco_SourceSnapshotID options = cinders_SnapshotID s ->
    backend_restored src pvName "cinder"
      {| HostPath := None; AWSElasticBlockStore := None; GCEPersistentDisk := None;
         Cinder := Some {| cinder_VolumeID := volumeID; cinder_FSType := "ext4"; cinder_ReadOnly := false |} |}
      [EvCinder (NewClient BlockStorageV2) None; EvCinder (VolumeCreate options) (Ok (volumeID, zone))].

#[local] Arguments AwsVolumes.CreateDisk : simpl never.
#[local] Arguments GetVolumeLabels : simpl never.
#[local] Arguments GetAutoLabelsForPD : simpl never.
#[local] Arguments GetAllZones : simpl never.
#[local] Arguments CreateDiskFromSnapshot : simpl never.
#[local] Arguments Cinder.CreateVolume : simpl never.
#[local] Arguments tag_volume : simpl never.
#[local] Arguments keeps : simpl never.
#[local] Arguments isGCEError : simpl never.

Lemma keeps_app {E : Type -> Type} (P : forall X, E X -> Prop) (tr tr' : list (event E)) :
  keeps P tr -> keeps P tr' -> keeps P (tr ++ tr').
Proof. intros. by apply Forall_app. Qed.

Lemma ChooseZone_keeps {E : Type -> Type} (P : forall X, E X -> Prop) zones name :
  only P (ChooseZoneForVolume random zones name).
Proof. unfold ChooseZoneForVolume. only_exec. Qed.

(** A tagging that succeeded did not delete the volume. *)
Lemma tag_volume_exec awsID volumeName tags name inner :
  exec (tag_volume aws awsID volumeName tags) inner (Returned (Ok name)) ->
  name = volumeName /\ keeps aws_keeps inner.
Proof.
  unfold tag_volume. intros He. exec_inv. rewrite app_nil_r. split; [done|].
  eapply exec_only; [apply createTags_keeps|done].
Qed.

(** A disk that was created and tagged. *)
Lemma aws_create_exec opts name inner :
  exec (AwsVolumes.CreateDisk aws random opts) inner (Returned (Ok name)) ->
  exists request v before after,
    inner = (before ++ [Event (CallEc2 (Ec2.CreateVolume request)) (Ok v)] ++ after)%list /\
    cv_SnapshotId request = (if bool_decide (SnapshotId opts <> "") then Some (SnapshotId opts) else None) /\
    name = "aws://" +:+ StringValue (vol_AvailabilityZone v) +:+ "/" +:+ StringValue (vol_VolumeId v) /\
    keeps aws_keeps before /\ keeps aws_keeps after.
Proof.
  unfold AwsVolumes.CreateDisk, bind_or. intros He. exec_inv.
  all: match goal with H : exec (tag_volume _ _ _ _) _ _ |- _ =>
         apply tag_volume_exec in H as [-> Hafter] end;
    match goal with H : exec (getCandidateZonesForDynamicVolume _) _ _ |- _ =>
      apply (exec_only aws_keeps) in H as Hbefore; [|apply getCandidateZones_keeps] end.
  - match goal with H : exec (ChooseZoneForVolume _ _ _) _ _ |- _ =>
      apply (exec_only aws_keeps) in H as Hzone; [|apply ChooseZone_keeps] end.
    do 2 eexists. eexists (_ ++ _)%list, _. rewrite <- app_assoc.
    split_and!; [reflexivity|done|done|by apply keeps_app|done].
  - do 4 eexists. split_and!; [reflexivity|done..].
Qed.

Lemma gce_create_disk_exec snapshot name diskType zone sizeGb tags inner :
  exec (CreateDiskFromSnapshot gce snapshot name diskType zone sizeGb tags) inner (Returned None) ->
  exists disk answer waited,
    inner = Event (CallGce (DisksInsert zone disk)) answer :: waited /\
    dc_Name disk = name /\ dc_SourceSnapshot disk = "global/snapshots/" +:+ snapshot /\
    match answer with
    | Ok op => wait_outcome (Some op) (polled waited) None
    | Err err => isGCEError (Some err) "alreadyExists" = true
    end /\ keeps gce_keeps waited.
Proof.
  unfold CreateDiskFromSnapshot. intros He. exec_inv; rewrite ?app_nil_r in *.
  - do 3 eexists. split_and!; [reflexivity|done|done| |constructor]. by destruct x2.
  - rename select (exec _ _ _) into Hw. apply (exec_only gce_keeps) in Hw as Hk; [|apply waitForZoneOp_keeps].
    apply (always_exec _ _ _ _ (zone_op_outcome _ _ [])) in Hw as (rest & seen & err & -> & <- & [= ->] & Hout).
    by rewrite (wait_outcome_no_reason _ _ _ _ Hout) in *.
  - rename select (exec _ _ _) into Hw. apply (exec_only gce_keeps) in Hw as Hk; [|apply waitForZoneOp_keeps].
    apply (always_exec _ _ _ _ (zone_op_outcome _ _ [])) in Hw as (rest & seen & err & -> & <- & [= <-] & Hout).
    do 3 eexists. split_and!; [reflexivity|done|done| |done]. destruct x2; [done|by destruct Hout].
Qed.

(** The parameters of the storage class do not touch the snapshot. *)
Lemma apply_parameters_snapshot parameters opts opts' :
  AwsEBSPlugin.apply_parameters opts parameters = Ok opts' -> SnapshotId opts' = SnapshotId opts.
Proof.
  revert opts; induction parameters as [|[k v] parameters IH]; intros opts; cbn; [by intros [= ->]|].
  destruct (AwsEBSPlugin.apply_parameter opts k v) as [opts1|e] eqn:Hone; [|done].
  intros ->%IH. unfold AwsEBSPlugin.apply_parameter in Hone.
  repeat case_match; try discriminate; by injection Hone as <-.
Qed.

Lemma GenerateVolumeName_exec cluster pvName n (tr : list node_event) o :
  exec (GenerateVolumeName cluster pvName n) tr o -> tr = [].
Proof. unfold GenerateVolumeName. intros He. repeat (case_match; cbn in He); by destruct He as [-> _]. Qed.

Lemma ChooseZone_exec zones name (tr : list node_event) o :
  exec (ChooseZoneForVolume random zones name) tr o -> tr = [].
Proof.
  intros He. apply (exec_only (fun _ _ => False)) in He; [|apply ChooseZone_keeps].
  destruct tr as [|[X e x] tr]; [done|]. by apply Forall_cons in He as [[] _].
Qed.

(** A source was given: it is of a volume made of the snapshot. *)
Lemma plugin_restores flag plugins k m d pvc pvName parameters source labels err inner :
  node_plugins flag = Returned plugins ->
  method plugins (PSnapshotRestore k (Some d) pvc pvName parameters) = Some m ->
  exec m inner (Returned (Some source, labels, err)) ->
  err = None /\ backend_restored (dspec_Source (vsd_Spec d)) pvName k source inner.
Proof.
  intros Hplugins Hm He. cbn in Hm.
  destruct (plugins !! k) as [p|] eqn:Hp; [|done]. injection Hm as <-.
  destruct (node_plugins_lookup flag plugins k p Hplugins Hp) as [[-> ->]|[[-> ->]|[[-> ->]|[-> ->]]]];
    cbn in He.
  - unfold HostPathPlugin.SnapshotRestore in He. cbn in He. exec_inv. split; [done|]. by eapply host_restored.
  - unfold AwsEBSPlugin.SnapshotRestore in He. cbn in He. exec_inv.
    rename select (exec (GenerateVolumeName _ _ _) _ _) into Hg. apply GenerateVolumeName_exec in Hg as ->.
    rename select (exec (AwsVolumes.CreateDisk _ _ _) _ _) into Hc.
    apply aws_create_exec in Hc as (request & v & before & after & -> & Hs & -> & Hbefore & Hafter).
    rename select (exec (GetVolumeLabels _) _ _) into Hl.
    apply (exec_only aws_keeps) in Hl; [|apply GetVolumeLabels_keeps].
    rename select (AwsEBSPlugin.apply_parameters _ _ = _) into Ha. apply apply_parameters_snapshot in Ha.
    split; [done|]. rewrite !app_nil_r, app_nil_l, <- fmap_app, <- !app_assoc.
    eapply aws_restored; [done|by rewrite Hs, Ha|done|by apply keeps_app].
  - unfold GcePDPlugin.SnapshotRestore in He. cbn in He. exec_inv.
    all: rename select (exec (CreateDiskFromSnapshot _ _ _ _ _ _ _) _ _) into Hc.
    all: apply gce_create_disk_exec in Hc as (disk & answer & waited & -> & Hname & Hsnap & Hout & Hw).
    all: rename select (exec (GetAutoLabelsForPD _ _ _) _ _) into Hl.
    all: apply (exec_only gce_keeps) in Hl; [|apply GetAutoLabels_keeps].
    + rename select (exec (ChooseZoneForVolume _ _ _) _ _) into Hz. apply ChooseZone_exec in Hz as ->.
      rename select (exec (GetAllZones _) _ _) into Hg.
      apply (exec_only gce_keeps) in Hg; [|apply GetAllZones_keeps].
      split; [done|]. rewrite !app_nil_r, <- !fmap_app, <- ?app_assoc.
      by eapply gce_restored.
    + split; [done|]. rewrite !app_nil_r, <- !fmap_app. by eapply (gce_restored _ _ _ _ _ _ []); [..|constructor| |].
  - unfold CinderPlugin.SnapshotRestore in He. cbn in He.
    unfold Cinder.CreateVolume, volumeService, new_client, v2_createVolume in He. exec_inv.
    split; [done|]. by eapply cinder_restored.
Qed.

(** C7: A provisioning, down to the cloud.  With the plugins registered for
    any flag, whenever a volume is provisioned, the node read the snapshot of
    the claim, its data object and the volume it was taken of, and then made
    exactly the calls with which that volume's backend makes a volume of the
    snapshot the object records, one volume and none deleted again; the volume
    returned has the source these calls give.  The exceptions are those of the
    backends: an object without an identifier makes an empty EBS volume, and
    Compute Engine may answer that a disk of the name exists, whatever is on
    it. *)
Theorem provisioning_restores_recorded flag plugins identity options tr pv :
  node_plugins flag = Returned plugins ->
  exec (Provision plugins identity options) tr (Returned (Ok pv)) ->
  exists snapshotName s d ref origin source labels inner,
    Annotations (pvc_ObjectMeta (opt_PVC options)) !! SnapshotPVCAnnotation = Some snapshotName /\
    PersistentVolumeRef (vsd_Spec d) = Some ref /\
    backend_restored (dspec_Source (vsd_Spec d)) (opt_PVName options)
      (GetSupportedVolumeFromPVSpec (pv_Spec origin)) source inner /\
    tr = ([EvApi (GetVolumeSnapshot (Namespace (pvc_ObjectMeta (opt_PVC options))) snapshotName) (Ok s);
           EvApi (GetVolumeSnapshotData NamespaceDefault (SnapshotDataName (vs_Spec s))) (Ok d);
           EvApi (GetPersistentVolume (ref_Name ref)) (Ok origin)] ++ (lift_event <$> inner))%list /\
    pv = provisioned identity options source labels.
Proof.
  intros Hplugins He.
  destruct (proj1 (Provision_refines plugins identity options) _ _ He)
    as [(abs & Habs & Hx)|[? [=]]%plugin_panics_Panicked].
  apply (always_exec _ _ _ _ (Provision_success _ _ _)) in Habs
    as (snapshotName & s & d & ref & origin & source & labels & err & _ & Hann & Href & _ & -> & ->).
  expand_inv. exists snapshotName, s, d, ref, origin, source, labels, inner.
  rewrite app_nil_r. split_and!; [done|done| |done|done].
  by eapply (plugin_restores flag plugins _ m).
Qed.
End node.

(** * Concrete executions *)

Definition example_cloud : Cloud :=
  {| tagging := {| ClusterID := "c"; usesLegacyTags := false |};
     selfAWSInstance := {| awsID := "i-1"; nodeName := "n"; availabilityZone := "us-east-1a"; vpcID := "";
                           subnetID := ""; instanceType := "" |} |}.

Definition example_gce : GCECloud :=
  {| projectID := "p"; gce_region := "r"; localZone := "r-a"; managedZones := ["r-a"]; networkURL := "";
     nodeTags := []; nodeInstancePrefix := ""; useMetadataServer := false |}.

Definition ebs_pv : PersistentVolume :=
  {| pv_ObjectMeta := named "pv";
     pv_Spec := {| Capacity := ∅;
                   pv_Source := {| HostPath := None;
                                   AWSElasticBlockStore :=
                                     Some {| aws_VolumeID := "aws://us-east-1a/vol-1"; aws_FSType := "ext4";
                                             aws_Partition := 0; aws_ReadOnly := false |};
                                   GCEPersistentDisk := None; Cinder := None |};
                   AccessModes := []; PersistentVolumeReclaimPolicy := "Delete" |} |}.

Definition ebs_source : VolumeSnapshotDataSource :=
  {| ds_HostPath := None; ds_AWSElasticBlockStore := Some {| awss_SnapshotID := "snap-1" |};
     ds_GCEPersistentDiskSnapshot := None; ds_CinderSnapshot := None |}.

#[local] Instance sorted : MapRange := map_range_sorted.
#[local] Instance parse : UrlParse := parse_aws.
#[local] Instance marshal : JsonMarshal := fun _ => "".

(** A node on AWS. *)
Definition aws_node : outcome (gmap string (VolumePlugin NodeE)) :=
  node_plugins example_cloud 0 example_gce "aws".



(** Provisioning a volume of a snapshot that is a file. *)
Lemma provisioning_restores_recorded_witness :
  exists plugins options tr pv,
    node_plugins example_cloud 0 example_gce "" = Returned plugins /\
    exec (Provision plugins "me" options) tr (Returned (Ok pv)) /\
    exists d origin source inner,
      backend_restored (dspec_Source (vsd_Spec d)) (opt_PVName options)
        (GetSupportedVolumeFromPVSpec (pv_Spec origin)) source inner.
Proof.
  destruct (node_plugins example_cloud 0 example_gce "") as [plugins|] eqn:Hp; [|discriminate Hp].
  pose (claim := {| pvc_ObjectMeta := {| Name := "restored"; Namespace := "ns"; SelfLink := ""; Labels := ∅;
                                         Annotations := {[SnapshotPVCAnnotation := "a"]} |};
                    pvc_AccessModes := []; pvc_Selector := None; pvc_Requests := ∅; pvc_VolumeName := "";
                    pvc_Phase := "Pending" |}).
  pose (options := {| opt_ReclaimPolicy := "Delete"; opt_PVName := "pvc-1"; opt_PVC := claim;
                      opt_Parameters := ∅ |}).
  assert (exists pv, exec (Provision plugins "me" options)
    [Event (CallApi (GetVolumeSnapshot "ns" "a")) (Ok (example_snapshot "a" "d"));
     Event (CallApi (GetVolumeSnapshotData NamespaceDefault "d")) (Ok (example_data "d"));
     Event (CallApi (GetPersistentVolume "pv")) (Ok example_pv);
     Event (CallPlugin (NodeSys NewUUID)) "7";
     Event (CallPlugin (NodeHost (HostPathPlugin.OsMkdirAll "/restore/7" 488))) None;
     Event (CallPlugin (NodeHost (HostPathPlugin.ExecRun "tar"
              ["xzf"; "/tmp/1.tgz"; "-C"; "/restore/7"; "--strip-components=1"]))) None]
    (Returned (Ok pv))) as [pv He].
  { injection Hp as <-. eexists. do 6 (eexists _, _; split; [reflexivity|]). by split. }
  exists plugins, options. do 2 eexists. split; [done|]. split; [exact He|].
  destruct (provisioning_restores_recorded example_cloud 0 example_gce "" plugins "me" options _ pv Hp He)
    as (n & s & d & ref & origin & source & labels & inner & _ & _ & Hr & _).
  exists d, origin, source, inner. exact Hr.
Defined.
