(* ===== verification/System.v ===== *)
(** The running controller: the reconciliation loop, the goroutines of the
    goroutine map and the writers of the desired state, interleaved call by
    call over the shared states of the world.

    The answers of the API server, the plugins, the clock and the libraries
    are arbitrary; the calls to the states of the world and to the goroutine
    map are answered by those components.  A panic inside an operation is
    recovered by the goroutine map; a panic of the reconciliation loop ends
    the process ([wait.Until] re-panics after logging). *)

From S2P Require Import Prelude GoStrings Types Cache GoRoutineMap Api Plugin Snapshotter Reconciler Populator Controller Examples.

#[local] Open Scope string_scope.

Abbreviation ctl_prog := (prog (CtlE PluginE) (res unit)).

Record sys := {
  sy_worlds : worlds;
  sy_threads : pool ctl_prog;
  sy_loop : prog (LoopE PluginE) unit;
  sy_crashed : bool;
}.

(** Who moves next, and what the environment answers. *)
Inductive choice :=
| Desire (s : VolumeSnapshot)
| Undesire (snapshotName : string)
| StartRound
| LoopStep (ans : forall X, CtlE PluginE X -> X) (now : Z)
| WorkStep (i : nat) (ans : forall X, CtlE PluginE X -> X) (now : Z).

Section system.
Context `{MapRange} (names : list string).

(** The system of a controller, before its loops start. *)
Definition sys_of (c : snapshotController) : sys :=
  {| sy_worlds := {| dsw := desiredStateOfWorld c; asw := actualStateOfWorld c |};
     sy_threads := Build_pool (runningOperation c) [];
     sy_loop := Done tt; sy_crashed := false |}.

Definition sys_init : sys :=
  {| sy_worlds := {| dsw := DesiredStateOfWorld.NewDesiredStateOfWorld;
                     asw := ActualStateOfWorld.NewActualStateOfWorld |};
     sy_threads := pool_init; sy_loop := Done tt; sy_crashed := false |}.

(** Every new controller starts there. *)
Lemma sys_of_new syncDuration_ :
  always (NewSnapshotController (PE:=PluginE) syncDuration_)
    (fun _ o => exists c, o = Returned c /\ sys_of c = sys_init) [].
Proof. cbn. intros now. by eexists. Qed.

(** The answer to a call of an operation. *)
Definition answer_ctl (ans : forall X, CtlE PluginE X -> X) : handler (CtlE PluginE) worlds :=
  fun X e w =>
    match e with
    | CallWorld e => handle_world _ e w
    | e => (ans _ e, w)
    end.

(** The answer to a call of the loop. *)
Definition answer_loop (ans : forall X, CtlE PluginE X -> X) (now : Z)
    : handler (LoopE PluginE) (worlds * pool ctl_prog) := fun X e st =>
  match e with
  | CallCtl e => let '(x, w') := answer_ctl ans _ e st.1 in (x, (w', st.2))
  | CallOp e =>
      match e in OpE X return X * (worlds * pool ctl_prog) with
      | RunOperation name f =>
          match Run now name (pool_map st.2) with
          | (None, grm') =>
              (None, (st.1, Build_pool grm' ((name, opfunc_body (clients names) f)
                                             :: goroutines st.2)))
          | (Some err, grm') => (Some err, (st.1, Build_pool grm' (goroutines st.2)))
          end
      end
  end.

Definition set_worlds (w : worlds) (s : sys) : sys :=
  {| sy_worlds := w; sy_threads := sy_threads s; sy_loop := sy_loop s; sy_crashed := sy_crashed s |}.
Definition set_loop (p : prog (LoopE PluginE) unit) (s : sys) : sys :=
  {| sy_worlds := sy_worlds s; sy_threads := sy_threads s; sy_loop := p; sy_crashed := sy_crashed s |}.

(** The goroutine [i] makes its next call, or ends. *)
Definition work_step (i : nat) (ans : forall X, CtlE PluginE X -> X) (now : Z) (s : sys) : option sys :=
  match goroutines (sy_threads s) !! i with
  | None => None
  | Some (name, Vis e k) =>
      let '(x, w') := answer_ctl ans _ e (sy_worlds s) in
      Some {| sy_worlds := w';
              sy_threads := Build_pool (pool_map (sy_threads s))
                              (<[i := (name, k x)]> (goroutines (sy_threads s)));
              sy_loop := sy_loop s; sy_crashed := sy_crashed s |}
  | Some (name, Done r) =>
      Some {| sy_worlds := sy_worlds s;
              sy_threads :=
                Build_pool (operationComplete now name (goroutine_error (Returned (res_error r)))
                              (pool_map (sy_threads s)))
                           (delete i (goroutines (sy_threads s)));
              sy_loop := sy_loop s; sy_crashed := sy_crashed s |}
  | Some (name, Crash why) =>
      Some {| sy_worlds := sy_worlds s;
              sy_threads :=
                Build_pool (operationComplete now name (goroutine_error (Panicked why))
                              (pool_map (sy_threads s)))
                           (delete i (goroutines (sy_threads s)));
              sy_loop := sy_loop s; sy_crashed := sy_crashed s |}
  end.

(** One step of the system; [None] if the choice is not possible. *)
Definition step (c : choice) (s : sys) : option sys :=
  if sy_crashed s then None else
  match c with
  | Desire v => Some (set_worlds (handle_world _ (DswAddSnapshot (Some v)) (sy_worlds s)).2 s)
  | Undesire n => Some (set_worlds (handle_world _ (DswDeleteSnapshot n) (sy_worlds s)).2 s)
  | StartRound =>
      match sy_loop s with Done _ => Some (set_loop reconcile s) | _ => None end
  | LoopStep ans now =>
      match sy_loop s with
      | Done _ => None
      | Crash _ => Some {| sy_worlds := sy_worlds s; sy_threads := sy_threads s;
                           sy_loop := sy_loop s; sy_crashed := true |}
      | Vis e k =>
          let '(x, (w', p')) := answer_loop ans now _ e (sy_worlds s, sy_threads s) in
          Some {| sy_worlds := w'; sy_threads := p'; sy_loop := k x; sy_crashed := false |}
      end
  | WorkStep i ans now => work_step i ans now s
  end.

Definition sys_step (s s' : sys) : Prop := exists c, step c s = Some s'.
Definition reachable (s : sys) : Prop := rtc sys_step sys_init s.

Fixpoint steps (cs : list choice) (s : sys) : option sys :=
  match cs with
  | [] => Some s
  | c :: cs' => match step c s with Some s' => steps cs' s' | None => None end
  end.

Lemma steps_rtc cs s s' : steps cs s = Some s' -> rtc sys_step s s'.
Proof.
  revert s; induction cs as [|c cs IH]; cbn; intros s; [intros [= <-]; constructor|].
  destruct (step c s) as [s1|] eqn:Hs; [|done]. intros Hrest.
  eapply rtc_l; [by exists c|]. by apply IH.
Qed.

(** * Invariants *)

(** An operation adds only bound snapshots to the actual state. *)
Definition adds_bound X (e : CtlE PluginE X) : Prop :=
  match e with
  | CallWorld (AswAddSnapshot s) => SnapshotDataName (vs_Spec s) <> ""
  | _ => True
  end.

(** The loop only reads the states and starts operations ... *)
Definition loop_quiet X (e : LoopE PluginE X) : Prop :=
  match e with
  | CallOp _ => True
  | CallCtl (CallWorld (DswGetSnapshots | DswSnapshotExists _ | AswGetSnapshots
                       | AswGetSnapshot _ | AswSnapshotExists _)) => True
  | _ => False
  end.

(** ... as long as the snapshots it reads from the actual state are bound. *)
Definition reads_bound X (e : LoopE PluginE X) : X -> Prop :=
  match e with
  | CallCtl (CallWorld e) =>
      match e in WorldE X return X -> Prop with
      | AswGetSnapshot _ => fun o => match o with
                                     | Some s => SnapshotDataName (vs_Spec s) <> ""
                                     | None => True
                                     end
      | _ => fun _ => True
      end
  | _ => fun _ => True
  end.

Record sys_inv (s : sys) : Prop := {
  si_pool : pool_inv (sy_threads s);
  si_keyed : worlds_keyed (sy_worlds s);
  si_bound : asw_bound (sy_worlds s);
  si_work : Forall (fun '(_, p) => only adds_bound p) (goroutines (sy_threads s));
  si_loop : along reads_bound loop_quiet (sy_loop s);
}.

Lemma post_only tries data : only adds_bound (postSnapshotData tries data).
Proof.
  induction tries as [|tries IH]; cbn; [done|]. split; [done|]. intros [|]; cbn; [done|].
  split; [done|]. intros []. by destruct tries.
Qed.

#[local] Ltac only_exec :=
  cbn; repeat (first
    [ progress go_hook
    | lazymatch goal with
      | |- True => exact I
      | |- _ /\ _ => split
      | |- forall _, _ => intros ?
      | |- only _ (bind (postSnapshotData _ _) _) => apply only_bind; [apply post_only|]
      | |- only _ (match ?x with _ => _ end) => go_split x
      | |- only _ (bind (match ?x with _ => _ end) _) => go_split x
      | |- only _ (bind (bind (match ?x with _ => _ end) _) _) => go_split x
      | |- only _ (bind (bind (bind (match ?x with _ => _ end) _) _) _) => go_split x
      end ]; cbn).

Lemma UpdateVolumeSnapshot_only n : only adds_bound (UpdateVolumeSnapshot n).
Proof. unfold UpdateVolumeSnapshot, getSnapshotDataFromSnapshotName. go_unfold. only_exec. Qed.

Lemma status_only n s :
  SnapshotDataName (vs_Spec s) <> "" ->
  only adds_bound (updateSnapshotDataStatus (clients names) n s).
Proof.
  intros Hs. unfold updateSnapshotDataStatus, getPVFromVolumeSnapshot, plugin_of,
    UpdateVolumeSnapshotData. go_unfold. only_exec; done.
Qed.

Lemma opfunc_only f : only adds_bound (opfunc_body (clients names) f).
Proof.
  destruct f as [n s|n s|n s]; cbn [opfunc_body].
  - unfold getSnapshotCreateFunc. case_bool_decide; [by apply status_only|].
    unfold getPVFromVolumeSnapshot, takeSnapshot, plugin_of. go_unfold. only_exec.
    all: apply only_bind; [apply UpdateVolumeSnapshot_only|]; by intros [|].
  - unfold getSnapshotDeleteFunc, getSnapshotDataFromSnapshotName, getPVFromVolumeSnapshot,
      deleteSnapshot, plugin_of. go_unfold. only_exec.
  - done.
Qed.

Lemma reconcile_quiet : along reads_bound loop_quiet reconcile.
Proof.
  unfold reconcile. cbn. split; [done|]. intros known _.
  apply along_bind; [|intros _; cbn; split; [done|]; intros desired _];
    apply along_for_each; intros [n s]; cbn; (split; [done|]); intros [|] _; cbn.
  1,2,4: by repeat split.
  split; [done|]. intros [s'|]; cbn; [|done]. intros Hs'.
  by rewrite bool_decide_eq_false_2.
Qed.

(** ** The invariant is kept *)

Lemma sys_inv_init : sys_inv sys_init.
Proof.
  split; cbn.
  - apply pool_inv_init.
  - split; apply map_Forall_empty.
  - apply map_Forall_empty.
  - constructor.
  - done.
Qed.

Lemma answer_ctl_inv ans X (e : CtlE PluginE X) w x w' :
  answer_ctl ans X e w = (x, w') -> adds_bound X e -> worlds_keyed w -> asw_bound w ->
  worlds_keyed w' /\ asw_bound w'.
Proof.
  intros Ha He Hk Hb. destruct e as [e|e|e|e]; cbn in Ha; try by simplify_eq.
  assert (w' = (handle_world X e w).2) as -> by by rewrite Ha.
  split; [by apply handle_world_keyed|]. unfold asw_bound in *.
  destruct e as [[s|]|n| |n|s|n| |n|n]; cbn; try done.
  - by apply map_Forall_insert_2.
  - by apply map_Forall_delete.
Qed.

Lemma pool_inv_work (grm : goRoutineMap) (gs : list (string * ctl_prog)) i name p p' :
  gs !! i = Some (name, p) ->
  pool_inv (Build_pool grm gs) -> pool_inv (Build_pool grm (<[i := (name, p')]> gs)).
Proof.
  intros Hi [Hnd Hpend Hb He]. cbn in *.
  assert ((<[i := (name, p')]> gs).*1 = gs.*1) as Heq.
  { rewrite list_fmap_insert. apply list_insert_id. by rewrite list_lookup_fmap, Hi. }
  split; cbn; rewrite ?Heq; done.
Qed.

Lemma pool_inv_end now grm (gs : list (string * ctl_prog)) i name p err :
  gs !! i = Some (name, p) ->
  pool_inv (Build_pool grm gs) ->
  pool_inv (Build_pool (operationComplete now name err grm) (delete i gs)).
Proof.
  intros Hi Hinv. rewrite delete_take_drop. rewrite <- (take_drop_middle _ _ _ Hi) in Hinv.
  by eapply pool_inv_complete.
Qed.

Lemma work_step_inv i ans now s s' :
  sys_inv s -> work_step i ans now s = Some s' -> sys_inv s'.
Proof.
  intros [Hp Hk Hb Hw Hl]. unfold work_step. destruct s as [w [grm gs] l c]; cbn in *.
  destruct (gs !! i) as [[name p]|] eqn:Hi; [|done].
  pose proof (Forall_lookup_1 _ _ _ _ Hw Hi) as Hpi; cbn in Hpi.
  destruct p as [r|why|X e k].
  - intros [= <-]. split; cbn; try done; [by eapply pool_inv_end | by apply Forall_delete].
  - intros [= <-]. split; cbn; try done; [by eapply pool_inv_end | by apply Forall_delete].
  - destruct Hpi as [He Hpi]. destruct (answer_ctl ans X e w) as [x w'] eqn:Ha.
    intros [= <-].
    destruct (answer_ctl_inv _ _ _ _ _ _ Ha He Hk Hb) as [Hk' Hb'].
    split; cbn; try done; [by eapply pool_inv_work|].
    apply Forall_insert; [done|]. apply Hpi.
Qed.

Lemma loop_step_inv ans now X (e : LoopE PluginE X) w p x w' p' :
  answer_loop ans now X e (w, p) = (x, (w', p')) ->
  loop_quiet X e -> pool_inv p -> asw_bound w ->
  Forall (fun '(_, q) => only adds_bound q) (goroutines p) ->
  w' = w /\ reads_bound X e x /\ pool_inv p' /\
  Forall (fun '(_, q) => only adds_bound q) (goroutines p').
Proof.
  intros Ha Hq Hp Hb Hw. destruct e as [[e|e|e|e]|e]; cbn in Ha, Hq; try done.
  - destruct e as [s|n| |n|s|n| |n|n]; cbn in *; simplify_eq; try done.
    split_and!; try done. unfold ActualStateOfWorld.GetSnapshot.
    destruct (_ !! n) as [s|] eqn:Hs; [|done]. by apply (Hb n).
  - destruct e as [name f]. destruct (Run now name (pool_map p)) as [[err|] grm'] eqn:Hrun;
      simplify_eq; cbn.
    + split_and!; try done. apply Run_refused in Hrun as ->. by destruct p.
    + split_and!; try done; [by eapply pool_inv_start|].
      constructor; [apply opfunc_only|done].
Qed.

Lemma step_inv c s s' : sys_inv s -> step c s = Some s' -> sys_inv s'.
Proof.
  intros Hinv. unfold step. destruct (sy_crashed s); [done|].
  destruct c as [v|n| |ans now|i ans now]; [| | | |by apply work_step_inv].
  - intros [= <-]. destruct Hinv as [Hp [Hkd Hka] Hb Hw Hl]. split; cbn; try done.
    by split; [apply keyed_insert|].
  - intros [= <-]. destruct Hinv as [Hp [Hkd Hka] Hb Hw Hl]. split; cbn; try done.
    by split; [apply keyed_delete|].
  - destruct Hinv as [Hp Hk Hb Hw Hl]. destruct (sy_loop s); intros [= <-].
    split; try done. apply reconcile_quiet.
  - destruct Hinv as [Hp Hk Hb Hw Hl].
    destruct (sy_loop s) as [?|why|X e k]; [done| |].
    + by intros [= <-].
    + destruct (answer_loop _ _ _ _ _) as [x [w' p']] eqn:Ha. intros [= <-].
      destruct Hl as [He Hl].
      destruct (loop_step_inv _ _ _ _ _ _ _ _ _ Ha He Hp Hb Hw) as (-> & Hx & Hp' & Hw').
      split; cbn; try done. by apply Hl.
Qed.

Lemma reachable_inv s : reachable s -> sys_inv s.
Proof.
  apply rtc_invariant; [apply sys_inv_init|]. intros s1 s2 Hinv [c Hc]. by eapply step_inv.
Qed.

(** C1: The running controller is safe: in every reachable state, however
    the loop, the operations and the writers of the desired state interleave
    and whatever they are answered, there is at most one goroutine per
    operation name, the goroutine map marks as pending exactly the names that
    have one, both states of the world store every snapshot under its own
    name, and every snapshot of the actual state is bound to a data object. *)
Theorem reachable_safe s :
  reachable s ->
  NoDup (goroutines (sy_threads s)).*1 /\
  (forall n, n ∈ (goroutines (sy_threads s)).*1 <->
             IsOperationPending n (pool_map (sy_threads s)) = true) /\
  worlds_keyed (sy_worlds s) /\ asw_bound (sy_worlds s).
Proof. by intros [[]]%reachable_inv. Qed.

(** C13: The reconciler's repair is dead code: in every reachable state the
    loop's next call, if it makes one, reads a state of the world or starts an
    operation; it never reaches the update of a snapshot whose actual entry
    has no data object name, which would call the API server. *)
Theorem reconciler_never_repairs s X (e : LoopE PluginE X) k :
  reachable s -> sy_loop s = Vis e k -> loop_quiet X e.
Proof. intros Hs%reachable_inv Hl. destruct Hs as [_ _ _ _ Hq]. rewrite Hl in Hq. apply Hq. Qed.
End system.

(** * A run that ends in a crash *)

#[local] Instance sorted : MapRange := map_range_sorted.

(** The loop makes [n] calls; the goroutine [i] makes [n] calls. *)
Definition loop_steps (n : nat) : list choice := repeat (LoopStep accept 0%Z) n.
Definition work_steps (i n : nat) : list choice := repeat (WorkStep i accept 0%Z) n.

(** A bound snapshot becomes desired and is created; it is deleted, and the
    next round starts the deletion; it becomes desired again under the same
    name; the next round finds it in the actual state, and before it reads it
    the deletion removes it. *)
Definition crash_run : list choice :=
  ([Desire (example_snapshot "a" "data"); StartRound] ++ loop_steps 4 ++ work_steps 0 3
   ++ [Undesire "ns/a"; StartRound] ++ loop_steps 4
   ++ [Desire (example_snapshot "a" "data"); StartRound] ++ loop_steps 4
   ++ work_steps 0 6 ++ loop_steps 2)%list.

(** C12: The controller can crash although every call it makes succeeds: the
    reconciler tests for a snapshot in the actual state and then reads it
    without the lock held in between, so a deletion can take it away and the
    read is a nil pointer. *)
Theorem reconciler_crash_reachable :
  exists s, reachable ["hostPath"] s /\ sy_crashed s = true /\
            steps ["hostPath"] crash_run sys_init = Some s.
Proof.
  destruct (steps ["hostPath"] crash_run sys_init) as [s|] eqn:Hs.
  - exists s. split; [by eapply steps_rtc|]. split; [|done].
    apply (f_equal (fmap sy_crashed)) in Hs. vm_compute in Hs. by injection Hs.
  - exfalso. apply (f_equal (fmap sy_crashed)) in Hs. vm_compute in Hs. discriminate.
Qed.

Lemma reachable_safe_witness :
  exists s, steps ["hostPath"] (take 14 crash_run) sys_init = Some s /\
            NoDup (goroutines (sy_threads s)).*1 /\
            (goroutines (sy_threads s)).*1 = ["deletens/aclaim"].
Proof.
  destruct (steps ["hostPath"] (take 14 crash_run) sys_init) as [s|] eqn:Hs.
  - exists s. split; [reflexivity|].
    split; [exact (proj1 (reachable_safe _ _ (steps_rtc _ _ _ _ Hs)))|].
    apply (f_equal (fmap (fun s => (goroutines (sy_threads s)).*1))) in Hs.
    vm_compute in Hs. by injection Hs.
  - exfalso. apply (f_equal (fmap sy_crashed)) in Hs. vm_compute in Hs. discriminate.
Defined.

Lemma reconciler_never_repairs_witness :
  loop_quiet _ (CallCtl (CallWorld AswGetSnapshots) : LoopE PluginE _).
Proof.
  eapply (reconciler_never_repairs ["hostPath"]
            (set_loop reconcile sys_init)).
  - apply (steps_rtc _ [StartRound]). reflexivity.
  - reflexivity.
Defined.
