(* ===== verification/Liveness.v ===== *)
(** Progress of the running controller: in a fair infinite execution of
    [System] every operation that was started ends, so its name becomes free
    for the next round of the reconciler. *)

From S2P Require Import Prelude GoStrings Types Cache GoRoutineMap Api Plugin Snapshotter Reconciler Examples System.
From Stdlib Require Import Lia.

#[local] Open Scope string_scope.

Section liveness.
Context `{MapRange} (names : list string).

(** There is a goroutine for the operation [name]. *)
Definition running (name : string) (s : sys) : Prop := name ∈ (goroutines (sy_threads s)).*1.

#[export] Instance running_dec name s : Decision (running name s).
Proof. unfold running. apply _. Defined.

(** The choice [c] lets the goroutine of [name] make its next move. *)
Definition works_on (name : string) (c : choice) (s : sys) : Prop :=
  match c with
  | WorkStep i _ _ => fst <$> goroutines (sy_threads s) !! i = Some name
  | _ => False
  end.

(** An infinite execution: a state and a choice for every instant.  It never
    reaches the crash of the reconciler, after which no step is possible. *)
Record execution (ex : nat -> sys) (cs : nat -> choice) : Prop := {
  ex_starts : ex 0 = sys_init;
  ex_steps n : step names (cs n) (ex n) = Some (ex (S n));
}.

(** The scheduler is fair to the goroutines: a goroutine that runs is gone or
    makes a move at some later instant. *)
Definition fair (ex : nat -> sys) (cs : nat -> choice) : Prop :=
  forall n name, running name (ex n) ->
    exists m, n <= m /\ (~ running name (ex m) \/ works_on name (cs m) (ex m)).

Lemma execution_reachable ex cs n : execution ex cs -> reachable names (ex n).
Proof.
  intros [H0 Hs]. induction n as [|n IH]; [rewrite H0; constructor|].
  eapply rtc_r; [exact IH|]. by exists (cs n).
Qed.

Lemma elem_of_delete_other {A} (l : list A) i j x :
  l !! j = Some x -> j <> i -> x ∈ delete i l.
Proof.
  intros Hj Hne. apply list_elem_of_lookup. destruct (decide (j < i)).
  - exists j. by rewrite list_lookup_delete_lt.
  - exists (j - 1). rewrite list_lookup_delete_ge by lia.
    by replace (S (j - 1)) with j by lia.
Qed.

(** A goroutine that ends takes its name along. *)
Lemma name_gone {A} (l : list (string * A)) i name p :
  NoDup l.*1 -> l !! i = Some (name, p) -> name ∉ (delete i l).*1.
Proof.
  intros Hnd Hi. rewrite delete_take_drop. rewrite <- (take_drop_middle _ _ _ Hi) in Hnd.
  rewrite fmap_app, fmap_cons in Hnd. rewrite fmap_app.
  rewrite <- Permutation_middle in Hnd. by apply NoDup_cons in Hnd as [? _].
Qed.

(** The loop only adds goroutines. *)
Lemma loop_keeps_goroutines ans now X (e : LoopE PluginE X) w q x w' q' g :
  answer_loop names ans now X e (w, q) = (x, (w', q')) ->
  g ∈ goroutines q -> g ∈ goroutines q'.
Proof.
  intros Ha Hg. destruct e as [e|e]; cbn in Ha.
  - destruct (answer_ctl ans X e w). by simplify_eq.
  - destruct e as [opname f]. destruct (Run _ _ _) as [[err|] grm']; simplify_eq; cbn;
      [done|by right].
Qed.

(** A step leaves a goroutine as it is, or it is the goroutine's own. *)
Lemma step_other c s s' name p :
  step names c s = Some s' -> (name, p) ∈ goroutines (sy_threads s) ->
  works_on name c s \/ (name, p) ∈ goroutines (sy_threads s').
Proof.
  intros Hs Hin. unfold step in Hs. destruct (sy_crashed s); [done|].
  destruct c as [v|n| |ans now|i ans now]; simpl in Hs.
  - injection Hs as <-. by right.
  - injection Hs as <-. by right.
  - destruct (sy_loop s); [|done..]. injection Hs as <-. by right.
  - right. destruct (sy_loop s) as [?|why|X e k]; [done|by injection Hs as <-|].
    destruct (answer_loop _ _ _ _ _ _) as [x [w' p']] eqn:Ha. injection Hs as <-. cbn.
    by eapply loop_keeps_goroutines.
  - unfold work_step in Hs. unfold works_on. apply list_elem_of_lookup in Hin as [j Hj].
    destruct (goroutines (sy_threads s) !! i) as [[n q]|] eqn:Hi; [|done]. cbn.
    destruct (decide (j = i)) as [->|Hne]; [left; pose proof (eq_trans (eq_sym Hi) Hj) as E; by injection E as -> _|]. right.
    destruct q as [r|why|X e k].
    + injection Hs as <-. cbn. by eapply elem_of_delete_other.
    + injection Hs as <-. cbn. by eapply elem_of_delete_other.
    + destruct (answer_ctl _ _ _ _) as [x w']. injection Hs as <-. cbn.
      apply list_elem_of_lookup. exists j. by rewrite list_lookup_insert_ne.
Qed.

(** The goroutine's own step is its next call, or its end. *)
Lemma step_own c s s' name p :
  step names c s = Some s' -> (name, p) ∈ goroutines (sy_threads s) ->
  NoDup (goroutines (sy_threads s)).*1 -> works_on name c s ->
  match p with
  | Vis e k => exists x, (name, k x) ∈ goroutines (sy_threads s')
  | _ => ~ running name s'
  end.
Proof.
  intros Hs Hin Hnd Hw. unfold step in Hs. destruct (sy_crashed s); [done|].
  destruct c as [v|n| |ans now|i ans now]; simpl in Hw; try done.
  destruct (goroutines (sy_threads s) !! i) as [[n q]|] eqn:Hi; [|done]. injection Hw as ->.
  assert (p = q) as <-.
  { apply list_elem_of_lookup in Hin as [j Hj].
    assert (i = j) as <-; [|congruence].
    eapply (NoDup_lookup _ _ _ name Hnd); by rewrite list_lookup_fmap, ?Hi, ?Hj. }
  simpl in Hs. unfold work_step in Hs. 
  match type of Hs with
  | context [match ?l with _ => _ end] => change l with (goroutines (sy_threads s) !! i) in Hs
  end.
  rewrite Hi in Hs. destruct p as [r|why|X e k].
  - injection Hs as <-. by eapply name_gone.
  - injection Hs as <-. by eapply name_gone.
  - destruct (answer_ctl _ _ _ _) as [x w']. injection Hs as <-. exists x. cbn.
    apply list_elem_of_lookup. exists i. apply list_lookup_insert_eq. by apply lookup_lt_Some in Hi.
Qed.

Section executions.
Context (ex : nat -> sys) (cs : nat -> choice) (Hex : execution ex cs).

(** Until the goroutine's own next step it is as it was. *)
Lemma stays_until_own n d name p :
  (name, p) ∈ goroutines (sy_threads (ex n)) ->
  (name, p) ∈ goroutines (sy_threads (ex (n + d))) \/
  exists m, n <= m /\ works_on name (cs m) (ex m) /\ (name, p) ∈ goroutines (sy_threads (ex m)).
Proof.
  intros Hp. induction d as [|d [IH|IH]]; [left; by rewrite Nat.add_0_r| |by right].
  rewrite Nat.add_succ_r.
  destruct (step_other _ _ _ _ _ (ex_steps _ _ Hex (n + d)) IH) as [Hw|Hin]; [right|by left].
  exists (n + d). split; [lia|done].
Qed.

(** A fair scheduler reaches that step, unless the goroutine is gone. *)
Lemma own_step_comes n name p :
  fair ex cs -> (name, p) ∈ goroutines (sy_threads (ex n)) ->
  exists m, n <= m /\
    (~ running name (ex m) \/
     works_on name (cs m) (ex m) /\ (name, p) ∈ goroutines (sy_threads (ex m))).
Proof.
  intros Hfair Hp. destruct (Hfair n name) as (m & Hnm & Hm).
  { apply list_elem_of_fmap. by exists (name, p). }
  destruct (stays_until_own n (m - n) name p Hp) as [Hin|(m' & ? & ? & ?)].
  - replace (n + (m - n)) with m in Hin by lia. exists m. naive_solver.
  - exists m'. split; [done|right; by split].
Qed.

Lemma goroutine_ends name p : fair ex cs -> forall n,
  (name, p) ∈ goroutines (sy_threads (ex n)) -> exists m, n <= m /\ ~ running name (ex m).
Proof.
  intros Hfair. induction p as [r|why|X e k IH]; intros n Hp;
    destruct (own_step_comes n name _ Hfair Hp) as (m & Hnm & [Hm|[Hw Hin]]);
    try (by exists m);
    pose proof (reachable_inv _ _ (execution_reachable _ _ m Hex)) as [[Hnd _ _ _] _ _ _ _];
    pose proof (step_own _ _ _ _ _ (ex_steps _ _ Hex m) Hin Hnd Hw) as Hown; cbn in Hown.
  - exists (S m). split; [lia|done].
  - exists (S m). split; [lia|done].
  - destruct Hown as [x Hx]. destruct (IH x (S m) Hx) as (m2 & ? & ?).
    exists m2. split; [lia|done].
Qed.
End executions.

(** C25: Operations end.  In every infinite execution of the controller whose
    scheduler is fair to the goroutines, whatever the API server, the plugins
    and the clock answer: at any instant and for any operation name, there is
    a later instant at which no goroutine runs under the name and the
    goroutine map no longer marks it as pending, so that the next round of
    the reconciler may start it again once its delay is over. *)
Theorem operations_end ex cs n name :
  execution ex cs -> fair ex cs ->
  exists m, n <= m /\ ~ running name (ex m) /\
            IsOperationPending name (pool_map (sy_threads (ex m))) = false.
Proof.
  intros Hex Hfair.
  assert (exists m, n <= m /\ ~ running name (ex m)) as (m & Hnm & Hm).
  { destruct (decide (running name (ex n))) as [Hr|Hr]; [|by exists n].
    apply list_elem_of_fmap in Hr as ([n' p] & -> & Hin). by eapply goroutine_ends. }
  exists m. split_and!; [done|done|].
  pose proof (reachable_inv _ _ (execution_reachable _ _ m Hex)) as [[_ Hpend _ _] _ _ _ _].
  apply not_true_iff_false. by rewrite <- Hpend.
Qed.
End liveness.

(** * A fair execution *)

#[local] Instance sorted : MapRange := map_range_sorted.

(** A snapshot becomes desired, the reconciler starts its creation, the
    creation runs to its end; then somebody keeps removing a snapshot that
    does not exist. *)
Definition creation_run : list choice :=
  ([Desire (example_snapshot "a" "data"); StartRound] ++ loop_steps 4 ++ work_steps 0 3)%list.

Definition creation_choice (n : nat) : choice := default (Undesire "") (creation_run !! n).

Fixpoint creation_execution (n : nat) : sys :=
  match n with
  | O => sys_init
  | S n' => default (creation_execution n')
              (step ["hostPath"] (creation_choice n') (creation_execution n'))
  end.

Definition possible (n : nat) : bool :=
  match step ["hostPath"] (creation_choice n) (creation_execution n) with
  | Some _ => true
  | None => false
  end.

Lemma step_idle n s :
  sy_crashed s = false ->
  exists w, step ["hostPath"] (Undesire n) s = Some (set_worlds w s).
Proof. intros Hc. unfold step. rewrite Hc. by eexists. Qed.

Lemma creation_execution_S n :
  creation_execution (S n) =
  default (creation_execution n) (step ["hostPath"] (creation_choice n) (creation_execution n)).
Proof. reflexivity. Qed.

(** Once the goroutines are gone and nothing but removals is chosen, nothing
    happens. *)
Lemma creation_rests N d :
  (forall d, creation_choice (N + d) = Undesire "") ->
  sy_crashed (creation_execution N) = false ->
  goroutines (sy_threads (creation_execution N)) = [] ->
  sy_crashed (creation_execution (N + d)) = false /\
  goroutines (sy_threads (creation_execution (N + d))) = [].
Proof.
  intros Hidle Hc0 Hg0. induction d as [|d [Hc Hg]]; [by rewrite Nat.add_0_r|].
  rewrite Nat.add_succ_r, creation_execution_S, Hidle.
  by destruct (step_idle "" _ Hc) as [w ->].
Qed.

Lemma creation_steps N n :
  (forall d, creation_choice (N + d) = Undesire "") ->
  sy_crashed (creation_execution N) = false ->
  goroutines (sy_threads (creation_execution N)) = [] ->
  (forall k, k < N -> possible k = true) ->
  step ["hostPath"] (creation_choice n) (creation_execution n) = Some (creation_execution (S n)).
Proof.
  intros Hidle Hc0 Hg0 Hpos. rewrite creation_execution_S. destruct (decide (n < N)) as [Hn|Hn].
  - specialize (Hpos n Hn). unfold possible in Hpos. by destruct (step _ _ _).
  - destruct (creation_rests N (n - N) Hidle Hc0 Hg0) as [Hc _].
    specialize (Hidle (n - N)). replace (N + (n - N)) with n in * by lia.
    rewrite Hidle. by destruct (step_idle "" _ Hc) as [w ->].
Qed.

Lemma creation_run_ends :
  (forall d, creation_choice (9 + d) = Undesire "") /\
  sy_crashed (creation_execution 9) = false /\
  goroutines (sy_threads (creation_execution 9)) = [] /\
  (forall k, k < 9 -> possible k = true).
Proof.
  split_and!; [by intros|vm_compute; reflexivity|vm_compute; reflexivity|].
  intros k Hk. do 9 (destruct k as [|k]; [vm_compute; reflexivity|]). lia.
Qed.

Lemma creation_is_execution : execution ["hostPath"] creation_execution creation_choice.
Proof.
  split; [exact eq_refl|]. intros n. destruct creation_run_ends as (? & ? & ? & ?).
  by apply (creation_steps 9).
Qed.

Lemma creation_fair : fair creation_execution creation_choice.
Proof.
  intros n name _. exists (9 + n). split; [lia|]. left.
  destruct creation_run_ends as (Hidle & Hc & Hg & _).
  destruct (creation_rests 9 n Hidle Hc Hg) as [_ Hr].
  unfold running. rewrite Hr. exact (not_elem_of_nil name).
Qed.

Lemma operations_end_witness :
  running "createns/aclaim" (creation_execution 6) /\
  exists m, 6 <= m /\ ~ running "createns/aclaim" (creation_execution m) /\
    IsOperationPending "createns/aclaim" (pool_map (sy_threads (creation_execution m))) = false.
Proof.
  split; [vm_compute; left|].
  apply (operations_end ["hostPath"] creation_execution creation_choice 6 "createns/aclaim").
  - exact creation_is_execution.
  - exact creation_fair.
Defined.
